(** * Codematic IDE: project tree, history and mutation dispatcher

    A shallow embedding of the tree store ([lib/project-utils]), of the
    undo/redo log and of the mutation handlers of [components/IDEView.tsx],
    with the properties the specification states about them.

    JavaScript strings are modelled as [string] (sequences of 8-bit
    characters); arrays as lists; [undefined] as [None]. *)

From stdpp Require Import base list strings gmap.
From Stdlib Require Import Ascii ZArith Lia DecimalString.

Local Open Scope string_scope.
Local Open Scope list_scope.
Local Set Warnings "-register-all".
Local Set Warnings "-clear-no-such-hyp".
Local Arguments String.append !_ _ : simpl nomatch.

(** ** String primitives used by the source *)

Module Str.

(** [s.split(sep)] for a one-character separator: every occurrence of
    the separator cuts, so the empty string gives one empty piece. *)
Fixpoint split (sep : ascii) (s : string) : list string :=
  match s with
  | "" => [""]
  | String c s' =>
      if Ascii.eqb c sep then "" :: split sep s'
      else match split sep s' with
           | [] => [String c ""]
           | w :: ws => String c w :: ws
           end
  end.

(** A string in a boolean position: only the empty string is falsy. *)
Definition truthy (s : string) : bool := negb (String.eqb s "").

(** [s.includes(c)] for a single character. *)
Fixpoint has_char (c : ascii) (s : string) : bool :=
  match s with
  | "" => false
  | String d s' => Ascii.eqb d c || has_char c s'
  end.

(** [s.lastIndexOf(c)], [None] standing for -1. *)
Fixpoint lastIndexOf (c : ascii) (s : string) : option nat :=
  match s with
  | "" => None
  | String d s' =>
      match lastIndexOf c s' with
      | Some i => Some (S i)
      | None => if Ascii.eqb d c then Some 0 else None
      end
  end.

(** [s.substring(0, s.lastIndexOf(c))]; a negative end is clamped to 0. *)
Definition beforeLast (c : ascii) (s : string) : string :=
  match lastIndexOf c s with
  | Some i => String.substring 0 i s
  | None => ""
  end.

(** [arr.includes(s)] on an array of strings. *)
Definition includes (arr : list string) (s : string) : bool :=
  existsb (String.eqb s) arr.

(** [arr.join('')]. *)
Definition concat (l : list string) : string :=
  fold_right String.append "" l.

End Str.

(** ** Generic array helpers *)

(** [arr.findIndex(f)], [None] standing for -1. *)
Fixpoint findIndex {A} (f : A -> bool) (l : list A) : option nat :=
  match l with
  | [] => None
  | x :: l' => if f x then Some 0 else option_map S (findIndex f l')
  end.

(** First non-null result of [f] over the array, in order: the shape of a
    [for ... of] loop that returns as soon as a lookup succeeds. *)
Definition firstSome {A B} (f : A -> option B) : list A -> option B :=
  fix go (l : list A) : option B :=
    match l with
    | [] => None
    | x :: l' => match f x with Some r => Some r | None => go l' end
    end.

(** ** The data model ([types.ts]) *)

Inductive NodeType := File | Folder.

Definition NodeType_eqb (a b : NodeType) : bool :=
  match a, b with
  | File, File | Folder, Folder => true
  | _, _ => false
  end.

(** [FileNode]: [children] and [content] are optional whatever the type. *)
Inductive FileNode := mkFileNode {
  name : string;
  type : NodeType;
  path : string;
  children : option (list FileNode);
  content : option string
}.

Definition isFolder (n : FileNode) : bool := NodeType_eqb (type n) Folder.
Definition isFile (n : FileNode) : bool := NodeType_eqb (type n) File.

Definition setContent (c : string) (n : FileNode) : FileNode :=
  mkFileNode (name n) (type n) (path n) (children n) (Some c).

Definition setChildren (cs : list FileNode) (n : FileNode) : FileNode :=
  mkFileNode (name n) (type n) (path n) (Some cs) (content n).

(** [node.children] read after [if (!folder.children) folder.children = []]. *)
Definition childrenOrEmpty (n : FileNode) : list FileNode :=
  match children n with Some cs => cs | None => [] end.

(** ** The tree store ([lib/project-utils])

    The functions as functions of the tree their argument stands for.
    [HeapFacts.upsert_refines], [HeapFacts.delete_refines] and
    [HeapFacts.addNode_refines] show that they give what the functions on
    objects, in [Heap] below, compute. *)

Module Tree.

(** The body of the loop of [findFileByPath] for one node. *)
Fixpoint findNode (p : string) (node : FileNode) : option FileNode :=
  if String.eqb (path node) p then Some node
  else
    match type node, children node with
    | Folder, Some cs =>
        if String.prefix (path node +:+ "/") p
        then firstSome (findNode p) cs
        else None
    | _, _ => None
    end.

Definition findFileByPath (nodes : list FileNode) (p : string) : option FileNode :=
  firstSome (findNode p) nodes.

(** [path.split('/').filter(p => p)] *)
Definition pathSegments (p : string) : list string :=
  List.filter Str.truthy (Str.split "/" p).

(** [arr.pop()]: the array without its last element, and that element. *)
Fixpoint pop {A} (l : list A) : option (list A * A) :=
  match l with
  | [] => None
  | [x] => Some ([], x)
  | x :: l' => match pop l' with
               | Some (init, z) => Some (x :: init, z)
               | None => None
               end
  end.

(** The walk of [addOrUpdateFileByPath] over the copied structure: the
    [for (const part of pathParts)] loop, then the write of the file. *)
Fixpoint upsertWalk (pathParts : list string) (fileName newContent : string)
    (currentPath : string) (currentChildren : list FileNode) : list FileNode :=
  match pathParts with
  | [] =>
      let fullPath := currentPath +:+ "/" +:+ fileName in
      match findIndex (fun node => String.eqb (name node) fileName) currentChildren with
      | Some fileIndex => alter (setContent newContent) fileIndex currentChildren
      | None =>
          currentChildren ++ [mkFileNode fileName File fullPath None (Some newContent)]
      end
  | part :: rest =>
      let currentPath' := currentPath +:+ "/" +:+ part in
      match findIndex (fun node => String.eqb (name node) part && isFolder node)
              currentChildren with
      | Some i =>
          alter (fun folder =>
                   setChildren (upsertWalk rest fileName newContent currentPath'
                                  (childrenOrEmpty folder)) folder)
                i currentChildren
      | None =>
          currentChildren ++
            [mkFileNode part Folder currentPath'
               (Some (upsertWalk rest fileName newContent currentPath' [])) None]
      end
  end.

Definition addOrUpdateFileByPath (nodes : list FileNode) (p newContent : string)
  : list FileNode :=
  match pop (pathSegments p) with
  | None => nodes
  | Some (pathParts, fileName) => upsertWalk pathParts fileName newContent "" nodes
  end.

(** [deleteNodeByPath]: [filter] on the path, then [map] into the folders
    whose path is a prefix. The filter and the map are fused in one loop. *)
Fixpoint deleteIn (p : string) (node : FileNode) : FileNode :=
  match type node, children node with
  | Folder, Some cs =>
      if String.prefix (path node +:+ "/") p
      then setChildren
             ((fix go (l : list FileNode) : list FileNode :=
                 match l with
                 | [] => []
                 | c :: l' =>
                     if negb (String.eqb (path c) p) then deleteIn p c :: go l'
                     else go l'
                 end) cs) node
      else node
  | _, _ => node
  end.

Definition deleteNodeByPath (nodes : list FileNode) (p : string) : list FileNode :=
  map (deleteIn p) (List.filter (fun node => negb (String.eqb (path node) p)) nodes).

(** The node object returned by [findFileByPath] is mutated in place by the
    caller ([parentNode.children.push(...)]): on a tree value the write
    lands on the node the search reaches first. *)
Definition firstUpdate {A} (f : A -> option A) : list A -> option (list A) :=
  fix go (l : list A) : option (list A) :=
    match l with
    | [] => None
    | x :: l' =>
        match f x with
        | Some x' => Some (x' :: l')
        | None => option_map (cons x) (go l')
        end
    end.

Fixpoint updateFound (p : string) (g : FileNode -> FileNode) (node : FileNode)
  : option FileNode :=
  if String.eqb (path node) p then Some (g node)
  else
    match type node, children node with
    | Folder, Some cs =>
        if String.prefix (path node +:+ "/") p
        then option_map (fun cs' => setChildren cs' node)
               (firstUpdate (updateFound p g) cs)
        else None
    | _, _ => None
    end.

(** The two [throw new Error(...)] of [addNodeToTree]. *)
Inductive TreeError :=
| AlreadyExists (type : NodeType) (nodeName : string)
| ParentNotFound (parentPath : string).

(** The object literal pushed by [addNodeToTree]. *)
Definition newNode (nodeName : string) (ty : NodeType) (newNodePath : string) : FileNode :=
  mkFileNode nodeName ty newNodePath
    (if NodeType_eqb ty Folder then Some [] else None)
    (if NodeType_eqb ty File then Some "" else None).

Definition pushChild (child parentNode : FileNode) : FileNode :=
  setChildren (childrenOrEmpty parentNode ++ [child]) parentNode.

Definition newNodePathOf (parentPath nodeName : string) : string :=
  if String.eqb parentPath "/" then "/" +:+ nodeName
  else parentPath +:+ "/" +:+ nodeName.

Definition addNodeToTree (nodes : list FileNode) (parentPath nodeName : string)
    (ty : NodeType) : TreeError + list FileNode :=
  let newNodePath := newNodePathOf parentPath nodeName in
  match findFileByPath nodes newNodePath with
  | Some _ => inl (AlreadyExists ty nodeName)
  | None =>
      if String.eqb parentPath "/"
      then inr (nodes ++ [newNode nodeName ty newNodePath])
      else
        match findFileByPath nodes parentPath with
        | Some parentNode =>
            if isFolder parentNode
            then
              match firstUpdate
                      (updateFound parentPath
                         (pushChild (newNode nodeName ty newNodePath))) nodes with
              | Some nodes' => inr nodes'
              | None => inl (ParentNotFound parentPath)
              end
            else inl (ParentNotFound parentPath)
        | None => inl (ParentNotFound parentPath)
        end
  end.

(** [addFileToTree] *)
Definition addFileToTree (nodes : list FileNode) (parentPath fileName fileContent : string)
  : list FileNode :=
  addOrUpdateFileByPath nodes (newNodePathOf parentPath fileName) fileContent.

(** [findMentionedFiles]: the file nodes, in pre-order, whose path or name
    occurs in the prompt. *)
Fixpoint collectPaths (node : FileNode) : list FileNode :=
  (if isFile node then [node] else []) ++
  match children node with
  | Some cs => flat_map collectPaths cs
  | None => []
  end.

End Tree.

(** ** JavaScript array reads with integer indices *)

Module JS.

(** [arr.slice(0, e)]: a negative end counts from the end of the array. *)
Definition slice0 {A} (l : list A) (e : Z) : list A :=
  let len := Z.of_nat (length l) in
  let k := if (e <? 0)%Z then Z.max (len + e) 0 else Z.min e len in
  firstn (Z.to_nat k) l.

(** [arr[i]]: [undefined] outside of the array. *)
Definition index {A} (l : list A) (i : Z) : option A :=
  if (i <? 0)%Z then None else l !! Z.to_nat i.

(** [arr.length] *)
Definition len {A} (l : list A) : Z := Z.of_nat (length l).

(** The double quote, for template strings that print one. *)
Definition dq : string := String "034"%char "".

(** [\s] on code units below 256. *)
Definition isSpace (c : ascii) : bool :=
  let n := nat_of_ascii c in
  ((9 <=? n)%nat && (n <=? 13)%nat) || (n =? 32)%nat || (n =? 160)%nat.

(** [s.split(/(\s+)/)]: the words and, between them, the runs of white
    space that separated them. [inSpace] tells which kind of piece [cur] is. *)
Fixpoint splitKeepSpaces (inSpace : bool) (cur s : string) : list string :=
  match s with
  | "" => if inSpace then [cur; ""] else [cur]
  | String c s' =>
      if Bool.eqb (isSpace c) inSpace
      then splitKeepSpaces inSpace (cur +:+ String c "") s'
      else cur :: splitKeepSpaces (negb inSpace) (String c "") s'
  end.

Definition splitWords (s : string) : list string := splitKeepSpaces false "" s.

(** [hay.includes(needle)] *)
Fixpoint includesStr (needle hay : string) : bool :=
  String.prefix needle hay ||
  match hay with
  | "" => false
  | String _ hay' => includesStr needle hay'
  end.

(** [arr.join(sep)] *)
Fixpoint join (sep : string) (l : list string) : string :=
  match l with
  | [] => ""
  | [x] => x
  | x :: l' => x +:+ sep +:+ join sep l'
  end.

End JS.

(** ** The state of [IDEView] *)

Inductive ToastType := success | error | info | warning.

Record ToastMessage := mkToast { text : string; toastType : ToastType }.

(** Calls made on [webContainerRef.current.fs]. *)
Inductive FsCall :=
| FsRm (p : string)
| FsMkdir (p : string)
| FsWriteFile (p c : string).

(** [AiFile] and [AiResponse] of [lib/ai.ts]. *)
Record AiFile := mkAiFile { filePath : string; fileContent : string }.

Record AiResponse := mkAiResponse {
  summary : string;
  filesToUpdate : option (list AiFile);
  filesToDelete : option (list AiFile)
}.

Record Attachment := mkAttachment {
  attName : string; attMimeType : string; attContent : string
}.

(** The [useState] cells the handlers read and write, the toasts of
    [ToastContext], and the sandboxed runtime: whether
    [webContainerRef.current] is set and the calls issued on its file
    system, oldest first. *)
Record IDEState := mkIDEState {
  projectStructure : option (list FileNode);
  history : list (list FileNode);
  historyIndex : Z;
  openFiles : list FileNode;
  activeFilePath : option string;
  selectedNodePaths : list string;
  activeMatch : option (string * nat);
  hasUnsavedChanges : bool;
  isLoadingAI : bool;
  aiMessage : string;
  streamingFileOverrides : list (string * string);
  nodesToDelete : option (list FileNode);
  toasts : list ToastMessage;
  webContainer : bool;
  fsCalls : list FsCall
}.

Definition setProjectStructure (v : option (list FileNode)) (s : IDEState) : IDEState :=
  mkIDEState v (history s) (historyIndex s) (openFiles s) (activeFilePath s) (selectedNodePaths s) (activeMatch s) (hasUnsavedChanges s) (isLoadingAI s) (aiMessage s) (streamingFileOverrides s) (nodesToDelete s) (toasts s) (webContainer s) (fsCalls s).

Definition setHistory (v : list (list FileNode)) (s : IDEState) : IDEState :=
  mkIDEState (projectStructure s) v (historyIndex s) (openFiles s) (activeFilePath s) (selectedNodePaths s) (activeMatch s) (hasUnsavedChanges s) (isLoadingAI s) (aiMessage s) (streamingFileOverrides s) (nodesToDelete s) (toasts s) (webContainer s) (fsCalls s).

Definition setHistoryIndex (v : Z) (s : IDEState) : IDEState :=
  mkIDEState (projectStructure s) (history s) v (openFiles s) (activeFilePath s) (selectedNodePaths s) (activeMatch s) (hasUnsavedChanges s) (isLoadingAI s) (aiMessage s) (streamingFileOverrides s) (nodesToDelete s) (toasts s) (webContainer s) (fsCalls s).

Definition setOpenFiles (v : list FileNode) (s : IDEState) : IDEState :=
  mkIDEState (projectStructure s) (history s) (historyIndex s) v (activeFilePath s) (selectedNodePaths s) (activeMatch s) (hasUnsavedChanges s) (isLoadingAI s) (aiMessage s) (streamingFileOverrides s) (nodesToDelete s) (toasts s) (webContainer s) (fsCalls s).

Definition setActiveFilePath (v : option string) (s : IDEState) : IDEState :=
  mkIDEState (projectStructure s) (history s) (historyIndex s) (openFiles s) v (selectedNodePaths s) (activeMatch s) (hasUnsavedChanges s) (isLoadingAI s) (aiMessage s) (streamingFileOverrides s) (nodesToDelete s) (toasts s) (webContainer s) (fsCalls s).

Definition setSelectedNodePaths (v : list string) (s : IDEState) : IDEState :=
  mkIDEState (projectStructure s) (history s) (historyIndex s) (openFiles s) (activeFilePath s) v (activeMatch s) (hasUnsavedChanges s) (isLoadingAI s) (aiMessage s) (streamingFileOverrides s) (nodesToDelete s) (toasts s) (webContainer s) (fsCalls s).

Definition setActiveMatch (v : option (string * nat)) (s : IDEState) : IDEState :=
  mkIDEState (projectStructure s) (history s) (historyIndex s) (openFiles s) (activeFilePath s) (selectedNodePaths s) v (hasUnsavedChanges s) (isLoadingAI s) (aiMessage s) (streamingFileOverrides s) (nodesToDelete s) (toasts s) (webContainer s) (fsCalls s).

Definition setHasUnsavedChanges (v : bool) (s : IDEState) : IDEState :=
  mkIDEState (projectStructure s) (history s) (historyIndex s) (openFiles s) (activeFilePath s) (selectedNodePaths s) (activeMatch s) v (isLoadingAI s) (aiMessage s) (streamingFileOverrides s) (nodesToDelete s) (toasts s) (webContainer s) (fsCalls s).

Definition setIsLoadingAI (v : bool) (s : IDEState) : IDEState :=
  mkIDEState (projectStructure s) (history s) (historyIndex s) (openFiles s) (activeFilePath s) (selectedNodePaths s) (activeMatch s) (hasUnsavedChanges s) v (aiMessage s) (streamingFileOverrides s) (nodesToDelete s) (toasts s) (webContainer s) (fsCalls s).

Definition setAiMessage (v : string) (s : IDEState) : IDEState :=
  mkIDEState (projectStructure s) (history s) (historyIndex s) (openFiles s) (activeFilePath s) (selectedNodePaths s) (activeMatch s) (hasUnsavedChanges s) (isLoadingAI s) v (streamingFileOverrides s) (nodesToDelete s) (toasts s) (webContainer s) (fsCalls s).

Definition setStreamingFileOverrides (v : list (string * string)) (s : IDEState) : IDEState :=
  mkIDEState (projectStructure s) (history s) (historyIndex s) (openFiles s) (activeFilePath s) (selectedNodePaths s) (activeMatch s) (hasUnsavedChanges s) (isLoadingAI s) (aiMessage s) v (nodesToDelete s) (toasts s) (webContainer s) (fsCalls s).

Definition setNodesToDelete (v : option (list FileNode)) (s : IDEState) : IDEState :=
  mkIDEState (projectStructure s) (history s) (historyIndex s) (openFiles s) (activeFilePath s) (selectedNodePaths s) (activeMatch s) (hasUnsavedChanges s) (isLoadingAI s) (aiMessage s) (streamingFileOverrides s) v (toasts s) (webContainer s) (fsCalls s).

Definition setToasts (v : list ToastMessage) (s : IDEState) : IDEState :=
  mkIDEState (projectStructure s) (history s) (historyIndex s) (openFiles s) (activeFilePath s) (selectedNodePaths s) (activeMatch s) (hasUnsavedChanges s) (isLoadingAI s) (aiMessage s) (streamingFileOverrides s) (nodesToDelete s) v (webContainer s) (fsCalls s).

Definition setWebContainer (v : bool) (s : IDEState) : IDEState :=
  mkIDEState (projectStructure s) (history s) (historyIndex s) (openFiles s) (activeFilePath s) (selectedNodePaths s) (activeMatch s) (hasUnsavedChanges s) (isLoadingAI s) (aiMessage s) (streamingFileOverrides s) (nodesToDelete s) (toasts s) v (fsCalls s).

Definition setFsCalls (v : list FsCall) (s : IDEState) : IDEState :=
  mkIDEState (projectStructure s) (history s) (historyIndex s) (openFiles s) (activeFilePath s) (selectedNodePaths s) (activeMatch s) (hasUnsavedChanges s) (isLoadingAI s) (aiMessage s) (streamingFileOverrides s) (nodesToDelete s) (toasts s) (webContainer s) v.

Definition addToast (msg : string) (ty : ToastType) (s : IDEState) : IDEState :=
  setToasts (toasts s ++ [mkToast msg ty]) s.

(** ** The history log ([pushHistory], [handleUndo], [handleRedo])

    A handler closes over the state of the render that created it: what it
    reads is the state [cl] it was created in, what it writes goes to the
    next state. *)

Module History.

(** The initial values of the [useState] cells. *)
Definition initial (structure : list FileNode) : IDEState :=
  mkIDEState (Some structure) [structure] 0 [] None [] None false false
    "Hello! I'm your AI code assistant. What should we build or change today?"
    [] None [] false [].

Definition pushHistory (cl : IDEState) (newStructure : list FileNode)
    (s : IDEState) : IDEState :=
  let newHistory := JS.slice0 (history cl) (historyIndex cl + 1) ++ [newStructure] in
  setProjectStructure (Some newStructure)
    (setHistoryIndex (JS.len newHistory - 1)
       (setHistory newHistory s)).

Definition handleUndo (s : IDEState) : IDEState :=
  if (historyIndex s <=? 0)%Z then s
  else
    let newIndex := (historyIndex s - 1)%Z in
    setProjectStructure (JS.index (history s) newIndex)
      (setHistoryIndex newIndex s).

Definition handleRedo (s : IDEState) : IDEState :=
  if (historyIndex s >=? JS.len (history s) - 1)%Z then s
  else
    let newIndex := (historyIndex s - 1)%Z in
    setProjectStructure (JS.index (history s) newIndex)
      (setHistoryIndex newIndex s).

(** [push] as an event of its own: a mutation handler that pushes one tree. *)
Definition push (newStructure : list FileNode) (s : IDEState) : IDEState :=
  pushHistory s newStructure s.

Definition canUndo (s : IDEState) : bool := (0 <? historyIndex s)%Z.
Definition canRedo (s : IDEState) : bool :=
  (historyIndex s <? JS.len (history s) - 1)%Z.

(** The correspondence between the live tree and the log: the cursor is
    inside the log and the live tree is the snapshot under it. *)
Definition consistent (s : IDEState) : Prop :=
  (0 <= historyIndex s < JS.len (history s))%Z /\
  projectStructure s = JS.index (history s) (historyIndex s).

End History.

(** ** Handlers that may throw, or await a call that rejects

    [Act A] runs on the state being written and gives [None] when an
    exception escapes (a [TypeError] on [undefined], a rejected runtime
    call): the writes made until then stay. *)

Definition Act (A : Type) : Type := IDEState -> option A * IDEState.

Definition ret {A} (a : A) : Act A := fun s => (Some a, s).

Definition throw {A} : Act A := fun s => (None, s).

Definition bindA {A B} (m : Act A) (k : A -> Act B) : Act B :=
  fun s => match m s with
           | (Some a, s') => k a s'
           | (None, s') => (None, s')
           end.

Definition upd (f : IDEState -> IDEState) : Act unit := fun s => (Some tt, f s).

(** [try { ... } catch (e) { console.warn(...) }] *)
Definition tryCatch (m : Act unit) : Act unit :=
  fun s => (Some tt, snd (m s)).

(** A value that must not be [undefined] where it is used. *)
Definition defined {A} (o : option A) : Act A :=
  match o with Some a => ret a | None => throw end.

Declare Scope act_scope.
Delimit Scope act_scope with act.
Notation "'let*' x ':=' m 'in' k" := (bindA m (fun x => k))
  (at level 10, x name, m at level 100, k at level 200) : act_scope.
Notation "m ';;' k" := (bindA m (fun _ => k))
  (at level 100, k at level 200, right associativity) : act_scope.

(** [for (const x of xs) body] *)
Fixpoint forEach {A} (xs : list A) (body : A -> Act unit) : Act unit :=
  match xs with
  | [] => ret tt
  | x :: xs' => bindA (body x) (fun _ => forEach xs' body)
  end.

(** A [for ... of] loop that updates a local variable. *)
Fixpoint foldA {A B} (xs : list A) (body : B -> A -> Act B) (b : B) : Act B :=
  match xs with
  | [] => ret b
  | x :: xs' => bindA (body b x) (fun b' => foldA xs' body b')
  end.

Definition when (c : bool) (m : Act unit) : Act unit := if c then m else ret tt.

(** The state a handler leaves, whether it returned or threw. *)
Definition after {A} (m : Act A) (s : IDEState) : IDEState := snd (m s).

(** Whether the handler returned. *)
Definition returned {A} (m : Act A) (s : IDEState) : bool :=
  match fst (m s) with Some _ => true | None => false end.

(** ** The file explorer: what reaches the handlers *)

Module Explorer.

(** The context menu ([getContextMenuOptions]): the [disabled] flag of its
    Rename and Delete entries. *)
Definition isProtected (selectedNodePaths : list string) : bool :=
  existsb (fun p => Str.includes
                      ["/package.json"; "/public"; "/src"; "/index.html"; "/vite.config.ts"] p)
    selectedNodePaths.

Definition renameDisabled (selectedNodePaths : list string) : bool :=
  isProtected selectedNodePaths || (1 <? length selectedNodePaths)%nat.

Definition deleteDisabled (selectedNodePaths : list string) : bool :=
  isProtected selectedNodePaths.

(** [p.substring(0, p.lastIndexOf('/')) || '/'] *)
Definition parentOrRoot (p : string) : string :=
  let parent := Str.beforeLast "/" p in
  if Str.truthy parent then parent else "/".

(** The drop handlers of the tree ([handleDrop] on a node, [handleDropOnRoot]
    on the background): the call they make to [onMoveNode], if any. *)
Definition handleDrop (node : FileNode) (sourcePath : string) : option (string * string) :=
  if negb (Str.truthy sourcePath) || String.eqb sourcePath (path node) then None
  else
    let targetParentPath :=
      if isFolder node then path node else parentOrRoot (path node) in
    let sourceParentPath := parentOrRoot sourcePath in
    if String.eqb sourcePath targetParentPath
       || (isFolder node && String.prefix (sourcePath +:+ "/") targetParentPath)
    then None
    else if String.eqb sourceParentPath targetParentPath && negb (isFolder node)
         then None
         else Some (sourcePath, targetParentPath).

Definition handleDropOnRoot (sourcePath : string) : option (string * string) :=
  if negb (Str.truthy sourcePath) then None
  else if String.eqb (parentOrRoot sourcePath) "/" then None
       else Some (sourcePath, "/").

End Explorer.

(** ** The mutation handlers of [IDEView] *)

Module Dispatcher.

Import History.

Definition protectedPaths : list string :=
  ["/package.json"; "/src"; "/public"; "/index.html"; "/vite.config.ts"].

Definition typeName (ty : NodeType) : string :=
  match ty with File => "file" | Folder => "folder" end.

(** [findFileByPath(projectStructure, p)]: iterating [undefined] throws. *)
Definition findIn (cl : IDEState) (p : string) : Act (option FileNode) :=
  (let* t := defined (projectStructure cl) in
   ret (Tree.findFileByPath t p))%act.

Definition handleOpenFile (cl : IDEState) (p : string) : Act unit :=
  (let* file := findIn cl p in
   match file with
   | Some f =>
       if isFile f
       then upd (fun s =>
                   setActiveMatch None
                     (setSelectedNodePaths [p]
                        (setActiveFilePath (Some p)
                           (setOpenFiles
                              (if existsb (fun g => String.eqb (path g) p) (openFiles s)
                               then openFiles s else openFiles s ++ [f]) s))))
       else ret tt
   | None => ret tt
   end)%act.

(** [findMentionedFiles(prompt, projectFiles)] *)
Definition findMentionedFiles (prompt : string) (projectFiles : list FileNode)
  : list FileNode :=
  List.filter (fun node => JS.includesStr (path node) prompt
                           || JS.includesStr (name node) prompt)
    (flat_map Tree.collectPaths projectFiles).

(** [handleRequestDelete]: the guard on the protected paths. *)
Definition handleRequestDelete (paths : list string) (cl : IDEState) : Act unit :=
  match paths with
  | [] => ret tt
  | _ :: _ =>
      (let* t := defined (projectStructure cl) in
       let nodes := omap (Tree.findFileByPath t) paths in
       match nodes with
       | [] => ret tt
       | _ :: _ =>
           match List.find (fun n => Str.includes protectedPaths (path n)) nodes with
           | Some protectedItem =>
               upd (addToast ("Core item " +:+ JS.dq +:+ name protectedItem +:+ JS.dq
                              +:+ " cannot be deleted.") warning)
           | None => upd (setNodesToDelete (Some nodes))
           end
       end)%act
  end.

Section Handlers.

(** The two outside services: the code generation backend
    ([generateCodeFromPrompt], which catches its own failures) and the
    runtime's file system, a call of which resolves or rejects. *)
Variable ai : string -> list FileNode -> list Attachment -> option AiResponse.
Variable runtime : FsCall -> bool.

(** [await webContainerRef.current.fs.<call>] *)
Definition fsCall (c : FsCall) : Act unit :=
  fun s =>
    let s' := setFsCalls (fsCalls s ++ [c]) s in
    if runtime c then (Some tt, s') else (None, s').

Definition nonEmpty {A} (o : option (list A)) : bool :=
  match o with Some (_ :: _) => true | _ => false end.

Definition listOf {A} (o : option (list A)) : list A :=
  match o with Some l => l | None => [] end.

(** The body of [for (const file of response.filesToDelete!)], on the
    local variable [finalStructure]. *)
Definition deleteStep (cl : IDEState) (finalStructure : option (list FileNode))
    (file : AiFile) : Act (option (list FileNode)) :=
  (let* t := defined finalStructure in
   let finalStructure' := Tree.deleteNodeByPath t (filePath file) in
   when (webContainer cl) (tryCatch (fsCall (FsRm (filePath file)))) ;;
   ret (Some finalStructure'))%act.

(** The body of [for (const fileToUpdate of response.filesToUpdate!)]. *)
Definition updateStep (cl : IDEState) (finalStructure : option (list FileNode))
    (fileToUpdate : AiFile) : Act (option (list FileNode)) :=
  (when (webContainer cl)
     (let parentDir := Str.beforeLast "/" (filePath fileToUpdate) in
      when (Str.truthy parentDir) (fsCall (FsMkdir parentDir)) ;;
      fsCall (FsWriteFile (filePath fileToUpdate) (fileContent fileToUpdate))) ;;
   let* t := defined finalStructure in
   ret (Some (Tree.addOrUpdateFileByPath t (filePath fileToUpdate)
                (fileContent fileToUpdate))))%act.

Definition applyAiChanges (cl : IDEState) (response : AiResponse) : Act unit :=
  (upd (setAiMessage "") ;;
   forEach (JS.splitWords (summary response))
     (fun word => upd (fun s => setAiMessage (aiMessage s +:+ word) s)) ;;
   let hasDeletions := nonEmpty (filesToDelete response) in
   let hasUpdates := nonEmpty (filesToUpdate response) in
   if negb hasDeletions && negb hasUpdates then ret tt
   else
     let* afterDeletions :=
       (if hasDeletions
        then foldA (listOf (filesToDelete response)) (deleteStep cl)
               (projectStructure cl)
        else ret (projectStructure cl)) in
     let* afterUpdates :=
       (if hasUpdates
        then foldA (listOf (filesToUpdate response)) (updateStep cl) afterDeletions
        else ret afterDeletions) in
     let* finalStructure := defined afterUpdates in
     upd (pushHistory cl finalStructure) ;;
     when hasUpdates
       (forEach (listOf (filesToUpdate response))
          (fun file => handleOpenFile cl (filePath file))) ;;
     upd (addToast "AI changes applied successfully!" success) ;;
     upd (setHasUnsavedChanges true))%act.

Definition handleSendPrompt (cl : IDEState) (prompt : string)
    (attachments : list Attachment) : Act unit :=
  if (negb (Str.truthy prompt) && (length attachments =? 0)%nat) || isLoadingAI cl
  then ret tt
  else
    (upd (setIsLoadingAI true) ;;
     upd (setAiMessage "Thinking... I'm analyzing the project and your request.") ;;
     upd (setStreamingFileOverrides []) ;;
     let* t := defined (projectStructure cl) in
     let mentionedFiles := findMentionedFiles prompt t in
     let finalPrompt :=
       if (0 <? length mentionedFiles)%nat
          && negb (JS.includesStr "The user wants to refactor" prompt)
       then "The user is specifically referencing these files: "
            +:+ JS.join ", " (map path mentionedFiles)
            +:+ ". Please pay special attention to them when making changes. The original prompt is below."
            +:+ String "010"%char (String "010"%char "") +:+ prompt
       else prompt in
     match ai finalPrompt t attachments with
     | Some aiResponse => applyAiChanges cl aiResponse
     | None =>
         upd (setAiMessage "Sorry, I encountered an error and couldn't process your request. Please check the console for details and try again.") ;;
         upd (addToast "AI request failed." error)
     end ;;
     upd (setIsLoadingAI false))%act.

Definition handleRenameNode (p newName : string) (cl : IDEState) : Act unit :=
  if isLoadingAI cl
  then upd (addToast "Please wait for the current AI task to complete." warning)
  else
    (let* node := findIn cl p in
     match node with
     | None => upd (addToast ("Could not find node at path: " +:+ p) error)
     | Some node =>
         let parentPath := Str.beforeLast "/" p in
         let newPath := parentPath +:+ "/" +:+ newName in
         let prompt :=
           "I want to rename the " +:+ typeName (type node) +:+ " at path " +:+ JS.dq
           +:+ p +:+ JS.dq +:+ " to " +:+ JS.dq +:+ newName +:+ JS.dq
           +:+ ". Its new path will be " +:+ JS.dq +:+ newPath +:+ JS.dq
           +:+ ". Please perform this rename and also update all import/export statements across the entire project that reference the old path to point to the new path. Provide the complete updated content for all affected files." in
         upd (addToast "Asking AI to rename and refactor imports..." info) ;;
         handleSendPrompt cl prompt []
     end)%act.

Definition handleMoveNode (sourcePath targetParentPath : string) (cl : IDEState)
  : Act unit :=
  if isLoadingAI cl
  then upd (addToast "Please wait for the current AI task to complete." warning)
  else
    (let* node := findIn cl sourcePath in
     match node with
     | None => upd (addToast ("Could not find node at path: " +:+ sourcePath) error)
     | Some node =>
         if String.eqb sourcePath targetParentPath
            || (isFolder node && String.prefix (sourcePath +:+ "/") targetParentPath)
         then upd (addToast "Invalid move operation: cannot move a folder into itself."
                     warning)
         else
           let prompt :=
             "I want to move the " +:+ typeName (type node)
             +:+ " from its current location at " +:+ JS.dq +:+ sourcePath +:+ JS.dq
             +:+ " to the target directory " +:+ JS.dq +:+ targetParentPath +:+ JS.dq
             +:+ ". You MUST update all import/export statements across the entire project to reflect the new location. Provide the complete updated content for all affected files." in
           upd (addToast "Asking AI to move and refactor imports..." info) ;;
           handleSendPrompt cl prompt []
     end)%act.

End Handlers.

(** What a rejected operation must not touch. *)
Definition core (s : IDEState) :=
  (projectStructure s, history s, historyIndex s, fsCalls s, nodesToDelete s).

(** The batch as a function of the tree: every deletion, then every update. *)
Definition applyDeletions (ds : list AiFile) (t : list FileNode) : list FileNode :=
  fold_left (fun t d => Tree.deleteNodeByPath t (filePath d)) ds t.

Definition applyUpdates (us : list AiFile) (t : list FileNode) : list FileNode :=
  fold_left (fun t u => Tree.addOrUpdateFileByPath t (filePath u) (fileContent u)) us t.

(** A path out of reach of a deletion: neither the deleted path nor below
    it. *)
Definition spares (p : string) (d : AiFile) : Prop :=
  p <> filePath d /\ String.prefix (filePath d +:+ "/") p = false.

(** An update that writes at other path segments than those of [p]. *)
Definition writesElsewhere (p : string) (u : AiFile) : Prop :=
  Tree.pathSegments (filePath u) <> Tree.pathSegments p.

(** Only the log of runtime calls differs. *)
Definition onlyFs (s s' : IDEState) : Prop := exists log, s' = setFsCalls log s.

(** The runtime accepts the writes the batch mirrors, or is not there. *)
Definition mirrorResolves (runtime : FsCall -> bool) (cl : IDEState) : Prop :=
  webContainer cl = false \/ forall c, runtime c = true.

(** The runtime rejects a call that mirrors the update of a file: the
    creation of its folder, when the path has one, or the write. *)
Definition mirrorRejects (runtime : FsCall -> bool) (fileToUpdate : AiFile) : Prop :=
  (Str.truthy (Str.beforeLast "/" (filePath fileToUpdate)) = true
   /\ runtime (FsMkdir (Str.beforeLast "/" (filePath fileToUpdate))) = false)
  \/ runtime (FsWriteFile (filePath fileToUpdate) (fileContent fileToUpdate)) = false.

Definition hasWarning (s : IDEState) : bool :=
  existsb (fun m => match toastType m with warning => true | _ => false end) (toasts s).

End Dispatcher.

(** ** Sample inputs *)

Module Samples.

Definition oldTree : list FileNode :=
  [ mkFileNode "old.ts" File "/old.ts" None (Some "o") ].

Definition oldBatch : AiResponse :=
  mkAiResponse "Rewrote old.ts." (Some [mkAiFile "/old.ts" "x"])
    (Some [mkAiFile "/old.ts" ""]).

(** An answer of the code generation service to a rename of [/src]. *)
Definition renameAnswer : string -> list FileNode -> list Attachment -> option AiResponse :=
  fun _ _ _ =>
    Some (mkAiResponse "Renamed src to source."
            (Some [mkAiFile "/source/App.tsx" "Hello"])
            (Some [mkAiFile "/src" ""])).

(** An answer of the code generation service to a move of [/src/App.tsx]. *)
Definition moveAnswer : string -> list FileNode -> list Attachment -> option AiResponse :=
  fun _ _ _ =>
    Some (mkAiResponse "Moved App.tsx." (Some [mkAiFile "/src/App.tsx" "moved"]) None).

End Samples.

(** ** Project-wide search ([searchInProject]) *)

Module Search.

Record SearchOptions := mkOptions {
  isCaseSensitive : bool;
  isRegex : bool;
  isWholeWord : bool
}.

Record MatchRange := mkRange { start : nat; rangeLength : nat }.

Record SearchMatch := mkMatch {
  lineNumber : nat;
  lineContent : string;
  matchRanges : list MatchRange
}.

Record SearchResult := mkResult {
  resultPath : string;
  matches : list SearchMatch
}.

(** The characters of the class [[-\/\\^$*+?.()|[\]{}]]. *)
Definition specialChars : string := "-/\^$*+?.()|[]{}".

Definition isSpecial (c : ascii) : bool := Str.has_char c specialChars.

(** [query.replace(/[-\/\\^$*+?.()|[\]{}]/g, '\\$&')]: a backslash before
    every character of the class. *)
Fixpoint escapeRegExp (query : string) : string :=
  match query with
  | "" => ""
  | String c q' =>
      if isSpecial c then String "\"%char (String c (escapeRegExp q'))
      else String c (escapeRegExp q')
  end.

(** The pattern handed to [new RegExp]. *)
Definition patternOf (query : string) (options : SearchOptions) : string :=
  let pattern := if isRegex options then query else escapeRegExp query in
  if negb (isRegex options) && isWholeWord options
  then "\b" +:+ pattern +:+ "\b"
  else pattern.

Definition flagsOf (options : SearchOptions) : string :=
  if isCaseSensitive options then "g" else "gi".


Section Engine.

(** The regular expression engine of the host: [compile pattern flags] is
    [new RegExp(pattern, flags)], [None] when it throws a [SyntaxError];
    [exec re line lastIndex] is [re.exec(line)] started at [lastIndex],
    giving the index and the length of the match; [isGlobal] is the [global]
    flag. *)
Variable RegExp : Type.
Variable compile : string -> string -> option RegExp.
Variable exec : RegExp -> string -> nat -> option (nat * nat).
Variable isGlobal : RegExp -> bool.

(** The [while ((match = lineRegex.exec(line)) !== null)] loop. It does not
    end on a global expression that matches the empty string; [None] is the
    loop still running when the fuel is spent. *)
Fixpoint lineMatchesOf (fuel : nat) (re : RegExp) (line : string) (lastIndex : nat)
  : option (list MatchRange) :=
  match fuel with
  | O => None
  | S fuel' =>
      match exec re line lastIndex with
      | None => Some []
      | Some (i, n) =>
          if isGlobal re
          then option_map (cons (mkRange i n))
                 (lineMatchesOf fuel' re line (i + n))
          else Some [mkRange i n]
      end
  end.

(** [lines.forEach((line, index) => ...)] *)
Fixpoint searchLines (fuel : nat) (re : RegExp) (index : nat) (lines : list string)
  : option (list SearchMatch) :=
  match lines with
  | [] => Some []
  | line :: rest =>
      match lineMatchesOf fuel re line 0 with
      | None => None
      | Some lineMatches =>
          match searchLines fuel re (S index) rest with
          | None => None
          | Some ms =>
              Some (if (0 <? length lineMatches)%nat
                    then mkMatch (index + 1) line lineMatches :: ms
                    else ms)
          end
      end
  end.

Fixpoint searchInNode (fuel : nat) (re : RegExp) (node : FileNode)
  : option (list SearchResult) :=
  match type node, content node, children node with
  | File, Some c, _ =>
      match searchLines fuel re 0 (Str.split "010"%char c) with
      | None => None
      | Some ms =>
          Some (if (0 <? length ms)%nat then [mkResult (path node) ms] else [])
      end
  | Folder, _, Some cs =>
      (fix go (l : list FileNode) : option (list SearchResult) :=
         match l with
         | [] => Some []
         | x :: l' =>
             match searchInNode fuel re x with
             | None => None
             | Some a => option_map (app a) (go l')
             end
         end) cs
  | _, _, _ => Some []
  end.

Fixpoint searchNodes (fuel : nat) (re : RegExp) (nodes : list FileNode)
  : option (list SearchResult) :=
  match nodes with
  | [] => Some []
  | x :: l' =>
      match searchInNode fuel re x with
      | None => None
      | Some a => option_map (app a) (searchNodes fuel re l')
      end
  end.

Definition searchInProject (fuel : nat) (nodes : list FileNode) (query : string)
    (options : SearchOptions) : option (list SearchResult) :=
  if negb (Str.truthy query) then Some []
  else
    match compile (patternOf query options) (flagsOf options) with
    | None => Some []
    | Some regex => searchNodes fuel regex nodes
    end.

End Engine.

End Search.

(** ** The invariants of the data model *)

Module Model.

(** The path made of the given segments, each behind a slash. *)
Fixpoint joinPath (parts : list string) : string :=
  match parts with
  | [] => ""
  | part :: rest => "/" +:+ part +:+ joinPath rest
  end.

(** A canonical path: rooted, with at least one segment, no empty segment
    and no trailing slash; that is, the path its own segments spell. *)
Definition canonical (p : string) : bool :=
  String.eqb p (joinPath (Tree.pathSegments p))
  && negb (Nat.eqb (length (Tree.pathSegments p)) 0).

(** A node sits under the folder of path [parent]: its path is the parent's
    path, a slash and its name; its name has no slash; and so on below. *)
Fixpoint wfNode (parent : string) (n : FileNode) : bool :=
  String.eqb (path n) (parent +:+ "/" +:+ name n)
  && negb (Str.has_char "/" (name n))
  && match children n with
     | Some cs => forallb (wfNode (path n)) cs
     | None => true
     end.

(** The nodes of a folder of path [parent]; the root has the empty path. *)
Definition wfNodes (parent : string) (nodes : list FileNode) : bool :=
  forallb (wfNode parent) nodes.

Definition wfTree (nodes : list FileNode) : bool := wfNodes "" nodes.

(** No two nodes of a folder share a name, at every level. *)
Fixpoint distinct (l : list string) : bool :=
  match l with
  | [] => true
  | x :: l' => negb (Str.includes l' x) && distinct l'
  end.

Fixpoint uniqueNames (n : FileNode) : bool :=
  match children n with
  | Some cs => distinct (map name cs) && forallb uniqueNames cs
  | None => true
  end.

(** The file node [addOrUpdateFileByPath] creates at a path that has none. *)
Definition createdFile (p c : string) : FileNode :=
  match Tree.pop (Tree.pathSegments p) with
  | Some (_, f) => mkFileNode f File p None (Some c)
  | None => mkFileNode "" File p None (Some c)
  end.

(** A small project: a manifest and a source folder with one file. *)
Definition sampleTree : list FileNode :=
  [ mkFileNode "package.json" File "/package.json" None (Some "{}");
    mkFileNode "src" Folder "/src"
      (Some [ mkFileNode "App.tsx" File "/src/App.tsx" None (Some "Hello") ]) None ].

(** A path segment: a string without a slash. *)
Definition noSlash (s : string) : Prop := Str.has_char "/" s = false.

(** What follows a segment in a path: nothing, or a slash and more. *)
Definition rest (r : string) : Prop := r = "" \/ exists r', r = String "/" r'.

(** The siblings the lookup of a path reaches: the children of the folder
    found at that path. *)
Definition childrenAt (found : option FileNode) : option (list FileNode) :=
  match found with
  | Some n => if isFolder n then children n else None
  | None => None
  end.

Definition namedIn (f : string) (siblings : option (list FileNode)) : option FileNode :=
  match siblings with
  | Some cs => List.find (fun n => String.eqb (name n) f) cs
  | None => None
  end.

(** No two folders of a folder share a name, at every level: what
    [addOrUpdateFileByPath] and [deleteNodeByPath] keep of the uniqueness
    of names. *)
Definition folderNames (nodes : list FileNode) : list string :=
  map name (List.filter isFolder nodes).

Fixpoint uniqueFolders (n : FileNode) : bool :=
  match children n with
  | Some cs =>
      distinct (map name (List.filter isFolder cs)) && forallb uniqueFolders cs
  | None => true
  end.

Definition uniqueFoldersIn (nodes : list FileNode) : bool :=
  distinct (folderNames nodes) && forallb uniqueFolders nodes.

(** Two nodes that agree on everything but their children. *)
Definition sameEntry (n' n : FileNode) : Prop :=
  name n' = name n /\ type n' = type n /\ path n' = path n
  /\ content n' = content n.

(** Two results of a search that agree: nothing both times, or the same
    entry both times. *)
Definition sameFind (before after : option FileNode) : Prop :=
  match before with
  | Some r => exists r', after = Some r' /\ sameEntry r' r
  | None => after = None
  end.

End Model.

(** ** The tree store on the heap

    The functions of [lib/project-utils] work on objects: an array is a
    mutable cell holding references, a node an object with assignable
    fields. This model keeps the references, so that what a function writes
    and what it only reads can be told apart. A reference is an index in
    the heap; a new object goes at the end. *)

Module Heap.

Definition loc := nat.

(** A node object: [children], when present, refers to an array. *)
Record Obj := mkObj {
  oname : string;
  otype : NodeType;
  opath : string;
  ochildren : option loc;
  ocontent : option string
}.

Inductive Cell :=
| CObj (o : Obj)
| CArr (items : list loc).

Abbreviation heap := (list Cell).

(** The outcome of a call: a value, an [Error] thrown by the function, or
    a call that cannot go on: a reference that is not of the expected kind,
    a structure that is not a finite tree. *)
Inductive Res (A : Type) :=
| Ok (a : A)
| Throw (e : Tree.TreeError)
| Stuck.
Arguments Ok {A} a.
Arguments Throw {A} e.
Arguments Stuck {A}.

Definition HM (A : Type) : Type := heap -> Res A * heap.

Definition hret {A} (a : A) : HM A := fun h => (Ok a, h).
Definition hthrow {A} (e : Tree.TreeError) : HM A := fun h => (Throw e, h).
Definition stuck {A} : HM A := fun h => (Stuck, h).

Definition hbind {A B} (m : HM A) (k : A -> HM B) : HM B :=
  fun h => match m h with
           | (Ok a, h') => k a h'
           | (Throw e, h') => (Throw e, h')
           | (Stuck, h') => (Stuck, h')
           end.

Declare Scope heap_scope.
Delimit Scope heap_scope with heap.
Notation "'let*' x ':=' m 'in' k" := (hbind m (fun x => k))
  (at level 10, x name, m at level 100, k at level 200) : heap_scope.
Notation "m ';;' k" := (hbind m (fun _ => k))
  (at level 100, k at level 200, right associativity) : heap_scope.

(** Reads and writes of cells. *)
Definition getObj (l : loc) : HM Obj :=
  fun h => match h !! l with Some (CObj o) => (Ok o, h) | _ => (Stuck, h) end.

Definition getArr (l : loc) : HM (list loc) :=
  fun h => match h !! l with Some (CArr items) => (Ok items, h) | _ => (Stuck, h) end.

Definition setCell (l : loc) (c : Cell) : HM unit :=
  fun h => (Ok tt, <[l := c]> h).

(** An object or array literal. *)
Definition alloc (c : Cell) : HM loc :=
  fun h => (Ok (length h), h ++ [c]).

(** [arr.push(x)] *)
Definition push (arr x : loc) : HM unit :=
  (let* items := getArr arr in setCell arr (CArr (items ++ [x])))%heap.

(** [node.content = c] and [node.children = a] *)
Definition withContent (c : string) (o : Obj) : Obj :=
  mkObj (oname o) (otype o) (opath o) (ochildren o) (Some c).

Definition withChildren (a : loc) (o : Obj) : Obj :=
  mkObj (oname o) (otype o) (opath o) (Some a) (ocontent o).

(** [arr.find(test)] on an array of node objects: the first reference whose
    object passes the test. *)
Fixpoint findFirst (test : Obj -> bool) (items : list loc) : HM (option loc) :=
  match items with
  | [] => hret None
  | l :: rest =>
      (let* o := getObj l in
       if test o then hret (Some l) else findFirst test rest)%heap
  end.

(** [arr.map(f)] and [arr.filter(test)], before the result array is made. *)
Fixpoint mapH {A B} (f : A -> HM B) (l : list A) : HM (list B) :=
  match l with
  | [] => hret []
  | x :: l' =>
      (let* y := f x in let* ys := mapH f l' in hret (y :: ys))%heap
  end.

Fixpoint filterH (test : Obj -> bool) (items : list loc) : HM (list loc) :=
  match items with
  | [] => hret []
  | l :: rest =>
      (let* o := getObj l in
       let* ls := filterH test rest in
       hret (if test o then l :: ls else ls))%heap
  end.

(** *** The value an array of nodes stands for ([JSON.stringify]) *)

Definition traverse {A B} (f : A -> option B) : list A -> option (list B) :=
  fix go (l : list A) : option (list B) :=
    match l with
    | [] => Some []
    | x :: l' =>
        match f x, go l' with
        | Some y, Some ys => Some (y :: ys)
        | _, _ => None
        end
    end.

(** [fuel] bounds the depth: a cyclic structure has no value. *)
Fixpoint reifyArr (fuel : nat) (h : heap) (a : loc) : option (list FileNode) :=
  match fuel with
  | O => None
  | S fuel' =>
      match h !! a with
      | Some (CArr items) =>
          traverse
            (fun l =>
               match h !! l with
               | Some (CObj o) =>
                   match ochildren o with
                   | None =>
                       Some (mkFileNode (oname o) (otype o) (opath o) None (ocontent o))
                   | Some ca =>
                       match reifyArr fuel' h ca with
                       | Some cs =>
                           Some (mkFileNode (oname o) (otype o) (opath o) (Some cs)
                                   (ocontent o))
                       | None => None
                       end
                   end
               | _ => None
               end) items
      | _ => None
      end
  end.

(** The value of one node object, its children read with [fuel]. *)
Definition reifyObj (fuel : nat) (h : heap) (l : loc) : option FileNode :=
  match h !! l with
  | Some (CObj o) =>
      match ochildren o with
      | None => Some (mkFileNode (oname o) (otype o) (opath o) None (ocontent o))
      | Some ca =>
          match reifyArr fuel h ca with
          | Some cs =>
              Some (mkFileNode (oname o) (otype o) (opath o) (Some cs) (ocontent o))
          | None => None
          end
      end
  | _ => None
  end.

(** *** Fresh objects for a value ([JSON.parse]) *)

Fixpoint allocNode (n : FileNode) (h : heap) : loc * heap :=
  match children n with
  | None =>
      (length h, h ++ [CObj (mkObj (name n) (type n) (path n) None (content n))])
  | Some cs =>
      let '(items, h1) :=
        (fix go (l : list FileNode) (h : heap) : list loc * heap :=
           match l with
           | [] => ([], h)
           | x :: l' =>
               let '(lx, h1) := allocNode x h in
               let '(ls, h2) := go l' h1 in
               (lx :: ls, h2)
           end) cs h in
      let a := length h1 in
      let h2 := h1 ++ [CArr items] in
      (length h2,
       h2 ++ [CObj (mkObj (name n) (type n) (path n) (Some a) (content n))])
  end.

Fixpoint allocNodes (l : list FileNode) (h : heap) : list loc * heap :=
  match l with
  | [] => ([], h)
  | x :: l' =>
      let '(lx, h1) := allocNode x h in
      let '(ls, h2) := allocNodes l' h1 in
      (lx :: ls, h2)
  end.

Definition allocArr (t : list FileNode) : HM loc :=
  fun h => let '(items, h1) := allocNodes t h in (Ok (length h1), h1 ++ [CArr items]).

(** [JSON.parse(JSON.stringify(nodes))] *)
Definition jsonClone (fuel : nat) (nodes : loc) : HM loc :=
  fun h => match reifyArr fuel h nodes with
           | Some t => allocArr t h
           | None => (Stuck, h)
           end.

(** *** [findFileByPath] *)

Fixpoint findFileByPath (fuel : nat) (nodes : loc) (p : string) : HM (option loc) :=
  match fuel with
  | O => stuck
  | S fuel' =>
      (let* items := getArr nodes in
       (fix scan (items : list loc) : HM (option loc) :=
          match items with
          | [] => hret None
          | l :: rest =>
              let* node := getObj l in
              if String.eqb (opath node) p then hret (Some l)
              else
                match otype node, ochildren node with
                | Folder, Some ca =>
                    if String.prefix (opath node +:+ "/") p
                    then
                      let* found := findFileByPath fuel' ca p in
                      match found with
                      | Some r => hret (Some r)
                      | None => scan rest
                      end
                    else scan rest
                | _, _ => scan rest
                end
          end) items)%heap
  end.

(** *** [addOrUpdateFileByPath] *)

Fixpoint upsertWalk (pathParts : list string) (fileName newContent : string)
    (currentPath : string) (currentChildren : loc) : HM unit :=
  match pathParts with
  | [] =>
      let fullPath := currentPath +:+ "/" +:+ fileName in
      (let* items := getArr currentChildren in
       let* found := findFirst (fun node => String.eqb (oname node) fileName) items in
       match found with
       | Some l =>
           let* node := getObj l in
           setCell l (CObj (withContent newContent node))
       | None =>
           let* l := alloc (CObj (mkObj fileName File fullPath None (Some newContent))) in
           push currentChildren l
       end)%heap
  | part :: rest =>
      let currentPath' := currentPath +:+ "/" +:+ part in
      (let* items := getArr currentChildren in
       let* found :=
         findFirst (fun node => String.eqb (oname node) part
                                && NodeType_eqb (otype node) Folder) items in
       let* folder :=
         match found with
         | Some l => hret l
         | None =>
             let* a := alloc (CArr []) in
             let* l := alloc (CObj (mkObj part Folder currentPath' (Some a) None)) in
             push currentChildren l ;;
             hret l
         end in
       let* node := getObj folder in
       let* next :=
         match ochildren node with
         | Some a => hret a
         | None =>
             let* a := alloc (CArr []) in
             setCell folder (CObj (withChildren a node)) ;;
             hret a
         end in
       upsertWalk rest fileName newContent currentPath' next)%heap
  end.

Definition addOrUpdateFileByPath (fuel : nat) (nodes : loc) (p newContent : string)
  : HM loc :=
  (let* newStructure := jsonClone fuel nodes in
   match Tree.pop (Tree.pathSegments p) with
   | None => hret newStructure
   | Some (pathParts, fileName) =>
       upsertWalk pathParts fileName newContent "" newStructure ;;
       hret newStructure
   end)%heap.

(** *** [deleteNodeByPath] *)

Fixpoint deleteNodeByPath (fuel : nat) (nodes : loc) (p : string) : HM loc :=
  match fuel with
  | O => stuck
  | S fuel' =>
      (let* items := getArr nodes in
       let* kept := filterH (fun node => negb (String.eqb (opath node) p)) items in
       let* newNodes := alloc (CArr kept) in
       let* mapped :=
         mapH (fun l =>
                 let* node := getObj l in
                 match otype node, ochildren node with
                 | Folder, Some ca =>
                     if String.prefix (opath node +:+ "/") p
                     then
                       let* ca' := deleteNodeByPath fuel' ca p in
                       alloc (CObj (withChildren ca' node))
                     else hret l
                 | _, _ => hret l
                 end) kept in
       alloc (CArr mapped))%heap
  end.

(** *** [addNodeToTree] *)

(** The object literal with its spread parts: an empty array of children
    for a folder, an empty content for a file. *)
Definition allocNewNode (nodeName : string) (ty : NodeType) (newNodePath : string)
  : HM loc :=
  match ty with
  | Folder =>
      (let* a := alloc (CArr []) in
       alloc (CObj (mkObj nodeName Folder newNodePath (Some a) None)))%heap
  | File => alloc (CObj (mkObj nodeName File newNodePath None (Some "")))
  end.

(** What [addNodeToTree] does once the name is known to be free: the push
    on the root array, or on the children of the parent it looks up. *)
Definition insertNew (fuel : nat) (newStructure : loc) (parentPath nodeName : string)
    (ty : NodeType) : HM loc :=
  let newNodePath := Tree.newNodePathOf parentPath nodeName in
  (if String.eqb parentPath "/"
   then
     let* l := allocNewNode nodeName ty newNodePath in
     push newStructure l ;;
     hret newStructure
   else
     let* parentNode := findFileByPath fuel newStructure parentPath in
     match parentNode with
     | Some pl =>
         let* parent := getObj pl in
         if NodeType_eqb (otype parent) Folder
         then
           let* arr :=
             match ochildren parent with
             | Some a => hret a
             | None =>
                 let* a := alloc (CArr []) in
                 setCell pl (CObj (withChildren a parent)) ;;
                 hret a
             end in
           let* l := allocNewNode nodeName ty newNodePath in
           push arr l ;;
           hret newStructure
         else hthrow (Tree.ParentNotFound parentPath)
     | None => hthrow (Tree.ParentNotFound parentPath)
     end)%heap.

Definition addNodeToTree (fuel : nat) (nodes : loc) (parentPath nodeName : string)
    (ty : NodeType) : HM loc :=
  (let* newStructure := jsonClone fuel nodes in
   let* existing :=
     findFileByPath fuel newStructure (Tree.newNodePathOf parentPath nodeName) in
   match existing with
   | Some _ => hthrow (Tree.AlreadyExists ty nodeName)
   | None => insertNew fuel newStructure parentPath nodeName ty
   end)%heap.

End Heap.

(** ** What a caller of the tree store still holds *)

Module HeapModel.

Import Heap.

(** The heap [h'] after a call has every cell of [h] in place, and so the
    array [nodes] stands for the same tree as before, whatever the depth it
    is read to. *)
Definition untouched (h h' : heap) (nodes : loc) : Prop :=
  (exists e, h' = h ++ e)
  /\ (forall l, l < length h -> h' !! l = h !! l)
  /\ (forall k t, reifyArr k h nodes = Some t -> reifyArr k h' nodes = Some t).

(** The heap that holds the tree [t] and nothing else, and its root array. *)
Definition heapOf (t : list FileNode) : heap := snd (allocArr t []).

Definition rootOf (t : list FileNode) : loc :=
  match fst (allocArr t []) with Ok a => a | _ => 0 end.

(** The node or root array a new node is added to, and whether a node of
    that name is already in it. *)
Definition siblingsAt (t : list FileNode) (parentPath : string)
  : option (list FileNode) :=
  if String.eqb parentPath "/" then Some t
  else
    match Tree.findFileByPath t parentPath with
    | Some parentNode => if isFolder parentNode then children parentNode else None
    | None => None
    end.

Definition siblingExists (t : list FileNode) (parentPath nodeName : string) : bool :=
  match siblingsAt t parentPath with
  | Some siblings => existsb (fun n => String.eqb (name n) nodeName) siblings
  | None => false
  end.

(** No two nodes of a folder share a name, at every level of the tree. *)
Definition uniqueTree (t : list FileNode) : bool :=
  Model.distinct (map name t) && forallb Model.uniqueNames t.

(** The depth below a node, and of a list of nodes: how far a reader has to
    follow [children]. *)
Fixpoint height (n : FileNode) : nat :=
  match children n with
  | None => 0
  | Some cs => S (fold_right (fun c acc => Nat.max (height c) acc) 0 cs)
  end.

Definition heightOf (t : list FileNode) : nat :=
  fold_right (fun c acc => Nat.max (height c) acc) 0 t.

(** [m] keeps the heap property [I], and what it returns satisfies [Q]. *)
Definition preserves {A} (I : heap -> Prop) (m : HM A) (Q : A -> Prop) : Prop :=
  forall h, I h ->
    I (snd (m h)) /\ (forall a, fst (m h) = Ok a -> Q a).

(** The loop of [findFileByPath] over the items of one array. *)
Definition scanItems (k : nat) (p : string) : list loc -> HM (option loc) :=
  fix scan (items : list loc) : HM (option loc) :=
    match items with
    | [] => hret None
    | l :: rest =>
        hbind (getObj l) (fun node =>
          if String.eqb (opath node) p then hret (Some l)
          else
            match otype node, ochildren node with
            | Folder, Some ca =>
                if String.prefix (opath node +:+ "/") p
                then hbind (findFileByPath k ca p) (fun found =>
                       match found with
                       | Some r => hret (Some r)
                       | None => scan rest
                       end)
                else scan rest
            | _, _ => scan rest
            end)
    end.

(** What the lookup on the heap gives, against the lookup on the tree. *)
Definition foundAs (k : nat) (h : heap) (r : option loc) (pure : option FileNode)
  : Prop :=
  match r with
  | Some l => exists n, pure = Some n /\ reifyObj k h l = Some n
  | None => pure = None
  end.

(** The only errors [m] throws are those of [E]. *)
Definition throwsOnly {A} (E : Tree.TreeError -> Prop) (m : HM A) : Prop :=
  forall h e, fst (m h) = Throw e -> E e.

(** [h0] is the heap at a call, [n0] its size. A cell is closed when its
    references all point to objects made since the call. *)
Definition closedCell (n0 : nat) (c : Cell) : Prop :=
  match c with
  | CObj o => forall a, ochildren o = Some a -> n0 <= a
  | CArr items => Forall (fun l => n0 <= l) items
  end.

(** The old cells are in place. *)
Definition extends (h0 h : heap) : Prop := exists e, h = h0 ++ e.

(** The old cells are in place, and every cell made since is closed. *)
Definition inv (h0 h : heap) : Prop :=
  exists e, h = h0 ++ e /\ Forall (closedCell (length h0)) e.

(** *** Trees in the heap *)

(** The body of the [map] of [deleteNodeByPath] for one kept node. *)
Definition deleteItem (k : nat) (p : string) (l : loc) : HM loc :=
  hbind (getObj l) (fun node =>
    match otype node, ochildren node with
    | Folder, Some ca =>
        if String.prefix (opath node +:+ "/") p
        then hbind (deleteNodeByPath k ca p) (fun ca' =>
               alloc (CObj (withChildren ca' node)))
        else hret l
    | _, _ => hret l
    end).

(** [repNode h l n F]: the object at [l] stands for the node [n], and is
    made of the cells [F], none of them used twice. So for the items of an
    array: their cells are apart. *)
Inductive repNode (h : heap) : loc -> FileNode -> gset loc -> Prop :=
| rep_leaf l nm ty pa co :
    h !! l = Some (CObj (mkObj nm ty pa None co)) ->
    repNode h l (mkFileNode nm ty pa None co) {[ l ]}
| rep_inner l a nm ty pa co items cs Fs :
    h !! l = Some (CObj (mkObj nm ty pa (Some a) co)) ->
    h !! a = Some (CArr items) ->
    repList h items cs Fs ->
    l ∉ Fs -> a ∉ Fs ->
    repNode h l (mkFileNode nm ty pa (Some cs) co) ({[ l ]} ∪ ({[ a ]} ∪ Fs))
with repList (h : heap) : list loc -> list FileNode -> gset loc -> Prop :=
| rep_nil : repList h [] [] ∅
| rep_cons l n F1 items ns F2 :
    repNode h l n F1 -> repList h items ns F2 -> F1 ## F2 ->
    repList h (l :: items) (n :: ns) (F1 ∪ F2).

Scheme repNode_mut := Minimality for repNode Sort Prop
  with repList_mut := Minimality for repList Sort Prop.

(** The array at [a] stands for the tree [t] and is made of the cells [F]. *)
Definition repArr (h : heap) (a : loc) (t : list FileNode) (F : gset loc) : Prop :=
  exists items Fs,
    h !! a = Some (CArr items) /\ repList h items t Fs /\ (a ∉ Fs)
    /\ F = {[ a ]} ∪ Fs.

(** What the lookup on a tree of cells gives: nothing, where no node is
    updated on the tree; or the object of a node, such that a change of
    this object alone is the update of the first node found on the tree. *)
Definition locates (h : heap) (p : string) (t : list FileNode) (F : gset loc)
    (rebuilt : heap -> list FileNode -> gset loc -> Prop) (r : option loc) : Prop :=
  match r with
  | None => forall g, Tree.firstUpdate (Tree.updateFound p g) t = None
  | Some pl =>
      exists n Fn,
        repNode h pl n Fn /\ Fn ⊆ F
        /\ forall g h' Fn',
             repNode h' pl (g n) Fn' ->
             (forall y, y ∈ Fn' -> y ∈ Fn \/ length h <= y) ->
             (forall y, y < length h -> y ∉ Fn -> h' !! y = h !! y) ->
             exists t' F',
               Tree.firstUpdate (Tree.updateFound p g) t = Some t'
               /\ rebuilt h' t' F'
               /\ (forall y, y ∈ F' -> y ∈ F \/ length h <= y)
  end.

End HeapModel.

(** ** More of the tree store ([lib/project-utils]) *)

Module Utils.

(** [getAllPaths]: [walk] for one item. *)
Fixpoint walkNode (item : FileNode) : list string :=
  path item ::
  match type item, children item with
  | Folder, Some cs => flat_map walkNode cs
  | _, _ => []
  end.

Definition getAllPaths (nodes : list FileNode) : list string :=
  flat_map walkNode nodes.

(** [getLanguageForFile], for the [toLowerCase] of the engine. *)
Section Language.

Variable toLowerCase : string -> string.

Definition getLanguageForFile (fileName : string) : string :=
  match option_map (fun '(_, e) => toLowerCase e) (Tree.pop (Str.split "." fileName)) with
  | Some extension =>
      if String.eqb extension "js" || String.eqb extension "jsx" then "javascript"
      else if String.eqb extension "ts" || String.eqb extension "tsx" then "typescript"
      else if String.eqb extension "css" then "css"
      else if String.eqb extension "json" then "json"
      else if String.eqb extension "html" then "html"
      else if String.eqb extension "md" then "markdown"
      else "plaintext"
  | None => "plaintext"
  end.

End Language.

(** The deletions of a list of paths, one after the other. *)
Definition deleteAll (ps : list string) (t : list FileNode) : list FileNode :=
  fold_left Tree.deleteNodeByPath ps t.

End Utils.

(** ** The tabs, the editor and the explorer of [IDEView] *)

Module Workbench.

Import History Dispatcher.

(** [handleCloseFile] *)
Definition handleCloseFile (cl : IDEState) (p : string) : Act unit :=
  let newOpenFiles :=
    List.filter (fun f => negb (String.eqb (path f) p)) (openFiles cl) in
  (when (match activeFilePath cl with Some a => String.eqb a p | None => false end)
     (let closingIndex :=
        match findIndex (fun f => String.eqb (path f) p) (openFiles cl) with
        | Some i => Z.of_nat i
        | None => (-1)%Z
        end in
      if (0 <? length newOpenFiles)%nat
      then (let* f := defined (JS.index newOpenFiles (Z.max 0 (closingIndex - 1))) in
            upd (setActiveFilePath (Some (path f))))
      else upd (setActiveFilePath None)) ;;
   upd (setOpenFiles newOpenFiles))%act.

(** The effect on [projectStructure] that maps every open file to the node
    the tree has at its path and drops those it has not. *)
Definition refreshOpenFiles (cl : IDEState) : Act unit :=
  fun s =>
    match openFiles s, projectStructure cl with
    | [], _ => (Some tt, setOpenFiles [] s)
    | _ :: _, None => (None, s)
    | prevOpenFiles, Some t =>
        (Some tt,
         setOpenFiles
           (omap (fun openedFile => Tree.findFileByPath t (path openedFile))
              prevOpenFiles) s)
    end.

(** The effect that opens [/src/App.tsx] when no file is open. *)
Definition openDefaultFile (cl : IDEState) : Act unit :=
  (let* t := defined (projectStructure cl) in
   if (0 <? length t)%nat && (length (openFiles cl) =? 0)%nat
   then (let* defaultFile := findIn cl "/src/App.tsx" in
         match defaultFile with
         | Some f => handleOpenFile cl (path f)
         | None => ret tt
         end)
   else ret tt)%act.

(** [handleSelectNodes] and [handleSelectAllNodes] *)
Definition handleSelectNodes (p : string) (isToggle : bool) : Act unit :=
  upd (fun s =>
         let prev := selectedNodePaths s in
         setSelectedNodePaths
           (if negb isToggle then [p]
            else if Str.includes prev p
                 then List.filter (fun q => negb (String.eqb q p)) prev
                 else prev ++ [p]) s).

Definition handleSelectAllNodes (cl : IDEState) : Act unit :=
  (let* t := defined (projectStructure cl) in
   upd (setSelectedNodePaths (Utils.getAllPaths t)))%act.

(** The explorer column: the Delete and Backspace keys, and the folder the
    upload button of the toolbar proposes ([getParentPathForNewNode]). *)
Definition onDeleteKey (cl : IDEState) : Act unit :=
  if (0 <? length (selectedNodePaths cl))%nat
  then handleRequestDelete (selectedNodePaths cl) cl
  else ret tt.

Definition getParentPathForNewNode (cl : IDEState) : Act string :=
  match last (selectedNodePaths cl) with
  | None => ret "/"
  | Some lastSelectedPath =>
      (let* selectedNode := findIn cl lastSelectedPath in
       match selectedNode with
       | None => ret "/"
       | Some n =>
           if isFolder n then ret (path n)
           else ret (Explorer.parentOrRoot lastSelectedPath)
       end)%act
  end.

(** The nodes the explorer can show, those a context menu can open on:
    [FileNodeComponent] renders its node and, below a folder that is open,
    the children the node has; [FileTree] renders the nodes of the tree. *)
Fixpoint FileNodeComponent (node : FileNode) : list FileNode :=
  node ::
  match type node, children node with
  | Folder, Some cs => flat_map FileNodeComponent cs
  | _, _ => []
  end.

Definition FileTree (nodes : list FileNode) : list FileNode :=
  flat_map FileNodeComponent nodes.

(** The [New File] and [New Folder] actions of the context menu opened on
    [node] ([getContextMenuOptions]): the value they give to
    [setCreatingNodeInfo], a parent path and the type asked for. *)
Definition newNodeAction (node : FileNode) (ty : NodeType) : string * NodeType :=
  let parentPath :=
    if isFolder node then path node else Explorer.parentOrRoot (path node) in
  (parentPath, ty).

(** [handleCommitCreation], on the [creatingNodeInfo] of the column. *)
Definition handleCommitCreation (onAddNode : string -> string -> NodeType -> Act unit)
    (creatingNodeInfo : option (string * NodeType)) (nodeName : string) : Act unit :=
  match creatingNodeInfo with
  | Some (parentPath, ty) => onAddNode parentPath nodeName ty
  | None => ret tt
  end.

(** [s.trim()] on code units below 256. *)
Fixpoint trimStart (s : string) : string :=
  match s with
  | "" => ""
  | String c s' => if JS.isSpace c then trimStart s' else s
  end.

Fixpoint trimEnd (s : string) : string :=
  match s with
  | "" => ""
  | String c s' =>
      match trimEnd s' with
      | "" => if JS.isSpace c then "" else String c ""
      | r => String c r
      end
  end.

Definition trim (s : string) : string := trimEnd (trimStart s).

(** [NodeInput.handleSubmit]: the name passed to [onCommit], or [None] when
    it calls [onCancel]. *)
Definition handleSubmit (name : string) : option string :=
  if Str.truthy (trim name) && negb (Str.has_char "/" name)
  then Some (trim name) else None.

(** The messages of the errors of [addNodeToTree]. *)
Definition messageOf (e : Tree.TreeError) : string :=
  match e with
  | Tree.AlreadyExists ty nodeName =>
      (match ty with File => "File" | Folder => "Folder" end)
      +:+ " with name " +:+ JS.dq +:+ nodeName +:+ JS.dq +:+ " already exists."
  | Tree.ParentNotFound parentPath =>
      "Parent directory " +:+ JS.dq +:+ parentPath +:+ JS.dq +:+ " not found."
  end.

(** [n] in a template string. *)
Definition showNat (n : nat) : string := NilZero.string_of_uint (Nat.to_uint n).

(** [try { m; k } catch (error) { addToast(error.message, 'error') }], for a
    step [m] whose error has the message [msg]. *)
Definition orToast {A} (msg : string) (m : Act A) (k : A -> Act unit) : Act unit :=
  fun s =>
    match m s with
    | (Some a, s') => k a s'
    | (None, s') => (Some tt, addToast msg error s')
    end.

Section Handlers.

(** The runtime's file system, and the messages of the errors that are not
    the tree store's: of a call the runtime rejects, of [JSON.parse] on
    [undefined] and of the iteration of [undefined]. *)
Variable runtime : FsCall -> bool.
Variable rejection : FsCall -> string.
Variable notJson notIterable : string.

(** [handleFileContentChange]; [wcReady] is [wcStatus === 'ready']. *)
Definition handleFileContentChange (cl : IDEState) (wcReady : bool) (p c : string)
  : Act (option (list FileNode)) :=
  if isLoadingAI cl then ret None
  else
    (when (webContainer cl && wcReady) (fsCall runtime (FsWriteFile p c)) ;;
     let* t := defined (projectStructure cl) in
     let newStructure := Tree.addOrUpdateFileByPath t p c in
     upd (pushHistory cl newStructure) ;;
     upd (setHasUnsavedChanges true) ;;
     ret (Some newStructure))%act.

(** [handleAddNode]; first the call it makes on the runtime. *)
Definition creationCall (parentPath nodeName : string) (ty : NodeType) : FsCall :=
  match ty with
  | Folder => FsMkdir (Tree.newNodePathOf parentPath nodeName)
  | File => FsWriteFile (Tree.newNodePathOf parentPath nodeName) ""
  end.

Definition handleAddNode (cl : IDEState) (parentPath nodeName : string)
    (ty : NodeType) : Act unit :=
  let newNodePath := Tree.newNodePathOf parentPath nodeName in
  let call := creationCall parentPath nodeName ty in
  orToast (rejection call) (when (webContainer cl) (fsCall runtime call)) (fun _ =>
  orToast notJson (defined (projectStructure cl)) (fun t =>
    match Tree.addNodeToTree t parentPath nodeName ty with
    | inl e => upd (addToast (messageOf e) error)
    | inr newProjectStructure =>
        (upd (pushHistory cl newProjectStructure) ;;
         orToast notIterable
           (when (NodeType_eqb ty File) (handleOpenFile cl newNodePath)) (fun _ =>
           upd (addToast ((match ty with File => "File" | Folder => "Folder" end)
                          +:+ " '" +:+ nodeName +:+ "' created successfully.") success) ;;
           upd (setHasUnsavedChanges true)))%act
    end)).

(** The body of [for (const node of nodesToDelete)] of
    [handleConfirmDelete], on [tempStructure], [tempOpenFiles] and
    [tempActiveFile]. *)
Definition confirmStep (cl : IDEState)
    (temp : option (list FileNode) * list FileNode * option string)
    (node : FileNode)
  : Act (option (list FileNode) * list FileNode * option string) :=
  let '(tempStructure, tempOpenFiles, tempActiveFile) := temp in
  (when (webContainer cl) (fsCall runtime (FsRm (path node))) ;;
   let* t := defined tempStructure in
   ret (Some (Tree.deleteNodeByPath t (path node)),
        List.filter (fun f => negb (String.prefix (path node) (path f))) tempOpenFiles,
        match tempActiveFile with
        | Some a => if Str.truthy a && String.prefix (path node) a then None else Some a
        | None => None
        end))%act.

Definition truthyPath (o : option string) : bool :=
  match o with Some a => Str.truthy a | None => false end.

Definition handleConfirmDelete (cl : IDEState) : Act unit :=
  match nodesToDelete cl with
  | None | Some [] => ret tt
  | Some nodes =>
      (let* temp := foldA nodes (confirmStep cl)
                      (projectStructure cl, openFiles cl, activeFilePath cl) in
       let '(tempStructure, tempOpenFiles, tempActiveFile) := temp in
       let tempActiveFile' :=
         if negb (truthyPath tempActiveFile) && (0 <? length tempOpenFiles)%nat
         then option_map path (last tempOpenFiles)
         else tempActiveFile in
       upd (setOpenFiles tempOpenFiles) ;;
       upd (setActiveFilePath tempActiveFile') ;;
       let* t := defined tempStructure in
       upd (pushHistory cl t) ;;
       upd (addToast (showNat (length nodes) +:+ " item(s) deleted.") success) ;;
       upd (setHasUnsavedChanges true) ;;
       upd (setSelectedNodePaths []) ;;
       upd (setNodesToDelete None))%act
  end.

End Handlers.

(** The active tab is one of the open tabs. *)
Definition tabsOk (s : IDEState) : Prop :=
  match activeFilePath s with
  | Some a => In a (map path (openFiles s))
  | None => True
  end.

(** What the loop of [handleConfirmDelete] leaves of the open files and of
    the active file. *)
Definition openAfter (nodes : list FileNode) (tempOpenFiles : list FileNode)
  : list FileNode :=
  fold_left
    (fun o node => List.filter (fun f => negb (String.prefix (path node) (path f))) o)
    nodes tempOpenFiles.

Definition activeAfter (nodes : list FileNode) (tempActiveFile : option string)
  : option string :=
  fold_left
    (fun a node =>
       match a with
       | Some x => if Str.truthy x && String.prefix (path node) x then None else Some x
       | None => None
       end)
    nodes tempActiveFile.

(** A step that leaves the busy flag as it finds it, whether it returns
    or throws. *)
Definition keepsBusy {A} (m : Act A) : Prop :=
  forall s, isLoadingAI (snd (m s)) = isLoadingAI s.

(** A step after which every open tab has the property, when every open
    tab had it before. *)
Definition keepsTabs (P : FileNode -> Prop) {A} (m : Act A) : Prop :=
  forall s, Forall P (openFiles s) -> Forall P (openFiles (snd (m s))).

(** The live tree, when there is one, and every entry of the log are
    well formed. *)
Definition wfState (s : IDEState) : Prop :=
  (forall t, projectStructure s = Some t -> Model.wfTree t = true)
  /\ Forall (fun t => Model.wfTree t = true) (history s).

(** The property every value has, and that of a tree variable holding a
    well-formed tree when it holds one. *)
Definition anything {A} (a : A) : Prop := True.

Definition wfOpt (o : option (list FileNode)) : Prop :=
  forall t, o = Some t -> Model.wfTree t = true.

(** A step that keeps the trees of the state well formed, whether it
    returns or throws, and returns values with the property [Q]. *)
Definition keepsWf {A} (Q : A -> Prop) (m : Act A) : Prop :=
  forall s, wfState s ->
            wfState (snd (m s)) /\ forall a, fst (m s) = Some a -> Q a.

(** A run of edits, each pushing one tree, and a run of undos. *)
Definition pushes (ts : list (list FileNode)) (s : IDEState) : IDEState :=
  fold_left (fun s t => push t s) ts s.

Definition undos (n : nat) (s : IDEState) : IDEState := Nat.iter n handleUndo s.

End Workbench.

(** ** What a search returns, and two engines to run it *)

Module SearchModel.

Import Search.

(** A range that is not empty and lies within the line. *)
Definition rangeOk (line : string) (r : MatchRange) : Prop :=
  0 < rangeLength r /\ start r + rangeLength r <= String.length line.

Definition matchOk (m : SearchMatch) : Prop :=
  matchRanges m <> [] /\ Forall (rangeOk (lineContent m)) (matchRanges m).

Definition resultOk (nodes : list FileNode) (r : SearchResult) : Prop :=
  In (resultPath r) (Utils.getAllPaths nodes)
  /\ matches r <> [] /\ Forall matchOk (matches r).

(** The engine of the expressions of one ordinary character: a match is
    the first occurrence of the character at or after [lastIndex]. *)
Fixpoint indexOfFrom (c : ascii) (line : string) (lastIndex : nat) : option nat :=
  match line with
  | "" => None
  | String d line' =>
      match lastIndex with
      | O => if Ascii.eqb d c then Some 0 else option_map S (indexOfFrom c line' 0)
      | S k => option_map S (indexOfFrom c line' k)
      end
  end.

Definition charCompile (pattern flags : string) : option ascii :=
  match pattern with
  | String c "" => Some c
  | _ => None
  end.

Definition charExec (re : ascii) (line : string) (lastIndex : nat) : option (nat * nat) :=
  option_map (fun i => (i, 1)) (indexOfFrom re line lastIndex).




(** An engine for an expression that matches the empty string wherever it
    starts, as [/x*/g] does on a line without an [x]. *)
Definition emptyExec (re : unit) (line : string) (lastIndex : nat) : option (nat * nat) :=
  if (lastIndex <=? String.length line)%nat then Some (lastIndex, 0) else None.

End SearchModel.

(** * Properties *)

(** ** The history log *)

Module HistoryFacts.

Import History.

Lemma slice0_in_range {A} (l : list A) (i : Z) :
  (0 <= i < JS.len l)%Z -> JS.slice0 l (i + 1) = firstn (S (Z.to_nat i)) l.
Proof.
  unfold JS.slice0, JS.len. intros H.
  destruct (Z.ltb_spec (i + 1) 0); [lia|].
  f_equal. lia.
Qed.

Lemma index_in_range {A} (l : list A) (i : Z) :
  (0 <= i < JS.len l)%Z -> exists x, JS.index l i = Some x /\ l !! Z.to_nat i = Some x.
Proof.
  unfold JS.index, JS.len. intros H.
  destruct (Z.ltb_spec i 0); [lia|].
  destruct (lookup_lt_is_Some_2 l (Z.to_nat i)) as [x Hx]; [lia|].
  exists x. auto.
Qed.

Lemma index_app_last {A} (l : list A) (x : A) :
  JS.index (l ++ [x]) (JS.len (l ++ [x]) - 1) = Some x.
Proof.
  unfold JS.index, JS.len. rewrite length_app. simpl.
  destruct (Z.ltb_spec (Z.of_nat (length l + 1) - 1) 0); [lia|].
  replace (Z.to_nat (Z.of_nat (length l + 1) - 1)) with (length l + 0)%nat by lia.
  rewrite lookup_app_r by lia.
  replace (length l + 0 - length l)%nat with 0%nat by lia. reflexivity.
Qed.

(** Every push leaves the log and the live tree in correspondence, from any
    state. *)
Lemma push_consistent (t : list FileNode) (s : IDEState) : consistent (push t s).
Proof.
  unfold consistent, push, pushHistory. simpl. split.
  - unfold JS.len. rewrite length_app. simpl. lia.
  - symmetry. apply index_app_last.
Qed.

Lemma undo_consistent (s : IDEState) : consistent s -> consistent (handleUndo s).
Proof.
  intros [Hr Ht]. unfold handleUndo.
  destruct (Z.leb_spec (historyIndex s) 0); [split; assumption|].
  unfold consistent. simpl. split; [lia | reflexivity].
Qed.

Lemma initial_consistent (t : list FileNode) : consistent (initial t).
Proof. unfold consistent, initial, JS.len. simpl. split; [lia | reflexivity]. Qed.

(** C4. [pushHistory] keeps the snapshots up to the cursor, appends the new
    tree, puts the cursor on the new last index and makes the new tree the
    live one; [handleUndo] with a cursor above 0 moves the cursor one back
    and makes the snapshot there the live tree, leaving the log as it is,
    and does nothing at cursor 0. *)
Theorem push_truncates_and_undo_steps_back (s : IDEState) (newTree : list FileNode) :
  (history (push newTree s)
     = JS.slice0 (history s) (historyIndex s + 1) ++ [newTree]
   /\ historyIndex (push newTree s) = (JS.len (history (push newTree s)) - 1)%Z
   /\ projectStructure (push newTree s) = Some newTree
   /\ ((0 <= historyIndex s < JS.len (history s))%Z ->
       history (push newTree s)
         = firstn (S (Z.to_nat (historyIndex s))) (history s) ++ [newTree]
       /\ historyIndex (push newTree s) = (historyIndex s + 1)%Z))
  /\ ((0 < historyIndex s)%Z ->
      historyIndex (handleUndo s) = (historyIndex s - 1)%Z
      /\ history (handleUndo s) = history s
      /\ projectStructure (handleUndo s) = JS.index (history s) (historyIndex s - 1)
      /\ ((historyIndex s < JS.len (history s))%Z ->
          exists t, history s !! Z.to_nat (historyIndex s - 1) = Some t
                    /\ projectStructure (handleUndo s) = Some t))
  /\ ((historyIndex s <= 0)%Z -> handleUndo s = s).
Proof.
  split; [|split].
  - unfold push, pushHistory. simpl.
    split; [reflexivity|]. split; [reflexivity|]. split; [reflexivity|].
    intros Hr. rewrite slice0_in_range by assumption. split; [reflexivity|].
    unfold JS.len in *. rewrite length_app, length_firstn.
    change (length [newTree]) with 1%nat. lia.
  - intros Hpos. unfold handleUndo.
    destruct (Z.leb_spec (historyIndex s) 0); [lia|]. simpl.
    split; [reflexivity|]. split; [reflexivity|]. split; [reflexivity|].
    intros Hlt.
    destruct (index_in_range (history s) (historyIndex s - 1)) as (t & Ht & Hl);
      [lia|].
    exists t. split; assumption.
  - intros Hle. unfold handleUndo.
    destruct (Z.leb_spec (historyIndex s) 0); [reflexivity | lia].
Qed.

(** The same on a log of two snapshots with the cursor on the second. *)
Lemma push_truncates_and_undo_steps_back_witness :
  let s := push [] (initial []) in
  historyIndex (handleUndo s) = 0%Z /\ projectStructure (handleUndo s) = Some [].
Proof.
  intros s.
  destruct (push_truncates_and_undo_steps_back s []) as (_ & Hu & _).
  destruct Hu as (Hi & _ & Hp & _); [vm_compute; reflexivity|].
  split; [exact Hi | exact Hp].
Defined.

(** The state [handleRedo] leaves after one push and one undo. *)
Lemma redo_after_undo_state (t0 t1 : list FileNode) :
  handleRedo (handleUndo (push t1 (initial t0)))
  = setProjectStructure None
      (setHistoryIndex (-1) (handleUndo (push t1 (initial t0)))).
Proof. reflexivity. Qed.

(** C1. On a log of two snapshots with the cursor on the first, that is
    after one push and one undo, [handleRedo] passes its guard and then
    moves the cursor back instead of forward: the cursor becomes -1 and the
    live tree [undefined], where the snapshot pushed last was expected. *)
Theorem redo_after_undo_moves_back (t0 t1 : list FileNode) :
  let s := handleUndo (push t1 (initial t0)) in
  historyIndex s = 0%Z
  /\ history s = [t0; t1]
  /\ historyIndex (handleRedo s) = (-1)%Z
  /\ projectStructure (handleRedo s) = None
  /\ projectStructure (handleRedo s) <> Some t1.
Proof.
  intros s. subst s. rewrite redo_after_undo_state.
  split; [reflexivity|]. split; [reflexivity|]. split; [reflexivity|].
  split; [reflexivity|]. discriminate.
Qed.

(** Whenever redo is enabled the code steps the cursor back. *)
Lemma redo_decrements (s : IDEState) :
  (historyIndex s < JS.len (history s) - 1)%Z ->
  historyIndex (handleRedo s) = (historyIndex s - 1)%Z.
Proof.
  intros H. unfold handleRedo.
  destruct (Z.geb_spec (historyIndex s) (JS.len (history s) - 1)); [lia|].
  reflexivity.
Qed.

(** Away from the first snapshot the step back that redo takes stays inside
    the log, and the live tree is the snapshot under the cursor. *)
Lemma redo_consistent_above_first (s : IDEState) :
  consistent s -> (0 < historyIndex s)%Z -> consistent (handleRedo s).
Proof.
  intros [Hr Ht] Hpos. unfold handleRedo.
  destruct (Z.geb_spec (historyIndex s) (JS.len (history s) - 1));
    [split; assumption|].
  unfold consistent. simpl. split; [lia | reflexivity].
Qed.

(** C10. The correspondence between the live tree and the log does not
    survive [handleRedo]: after one push and one undo the state is
    consistent, and redo leaves the cursor at -1, outside of the log. *)
Theorem redo_breaks_consistency (t0 t1 : list FileNode) :
  let s := handleUndo (push t1 (initial t0)) in
  consistent s /\ ~ consistent (handleRedo s).
Proof.
  intros s. subst s. split.
  - apply undo_consistent, push_consistent.
  - rewrite redo_after_undo_state. intros [Hr _].
    change (0 <= -1 < 2)%Z in Hr. lia.
Qed.

End HistoryFacts.

(** ** Strings and paths *)

Module StrFacts.

Import Model.

Lemma sapp_assoc (a b c : string) : (a +:+ b) +:+ c = a +:+ (b +:+ c).
Proof. induction a as [|x a IH]; simpl; [reflexivity | now rewrite IH]. Qed.

Lemma sapp_nil_r (a : string) : a +:+ "" = a.
Proof. induction a as [|x a IH]; simpl; [reflexivity | now rewrite IH]. Qed.

Lemma prefix_app (a x y : string) :
  String.prefix (a +:+ x) (a +:+ y) = String.prefix x y.
Proof.
  induction a as [|c a IH]; simpl; [reflexivity|].
  destruct (Ascii.ascii_dec c c) as [_|Hc]; [exact IH | contradiction].
Qed.

Lemma eqb_app (a x y : string) :
  String.eqb (a +:+ x) (a +:+ y) = String.eqb x y.
Proof.
  induction a as [|c a IH]; simpl; [reflexivity|].
  now rewrite Ascii.eqb_refl.
Qed.

Lemma prefix_refl_app (a x : string) : String.prefix a (a +:+ x) = true.
Proof.
  induction a as [|c a IH]; simpl; [now destruct x|].
  destruct (Ascii.ascii_dec c c) as [_|Hc]; [exact IH | contradiction].
Qed.

Lemma prefix_split (a b : string) :
  String.prefix a b = true -> exists x, b = a +:+ x.
Proof.
  revert b. induction a as [|c a IH]; intros b H.
  - exists b. reflexivity.
  - destruct b as [|d b]; simpl in H; [congruence|].
    destruct (Ascii.ascii_dec c d) as [->|]; [|congruence].
    destruct (IH b H) as [x ->]. exists x. reflexivity.
Qed.

Lemma has_char_app (c : ascii) (a b : string) :
  Str.has_char c (a +:+ b) = Str.has_char c a || Str.has_char c b.
Proof.
  induction a as [|x a IH]; simpl; [reflexivity|].
  rewrite IH. now rewrite orb_assoc.
Qed.

Lemma seg_eq_inv (name seg r : string) :
  noSlash name -> rest r -> name = seg +:+ r -> name = seg /\ r = "".
Proof.
  intros Hn [->|[r' ->]] E.
  - rewrite sapp_nil_r in E. auto.
  - exfalso. unfold noSlash in Hn. rewrite E, has_char_app in Hn.
    simpl in Hn. rewrite orb_true_r in Hn. congruence.
Qed.

Lemma prefix_cons (c d : ascii) (a b : string) :
  String.prefix (String c a) (String d b) = Ascii.eqb c d && String.prefix a b.
Proof.
  simpl. destruct (Ascii.ascii_dec c d) as [->|Hcd].
  - now rewrite Ascii.eqb_refl.
  - apply Ascii.eqb_neq in Hcd. now rewrite Hcd.
Qed.

Lemma has_char_cons (c d : ascii) (s : string) :
  Str.has_char c (String d s) = Ascii.eqb d c || Str.has_char c s.
Proof. reflexivity. Qed.

Lemma seg_prefix_inv (name seg r : string) :
  noSlash name -> noSlash seg -> rest r ->
  String.prefix (name +:+ "/") (seg +:+ r) = true -> name = seg /\ r <> "".
Proof.
  unfold noSlash. revert seg.
  induction name as [|c name IH]; intros seg Hn Hs Hr H.
  - destruct seg as [|d seg].
    + split; [reflexivity|]. intros ->. discriminate H.
    + change (String.prefix (String "/" "") (String d (seg +:+ r)) = true) in H.
      rewrite prefix_cons in H. apply andb_true_iff in H as [H _].
      apply Ascii.eqb_eq in H. subst d.
      rewrite has_char_cons, Ascii.eqb_refl in Hs. discriminate Hs.
  - rewrite has_char_cons in Hn. apply orb_false_iff in Hn as [Hc Hn].
    destruct seg as [|d seg].
    + destruct Hr as [->|[r' ->]]; [discriminate H|].
      change (String.prefix (String c (name +:+ "/")) (String "/" r') = true) in H.
      rewrite prefix_cons in H. apply andb_true_iff in H as [H _].
      rewrite H in Hc. discriminate Hc.
    + change (String.prefix (String c (name +:+ "/")) (String d (seg +:+ r)) = true) in H.
      rewrite prefix_cons in H. apply andb_true_iff in H as [Hcd H].
      apply Ascii.eqb_eq in Hcd. subst d.
      rewrite has_char_cons in Hs. apply orb_false_iff in Hs as [_ Hs].
      destruct (IH seg Hn Hs Hr H) as [-> Hne]. auto.
Qed.

Lemma split_noSlash (s : string) : Forall noSlash (Str.split "/" s).
Proof.
  induction s as [|c s IH]; simpl.
  - constructor; [reflexivity | constructor].
  - destruct (Ascii.eqb_spec c "/") as [->|Hc].
    + constructor; [reflexivity | exact IH].
    + destruct (Str.split "/" s) as [|w ws]; [repeat constructor|].
      * unfold noSlash. simpl. apply Ascii.eqb_neq in Hc. now rewrite Hc.
      * inversion IH; subst. constructor; [|assumption].
        unfold noSlash in *. simpl. apply Ascii.eqb_neq in Hc. now rewrite Hc.
Qed.

End StrFacts.

(** ** The tree store *)

Module TreeFacts.

Import Tree Model StrFacts.

(** *** Arrays *)

Lemma findIndex_Some {A} (f : A -> bool) (l : list A) (i : nat) :
  findIndex f l = Some i ->
  exists l1 x l2, l = l1 ++ x :: l2 /\ length l1 = i /\ f x = true
                  /\ Forall (fun y => f y = false) l1.
Proof.
  revert i. induction l as [|y l IH]; intros i H; simpl in H; [discriminate H|].
  destruct (f y) eqn:Hy.
  - injection H as <-. exists [], y, l. auto.
  - destruct (findIndex f l) as [j|] eqn:Hj; [|discriminate H].
    injection H as <-.
    destruct (IH j eq_refl) as (l1 & x & l2 & -> & Hl & Hx & Hall).
    exists (y :: l1), x, l2. simpl. repeat split; auto.
Qed.

Lemma findIndex_None {A} (f : A -> bool) (l : list A) :
  findIndex f l = None -> Forall (fun y => f y = false) l.
Proof.
  induction l as [|y l IH]; intros H; simpl in H; [constructor|].
  destruct (f y) eqn:Hy; [discriminate H|].
  destruct (findIndex f l); [discriminate H|]. constructor; auto.
Qed.

Lemma alter_middle {A} (g : A -> A) (l1 : list A) (x : A) (l2 : list A) :
  alter g (length l1) (l1 ++ x :: l2) = l1 ++ g x :: l2.
Proof.
  induction l1 as [|y l1 IH]; [reflexivity|].
  change (y :: alter g (length l1) (l1 ++ x :: l2) = y :: (l1 ++ g x :: l2)).
  now rewrite IH.
Qed.

Lemma firstSome_app {A B} (f : A -> option B) (l1 l2 : list A) :
  Forall (fun y => f y = None) l1 -> firstSome f (l1 ++ l2) = firstSome f l2.
Proof.
  induction 1 as [|y l1 Hy _ IH]; simpl; [reflexivity|]. now rewrite Hy.
Qed.

Lemma firstSome_None {A B} (f : A -> option B) (l : list A) :
  Forall (fun y => f y = None) l -> firstSome f l = None.
Proof.
  intros H. rewrite <- (app_nil_r l). rewrite firstSome_app by assumption.
  reflexivity.
Qed.

Lemma firstSome_cons {A B} (f : A -> option B) (x : A) (l : list A) :
  firstSome f (x :: l) = match f x with Some r => Some r | None => firstSome f l end.
Proof. reflexivity. Qed.

Lemma pop_Some {A} (l init : list A) (z : A) :
  pop l = Some (init, z) -> l = init ++ [z].
Proof.
  revert init. induction l as [|x l IH]; intros init H; [discriminate H|].
  simpl in H. destruct l as [|y l].
  - injection H as <- <-. reflexivity.
  - destruct (pop (y :: l)) as [[i w]|]; [|discriminate H].
    injection H as <- <-. now rewrite (IH i eq_refl).
Qed.

Lemma pop_None {A} (l : list A) : pop l = None -> l = [].
Proof.
  induction l as [|x l IH]; [reflexivity|]. simpl.
  destruct l as [|y l]; [discriminate|].
  destruct (pop (y :: l)) as [[i w]|]; [discriminate|].
  intros _. discriminate (IH eq_refl).
Qed.

(** *** Induction on trees *)

Section NodeInduction.

Variable P : FileNode -> Prop.
Hypothesis step : forall n, Forall P (childrenOrEmpty n) -> P n.

Fixpoint FileNode_tree_ind (n : FileNode) : P n :=
  step n
    (match n as m return Forall P (childrenOrEmpty m) with
     | mkFileNode _ _ _ cs _ =>
         match cs as o
               return Forall P (match o with Some l => l | None => [] end) with
         | Some l =>
             (fix all (l : list FileNode) : Forall P l :=
                match l with
                | [] => List.Forall_nil P
                | x :: l' => List.Forall_cons P x l' (FileNode_tree_ind x) (all l')
                end) l
         | None => List.Forall_nil P
         end
     end).

End NodeInduction.

(** *** Well-formed nodes *)

Lemma wfNode_inv (parent : string) (n : FileNode) :
  wfNode parent n = true ->
  path n = parent +:+ "/" +:+ name n
  /\ noSlash (name n)
  /\ wfNodes (path n) (childrenOrEmpty n) = true.
Proof.
  destruct n as [nm ty pa cs co]. simpl. intros H.
  apply andb_true_iff in H as [H Hcs]. apply andb_true_iff in H as [Hp Hn].
  apply String.eqb_eq in Hp. apply negb_true_iff in Hn.
  repeat split; auto. unfold childrenOrEmpty, wfNodes. simpl.
  destruct cs; [exact Hcs | reflexivity].
Qed.

Lemma wfNode_intro (parent : string) (n : FileNode) :
  path n = parent +:+ "/" +:+ name n ->
  noSlash (name n) ->
  wfNodes (path n) (childrenOrEmpty n) = true ->
  wfNode parent n = true.
Proof.
  destruct n as [nm ty pa cs co]. unfold childrenOrEmpty, wfNodes. simpl.
  intros -> Hn Hcs. rewrite String.eqb_refl. unfold noSlash in Hn.
  rewrite Hn. simpl. destruct cs; [exact Hcs | reflexivity].
Qed.

Lemma wfNodes_Forall (parent : string) (nodes : list FileNode) :
  wfNodes parent nodes = true <-> Forall (fun n => wfNode parent n = true) nodes.
Proof. unfold wfNodes. rewrite forallb_forall, List.Forall_forall. reflexivity. Qed.


(** *** Lookup in a folder of well-formed nodes *)

Lemma findNode_unfold (p : string) (node : FileNode) :
  findNode p node =
  if String.eqb (path node) p then Some node
  else
    match type node, children node with
    | Folder, Some cs =>
        if String.prefix (path node +:+ "/") p then findFileByPath cs p else None
    | _, _ => None
    end.
Proof. destruct node; reflexivity. Qed.

Lemma joinPath_rest (l : list string) : rest (joinPath l).
Proof.
  destruct l as [|x l]; [left; reflexivity|].
  right. exists (x +:+ joinPath l). reflexivity.
Qed.

Lemma joinPath_app (l1 l2 : list string) :
  joinPath (l1 ++ l2) = joinPath l1 +:+ joinPath l2.
Proof.
  induction l1 as [|x l1 IH]; [reflexivity|].
  change (joinPath ((x :: l1) ++ l2)) with ("/" +:+ x +:+ joinPath (l1 ++ l2)).
  change (joinPath (x :: l1)) with ("/" +:+ x +:+ joinPath l1).
  rewrite IH. now rewrite !sapp_assoc.
Qed.

Section Level.

(** A node directly under the folder of path [P], looked up for a path that
    goes through the segment [seg] of that folder. *)
Variables (P seg : string) (n : FileNode).
Hypothesis Hpath : path n = P +:+ "/" +:+ name n.
Hypothesis Hname : noSlash (name n).
Hypothesis Hseg : noSlash seg.

Lemma findNode_other (r : string) :
  rest r -> name n <> seg -> findNode (P +:+ "/" +:+ seg +:+ r) n = None.
Proof using Hpath Hname Hseg.
  intros Hr Hne. rewrite findNode_unfold, Hpath.
  rewrite eqb_app, (eqb_app "/").
  destruct (String.eqb_spec (name n) (seg +:+ r)) as [E|_].
  - destruct (seg_eq_inv _ _ _ Hname Hr E); contradiction.
  - destruct (type n), (children n); try reflexivity.
    rewrite !sapp_assoc, prefix_app, (prefix_app "/").
    destruct (String.prefix (name n +:+ "/") (seg +:+ r)) eqn:E; [|reflexivity].
    destruct (seg_prefix_inv _ _ _ Hname Hseg Hr E); contradiction.
Qed.

Lemma findNode_leaf : name n = seg -> findNode (P +:+ "/" +:+ seg) n = Some n.
Proof using Hpath.
  intros E. rewrite findNode_unfold, Hpath, E. now rewrite String.eqb_refl.
Qed.

Lemma findNode_inner (r' : string) :
  name n = seg ->
  findNode (P +:+ "/" +:+ seg +:+ String "/" r') n =
  match type n, children n with
  | Folder, Some cs => findFileByPath cs (P +:+ "/" +:+ seg +:+ String "/" r')
  | _, _ => None
  end.
Proof using Hpath Hname.
  intros E. rewrite findNode_unfold, Hpath, E.
  rewrite eqb_app, (eqb_app "/").
  destruct (String.eqb_spec seg (seg +:+ String "/" r')) as [E'|_].
  - rewrite <- E in E' at 1.
    destruct (seg_eq_inv (name n) seg (String "/" r') Hname) as [_ H];
      [right; eauto | assumption | discriminate H].
  - destruct (type n), (children n); try reflexivity.
    rewrite !sapp_assoc, prefix_app, (prefix_app "/"), (prefix_app seg).
    rewrite prefix_cons, Ascii.eqb_refl. destruct r'; reflexivity.
Qed.

End Level.


Lemma findNode_folder (P seg r' : string) (n : FileNode) (cs : list FileNode) :
  path n = P +:+ "/" +:+ name n -> noSlash (name n) -> name n = seg ->
  type n = Folder -> children n = Some cs ->
  findNode (P +:+ "/" +:+ seg +:+ String "/" r') n
  = findFileByPath cs (P +:+ "/" +:+ seg +:+ String "/" r').
Proof.
  intros Hp Hn E Hty Hcs. rewrite (findNode_inner P seg n Hp Hn r' E).
  now rewrite Hty, Hcs.
Qed.

Lemma findNode_skip (P seg r' : string) (y : FileNode) :
  wfNode P y = true -> noSlash seg ->
  String.eqb (name y) seg && isFolder y = false ->
  findNode (P +:+ "/" +:+ seg +:+ String "/" r') y = None.
Proof.
  intros Hwf Hseg Ht. destruct (wfNode_inv _ _ Hwf) as (Hp & Hn & _).
  destruct (String.eqb_spec (name y) seg) as [E|Hne].
  - rewrite (findNode_inner P seg y Hp Hn r' E).
    simpl in Ht. unfold isFolder in Ht. destruct (type y); [reflexivity|discriminate Ht].
  - apply findNode_other; auto. right; eauto.
Qed.

Lemma findNode_skip_leaf (P f : string) (y : FileNode) :
  wfNode P y = true -> noSlash f ->
  String.eqb (name y) f = false ->
  findNode (P +:+ "/" +:+ f) y = None.
Proof.
  intros Hwf Hf Ht. destruct (wfNode_inv _ _ Hwf) as (Hp & Hn & _).
  rewrite <- (sapp_nil_r f).
  apply findNode_other; auto; [left; reflexivity|].
  now apply String.eqb_neq.
Qed.

Lemma joinPath_snoc_cons (l : list string) (f : string) :
  exists r', joinPath (l ++ [f]) = String "/" r'.
Proof. destruct l as [|x l]; simpl; eauto. Qed.

(** *** [addOrUpdateFileByPath] then [findFileByPath] *)

(** After the walk, the lookup of the written path gives the node that was
    written: a new file node, or the node the lookup gave before, with the
    new content. *)
Lemma find_upsertWalk (parts : list string) :
  forall (f c P : string) (nodes : list FileNode),
    Forall noSlash parts -> noSlash f -> wfNodes P nodes = true ->
    exists n,
      findFileByPath (upsertWalk parts f c P nodes) (P +:+ joinPath (parts ++ [f]))
        = Some n
      /\ (n = mkFileNode f File (P +:+ joinPath (parts ++ [f])) None (Some c)
          \/ exists m, findFileByPath nodes (P +:+ joinPath (parts ++ [f])) = Some m
                       /\ n = setContent c m).
Proof.
  induction parts as [|part parts IH]; intros f c P nodes Hparts Hf Hwf.
  - change (joinPath ([] ++ [f])) with ("/" +:+ f +:+ "").
    rewrite sapp_nil_r. apply wfNodes_Forall in Hwf.
    change (upsertWalk [] f c P nodes) with
      (match findIndex (fun node => String.eqb (name node) f) nodes with
       | Some fileIndex => alter (setContent c) fileIndex nodes
       | None => nodes ++ [mkFileNode f File (P +:+ "/" +:+ f) None (Some c)]
       end).
    destruct (findIndex _ nodes) as [i|] eqn:Hi.
    + destruct (findIndex_Some _ _ _ Hi) as (l1 & x & l2 & -> & <- & Hx & Hl1).
      apply Forall_app in Hwf as [Hwf1 Hwf2].
      apply Forall_cons in Hwf2 as [Hwfx _].
      destruct (wfNode_inv _ _ Hwfx) as (Hp & Hn & _).
      apply String.eqb_eq in Hx.
      assert (Hskip : Forall (fun y => findNode (P +:+ "/" +:+ f) y = None) l1).
      { apply List.Forall_forall. intros y Hy.
        rewrite List.Forall_forall in Hwf1, Hl1.
        apply findNode_skip_leaf; auto. }
      rewrite alter_middle. exists (setContent c x). split.
      * unfold findFileByPath. rewrite firstSome_app by assumption.
        rewrite firstSome_cons.
        now rewrite (findNode_leaf P f (setContent c x) Hp Hx).
      * right. exists x. split; [|reflexivity].
        unfold findFileByPath. rewrite firstSome_app by assumption.
        rewrite firstSome_cons. now rewrite (findNode_leaf P f x Hp Hx).
    + apply findIndex_None in Hi.
      assert (Hskip : Forall (fun y => findNode (P +:+ "/" +:+ f) y = None) nodes).
      { apply List.Forall_forall. intros y Hy.
        rewrite List.Forall_forall in Hwf, Hi.
        apply findNode_skip_leaf; auto. }
      exists (mkFileNode f File (P +:+ "/" +:+ f) None (Some c)).
      split; [|left; reflexivity].
      unfold findFileByPath. rewrite firstSome_app by assumption.
      rewrite firstSome_cons.
      now rewrite (findNode_leaf P f (mkFileNode f File (P +:+ "/" +:+ f) None (Some c))
                     eq_refl eq_refl).
  - apply Forall_cons in Hparts as [Hpart Hparts].
    change (joinPath ((part :: parts) ++ [f]))
      with ("/" +:+ part +:+ joinPath (parts ++ [f])).
    destruct (joinPath_snoc_cons parts f) as [r' Hr'].
    assert (Hassoc : (P +:+ "/" +:+ part) +:+ joinPath (parts ++ [f])
                     = P +:+ "/" +:+ part +:+ joinPath (parts ++ [f]))
      by now rewrite !sapp_assoc.
    apply wfNodes_Forall in Hwf.
    change (upsertWalk (part :: parts) f c P nodes) with
      (match findIndex (fun node => String.eqb (name node) part && isFolder node)
               nodes with
       | Some i =>
           alter (fun folder =>
                    setChildren (upsertWalk parts f c (P +:+ "/" +:+ part)
                                   (childrenOrEmpty folder)) folder) i nodes
       | None =>
           nodes ++
             [mkFileNode part Folder (P +:+ "/" +:+ part)
                (Some (upsertWalk parts f c (P +:+ "/" +:+ part) [])) None]
       end).
    destruct (findIndex _ nodes) as [i|] eqn:Hi.
    + destruct (findIndex_Some _ _ _ Hi) as (l1 & x & l2 & -> & <- & Hx & Hl1).
      apply Forall_app in Hwf as [Hwf1 Hwf2].
      apply Forall_cons in Hwf2 as [Hwfx _].
      destruct (wfNode_inv _ _ Hwfx) as (Hp & Hn & Hcs).
      apply andb_true_iff in Hx as [Hx Hfolder].
      apply String.eqb_eq in Hx.
      assert (Hty : type x = Folder)
        by (unfold isFolder in Hfolder; destruct (type x); [discriminate|reflexivity]).
      assert (Hskip : Forall (fun y => findNode
                (P +:+ "/" +:+ part +:+ joinPath (parts ++ [f])) y = None) l1).
      { apply List.Forall_forall. intros y Hy.
        rewrite List.Forall_forall in Hwf1, Hl1. rewrite Hr'.
        apply findNode_skip; auto. }
      rewrite alter_middle.
      rewrite Hp, Hx in Hcs.
      destruct (IH f c (P +:+ "/" +:+ part) (childrenOrEmpty x) Hparts Hf Hcs)
        as (n & Hfind & Hn').
      rewrite Hassoc in Hfind, Hn'.
      exists n. split.
      * unfold findFileByPath at 1. rewrite firstSome_app by assumption.
        rewrite firstSome_cons. rewrite Hr'.
        rewrite (findNode_folder P part r' (setChildren _ x) _ Hp Hn Hx Hty eq_refl).
        rewrite <- Hr'. now rewrite Hfind.
      * destruct Hn' as [->|(m & Hm & ->)]; [left; reflexivity|].
        right. exists m. split; [|reflexivity].
        unfold findFileByPath at 1. rewrite firstSome_app by assumption.
        rewrite firstSome_cons. rewrite Hr'.
        rewrite (findNode_inner P part x Hp Hn r' Hx).
        rewrite Hty. rewrite <- Hr'.
        unfold childrenOrEmpty in Hm. destruct (children x) as [cs|].
        -- now rewrite Hm.
        -- discriminate Hm.
    + apply findIndex_None in Hi.
      assert (Hskip : Forall (fun y => findNode
                (P +:+ "/" +:+ part +:+ joinPath (parts ++ [f])) y = None) nodes).
      { apply List.Forall_forall. intros y Hy.
        rewrite List.Forall_forall in Hwf, Hi. rewrite Hr'.
        apply findNode_skip; auto. }
      destruct (IH f c (P +:+ "/" +:+ part) [] Hparts Hf eq_refl)
        as (n & Hfind & Hn').
      rewrite Hassoc in Hfind, Hn'.
      exists n. split.
      * unfold findFileByPath at 1. rewrite firstSome_app by assumption.
        rewrite firstSome_cons. rewrite Hr'.
        rewrite (findNode_folder P part r' (mkFileNode part Folder _ _ None) _
                   eq_refl Hpart eq_refl eq_refl eq_refl).
        rewrite <- Hr'. now rewrite Hfind.
      * destruct Hn' as [->|(m & Hm & ->)]; [left; reflexivity|].
        discriminate Hm.
Qed.


Lemma findNode_path (p : string) (n m : FileNode) :
  findNode p n = Some m -> path m = p.
Proof.
  revert m. induction n as [n IH] using FileNode_tree_ind. intros m.
  rewrite findNode_unfold.
  destruct (String.eqb_spec (path n) p) as [E|_]; [intros [= <-]; exact E|].
  unfold childrenOrEmpty in IH.
  destruct (type n); [discriminate|].
  destruct (children n) as [cs|]; [|discriminate].
  destruct (String.prefix _ p); [|discriminate].
  unfold findFileByPath. induction IH as [|x l Hx _ IHl]; [discriminate|].
  rewrite firstSome_cons. destruct (findNode p x) as [r|] eqn:Hr.
  - intros [= <-]. now apply Hx.
  - exact IHl.
Qed.

Lemma findFileByPath_path (p : string) (nodes : list FileNode) (m : FileNode) :
  findFileByPath nodes p = Some m -> path m = p.
Proof.
  unfold findFileByPath. induction nodes as [|x l IH]; [discriminate|].
  rewrite firstSome_cons. destruct (findNode p x) as [r|] eqn:Hr.
  - intros [= <-]. now apply findNode_path in Hr.
  - exact IH.
Qed.

(** *** Canonical paths *)

Lemma pathSegments_noSlash (p : string) : Forall noSlash (pathSegments p).
Proof.
  unfold pathSegments. apply List.Forall_forall. intros s Hs.
  apply filter_In in Hs as [Hs _].
  pose proof (split_noSlash p) as H. rewrite List.Forall_forall in H. auto.
Qed.

Lemma canonical_inv (p : string) :
  canonical p = true ->
  exists parts f, pop (pathSegments p) = Some (parts, f)
                  /\ p = joinPath (parts ++ [f])
                  /\ Forall noSlash parts /\ noSlash f.
Proof.
  unfold canonical. intros H. apply andb_true_iff in H as [Hp Hl].
  apply String.eqb_eq in Hp. apply negb_true_iff, Nat.eqb_neq in Hl.
  destruct (pop (pathSegments p)) as [[parts f]|] eqn:Hpop.
  - exists parts, f. pose proof (pop_Some _ _ _ Hpop) as E.
    pose proof (pathSegments_noSlash p) as Hall. rewrite E in Hall.
    apply Forall_app in Hall as [H1 H2]. apply Forall_cons in H2 as [H2 _].
    rewrite <- E. auto.
  - apply pop_None in Hpop. rewrite Hpop in Hl. contradiction.
Qed.

Lemma find_after_upsert (t : list FileNode) (p c : string) :
  wfTree t = true -> canonical p = true ->
  exists n,
    findFileByPath (addOrUpdateFileByPath t p c) p = Some n
    /\ (n = createdFile p c
        \/ exists m, findFileByPath t p = Some m /\ n = setContent c m).
Proof.
  intros Hwf Hp. destruct (canonical_inv p Hp) as (parts & f & Hpop & E & Hparts & Hf).
  unfold addOrUpdateFileByPath, createdFile. rewrite Hpop.
  destruct (find_upsertWalk parts f c "" t Hparts Hf Hwf) as (n & Hn & Hor).
  change ("" +:+ joinPath (parts ++ [f])) with (joinPath (parts ++ [f])) in Hn, Hor.
  rewrite <- E in Hn, Hor. eauto.
Qed.


(** *** [deleteNodeByPath] *)

Lemma deleteIn_unfold (p : string) (node : FileNode) :
  deleteIn p node =
  match type node, children node with
  | Folder, Some cs =>
      if String.prefix (path node +:+ "/") p
      then setChildren (deleteNodeByPath cs p) node
      else node
  | _, _ => node
  end.
Proof.
  destruct node as [nm ty pa cs co]. simpl.
  destruct ty; [reflexivity|]. destruct cs as [cs|]; [|reflexivity].
  destruct (String.prefix _ p); [|reflexivity]. f_equal.
  unfold deleteNodeByPath. induction cs as [|x l IH]; [reflexivity|].
  simpl. destruct (negb (String.eqb (path x) p)); simpl; now rewrite IH.
Qed.

Lemma deleteNodeByPath_cons (x : FileNode) (l : list FileNode) (p : string) :
  deleteNodeByPath (x :: l) p =
  if String.eqb (path x) p then deleteNodeByPath l p
  else deleteIn p x :: deleteNodeByPath l p.
Proof.
  unfold deleteNodeByPath. simpl. now destruct (String.eqb (path x) p).
Qed.

Lemma deleteIn_path (p : string) (n : FileNode) : path (deleteIn p n) = path n.
Proof.
  rewrite deleteIn_unfold. destruct (type n), (children n); try reflexivity.
  now destruct (String.prefix _ p).
Qed.

Lemma deleteIn_name (p : string) (n : FileNode) : name (deleteIn p n) = name n.
Proof.
  rewrite deleteIn_unfold. destruct (type n), (children n); try reflexivity.
  now destruct (String.prefix _ p).
Qed.

(** The deleted path is not found afterwards, in any tree. *)
Lemma findNode_deleteIn_same (p : string) (n : FileNode) :
  path n <> p -> findNode p (deleteIn p n) = None.
Proof.
  induction n as [n IH] using FileNode_tree_ind. intros Hne.
  rewrite deleteIn_unfold. unfold childrenOrEmpty in IH.
  assert (Hn : String.eqb (path n) p = false) by now apply String.eqb_neq.
  destruct (type n) eqn:Hty.
  { rewrite findNode_unfold, Hn, Hty. reflexivity. }
  destruct (children n) as [cs|] eqn:Hcs.
  2:{ rewrite findNode_unfold, Hn, Hty, Hcs. reflexivity. }
  destruct (String.prefix (path n +:+ "/") p) eqn:Hpre.
  2:{ rewrite findNode_unfold, Hn, Hty, Hcs, Hpre. reflexivity. }
  rewrite findNode_unfold. simpl. rewrite Hn, Hty, Hpre.
  clear Hcs. unfold findFileByPath.
  induction IH as [|x l Hx _ IHl]; [reflexivity|].
  rewrite deleteNodeByPath_cons.
  destruct (String.eqb_spec (path x) p) as [|Hxp]; [exact IHl|].
  rewrite firstSome_cons, (Hx Hxp). exact IHl.
Qed.

Lemma find_delete_same (t : list FileNode) (p : string) :
  findFileByPath (deleteNodeByPath t p) p = None.
Proof.
  unfold findFileByPath. induction t as [|x l IH]; [reflexivity|].
  rewrite deleteNodeByPath_cons.
  destruct (String.eqb_spec (path x) p) as [|Hxp]; [exact IH|].
  rewrite firstSome_cons, (findNode_deleteIn_same p x Hxp). exact IH.
Qed.

(** Deleting a path that is not found changes nothing, in any tree. *)
Lemma deleteIn_absent (p : string) (n : FileNode) :
  findNode p n = None -> deleteIn p n = n.
Proof.
  induction n as [n IH] using FileNode_tree_ind.
  rewrite findNode_unfold, deleteIn_unfold. unfold childrenOrEmpty in IH.
  destruct (String.eqb (path n) p); [discriminate|].
  destruct (type n) eqn:Hty; [reflexivity|].
  destruct (children n) as [cs|] eqn:Hcs; [|reflexivity].
  destruct (String.prefix (path n +:+ "/") p); [|reflexivity].
  intros Hfind.
  assert (E : deleteNodeByPath cs p = cs).
  { clear Hcs. unfold findFileByPath in Hfind.
    induction IH as [|x l Hx _ IHl]; [reflexivity|].
    rewrite firstSome_cons in Hfind.
    destruct (findNode p x) as [r|] eqn:Hr; [discriminate|].
    rewrite deleteNodeByPath_cons.
    destruct (String.eqb_spec (path x) p) as [Hxp|_].
    - rewrite findNode_unfold in Hr. apply String.eqb_eq in Hxp.
      rewrite Hxp in Hr. discriminate.
    - rewrite (Hx eq_refl), (IHl Hfind). reflexivity. }
  rewrite E. destruct n; simpl in *. now rewrite Hcs.
Qed.

Lemma delete_absent (t : list FileNode) (p : string) :
  findFileByPath t p = None -> deleteNodeByPath t p = t.
Proof.
  unfold findFileByPath. induction t as [|x l IH]; [reflexivity|].
  rewrite firstSome_cons. destruct (findNode p x) as [r|] eqn:Hr; [discriminate|].
  intros Hl. rewrite deleteNodeByPath_cons.
  destruct (String.eqb_spec (path x) p) as [Hxp|_].
  - rewrite findNode_unfold in Hr. apply String.eqb_eq in Hxp.
    rewrite Hxp in Hr. discriminate.
  - now rewrite (deleteIn_absent p x Hr), (IH Hl).
Qed.


Lemma prefix_through (P seg r' : string) :
  String.prefix ((P +:+ "/" +:+ seg) +:+ "/") (P +:+ "/" +:+ seg +:+ String "/" r') = true.
Proof.
  rewrite !sapp_assoc, prefix_app, (prefix_app "/"), (prefix_app seg).
  rewrite prefix_cons, Ascii.eqb_refl. now destruct r'.
Qed.

(** In a well-formed tree nothing is found at or below a deleted path. *)
Lemma find_delete_below (parts : list string) :
  forall (P : string) (nodes : list FileNode) (x : string),
    parts <> [] -> Forall noSlash parts -> wfNodes P nodes = true -> rest x ->
    findFileByPath (deleteNodeByPath nodes (P +:+ joinPath parts))
      (P +:+ joinPath parts +:+ x) = None.
Proof.
  induction parts as [|seg parts IH]; intros P nodes x Hne Hparts Hwf Hx;
    [contradiction|].
  apply Forall_cons in Hparts as [Hseg Hparts].
  apply wfNodes_Forall in Hwf.
  change (joinPath (seg :: parts)) with ("/" +:+ seg +:+ joinPath parts).
  rewrite !sapp_assoc.
  assert (Hrest : rest (joinPath parts +:+ x)).
  { destruct (joinPath_rest parts) as [->|[r' ->]]; [exact Hx|].
    right. exists (r' +:+ x). reflexivity. }
  unfold findFileByPath.
  induction Hwf as [|y l Hy _ IHl]; [reflexivity|].
  rewrite deleteNodeByPath_cons.
  destruct (String.eqb_spec (path y) (P +:+ "/" +:+ seg +:+ joinPath parts))
    as [|Hyp]; [exact IHl|].
  rewrite firstSome_cons.
  destruct (wfNode_inv _ _ Hy) as (Hp & Hn & Hcs).
  assert (Hp' : path (deleteIn (P +:+ "/" +:+ seg +:+ joinPath parts) y)
                = P +:+ "/" +:+ name (deleteIn (P +:+ "/" +:+ seg +:+ joinPath parts) y))
    by now rewrite deleteIn_path, deleteIn_name.
  assert (Hn' : noSlash (name (deleteIn (P +:+ "/" +:+ seg +:+ joinPath parts) y)))
    by now rewrite deleteIn_name.
  destruct (String.eqb_spec (name y) seg) as [E|Hnseg].
  2:{ rewrite (findNode_other P seg _ Hp' Hn' Hseg (joinPath parts +:+ x) Hrest);
        [exact IHl | now rewrite deleteIn_name]. }
  destruct parts as [|seg' parts'].
  { exfalso. apply Hyp. rewrite Hp, E. change (joinPath []) with "".
    now rewrite sapp_nil_r. }
  destruct (joinPath_rest (seg' :: parts')) as [Hnil|[r' Hr']]; [discriminate Hnil|].
  assert (HJ : joinPath (seg' :: parts') +:+ x = String "/" (r' +:+ x))
    by now rewrite Hr'.
  rewrite HJ in IHl |- *. rewrite deleteIn_unfold.
  destruct (type y) eqn:Hty.
  { rewrite (findNode_inner P seg y Hp Hn (r' +:+ x) E), Hty. exact IHl. }
  destruct (children y) as [cs|] eqn:Hc.
  2:{ rewrite (findNode_inner P seg y Hp Hn (r' +:+ x) E), Hty, Hc. exact IHl. }
  rewrite Hp at 1. rewrite E at 1. rewrite Hr' at 1. rewrite prefix_through.
  rewrite (findNode_folder P seg (r' +:+ x) (setChildren _ y) _ Hp Hn E Hty eq_refl).
  assert (Hwfcs : wfNodes (P +:+ "/" +:+ seg) cs = true).
  { unfold childrenOrEmpty in Hcs. rewrite Hc, Hp, E in Hcs. exact Hcs. }
  pose proof (IH (P +:+ "/" +:+ seg) cs x ltac:(discriminate) Hparts Hwfcs Hx) as Hrec.
  rewrite !sapp_assoc, HJ in Hrec.
  rewrite Hrec. exact IHl.
Qed.

Lemma find_after_delete (t : list FileNode) (p q : string) :
  wfTree t = true -> canonical p = true ->
  String.prefix (p +:+ "/") q = true ->
  findFileByPath (deleteNodeByPath t p) q = None.
Proof.
  intros Hwf Hp Hq. destruct (canonical_inv p Hp) as (parts & f & _ & E & Hparts & Hf).
  apply prefix_split in Hq as [x ->]. rewrite sapp_assoc.
  rewrite E.
  apply (find_delete_below (parts ++ [f]) "" t ("/" +:+ x)).
  - destruct parts; discriminate.
  - apply Forall_app. split; [assumption|]. now constructor.
  - exact Hwf.
  - right. exists x. reflexivity.
Qed.


(** *** The operations keep trees well formed *)

Lemma wfNode_setContent (P c : string) (n : FileNode) :
  wfNode P (setContent c n) = wfNode P n.
Proof. destruct n; reflexivity. Qed.

Lemma wfNodes_app (P : string) (l1 l2 : list FileNode) :
  wfNodes P (l1 ++ l2) = wfNodes P l1 && wfNodes P l2.
Proof. apply forallb_app. Qed.

Lemma wfNodes_cons (P : string) (x : FileNode) (l : list FileNode) :
  wfNodes P (x :: l) = wfNode P x && wfNodes P l.
Proof. reflexivity. Qed.

Lemma upsertWalk_wf (parts : list string) :
  forall (f c P : string) (nodes : list FileNode),
    Forall noSlash parts -> noSlash f -> wfNodes P nodes = true ->
    wfNodes P (upsertWalk parts f c P nodes) = true.
Proof.
  induction parts as [|part parts IH]; intros f c P nodes Hparts Hf Hwf.
  - change (upsertWalk [] f c P nodes) with
      (match findIndex (fun node => String.eqb (name node) f) nodes with
       | Some fileIndex => alter (setContent c) fileIndex nodes
       | None => nodes ++ [mkFileNode f File (P +:+ "/" +:+ f) None (Some c)]
       end).
    destruct (findIndex _ nodes) as [i|] eqn:Hi.
    + destruct (findIndex_Some _ _ _ Hi) as (l1 & x & l2 & -> & <- & _ & _).
      rewrite alter_middle. rewrite wfNodes_app, wfNodes_cons in Hwf |- *.
      now rewrite wfNode_setContent.
    + rewrite wfNodes_app, Hwf. simpl. rewrite String.eqb_refl.
      unfold noSlash in Hf. now rewrite Hf.
  - apply Forall_cons in Hparts as [Hpart Hparts].
    change (upsertWalk (part :: parts) f c P nodes) with
      (match findIndex (fun node => String.eqb (name node) part && isFolder node)
               nodes with
       | Some i =>
           alter (fun folder =>
                    setChildren (upsertWalk parts f c (P +:+ "/" +:+ part)
                                   (childrenOrEmpty folder)) folder) i nodes
       | None =>
           nodes ++
             [mkFileNode part Folder (P +:+ "/" +:+ part)
                (Some (upsertWalk parts f c (P +:+ "/" +:+ part) [])) None]
       end).
    destruct (findIndex _ nodes) as [i|] eqn:Hi.
    + destruct (findIndex_Some _ _ _ Hi) as (l1 & x & l2 & -> & <- & Hx & _).
      rewrite alter_middle. rewrite wfNodes_app, wfNodes_cons in Hwf |- *.
      apply andb_true_iff in Hwf as [H1 H2]. apply andb_true_iff in H2 as [Hwx H2].
      rewrite H1, H2, andb_true_r, andb_true_l.
      destruct (wfNode_inv _ _ Hwx) as (Hp & Hn & Hcs).
      apply andb_true_iff in Hx as [Hx _]. apply String.eqb_eq in Hx.
      apply wfNode_intro; [exact Hp | exact Hn |].
      change (childrenOrEmpty (setChildren ?cs x)) with cs.
      change (path (setChildren ?cs x)) with (path x).
      rewrite Hp, Hx in Hcs |- *. now apply IH.
    + rewrite wfNodes_app, Hwf, andb_true_l, wfNodes_cons.
      change (wfNodes P []) with true. rewrite andb_true_r.
      apply wfNode_intro; [reflexivity | exact Hpart |].
      now apply IH.
Qed.

Lemma upsert_wf (t : list FileNode) (p c : string) :
  wfTree t = true -> wfTree (addOrUpdateFileByPath t p c) = true.
Proof.
  intros Hwf. unfold addOrUpdateFileByPath.
  destruct (pop (pathSegments p)) as [[parts f]|] eqn:Hpop; [|exact Hwf].
  pose proof (pathSegments_noSlash p) as Hall.
  rewrite (pop_Some _ _ _ Hpop) in Hall.
  apply Forall_app in Hall as [H1 H2]. apply Forall_cons in H2 as [H2 _].
  now apply upsertWalk_wf.
Qed.

Lemma deleteIn_wf (p : string) (n : FileNode) :
  forall P, wfNode P n = true -> wfNode P (deleteIn p n) = true.
Proof.
  induction n as [n IH] using FileNode_tree_ind. intros P Hwf.
  rewrite deleteIn_unfold. unfold childrenOrEmpty in IH.
  destruct (type n); [exact Hwf|].
  destruct (children n) as [cs|] eqn:Hc; [|exact Hwf].
  destruct (String.prefix _ p); [|exact Hwf].
  destruct (wfNode_inv _ _ Hwf) as (Hp & Hn & Hcs).
  apply wfNode_intro; [exact Hp | exact Hn |].
  change (childrenOrEmpty (setChildren ?cs n)) with cs.
  change (path (setChildren ?cs n)) with (path n).
  unfold childrenOrEmpty in Hcs. rewrite Hc in Hcs. clear Hc.
  induction IH as [|x l Hx _ IHl]; [reflexivity|].
  rewrite wfNodes_cons in Hcs. apply andb_true_iff in Hcs as [Hwx Hl].
  rewrite deleteNodeByPath_cons. destruct (String.eqb (path x) p); [now apply IHl|].
  rewrite wfNodes_cons, (Hx _ Hwx). now apply IHl.
Qed.

Lemma delete_wf (P : string) (t : list FileNode) (p : string) :
  wfNodes P t = true -> wfNodes P (deleteNodeByPath t p) = true.
Proof.
  induction t as [|x l IH]; [reflexivity|].
  rewrite wfNodes_cons. intros H. apply andb_true_iff in H as [Hx Hl].
  rewrite deleteNodeByPath_cons. destruct (String.eqb (path x) p); [now apply IH|].
  rewrite wfNodes_cons, (deleteIn_wf p x P Hx). now apply IH.
Qed.


(** *** The claims on lookup after a write or a delete *)

(** C5, as the code has it. In a well-formed tree and for a canonical path:
    after [addOrUpdateFileByPath] the lookup of the path gives a node with
    that path and exactly that content, which is the file node just
    created or the node that was found there before, with its content
    replaced (so a file node, unless the path named a folder); after
    [deleteNodeByPath] the path and every path below it are not found; a
    delete of a path that is not found gives back the same tree; and both
    operations keep the tree well formed. *)
Theorem find_after_upsert_and_delete (t : list FileNode) (p c : string) :
  wfTree t = true -> canonical p = true ->
  (exists n,
      findFileByPath (addOrUpdateFileByPath t p c) p = Some n
      /\ path n = p /\ content n = Some c
      /\ (n = createdFile p c
          \/ exists m, findFileByPath t p = Some m /\ n = setContent c m)
      /\ (type n = File
          \/ exists m, findFileByPath t p = Some m /\ type m = Folder))
  /\ findFileByPath (deleteNodeByPath t p) p = None
  /\ (forall q, String.prefix (p +:+ "/") q = true ->
                findFileByPath (deleteNodeByPath t p) q = None)
  /\ (findFileByPath t p = None -> deleteNodeByPath t p = t)
  /\ wfTree (addOrUpdateFileByPath t p c) = true
  /\ wfTree (deleteNodeByPath t p) = true.
Proof.
  intros Hwf Hp. split; [|split; [|split; [|split; [|split]]]].
  - destruct (find_after_upsert t p c Hwf Hp) as (n & Hn & Hor).
    exists n. split; [exact Hn|]. split; [now apply findFileByPath_path in Hn|].
    split; [|split; [exact Hor|]].
    + destruct Hor as [->|(m & _ & ->)]; [|reflexivity].
      unfold createdFile. now destruct (pop (pathSegments p)) as [[? ?]|].
    + destruct Hor as [->|(m & Hm & ->)].
      * left. unfold createdFile. now destruct (pop (pathSegments p)) as [[? ?]|].
      * destruct (type m) eqn:Hty; [left; exact Hty | right; eauto].
  - apply find_delete_same.
  - intros q Hq. now apply find_after_delete.
  - apply delete_absent.
  - now apply upsert_wf.
  - now apply delete_wf.
Qed.

(** The same on a tree with [/package.json] and [/src/App.tsx], for a file
    in a folder that does not exist yet. *)
Lemma find_after_upsert_and_delete_witness :
  (exists n,
      findFileByPath (addOrUpdateFileByPath sampleTree "/src/lib/util.ts" "x")
        "/src/lib/util.ts" = Some n
      /\ content n = Some "x")
  /\ findFileByPath (deleteNodeByPath sampleTree "/src/lib/util.ts")
       "/src/lib/util.ts" = None.
Proof.
  destruct (find_after_upsert_and_delete sampleTree "/src/lib/util.ts" "x"
              eq_refl eq_refl) as ((n & Hn & _ & Hc & _) & Hd & _).
  split; [exists n; split; assumption | exact Hd].
Defined.

(** C5 as stated fails where the path names a folder: the folder node
    receives the content and stays a folder, so the lookup does not give a
    file node. *)
Lemma upsert_on_folder_path_counterexample :
  wfTree sampleTree = true
  /\ canonical "/src" = true
  /\ findFileByPath (addOrUpdateFileByPath sampleTree "/src" "x") "/src"
     = Some (mkFileNode "src" Folder "/src"
               (Some [ mkFileNode "App.tsx" File "/src/App.tsx" None (Some "Hello") ])
               (Some "x"))
  /\ ~ (exists n,
           findFileByPath (addOrUpdateFileByPath sampleTree "/src" "x") "/src" = Some n
           /\ type n = File).
Proof.
  split; [reflexivity|]. split; [reflexivity|]. split; [reflexivity|].
  intros (n & Hn & Hty). vm_compute in Hn. injection Hn as <-. discriminate Hty.
Qed.


(** A delete never makes a path appear. *)
Lemma findNode_deleteIn_none (p q : string) (n : FileNode) :
  findNode p n = None -> findNode p (deleteIn q n) = None.
Proof.
  induction n as [n IH] using FileNode_tree_ind. intros Hnone.
  rewrite deleteIn_unfold. unfold childrenOrEmpty in IH.
  destruct (type n) eqn:Hty; [exact Hnone|].
  destruct (children n) as [cs|] eqn:Hcs; [|exact Hnone].
  destruct (String.prefix (path n +:+ "/") q); [|exact Hnone].
  rewrite findNode_unfold in Hnone |- *. simpl.
  destruct (String.eqb (path n) p); [discriminate Hnone|].
  rewrite Hty, Hcs in Hnone. rewrite Hty.
  destruct (String.prefix (path n +:+ "/") p); [|reflexivity].
  clear Hcs. unfold findFileByPath in *.
  induction IH as [|x l Hx _ IHl]; [reflexivity|].
  rewrite firstSome_cons in Hnone.
  destruct (findNode p x) as [r|] eqn:Hr; [discriminate Hnone|].
  rewrite deleteNodeByPath_cons. destruct (String.eqb (path x) q); [now apply IHl|].
  rewrite firstSome_cons, (Hx eq_refl). now apply IHl.
Qed.

Lemma find_delete_none (t : list FileNode) (p q : string) :
  findFileByPath t p = None -> findFileByPath (deleteNodeByPath t q) p = None.
Proof.
  unfold findFileByPath. induction t as [|x l IH]; [reflexivity|].
  rewrite firstSome_cons. destruct (findNode p x) as [r|] eqn:Hr; [discriminate|].
  intros Hl. rewrite deleteNodeByPath_cons.
  destruct (String.eqb (path x) q); [now apply IH|].
  rewrite firstSome_cons, (findNode_deleteIn_none p q x Hr). now apply IH.
Qed.


(** *** Siblings: the node a path ends at, in a tree without duplicates *)

Lemma find_leaf (P f : string) (nodes : list FileNode) :
  wfNodes P nodes = true -> noSlash f ->
  findFileByPath nodes (P +:+ "/" +:+ f)
  = List.find (fun n => String.eqb (name n) f) nodes.
Proof.
  intros Hwf Hf. apply wfNodes_Forall in Hwf. unfold findFileByPath.
  induction Hwf as [|x l Hx _ IH]; [reflexivity|].
  rewrite firstSome_cons. cbn [List.find].
  destruct (wfNode_inv _ _ Hx) as (Hp & Hn & _).
  destruct (String.eqb_spec (name x) f) as [E|Hne].
  - now rewrite (findNode_leaf P f x Hp E).
  - rewrite (findNode_skip_leaf P f x Hx Hf); [exact IH|].
    now apply String.eqb_neq.
Qed.

Lemma distinct_cons (x : string) (l : list string) :
  distinct (x :: l) = negb (Str.includes l x) && distinct l.
Proof. reflexivity. Qed.

Lemma includes_In (arr : list string) (s : string) :
  Str.includes arr s = true <-> In s arr.
Proof.
  unfold Str.includes. rewrite existsb_exists. split.
  - intros (x & Hx & E). apply String.eqb_eq in E. now subst.
  - intros H. exists s. split; [exact H | apply String.eqb_refl].
Qed.

Lemma not_includes (l : list string) (x : string) :
  Str.includes l x = false -> Forall (fun y => y <> x) l.
Proof.
  unfold Str.includes. induction l as [|y l IH]; simpl; [constructor|].
  intros H. apply orb_false_iff in H as [Hy Hl].
  constructor; [|auto]. apply String.eqb_neq in Hy. congruence.
Qed.

(** In a folder without duplicates, at most one node has a given name. *)
Lemma level_split (seg : string) (nodes : list FileNode) :
  distinct (map name nodes) = true ->
  Forall (fun y => name y <> seg) nodes
  \/ exists l1 x l2, nodes = l1 ++ x :: l2 /\ name x = seg
                     /\ Forall (fun y => name y <> seg) l1
                     /\ Forall (fun y => name y <> seg) l2.
Proof.
  induction nodes as [|y l IH]; intros Hd; [left; constructor|].
  simpl in Hd. apply andb_true_iff in Hd as [Hy Hl]. apply negb_true_iff in Hy.
  destruct (String.eqb_spec (name y) seg) as [E|Hne].
  - right. exists [], y, l. split; [reflexivity|]. split; [exact E|].
    split; [constructor|]. apply not_includes in Hy.
    rewrite Forall_map in Hy. rewrite <- E.
    eapply Forall_impl; [exact Hy|]. auto.
  - destruct (IH Hl) as [Hall|(l1 & x & l2 & -> & Hx & H1 & H2)].
    + left. constructor; assumption.
    + right. exists (y :: l1), x, l2. split; [reflexivity|]. split; [exact Hx|].
      split; [constructor; assumption | exact H2].
Qed.

Lemma find_absent_level (P seg r : string) (nodes : list FileNode) :
  wfNodes P nodes = true -> noSlash seg -> rest r ->
  Forall (fun y => name y <> seg) nodes ->
  findFileByPath nodes (P +:+ "/" +:+ seg +:+ r) = None.
Proof.
  intros Hwf Hseg Hr Hall. apply wfNodes_Forall in Hwf.
  apply firstSome_None. apply List.Forall_forall. intros y Hy.
  rewrite List.Forall_forall in Hwf, Hall.
  destruct (wfNode_inv _ _ (Hwf y Hy)) as (Hp & Hn & _).
  apply findNode_other; auto.
Qed.

Lemma find_through (P seg r : string) (l1 l2 : list FileNode) (x : FileNode) :
  wfNodes P (l1 ++ x :: l2) = true -> noSlash seg -> rest r ->
  Forall (fun y => name y <> seg) l1 -> Forall (fun y => name y <> seg) l2 ->
  findFileByPath (l1 ++ x :: l2) (P +:+ "/" +:+ seg +:+ r)
  = findNode (P +:+ "/" +:+ seg +:+ r) x.
Proof.
  intros Hwf Hseg Hr H1 H2.
  rewrite wfNodes_app, wfNodes_cons in Hwf.
  apply andb_true_iff in Hwf as [Hw1 Hw2]. apply andb_true_iff in Hw2 as [_ Hw2].
  pose proof (find_absent_level P seg r l1 Hw1 Hseg Hr H1) as E1.
  pose proof (find_absent_level P seg r l2 Hw2 Hseg Hr H2) as E2.
  unfold findFileByPath in *.
  assert (Hskip : Forall (fun y => findNode (P +:+ "/" +:+ seg +:+ r) y = None) l1).
  { apply wfNodes_Forall in Hw1. apply List.Forall_forall. intros y Hy.
    rewrite List.Forall_forall in Hw1, H1.
    destruct (wfNode_inv _ _ (Hw1 y Hy)) as (Hp & Hn & _).
    apply findNode_other; auto. }
  rewrite firstSome_app by exact Hskip. rewrite firstSome_cons, E2.
  now destruct (findNode _ x).
Qed.

Lemma uniqueNames_inv (x : FileNode) (cs : list FileNode) :
  uniqueNames x = true -> children x = Some cs ->
  distinct (map name cs) = true /\ forallb uniqueNames cs = true.
Proof.
  destruct x as [nm ty pa c co]. simpl. intros H ->.
  now apply andb_true_iff in H.
Qed.

Lemma find_child (parts : list string) (f : string) :
  forall (P : string) (nodes : list FileNode),
    parts <> [] -> Forall noSlash parts -> noSlash f ->
    wfNodes P nodes = true ->
    distinct (map name nodes) = true -> forallb uniqueNames nodes = true ->
    findFileByPath nodes (P +:+ joinPath parts +:+ "/" +:+ f)
    = namedIn f (childrenAt (findFileByPath nodes (P +:+ joinPath parts))).
Proof.
  induction parts as [|seg parts IH]; intros P nodes Hne Hparts Hf Hwf Hd Hu;
    [contradiction|].
  apply Forall_cons in Hparts as [Hseg Hparts].
  change (joinPath (seg :: parts)) with ("/" +:+ seg +:+ joinPath parts).
  rewrite !sapp_assoc.
  assert (Hr1 : rest (joinPath parts +:+ "/" +:+ f)).
  { destruct (joinPath_rest parts) as [->|[r' ->]]; right; eexists; reflexivity. }
  pose proof (joinPath_rest parts) as Hr2.
  destruct (level_split seg nodes Hd) as [Hall|(l1 & x & l2 & -> & Hx & H1 & H2)].
  { rewrite (find_absent_level P seg _ nodes Hwf Hseg Hr1 Hall).
    now rewrite (find_absent_level P seg _ nodes Hwf Hseg Hr2 Hall). }
  rewrite (find_through P seg _ l1 l2 x Hwf Hseg Hr1 H1 H2).
  rewrite (find_through P seg _ l1 l2 x Hwf Hseg Hr2 H1 H2).
  rewrite wfNodes_app, wfNodes_cons in Hwf.
  apply andb_true_iff in Hwf as [_ Hwf]. apply andb_true_iff in Hwf as [Hwx _].
  rewrite forallb_app in Hu. apply andb_true_iff in Hu as [_ Hu].
  simpl in Hu. apply andb_true_iff in Hu as [Hux _].
  destruct (wfNode_inv _ _ Hwx) as (Hp & Hn & Hcs).
  destruct parts as [|seg' parts'].
  - change (joinPath []) with "". rewrite sapp_nil_r.
    change ("" +:+ "/" +:+ f) with (String "/" f).
    rewrite (findNode_inner P seg x Hp Hn f Hx).
    rewrite (findNode_leaf P seg x Hp Hx). simpl.
    unfold isFolder. destruct (type x); [reflexivity|]. simpl.
    unfold childrenOrEmpty in Hcs. destruct (children x) as [cs|]; [|reflexivity].
    rewrite Hp, Hx in Hcs.
    pose proof (find_leaf (P +:+ "/" +:+ seg) f cs Hcs Hf) as E.
    rewrite !sapp_assoc in E. exact E.
  - destruct (joinPath_rest (seg' :: parts')) as [Hnil|[r' Hr']];
      [discriminate Hnil|].
    assert (E1 : joinPath (seg' :: parts') +:+ "/" +:+ f = String "/" (r' +:+ "/" +:+ f))
      by now rewrite Hr'.
    rewrite E1, (findNode_inner P seg x Hp Hn _ Hx).
    rewrite Hr' at 1. rewrite (findNode_inner P seg x Hp Hn _ Hx).
    destruct (type x); [reflexivity|].
    destruct (children x) as [cs|] eqn:Hc; [|reflexivity].
    unfold childrenOrEmpty in Hcs. rewrite Hc, Hp, Hx in Hcs.
    destruct (uniqueNames_inv x cs Hux Hc) as [Hdc Huc].
    pose proof (IH (P +:+ "/" +:+ seg) cs ltac:(discriminate) Hparts Hf Hcs Hdc Huc)
      as Hrec.
    rewrite !sapp_assoc in Hrec. rewrite E1, Hr' in Hrec. exact Hrec.
Qed.


Lemma find_Some_existsb {A} (f : A -> bool) (l : list A) :
  List.find f l <> None <-> existsb f l = true.
Proof.
  induction l as [|x l IH]; simpl; [split; [contradiction | discriminate]|].
  destruct (f x); [split; [reflexivity | discriminate]|]. exact IH.
Qed.

(** The lookup [addNodeToTree] starts with finds a node exactly when the
    parent has a child of that name. *)
Lemma find_new_path (t : list FileNode) (parentPath nodeName : string) :
  wfTree t = true -> HeapModel.uniqueTree t = true ->
  parentPath = "/" \/ canonical parentPath = true ->
  noSlash nodeName ->
  findFileByPath t (newNodePathOf parentPath nodeName) <> None
  <-> HeapModel.siblingExists t parentPath nodeName = true.
Proof.
  intros Hwf Hu Hparent Hname.
  unfold HeapModel.uniqueTree in Hu. apply andb_true_iff in Hu as [Hd Hu].
  unfold HeapModel.siblingExists, HeapModel.siblingsAt, newNodePathOf.
  destruct Hparent as [->|Hcan].
  - change (String.eqb "/" "/") with true. cbv iota.
    change ("/" +:+ nodeName) with ("" +:+ "/" +:+ nodeName).
    rewrite (find_leaf "" nodeName t Hwf Hname). apply find_Some_existsb.
  - destruct (String.eqb_spec parentPath "/") as [->|_]; [discriminate Hcan|].
    destruct (canonical_inv parentPath Hcan) as (parts & f & _ & E & Hparts & Hf).
    pose proof (find_child (parts ++ [f]) nodeName "" t) as Hchild.
    change ("" +:+ ?x) with x in Hchild. rewrite <- E in Hchild.
    rewrite Hchild; auto.
    + unfold childrenAt, namedIn.
      destruct (findFileByPath t parentPath) as [n|];
        [|split; [contradiction | discriminate]].
      destruct (isFolder n); [|split; [contradiction | discriminate]].
      destruct (children n) as [cs|]; [|split; [contradiction | discriminate]].
      apply find_Some_existsb.
    + destruct parts; discriminate.
    + apply Forall_app. split; [exact Hparts | now constructor].
Qed.


(** *** Writes and deletes elsewhere *)

Lemma sameEntry_refl (n : FileNode) : sameEntry n n.
Proof. repeat split. Qed.

Lemma sameEntry_trans (a b c : FileNode) :
  sameEntry a b -> sameEntry b c -> sameEntry a c.
Proof.
  intros (A1 & A2 & A3 & A4) (B1 & B2 & B3 & B4).
  repeat split; congruence.
Qed.

Lemma sameEntry_setChildren (cs : list FileNode) (n : FileNode) :
  sameEntry (setChildren cs n) n.
Proof. destruct n; repeat split. Qed.

Lemma firstSome_app_Some {A B} (f : A -> option B) (l1 l2 : list A) (r : B) :
  firstSome f l1 = Some r -> firstSome f (l1 ++ l2) = Some r.
Proof.
  induction l1 as [|x l1 IH]; [discriminate|].
  change ((x :: l1) ++ l2) with (x :: (l1 ++ l2)). rewrite !firstSome_cons.
  destruct (f x); auto.
Qed.

Lemma firstSome_In {A B} (f : A -> option B) (l : list A) (r : B) :
  firstSome f l = Some r -> exists y, In y l /\ f y = Some r.
Proof.
  induction l as [|x l IH]; [discriminate|].
  rewrite firstSome_cons. destruct (f x) as [r'|] eqn:Hx.
  - intros [= <-]. exists x. split; [left; reflexivity | exact Hx].
  - intros H. destruct (IH H) as (y & Hy & E). exists y. split; [right|]; assumption.
Qed.

Lemma firstSome_None_inv {A B} (f : A -> option B) (l : list A) :
  firstSome f l = None -> Forall (fun y => f y = None) l.
Proof.
  induction l as [|x l IH]; [constructor|].
  rewrite firstSome_cons. destruct (f x) eqn:Hx; [discriminate|].
  intros H. constructor; auto.
Qed.

Lemma findNode_setContent_other (p c : string) (x : FileNode) :
  path x <> p -> findNode p (setContent c x) = findNode p x.
Proof.
  intros H. rewrite !findNode_unfold. destruct x as [nm ty pa cs co]. simpl in *.
  destruct (String.eqb_spec pa p); [contradiction | reflexivity].
Qed.

(** A lookup that succeeds stops at the node or goes below it. *)
Lemma findNode_at_or_below (p : string) (x m : FileNode) :
  findNode p x = Some m ->
  path x = p \/ String.prefix (path x +:+ "/") p = true.
Proof.
  rewrite findNode_unfold. destruct (String.eqb_spec (path x) p); [auto|].
  destruct (type x); [discriminate|]. destruct (children x); [|discriminate].
  destruct (String.prefix _ p); [auto | discriminate].
Qed.

(** *** Folders of one name *)

Lemma distinct_app_r (a l : list string) :
  distinct (a ++ l) = true -> distinct l = true.
Proof.
  induction a as [|x a IH]; [auto|].
  change ((x :: a) ++ l) with (x :: (a ++ l)). rewrite distinct_cons.
  intros H. apply andb_true_iff in H as [_ H]. auto.
Qed.

Lemma includes_app (a b : list string) (s : string) :
  Str.includes (a ++ b) s = Str.includes a s || Str.includes b s.
Proof. unfold Str.includes. apply existsb_app. Qed.

Lemma distinct_snoc (l : list string) (s : string) :
  distinct l = true -> Str.includes l s = false -> distinct (l ++ [s]) = true.
Proof.
  induction l as [|x l IH]; intros Hd Hs; [reflexivity|].
  change ((x :: l) ++ [s]) with (x :: (l ++ [s])).
  rewrite distinct_cons in Hd |- *. apply andb_true_iff in Hd as [Hx Hd].
  unfold Str.includes in Hs. simpl in Hs. apply orb_false_iff in Hs as [Hsx Hs].
  rewrite includes_app. apply negb_true_iff in Hx. rewrite Hx.
  unfold Str.includes at 1. simpl. rewrite String.eqb_sym, Hsx. simpl.
  now apply IH.
Qed.

Lemma folderNames_app (l1 l2 : list FileNode) :
  folderNames (l1 ++ l2) = folderNames l1 ++ folderNames l2.
Proof. unfold folderNames. now rewrite List.filter_app, List.map_app. Qed.

Lemma folderNames_cons (x : FileNode) (l : list FileNode) :
  folderNames (x :: l) = if isFolder x then name x :: folderNames l else folderNames l.
Proof. unfold folderNames. simpl. now destruct (isFolder x). Qed.

Lemma uniqueFoldersIn_children (x : FileNode) :
  uniqueFolders x = true -> uniqueFoldersIn (childrenOrEmpty x) = true.
Proof. destruct x as [nm ty pa [cs|] co]; [auto | reflexivity]. Qed.

Lemma uniqueFolders_setChildren (cs : list FileNode) (x : FileNode) :
  uniqueFolders (setChildren cs x) = uniqueFoldersIn cs.
Proof. destruct x; reflexivity. Qed.

Lemma uniqueFoldersIn_inv (l1 l2 : list FileNode) (x : FileNode) :
  uniqueFoldersIn (l1 ++ x :: l2) = true ->
  uniqueFolders x = true
  /\ (isFolder x = true ->
      Forall (fun y => isFolder y = true -> name y <> name x) l2).
Proof.
  unfold uniqueFoldersIn. intros H. apply andb_true_iff in H as [Hd Hu].
  rewrite forallb_app in Hu. apply andb_true_iff in Hu as [_ Hu].
  simpl in Hu. apply andb_true_iff in Hu as [Hx _]. split; [exact Hx|].
  intros Hf. rewrite folderNames_app, folderNames_cons, Hf in Hd.
  apply distinct_app_r in Hd. rewrite distinct_cons in Hd.
  apply andb_true_iff in Hd as [Hd _]. apply negb_true_iff, not_includes in Hd.
  apply List.Forall_forall. intros y Hy Hfy.
  rewrite List.Forall_forall in Hd. apply Hd.
  unfold folderNames. apply List.in_map, List.filter_In. auto.
Qed.

Lemma uniqueFoldersIn_replace (l1 l2 : list FileNode) (x x' : FileNode) :
  name x' = name x -> isFolder x' = isFolder x -> uniqueFolders x' = true ->
  uniqueFoldersIn (l1 ++ x :: l2) = true ->
  uniqueFoldersIn (l1 ++ x' :: l2) = true.
Proof.
  unfold uniqueFoldersIn. intros Hn Hf Hu H. apply andb_true_iff in H as [Hd Hall].
  rewrite folderNames_app, folderNames_cons in Hd |- *. rewrite Hn, Hf, Hd.
  rewrite forallb_app in Hall |- *. apply andb_true_iff in Hall as [H1 H2].
  simpl in H2 |- *. apply andb_true_iff in H2 as [_ H2]. now rewrite H1, Hu, H2.
Qed.

Lemma uniqueFoldersIn_snoc (l : list FileNode) (z : FileNode) :
  uniqueFolders z = true ->
  Forall (fun y => String.eqb (name y) (name z) && isFolder y = false) l
  \/ isFolder z = false ->
  uniqueFoldersIn l = true -> uniqueFoldersIn (l ++ [z]) = true.
Proof.
  unfold uniqueFoldersIn. intros Hu Hz H. apply andb_true_iff in H as [Hd Hall].
  rewrite forallb_app, Hall. simpl. rewrite Hu. simpl. rewrite andb_true_r.
  rewrite folderNames_app, folderNames_cons.
  destruct (isFolder z) eqn:Hf.
  2:{ change (folderNames []) with (@nil string). now rewrite List.app_nil_r. }
  destruct Hz as [Hz|Hz]; [|discriminate Hz].
  change (folderNames []) with (@nil string). apply distinct_snoc; [exact Hd|].
  destruct (Str.includes (folderNames l) (name z)) eqn:Hi; [|reflexivity].
  apply includes_In in Hi. unfold folderNames in Hi.
  apply List.in_map_iff in Hi as (y & Hy & Hin).
  apply List.filter_In in Hin as [Hin Hfy].
  rewrite List.Forall_forall in Hz. specialize (Hz y Hin).
  rewrite Hy, String.eqb_refl, Hfy in Hz. discriminate Hz.
Qed.


(** [addOrUpdateFileByPath] keeps folders of one name apart. *)
Lemma upsertWalk_uniqueFolders (parts : list string) :
  forall (f c P : string) (nodes : list FileNode),
    uniqueFoldersIn nodes = true ->
    uniqueFoldersIn (upsertWalk parts f c P nodes) = true.
Proof.
  induction parts as [|part parts IH]; intros f c P nodes Hu.
  - change (upsertWalk [] f c P nodes) with
      (match findIndex (fun node => String.eqb (name node) f) nodes with
       | Some fileIndex => alter (setContent c) fileIndex nodes
       | None => nodes ++ [mkFileNode f File (P +:+ "/" +:+ f) None (Some c)]
       end).
    destruct (findIndex _ nodes) as [i|] eqn:Hi.
    + destruct (findIndex_Some _ _ _ Hi) as (l1 & x & l2 & -> & <- & _ & _).
      rewrite alter_middle.
      apply (uniqueFoldersIn_replace l1 l2 x); try (destruct x; reflexivity);
        [|exact Hu].
      destruct (uniqueFoldersIn_inv l1 l2 x Hu) as [Hx _].
      destruct x; exact Hx.
    + apply uniqueFoldersIn_snoc; [reflexivity | right; reflexivity | exact Hu].
  - change (upsertWalk (part :: parts) f c P nodes) with
      (match findIndex (fun node => String.eqb (name node) part && isFolder node)
               nodes with
       | Some i =>
           alter (fun folder =>
                    setChildren (upsertWalk parts f c (P +:+ "/" +:+ part)
                                   (childrenOrEmpty folder)) folder) i nodes
       | None =>
           nodes ++
             [mkFileNode part Folder (P +:+ "/" +:+ part)
                (Some (upsertWalk parts f c (P +:+ "/" +:+ part) [])) None]
       end).
    destruct (findIndex _ nodes) as [i|] eqn:Hi.
    + destruct (findIndex_Some _ _ _ Hi) as (l1 & x & l2 & -> & <- & _ & _).
      rewrite alter_middle.
      destruct (uniqueFoldersIn_inv l1 l2 x Hu) as [Hx _].
      apply (uniqueFoldersIn_replace l1 l2 x); try (destruct x; reflexivity);
        [|exact Hu].
      rewrite uniqueFolders_setChildren. apply IH.
      now apply uniqueFoldersIn_children.
    + apply findIndex_None in Hi.
      apply uniqueFoldersIn_snoc; [|left; exact Hi | exact Hu].
      change (uniqueFoldersIn (upsertWalk parts f c (P +:+ "/" +:+ part) []) = true).
      now apply IH.
Qed.

Lemma upsert_uniqueFolders (t : list FileNode) (p c : string) :
  uniqueFoldersIn t = true -> uniqueFoldersIn (addOrUpdateFileByPath t p c) = true.
Proof.
  intros H. unfold addOrUpdateFileByPath.
  destruct (pop (pathSegments p)) as [[parts f]|]; [|exact H].
  now apply upsertWalk_uniqueFolders.
Qed.

Lemma deleteIn_isFolder (p : string) (n : FileNode) :
  isFolder (deleteIn p n) = isFolder n.
Proof.
  rewrite deleteIn_unfold. unfold isFolder.
  destruct (type n) eqn:Hty, (children n); rewrite ?Hty; try reflexivity.
  destruct (String.prefix _ p); [|now rewrite Hty].
  destruct n; simpl in *. now rewrite Hty.
Qed.

Lemma folderNames_delete (l : list FileNode) (p s : string) :
  In s (folderNames (deleteNodeByPath l p)) -> In s (folderNames l).
Proof.
  induction l as [|x l IH]; [auto|].
  rewrite deleteNodeByPath_cons, (folderNames_cons x).
  destruct (String.eqb (path x) p).
  - intros H. destruct (isFolder x); [right|]; auto.
  - rewrite folderNames_cons, deleteIn_isFolder, deleteIn_name.
    destruct (isFolder x); [|exact IH].
    intros [H|H]; [left; exact H | right; auto].
Qed.

Lemma delete_distinct (l : list FileNode) (p : string) :
  distinct (folderNames l) = true ->
  distinct (folderNames (deleteNodeByPath l p)) = true.
Proof.
  induction l as [|x l IH]; [auto|].
  rewrite deleteNodeByPath_cons, (folderNames_cons x).
  assert (Hl : distinct (if isFolder x then name x :: folderNames l else folderNames l)
               = true -> distinct (folderNames l) = true).
  { destruct (isFolder x); [|auto]. rewrite distinct_cons. intros H.
    now apply andb_true_iff in H as [_ H]. }
  destruct (String.eqb (path x) p); [intros H; apply IH, Hl, H|].
  rewrite folderNames_cons, deleteIn_isFolder, deleteIn_name.
  destruct (isFolder x); [|exact IH].
  rewrite !distinct_cons. intros H. apply andb_true_iff in H as [Hx H].
  rewrite (IH H), andb_true_r. apply negb_true_iff in Hx. apply negb_true_iff.
  destruct (Str.includes (folderNames (deleteNodeByPath l p)) (name x)) eqn:Hi;
    [|reflexivity].
  apply includes_In, folderNames_delete, includes_In in Hi.
  rewrite Hi in Hx. discriminate Hx.
Qed.

Lemma deleteIn_uniqueFolders (p : string) (n : FileNode) :
  uniqueFolders n = true -> uniqueFolders (deleteIn p n) = true.
Proof.
  induction n as [n IH] using FileNode_tree_ind. intros Hu.
  rewrite deleteIn_unfold. unfold childrenOrEmpty in IH.
  destruct (type n); [exact Hu|].
  destruct (children n) as [cs|] eqn:Hc; [|exact Hu].
  destruct (String.prefix _ p); [|exact Hu].
  rewrite uniqueFolders_setChildren.
  pose proof (uniqueFoldersIn_children n Hu) as Hcs.
  unfold childrenOrEmpty in Hcs. rewrite Hc in Hcs. clear Hc.
  unfold uniqueFoldersIn in *. apply andb_true_iff in Hcs as [Hd Hall].
  rewrite (delete_distinct cs p Hd), andb_true_l. clear Hd.
  induction IH as [|x l Hx _ IHl]; [reflexivity|].
  simpl in Hall. apply andb_true_iff in Hall as [Hux Hall].
  rewrite deleteNodeByPath_cons. destruct (String.eqb (path x) p); [now apply IHl|].
  simpl. rewrite (Hx Hux). now apply IHl.
Qed.

Lemma delete_uniqueFolders (t : list FileNode) (p : string) :
  uniqueFoldersIn t = true -> uniqueFoldersIn (deleteNodeByPath t p) = true.
Proof.
  unfold uniqueFoldersIn. intros H. apply andb_true_iff in H as [Hd Hall].
  rewrite (delete_distinct t p Hd), andb_true_l. clear Hd.
  induction t as [|x l IH]; [reflexivity|].
  simpl in Hall. apply andb_true_iff in Hall as [Hux Hall].
  rewrite deleteNodeByPath_cons. destruct (String.eqb (path x) p); [now apply IH|].
  simpl. rewrite (deleteIn_uniqueFolders p x Hux). now apply IH.
Qed.


(** *** A delete leaves the other paths found *)

Lemma sameEntry_deleteIn (q : string) (n : FileNode) : sameEntry (deleteIn q n) n.
Proof.
  rewrite deleteIn_unfold. destruct (type n), (children n);
    try apply sameEntry_refl.
  destruct (String.prefix _ q); [apply sameEntry_setChildren | apply sameEntry_refl].
Qed.

Lemma find_delete_other_level (p q : string) (l : list FileNode) :
  p <> q -> String.prefix (q +:+ "/") p = false ->
  Forall (fun x => forall n, findNode p x = Some n ->
                   exists n', findNode p (deleteIn q x) = Some n' /\ sameEntry n' n) l ->
  forall n, findFileByPath l p = Some n ->
  exists n', findFileByPath (deleteNodeByPath l q) p = Some n' /\ sameEntry n' n.
Proof.
  intros Hne Hpre Hall. unfold findFileByPath.
  induction Hall as [|x l Hx _ IHl]; intros n Hn; [discriminate Hn|].
  rewrite firstSome_cons in Hn. rewrite deleteNodeByPath_cons.
  destruct (findNode p x) as [r|] eqn:Hr.
  - injection Hn as ->.
    destruct (String.eqb_spec (path x) q) as [E|_].
    { exfalso. destruct (findNode_at_or_below p x n Hr) as [E'|E'].
      - apply Hne. congruence.
      - rewrite E, Hpre in E'. discriminate E'. }
    destruct (Hx n eq_refl) as (n' & Hn' & Hs).
    exists n'. split; [|exact Hs]. now rewrite firstSome_cons, Hn'.
  - destruct (String.eqb (path x) q); [now apply IHl|].
    rewrite firstSome_cons, (findNode_deleteIn_none p q x Hr). now apply IHl.
Qed.

Lemma findNode_deleteIn_other (p q : string) (x : FileNode) :
  p <> q -> String.prefix (q +:+ "/") p = false ->
  forall n, findNode p x = Some n ->
  exists n', findNode p (deleteIn q x) = Some n' /\ sameEntry n' n.
Proof.
  intros Hne Hpre. induction x as [x IH] using FileNode_tree_ind. intros n.
  unfold childrenOrEmpty in IH.
  rewrite (findNode_unfold p x).
  destruct (String.eqb_spec (path x) p) as [E|Hxp].
  { intros [= <-]. exists (deleteIn q x). split; [|apply sameEntry_deleteIn].
    rewrite findNode_unfold, deleteIn_path, E. now rewrite String.eqb_refl. }
  destruct (type x) eqn:Hty; [discriminate|].
  destruct (children x) as [cs|] eqn:Hc; [|discriminate].
  destruct (String.prefix (path x +:+ "/") p) eqn:Hpp; [|discriminate].
  intros Hn. rewrite deleteIn_unfold, Hty, Hc.
  destruct (String.prefix (path x +:+ "/") q).
  - destruct (find_delete_other_level p q cs Hne Hpre IH n Hn) as (n' & Hn' & Hs).
    exists n'. split; [|exact Hs].
    rewrite findNode_unfold.
    change (path (setChildren ?c x)) with (path x).
    change (type (setChildren ?c x)) with (type x).
    change (children (setChildren ?c x)) with (Some c).
    apply String.eqb_neq in Hxp. now rewrite Hxp, Hty, Hpp.
  - exists n. split; [|apply sameEntry_refl].
    rewrite findNode_unfold. apply String.eqb_neq in Hxp.
    now rewrite Hxp, Hty, Hc, Hpp.
Qed.

(** A node found at a path that is neither the deleted path nor below it
    is found there after the delete, the same but for its children. *)
Lemma find_delete_other (t : list FileNode) (p q : string) (n : FileNode) :
  p <> q -> String.prefix (q +:+ "/") p = false ->
  findFileByPath t p = Some n ->
  exists n', findFileByPath (deleteNodeByPath t q) p = Some n' /\ sameEntry n' n.
Proof.
  intros Hne Hpre. apply find_delete_other_level; auto.
  apply List.Forall_forall. intros x _. now apply findNode_deleteIn_other.
Qed.


(** *** A write leaves the other paths found *)

Lemma firstSome_replace {A B} (f : A -> option B) (l1 l2 : list A) (x x' : A) :
  f x' = f x -> firstSome f (l1 ++ x' :: l2) = firstSome f (l1 ++ x :: l2).
Proof.
  intros E. induction l1 as [|y l1 IH].
  - change (firstSome f (x' :: l2) = firstSome f (x :: l2)).
    now rewrite !firstSome_cons, E.
  - change (firstSome f (y :: (l1 ++ x' :: l2)) = firstSome f (y :: (l1 ++ x :: l2))).
    now rewrite !firstSome_cons, IH.
Qed.

Lemma joinPath_nil_inv (l : list string) : joinPath l = "" -> l = [].
Proof. destruct l; [reflexivity | discriminate]. Qed.

(** In a well-formed tree where no two folders of a folder share a name, a
    node found at a path of other segments than the written ones is found
    there after the walk, the same but for its children. *)
Lemma find_upsertWalk_other (parts : list string) :
  forall (f c P : string) (nodes : list FileNode) (pp : list string) (n : FileNode),
    Forall noSlash parts -> noSlash f -> Forall noSlash pp -> pp <> [] ->
    wfNodes P nodes = true -> uniqueFoldersIn nodes = true ->
    pp <> parts ++ [f] ->
    findFileByPath nodes (P +:+ joinPath pp) = Some n ->
    exists n',
      findFileByPath (upsertWalk parts f c P nodes) (P +:+ joinPath pp) = Some n'
      /\ sameEntry n' n.
Proof.
  induction parts as [|part parts IH];
    intros f c P nodes pp n Hparts Hf Hpp Hnil Hwf Hu Hne Hfind.
  - destruct pp as [|s pp']; [contradiction|].
    apply Forall_cons in Hpp as [Hs Hpp'].
    change (joinPath (s :: pp')) with ("/" +:+ s +:+ joinPath pp') in *.
    pose proof (joinPath_rest pp') as HR.
    change (upsertWalk [] f c P nodes) with
      (match findIndex (fun node => String.eqb (name node) f) nodes with
       | Some fileIndex => alter (setContent c) fileIndex nodes
       | None => nodes ++ [mkFileNode f File (P +:+ "/" +:+ f) None (Some c)]
       end).
    destruct (findIndex _ nodes) as [i|] eqn:Hi.
    + destruct (findIndex_Some _ _ _ Hi) as (l1 & x & l2 & -> & <- & Hx & _).
      rewrite alter_middle. exists n. split; [|apply sameEntry_refl].
      unfold findFileByPath in *. rewrite <- Hfind. apply firstSome_replace.
      apply findNode_setContent_other.
      apply wfNodes_Forall, Forall_app in Hwf as [_ Hwf].
      apply Forall_cons in Hwf as [Hwx _].
      destruct (wfNode_inv _ _ Hwx) as (Hp & Hn & _).
      apply String.eqb_eq in Hx. rewrite Hp, Hx. intros E.
      apply String.eqb_eq in E. rewrite eqb_app, (eqb_app "/") in E.
      apply String.eqb_eq in E.
      destruct (seg_eq_inv f s (joinPath pp') Hf HR E) as [-> Hr].
      apply joinPath_nil_inv in Hr. subst pp'. now apply Hne.
    + exists n. split; [|apply sameEntry_refl].
      now apply firstSome_app_Some.
  - destruct pp as [|s pp']; [contradiction|].
    apply Forall_cons in Hpp as [Hs Hpp'].
    apply Forall_cons in Hparts as [Hpart Hparts].
    change (joinPath (s :: pp')) with ("/" +:+ s +:+ joinPath pp') in *.
    pose proof (joinPath_rest pp') as HR.
    change (upsertWalk (part :: parts) f c P nodes) with
      (match findIndex (fun node => String.eqb (name node) part && isFolder node)
               nodes with
       | Some i =>
           alter (fun folder =>
                    setChildren (upsertWalk parts f c (P +:+ "/" +:+ part)
                                   (childrenOrEmpty folder)) folder) i nodes
       | None =>
           nodes ++
             [mkFileNode part Folder (P +:+ "/" +:+ part)
                (Some (upsertWalk parts f c (P +:+ "/" +:+ part) [])) None]
       end).
    destruct (findIndex _ nodes) as [i|] eqn:Hi.
    2:{ exists n. split; [|apply sameEntry_refl]. now apply firstSome_app_Some. }
    destruct (findIndex_Some _ _ _ Hi) as (l1 & x & l2 & -> & <- & Hx & _).
    rewrite alter_middle.
    destruct (uniqueFoldersIn_inv l1 l2 x Hu) as [Hux Hothers].
    apply andb_true_iff in Hx as [Hx Hfolder]. apply String.eqb_eq in Hx.
    specialize (Hothers Hfolder).
    assert (Hty : type x = Folder)
      by (unfold isFolder in Hfolder; destruct (type x); [discriminate|reflexivity]).
    apply wfNodes_Forall, Forall_app in Hwf as [_ Hwf].
    apply Forall_cons in Hwf as [Hwx Hwf2].
    destruct (wfNode_inv _ _ Hwx) as (Hp & Hn & Hcs).
    unfold findFileByPath in *.
    set (p := P +:+ "/" +:+ s +:+ joinPath pp') in *.
    set (x' := setChildren (upsertWalk parts f c (P +:+ "/" +:+ part)
                              (childrenOrEmpty x)) x).
    destruct (firstSome (findNode p) l1) as [r|] eqn:H1.
    { rewrite (firstSome_app_Some _ l1 _ r H1) in Hfind.
      injection Hfind as ->. exists n. split; [|apply sameEntry_refl].
      now apply firstSome_app_Some. }
    apply firstSome_None_inv in H1.
    rewrite firstSome_app in Hfind |- * by exact H1.
    rewrite firstSome_cons in Hfind |- *.
    destruct (findNode p x) as [m|] eqn:Hfx.
    + injection Hfind as ->.
      rewrite findNode_unfold in Hfx.
      destruct (String.eqb_spec (path x) p) as [E|Hxp].
      { injection Hfx as <-. exists x'. split; [|apply sameEntry_setChildren].
        rewrite findNode_unfold. change (path x') with (path x).
        now rewrite E, String.eqb_refl. }
      rewrite Hty in Hfx. destruct (children x) as [cs|] eqn:Hc; [|discriminate Hfx].
      destruct (String.prefix (path x +:+ "/") p) eqn:Hpre; [|discriminate Hfx].
      unfold p in Hpre. rewrite Hp, Hx in Hpre.
      rewrite !sapp_assoc, prefix_app, (prefix_app "/") in Hpre.
      destruct (seg_prefix_inv part s (joinPath pp') Hpart Hs HR Hpre) as [<- Hr].
      destruct HR as [HR|[r' HR]]; [contradiction|].
      assert (Hpp'nil : pp' <> []) by (intros ->; discriminate HR).
      assert (Hne' : pp' <> parts ++ [f]).
      { intros ->. now apply Hne. }
      assert (Ep : p = (P +:+ "/" +:+ part) +:+ joinPath pp')
        by (unfold p; now rewrite !sapp_assoc).
      unfold childrenOrEmpty in Hcs. rewrite Hc, Hp, Hx in Hcs.
      pose proof (uniqueFoldersIn_children x Hux) as Hucs.
      unfold childrenOrEmpty in Hucs. rewrite Hc in Hucs.
      rewrite Ep in Hfx.
      destruct (IH f c (P +:+ "/" +:+ part) cs pp' n Hparts Hf Hpp' Hpp'nil
                  Hcs Hucs Hne' Hfx) as (n' & Hn' & Hsame).
      exists n'. split; [|exact Hsame].
      unfold p. rewrite HR.
      rewrite (findNode_folder P part r' x' _ Hp Hn Hx Hty eq_refl).
      rewrite <- HR. unfold childrenOrEmpty. rewrite Hc.
      rewrite <- !sapp_assoc. rewrite <- !sapp_assoc in Hn'.
      unfold findFileByPath. now rewrite Hn'.
    + assert (Hx'none : findNode p x' = None).
      { destruct (String.eqb_spec part s) as [E|Hps].
        - exfalso. destruct (firstSome_In _ _ _ Hfind) as (y & Hy & Hfy).
          rewrite List.Forall_forall in Hwf2, Hothers.
          destruct (wfNode_inv _ _ (Hwf2 y Hy)) as (Hpy & Hny & _).
          assert (Hys : name y = s).
          { destruct (String.eqb_spec (name y) s) as [|Hys]; [assumption|].
            unfold p in Hfy.
            rewrite (findNode_other P s y Hpy Hny Hs _ HR Hys) in Hfy.
            discriminate Hfy. }
          destruct (isFolder y) eqn:Hyf.
          + apply (Hothers y Hy Hyf). congruence.
          + rewrite findNode_unfold in Hfy.
            destruct (String.eqb_spec (path y) p) as [Ey|_].
            * rewrite findNode_unfold in Hfx.
              assert (Exy : path x = p) by (rewrite Hp, Hx, E, <- Hys, <- Hpy; exact Ey).
              rewrite Exy, String.eqb_refl in Hfx. discriminate Hfx.
            * unfold isFolder in Hyf. destruct (type y); discriminate.
        - unfold p.
          apply (findNode_other P s x'); auto.
          change (name x') with (name x). congruence. }
      rewrite Hx'none. exists n. split; [exact Hfind | apply sameEntry_refl].
Qed.


Lemma canonical_segments (p : string) :
  canonical p = true -> p = joinPath (pathSegments p) /\ pathSegments p <> [].
Proof.
  unfold canonical. intros H. apply andb_true_iff in H as [Hp Hl].
  apply String.eqb_eq in Hp. apply negb_true_iff, Nat.eqb_neq in Hl.
  split; [exact Hp|]. intros E. now rewrite E in Hl.
Qed.

(** A node found at a canonical path is found there after a write to a
    path of other segments, the same but for its children. *)
Lemma find_upsert_other (t : list FileNode) (p q c : string) (n : FileNode) :
  wfTree t = true -> uniqueFoldersIn t = true -> canonical p = true ->
  pathSegments q <> pathSegments p ->
  findFileByPath t p = Some n ->
  exists n', findFileByPath (addOrUpdateFileByPath t q c) p = Some n'
             /\ sameEntry n' n.
Proof.
  intros Hwf Hu Hp Hne Hfind. unfold addOrUpdateFileByPath.
  destruct (pop (pathSegments q)) as [[parts f]|] eqn:Hpop.
  2:{ exists n. split; [exact Hfind | apply sameEntry_refl]. }
  pose proof (pop_Some _ _ _ Hpop) as Eq.
  pose proof (pathSegments_noSlash q) as Hq. rewrite Eq in Hq.
  apply Forall_app in Hq as [Hparts Hf]. apply Forall_cons in Hf as [Hf _].
  destruct (canonical_segments p Hp) as [Ep Hnil].
  rewrite Ep in Hfind |- *.
  apply (find_upsertWalk_other parts f c "" t (pathSegments p) n); auto.
  - apply pathSegments_noSlash.
  - intros E. apply Hne. now rewrite Eq.
Qed.

End TreeFacts.

(** ** The mutation handlers *)

Module DispatcherFacts.

Import History Explorer Dispatcher Tree Model Samples StrFacts TreeFacts.

(** *** The summary is streamed whole *)

Lemma concat_splitKeepSpaces (b : bool) (cur s : string) :
  Str.concat (JS.splitKeepSpaces b cur s) = cur +:+ s.
Proof.
  revert b cur. induction s as [|c s IH]; intros b cur.
  - simpl. destruct b; simpl; now rewrite ?sapp_nil_r.
  - simpl. destruct (Bool.eqb (JS.isSpace c) b).
    + rewrite IH. now rewrite sapp_assoc.
    + simpl. now rewrite IH.
Qed.

Lemma concat_splitWords (s : string) : Str.concat (JS.splitWords s) = s.
Proof. unfold JS.splitWords. now rewrite concat_splitKeepSpaces. Qed.

Lemma stream_words (words : list string) (s : IDEState) :
  forEach words (fun word => upd (fun s => setAiMessage (aiMessage s +:+ word) s)) s
  = (Some tt, setAiMessage (aiMessage s +:+ Str.concat words) s).
Proof.
  revert s. induction words as [|w words IH]; intros s.
  - simpl. rewrite sapp_nil_r. destruct s; reflexivity.
  - simpl. unfold bindA, upd. rewrite IH. simpl. now rewrite sapp_assoc.
Qed.

(** *** Steps that leave the log, the live tree and the runtime alone *)

Lemma core_addToast (msg : string) (ty : ToastType) (s : IDEState) :
  core (addToast msg ty s) = core s.
Proof. reflexivity. Qed.

Lemma handleOpenFile_core (cl : IDEState) (t : list FileNode) (p : string) (s : IDEState) :
  projectStructure cl = Some t ->
  fst (handleOpenFile cl p s) = Some tt
  /\ core (snd (handleOpenFile cl p s)) = core s
  /\ aiMessage (snd (handleOpenFile cl p s)) = aiMessage s
  /\ toasts (snd (handleOpenFile cl p s)) = toasts s.
Proof.
  intros Ht. unfold handleOpenFile, findIn, bindA, defined. rewrite Ht. simpl.
  destruct (findFileByPath t p) as [f|]; [|auto].
  destruct (isFile f); auto.
Qed.

Lemma openFiles_core (cl : IDEState) (t : list FileNode) (us : list AiFile) (s : IDEState) :
  projectStructure cl = Some t ->
  fst (forEach us (fun file => handleOpenFile cl (filePath file)) s) = Some tt
  /\ core (snd (forEach us (fun file => handleOpenFile cl (filePath file)) s)) = core s
  /\ aiMessage (snd (forEach us (fun file => handleOpenFile cl (filePath file)) s))
     = aiMessage s
  /\ toasts (snd (forEach us (fun file => handleOpenFile cl (filePath file)) s))
     = toasts s.
Proof.
  intros Ht. revert s. induction us as [|u us IH]; intros s; [simpl; auto|].
  simpl. unfold bindA.
  destruct (handleOpenFile_core cl t (filePath u) s Ht) as (Hr & Hc & Ha & Hts).
  destruct (handleOpenFile cl (filePath u) s) as [r s1]. simpl in *. subst r.
  destruct (IH s1) as (Hr' & Hc' & Ha' & Hts').
  rewrite Hr', Hc', Ha', Hts'. auto.
Qed.


(** *** The two loops of [applyAiChanges] *)

Lemma onlyFs_refl (s : IDEState) : onlyFs s s.
Proof. exists (fsCalls s). now destruct s. Qed.

Lemma onlyFs_trans (s1 s2 s3 : IDEState) : onlyFs s1 s2 -> onlyFs s2 s3 -> onlyFs s1 s3.
Proof. intros [l1 ->] [l2 ->]. exists l2. reflexivity. Qed.

Lemma fsCall_onlyFs (runtime : FsCall -> bool) (c : FsCall) (s : IDEState) :
  onlyFs s (snd (fsCall runtime c s)).
Proof. unfold fsCall. eexists. destruct (runtime c); reflexivity. Qed.

Lemma deleteStep_run (runtime : FsCall -> bool) (cl : IDEState)
    (t : list FileNode) (d : AiFile) (s : IDEState) :
  exists s', deleteStep runtime cl (Some t) d s
             = (Some (Some (deleteNodeByPath t (filePath d))), s')
             /\ onlyFs s s'
             /\ (webContainer cl = false -> s' = s).
Proof.
  unfold deleteStep, bindA, defined, ret, when, tryCatch.
  destruct (webContainer cl).
  - eexists. split; [reflexivity|]. split; [apply fsCall_onlyFs | discriminate].
  - exists s. split; [reflexivity|]. split; [apply onlyFs_refl | reflexivity].
Qed.

Lemma deletions_run (runtime : FsCall -> bool) (cl : IDEState) (ds : list AiFile) :
  forall (t : list FileNode) (s : IDEState),
  exists s', foldA ds (deleteStep runtime cl) (Some t) s
             = (Some (Some (applyDeletions ds t)), s')
             /\ onlyFs s s'
             /\ (webContainer cl = false -> s' = s).
Proof.
  induction ds as [|d ds IH]; intros t s.
  - exists s. split; [reflexivity|]. split; [apply onlyFs_refl | reflexivity].
  - destruct (deleteStep_run runtime cl t d s) as (s1 & H1 & Hfs1 & Hid1).
    destruct (IH (deleteNodeByPath t (filePath d)) s1) as (s2 & H2 & Hfs2 & Hid2).
    exists s2. split; [|split].
    + simpl. unfold bindA. rewrite H1. exact H2.
    + eapply onlyFs_trans; eassumption.
    + intros Hwc. rewrite (Hid2 Hwc). now apply Hid1.
Qed.

Lemma updateStep_run (runtime : FsCall -> bool) (cl : IDEState)
    (t : list FileNode) (u : AiFile) (s : IDEState) :
  mirrorResolves runtime cl ->
  exists s', updateStep runtime cl (Some t) u s
             = (Some (Some (addOrUpdateFileByPath t (filePath u) (fileContent u))), s')
             /\ onlyFs s s'.
Proof.
  intros Hm. unfold updateStep, bindA, defined, ret, when.
  destruct (webContainer cl) eqn:Hwc.
  - destruct Hm as [Hm|Hm]; [congruence|].
    destruct (Str.truthy _); unfold fsCall; rewrite ?Hm; simpl; rewrite ?Hm;
      eexists; (split; [reflexivity|]); eexists; reflexivity.
  - exists s. split; [reflexivity | apply onlyFs_refl].
Qed.

Lemma updates_run (runtime : FsCall -> bool) (cl : IDEState) (us : list AiFile) :
  mirrorResolves runtime cl ->
  forall (t : list FileNode) (s : IDEState),
  exists s', foldA us (updateStep runtime cl) (Some t) s
             = (Some (Some (applyUpdates us t)), s')
             /\ onlyFs s s'.
Proof.
  intros Hm. induction us as [|u us IH]; intros t s.
  - exists s. split; [reflexivity | apply onlyFs_refl].
  - destruct (updateStep_run runtime cl t u s Hm) as (s1 & H1 & Hfs1).
    destruct (IH (addOrUpdateFileByPath t (filePath u) (fileContent u)) s1)
      as (s2 & H2 & Hfs2).
    exists s2. split.
    + simpl. unfold bindA. rewrite H1. exact H2.
    + eapply onlyFs_trans; eassumption.
Qed.


Lemma bindA_run {A B} (m : Act A) (k : A -> Act B) (s s' : IDEState) (a : A) :
  m s = (Some a, s') -> bindA m k s = k a s'.
Proof. intros H. unfold bindA. now rewrite H. Qed.

Lemma nonEmpty_false {A} (o : option (list A)) : nonEmpty o = false -> listOf o = [].
Proof. destruct o as [[|x l]|]; simpl; [reflexivity | discriminate | reflexivity]. Qed.

Lemma nonEmpty_true {A} (o : option (list A)) : nonEmpty o = true -> listOf o <> [].
Proof. destruct o as [[|x l]|]; simpl; [discriminate | discriminate | discriminate]. Qed.

Lemma onlyFs_fields (s s' : IDEState) :
  onlyFs s s' ->
  projectStructure s' = projectStructure s /\ history s' = history s
  /\ historyIndex s' = historyIndex s /\ aiMessage s' = aiMessage s
  /\ toasts s' = toasts s.
Proof. intros [log ->]. repeat split. Qed.

(** What [applyAiChanges] leaves, on a defined live tree and a runtime that
    takes the writes. *)
Lemma applyAiChanges_run (runtime : FsCall -> bool) (cl : IDEState)
    (response : AiResponse) (t : list FileNode) :
  projectStructure cl = Some t -> mirrorResolves runtime cl ->
  let ds := listOf (filesToDelete response) in
  let us := listOf (filesToUpdate response) in
  let final := applyUpdates us (applyDeletions ds t) in
  (ds = [] /\ us = [] ->
   applyAiChanges runtime cl response cl
   = (Some tt, setAiMessage (summary response) cl))
  /\ (~ (ds = [] /\ us = []) ->
      exists s', applyAiChanges runtime cl response cl = (Some tt, s')
        /\ history s' = JS.slice0 (history cl) (historyIndex cl + 1) ++ [final]
        /\ historyIndex s' = (JS.len (history s') - 1)%Z
        /\ projectStructure s' = Some final
        /\ aiMessage s' = summary response
        /\ toasts s' = toasts cl ++ [mkToast "AI changes applied successfully!" success]).
Proof.
  intros Ht Hm ds us final.
  assert (Hstream : forEach (JS.splitWords (summary response))
            (fun word => upd (fun s => setAiMessage (aiMessage s +:+ word) s))
            (setAiMessage "" cl)
          = (Some tt, setAiMessage (summary response) cl)).
  { rewrite stream_words. simpl. now rewrite concat_splitWords. }
  unfold applyAiChanges.
  rewrite (bindA_run _ _ cl (setAiMessage "" cl) tt eq_refl).
  rewrite (bindA_run _ _ _ _ tt Hstream).
  fold ds us. split.
  - intros [Hd Hu]. subst ds us.
    destruct (filesToDelete response) as [[|? ?]|]; try discriminate Hd;
      destruct (filesToUpdate response) as [[|? ?]|]; try discriminate Hu;
      reflexivity.
  - intros Hne.
    destruct (negb (nonEmpty (filesToDelete response))
              && negb (nonEmpty (filesToUpdate response))) eqn:Hboth.
    { exfalso. apply Hne. apply andb_true_iff in Hboth as [H1 H2].
      apply negb_true_iff in H1, H2. split; now apply nonEmpty_false. }
    assert (Hdel : exists s3,
        (if nonEmpty (filesToDelete response)
         then foldA ds (deleteStep runtime cl) (projectStructure cl)
         else ret (projectStructure cl)) (setAiMessage (summary response) cl)
        = (Some (Some (applyDeletions ds t)), s3)
        /\ onlyFs (setAiMessage (summary response) cl) s3).
    { rewrite Ht. destruct (nonEmpty (filesToDelete response)) eqn:Hd.
      - destruct (deletions_run runtime cl ds t (setAiMessage (summary response) cl))
          as (s3 & H3 & Hfs & _). eauto.
      - subst ds. rewrite (nonEmpty_false _ Hd). eexists. split; [reflexivity|].
        apply onlyFs_refl. }
    destruct Hdel as (s3 & H3 & Hfs3).
    rewrite (bindA_run _ _ _ _ _ H3).
    assert (Hupd : exists s4,
        (if nonEmpty (filesToUpdate response)
         then foldA us (updateStep runtime cl) (Some (applyDeletions ds t))
         else ret (Some (applyDeletions ds t))) s3
        = (Some (Some final), s4) /\ onlyFs s3 s4).
    { destruct (nonEmpty (filesToUpdate response)) eqn:Hu.
      - destruct (updates_run runtime cl us Hm (applyDeletions ds t) s3)
          as (s4 & H4 & Hfs). eauto.
      - subst final us. rewrite (nonEmpty_false _ Hu). eexists.
        split; [reflexivity | apply onlyFs_refl]. }
    destruct Hupd as (s4 & H4 & Hfs4).
    rewrite (bindA_run _ _ _ _ _ H4).
    rewrite (bindA_run _ _ s4 s4 final eq_refl).
    rewrite (bindA_run _ _ s4 (pushHistory cl final s4) tt eq_refl).
    pose proof (onlyFs_fields _ _ (onlyFs_trans _ _ _ Hfs3 Hfs4))
      as (_ & _ & _ & Hai & Hto).
    assert (Hopen : exists s6,
        when (nonEmpty (filesToUpdate response))
          (forEach us (fun file => handleOpenFile cl (filePath file)))
          (pushHistory cl final s4) = (Some tt, s6)
        /\ core s6 = core (pushHistory cl final s4)
        /\ aiMessage s6 = aiMessage s4 /\ toasts s6 = toasts s4).
    { unfold when. destruct (nonEmpty (filesToUpdate response)).
      - destruct (openFiles_core cl t us (pushHistory cl final s4) Ht)
          as (Hr & Hc & Ha & Hts).
        destruct (forEach us _ (pushHistory cl final s4)) as [r s6].
        simpl in *. subst r. eauto.
      - eexists. split; [reflexivity|]. auto. }
    destruct Hopen as (s6 & H6 & Hc6 & Ha6 & Ht6).
    rewrite (bindA_run _ _ _ _ _ H6).
    eexists. split; [reflexivity|].
    unfold core in Hc6. injection Hc6 as Hps Hh Hi _ _. simpl.
    rewrite Hh, Hi, Hps, Ha6, Ht6, Hai, Hto. simpl.
    repeat split.
Qed.


(** *** A path deleted and written in one batch *)

Lemma applyDeletions_wf (ds : list AiFile) (t : list FileNode) :
  wfTree t = true -> wfTree (applyDeletions ds t) = true.
Proof.
  revert t. induction ds as [|d ds IH]; intros t Hwf; [exact Hwf|].
  simpl. apply IH. now apply delete_wf.
Qed.

Lemma applyUpdates_wf (us : list AiFile) (t : list FileNode) :
  wfTree t = true -> wfTree (applyUpdates us t) = true.
Proof.
  revert t. induction us as [|u us IH]; intros t Hwf; [exact Hwf|].
  simpl. apply IH. now apply upsert_wf.
Qed.

Lemma applyDeletions_none (ds : list AiFile) (t : list FileNode) (p : string) :
  findFileByPath t p = None -> findFileByPath (applyDeletions ds t) p = None.
Proof.
  revert t. induction ds as [|d ds IH]; intros t H; [exact H|].
  simpl. apply IH. now apply find_delete_none.
Qed.

Lemma applyDeletions_deleted (ds : list AiFile) (t : list FileNode) (p : string) :
  In p (map filePath ds) -> findFileByPath (applyDeletions ds t) p = None.
Proof.
  revert t. induction ds as [|d ds IH]; intros t Hin; [contradiction|].
  simpl in *. destruct Hin as [<-|Hin].
  - apply applyDeletions_none, find_delete_same.
  - now apply IH.
Qed.

Lemma applyUpdates_snoc (us : list AiFile) (u : AiFile) (t : list FileNode) :
  applyUpdates (us ++ [u]) t
  = addOrUpdateFileByPath (applyUpdates us t) (filePath u) (fileContent u).
Proof. unfold applyUpdates. now rewrite fold_left_app. Qed.

Lemma applyUpdates_app (us1 us2 : list AiFile) (t : list FileNode) :
  applyUpdates (us1 ++ us2) t = applyUpdates us2 (applyUpdates us1 t).
Proof. unfold applyUpdates. now rewrite fold_left_app. Qed.

Lemma applyDeletions_uniqueFolders (ds : list AiFile) (t : list FileNode) :
  uniqueFoldersIn t = true -> uniqueFoldersIn (applyDeletions ds t) = true.
Proof.
  revert t. induction ds as [|d ds IH]; intros t Hu; [exact Hu|].
  simpl. apply IH. now apply delete_uniqueFolders.
Qed.

Lemma applyUpdates_uniqueFolders (us : list AiFile) (t : list FileNode) :
  uniqueFoldersIn t = true -> uniqueFoldersIn (applyUpdates us t) = true.
Proof.
  revert t. induction us as [|u us IH]; intros t Hu; [exact Hu|].
  simpl. apply IH. now apply upsert_uniqueFolders.
Qed.

(** The deletions leave the paths out of their reach found. *)
Lemma applyDeletions_other (ds : list AiFile) (p : string) :
  Forall (spares p) ds ->
  forall (t : list FileNode) (n : FileNode),
    findFileByPath t p = Some n ->
    exists n', findFileByPath (applyDeletions ds t) p = Some n' /\ sameEntry n' n.
Proof.
  induction 1 as [|d ds [Hne Hpre] _ IH]; intros t n Hn.
  - exists n. split; [exact Hn | apply sameEntry_refl].
  - destruct (find_delete_other t p (filePath d) n Hne Hpre Hn) as (n1 & Hn1 & Hs1).
    destruct (IH _ _ Hn1) as (n' & Hn' & Hs').
    exists n'. split; [exact Hn' | now apply (sameEntry_trans _ n1)].
Qed.

(** The updates leave the paths they do not write found. *)
Lemma applyUpdates_other (us : list AiFile) (p : string) :
  canonical p = true -> Forall (writesElsewhere p) us ->
  forall (t : list FileNode) (n : FileNode),
    wfTree t = true -> uniqueFoldersIn t = true ->
    findFileByPath t p = Some n ->
    exists n', findFileByPath (applyUpdates us t) p = Some n' /\ sameEntry n' n.
Proof.
  intros Hp. induction 1 as [|u us Hu _ IH]; intros t n Hwf Huf Hn.
  - exists n. split; [exact Hn | apply sameEntry_refl].
  - destruct (find_upsert_other t p (filePath u) (fileContent u) n Hwf Huf Hp Hu Hn)
      as (n1 & Hn1 & Hs1).
    destruct (IH _ n1 (upsert_wf t _ _ Hwf) (upsert_uniqueFolders t _ _ Huf) Hn1)
      as (n' & Hn' & Hs').
    exists n'. split; [exact Hn' | now apply (sameEntry_trans _ n1)].
Qed.

(** X26. On a defined live tree, and a runtime that is absent or takes the
    mirrored writes, [applyAiChanges] returns with the summary as the
    assistant's message and: for an empty batch, the log, the cursor, the
    live tree and the runtime untouched; for any other batch, the log cut
    after the cursor plus one entry, the tree obtained by all the deletions
    and then all the updates, which becomes the live tree under the cursor.
    In a well-formed tree the path of the last update is then found with
    that update's content, and when the batch also deletes that path and
    holds no other update the node is the file created anew. Where moreover
    no two folders of a folder share a name, the last update of the batch
    to a path decides its content, and a node at a path that no deletion
    reaches and no update writes is found as before. *)
Theorem ai_batch_deletes_then_updates_in_one_push
    (runtime : FsCall -> bool) (cl : IDEState) (response : AiResponse)
    (t : list FileNode) :
  projectStructure cl = Some t -> mirrorResolves runtime cl ->
  let ds := listOf (filesToDelete response) in
  let us := listOf (filesToUpdate response) in
  let final := applyUpdates us (applyDeletions ds t) in
  let s' := after (applyAiChanges runtime cl response) cl in
  returned (applyAiChanges runtime cl response) cl = true
  /\ aiMessage s' = summary response
  /\ (ds = [] /\ us = [] ->
      history s' = history cl /\ historyIndex s' = historyIndex cl
      /\ projectStructure s' = Some t /\ fsCalls s' = fsCalls cl)
  /\ (~ (ds = [] /\ us = []) ->
      history s' = JS.slice0 (history cl) (historyIndex cl + 1) ++ [final]
      /\ historyIndex s' = (JS.len (history s') - 1)%Z
      /\ projectStructure s' = Some final)
  /\ (forall us0 p c,
        wfTree t = true -> canonical p = true -> us = us0 ++ [mkAiFile p c] ->
        exists n, findFileByPath final p = Some n
                  /\ path n = p /\ content n = Some c
                  /\ (us0 = [] -> In p (map filePath ds) -> n = createdFile p c))
  /\ (forall us0 us1 p c,
        wfTree t = true -> uniqueFoldersIn t = true -> canonical p = true ->
        us = us0 ++ mkAiFile p c :: us1 -> Forall (writesElsewhere p) us1 ->
        exists n, findFileByPath final p = Some n
                  /\ path n = p /\ content n = Some c)
  /\ (forall p n,
        wfTree t = true -> uniqueFoldersIn t = true -> canonical p = true ->
        findFileByPath t p = Some n ->
        Forall (spares p) ds -> Forall (writesElsewhere p) us ->
        exists n', findFileByPath final p = Some n' /\ sameEntry n' n).
Proof.
  intros Ht Hm ds us final s'.
  destruct (applyAiChanges_run runtime cl response t Ht Hm) as [Hempty Hfull].
  fold ds us final in Hempty, Hfull.
  assert (Hcases : (ds = [] /\ us = []) \/ ~ (ds = [] /\ us = [])).
  { destruct ds; [destruct us|]; [left; auto | right; intros [_ H]; discriminate H
                                 | right; intros [H _]; discriminate H]. }
  unfold s', after, returned.
  split; [|split; [|split; [|split; [|split; [|split]]]]].
  - destruct Hcases as [He|Hn].
    + now rewrite (Hempty He).
    + destruct (Hfull Hn) as (s1 & -> & _). reflexivity.
  - destruct Hcases as [He|Hn].
    + now rewrite (Hempty He).
    + destruct (Hfull Hn) as (s1 & -> & _ & _ & _ & Ha & _). exact Ha.
  - intros He. rewrite (Hempty He). simpl. auto.
  - intros Hn. destruct (Hfull Hn) as (s1 & -> & Hh & Hi & Hp & _). simpl. auto.
  - intros us0 p c Hwf Hp Hus. unfold final. rewrite Hus, applyUpdates_snoc. simpl.
    pose proof (applyUpdates_wf us0 _ (applyDeletions_wf ds t Hwf)) as Hwf'.
    destruct (find_after_upsert _ p c Hwf' Hp) as (n & Hn & Hor).
    exists n. split; [exact Hn|]. split; [now apply findFileByPath_path in Hn|].
    split.
    + destruct Hor as [->|(m & _ & ->)]; [|reflexivity].
      unfold createdFile. now destruct (pop (pathSegments p)) as [[? ?]|].
    + intros -> Hin. destruct Hor as [->|(m & Hm' & _)]; [reflexivity|].
      simpl in Hm'. rewrite (applyDeletions_deleted ds t p Hin) in Hm'.
      discriminate Hm'.
  - intros us0 us1 p c Hwf Huf Hp Hus Hlater. unfold final.
    rewrite Hus, applyUpdates_app.
    pose proof (applyUpdates_wf us0 _ (applyDeletions_wf ds t Hwf)) as Hwf'.
    pose proof (applyUpdates_uniqueFolders us0 _
                  (applyDeletions_uniqueFolders ds t Huf)) as Huf'.
    destruct (find_after_upsert _ p c Hwf' Hp) as (n0 & Hn0 & Hor).
    assert (Hc0 : content n0 = Some c).
    { destruct Hor as [->|(m & _ & ->)]; [|reflexivity].
      unfold createdFile. now destruct (pop (pathSegments p)) as [[? ?]|]. }
    destruct (applyUpdates_other us1 p Hp Hlater _ n0
                (upsert_wf _ p c Hwf') (upsert_uniqueFolders _ p c Huf') Hn0)
      as (n & Hn & _ & _ & _ & Hc).
    exists n. split; [exact Hn|]. split; [now apply findFileByPath_path in Hn|].
    now rewrite Hc.
  - intros p n Hwf Huf Hp Hn Hds Hus. unfold final.
    destruct (applyDeletions_other ds p Hds t n Hn) as (n1 & Hn1 & Hs1).
    destruct (applyUpdates_other us p Hp Hus _ n1 (applyDeletions_wf ds t Hwf)
                (applyDeletions_uniqueFolders ds t Huf) Hn1) as (n' & Hn' & Hs').
    exists n'. split; [exact Hn' | now apply (sameEntry_trans _ n1)].
Qed.


(** The batch that deletes [/old.ts] and writes it, with a runtime that is
    there and takes the writes: one entry more in the log, where [/old.ts]
    is a new file with the written content. *)
Lemma ai_batch_deletes_then_updates_in_one_push_witness :
  let cl := setWebContainer true (initial oldTree) in
  let s' := after (applyAiChanges (fun _ => true) cl oldBatch) cl in
  history s' = [oldTree; [mkFileNode "old.ts" File "/old.ts" None (Some "x")]]
  /\ historyIndex s' = 1%Z
  /\ exists n, findFileByPath [mkFileNode "old.ts" File "/old.ts" None (Some "x")] "/old.ts"
               = Some n /\ content n = Some "x".
Proof.
  cbv zeta.
  destruct (ai_batch_deletes_then_updates_in_one_push (fun _ => true)
              (setWebContainer true (initial oldTree)) oldBatch oldTree eq_refl
              (or_intror (fun _ => eq_refl)))
    as (_ & _ & _ & Hfull & Hrec & _).
  destruct Hfull as (Hh & Hi & _); [intros [H _]; discriminate H|].
  destruct (Hrec [] "/old.ts" "x" eq_refl eq_refl eq_refl) as (n & Hn & _ & Hc & _).
  split; [exact Hh|]. split; [rewrite Hi, Hh; reflexivity|].
  exists n. split; [exact Hn | exact Hc].
Defined.

(** *** Protected paths *)

(** C2, as the code has it. A request to delete a selection in which some
    path is found at a protected node is rejected by [handleRequestDelete]:
    it returns with one warning toast more, naming a protected node, and
    the live tree, the log, the cursor, the runtime calls and the nodes
    awaiting deletion are as before. The rename handler has no such guard:
    a rename of a protected node is held back by the context menu of the
    file explorer, which disables its Rename and Delete entries as soon as
    a protected path is selected. *)
Theorem protected_delete_rejected_rename_disabled
    (paths : list string) (cl : IDEState) (t : list FileNode)
    (p : string) (n : FileNode) :
  projectStructure cl = Some t ->
  In p paths -> findFileByPath t p = Some n -> In (path n) protectedPaths ->
  (exists item,
      In (path item) protectedPaths
      /\ handleRequestDelete paths cl cl
         = (Some tt,
            addToast ("Core item " +:+ JS.dq +:+ name item +:+ JS.dq
                      +:+ " cannot be deleted.") warning cl))
  /\ core (after (handleRequestDelete paths cl) cl) = core cl
  /\ (forall selected, In (path n) selected ->
        renameDisabled selected = true /\ deleteDisabled selected = true).
Proof.
  intros Ht Hin Hfind Hprot.
  assert (Hrej : exists item,
      In (path item) protectedPaths
      /\ handleRequestDelete paths cl cl
         = (Some tt,
            addToast ("Core item " +:+ JS.dq +:+ name item +:+ JS.dq
                      +:+ " cannot be deleted.") warning cl)).
  { destruct paths as [|p0 ps]; [contradiction|].
    unfold handleRequestDelete, bindA, defined. rewrite Ht.
    change (ret t cl) with (Some t, cl). cbv beta iota zeta.
    assert (Hn : In n (omap (findFileByPath t) (p0 :: ps))).
    { apply list_elem_of_In, list_elem_of_omap. exists p.
      split; [now apply list_elem_of_In | exact Hfind]. }
    destruct (omap (findFileByPath t) (p0 :: ps)) as [|n0 ns]; [contradiction|].
    destruct (List.find (fun n => Str.includes protectedPaths (path n)) (n0 :: ns))
      as [item|] eqn:Hitem.
    - apply find_some in Hitem as [_ Hitem]. apply includes_In in Hitem.
      exists item. split; [exact Hitem | reflexivity].
    - pose proof (find_none _ _ Hitem n Hn) as Hno. cbv beta in Hno.
      apply includes_In in Hprot. rewrite Hprot in Hno. discriminate Hno. }
  split; [exact Hrej|]. split.
  - destruct Hrej as (item & _ & E). unfold after. rewrite E. reflexivity.
  - intros selected Hsel.
    assert (Hp : isProtected selected = true).
    { unfold isProtected. apply existsb_exists. exists (path n).
      split; [exact Hsel|]. apply includes_In.
      unfold protectedPaths in Hprot. simpl in Hprot |- *. tauto. }
    unfold renameDisabled, deleteDisabled. rewrite Hp. auto.
Qed.

(** Deleting [/src] in the sample project. *)
Lemma protected_delete_rejected_rename_disabled_witness :
  core (after (handleRequestDelete ["/src"] (initial sampleTree)) (initial sampleTree))
  = core (initial sampleTree)
  /\ renameDisabled ["/src"] = true.
Proof.
  destruct (protected_delete_rejected_rename_disabled ["/src"] (initial sampleTree)
              sampleTree "/src"
              (mkFileNode "src" Folder "/src"
                 (Some [ mkFileNode "App.tsx" File "/src/App.tsx" None (Some "Hello") ])
                 None)
              eq_refl (or_introl eq_refl) eq_refl
              (or_intror (or_introl eq_refl)))
    as (_ & Hcore & Hmenu).
  split; [exact Hcore|]. apply (Hmenu ["/src"]). left. reflexivity.
Defined.

(** C2 as stated fails for rename: [handleRenameNode] on the protected
    [/src] shows no warning and hands the request over; with the answer
    above the live tree loses [/src] and the log grows. *)
Lemma protected_rename_counterexample :
  let s := initial sampleTree in
  let s' := after (handleRenameNode renameAnswer (fun _ => true) "/src" "source" s) s in
  In "/src" protectedPaths
  /\ (exists n, findFileByPath sampleTree "/src" = Some n)
  /\ hasWarning s' = false
  /\ projectStructure s' <> projectStructure s
  /\ (exists t', projectStructure s' = Some t' /\ findFileByPath t' "/src" = None)
  /\ length (history s') = 2%nat.
Proof.
  intros s s'. split; [right; left; reflexivity|].
  split; [eexists; reflexivity|].
  split; [vm_compute; reflexivity|].
  split; [vm_compute; discriminate|].
  split; [eexists; split; vm_compute; reflexivity|].
  vm_compute; reflexivity.
Qed.


(** *** Moves *)

Lemma handleDropOnRoot_in_root (sourcePath : string) :
  parentOrRoot sourcePath = "/" -> handleDropOnRoot sourcePath = None.
Proof.
  intros H. unfold handleDropOnRoot. rewrite H.
  now destruct (negb (Str.truthy sourcePath)).
Qed.

Lemma handleDrop_on_sibling_file (target : FileNode) (sourcePath : string) :
  isFolder target = false ->
  parentOrRoot sourcePath = parentOrRoot (path target) ->
  handleDrop target sourcePath = None.
Proof.
  intros Hf Hp. unfold handleDrop. rewrite Hf, Hp, String.eqb_refl.
  destruct (negb (Str.truthy sourcePath) || String.eqb sourcePath (path target));
    [reflexivity|].
  now destruct (String.eqb sourcePath (parentOrRoot (path target)) || false && _).
Qed.

(** C6, as the code has it. A move of a found node onto itself, or of a
    found folder to a target inside itself (a path that starts with the
    folder's path and a slash), is rejected by [handleMoveNode]: it returns
    with one warning toast more and the live tree, the log, the cursor and
    the runtime calls are as before. Nothing in the handler compares the
    target with the parent the source has: a move to that parent is held
    back by the drop handlers of the file explorer, which make no call for
    a drop on the root of a node of the root, nor for a drop on a file that
    has the parent of the source. *)
Theorem move_into_itself_rejected
    (ai : string -> list FileNode -> list Attachment -> option AiResponse)
    (runtime : FsCall -> bool) (cl : IDEState) (t : list FileNode)
    (sourcePath targetParentPath : string) (node : FileNode) :
  projectStructure cl = Some t ->
  findFileByPath t sourcePath = Some node ->
  sourcePath = targetParentPath
  \/ (isFolder node = true
      /\ String.prefix (sourcePath +:+ "/") targetParentPath = true) ->
  (exists msg,
      handleMoveNode ai runtime sourcePath targetParentPath cl cl
      = (Some tt, addToast msg warning cl))
  /\ core (after (handleMoveNode ai runtime sourcePath targetParentPath cl) cl)
     = core cl
  /\ (parentOrRoot sourcePath = "/" -> handleDropOnRoot sourcePath = None)
  /\ (forall target,
        isFolder target = false ->
        parentOrRoot sourcePath = parentOrRoot (path target) ->
        handleDrop target sourcePath = None).
Proof.
  intros Ht Hfind Hcycle.
  assert (Hrej : exists msg,
      handleMoveNode ai runtime sourcePath targetParentPath cl cl
      = (Some tt, addToast msg warning cl)).
  { unfold handleMoveNode. destruct (isLoadingAI cl); [eexists; reflexivity|].
    unfold findIn, bindA, defined. rewrite Ht.
    change (ret t cl) with (Some t, cl). cbv beta iota.
    change (ret (findFileByPath t sourcePath) cl)
      with (Some (findFileByPath t sourcePath), cl).
    rewrite Hfind. cbv beta iota.
    assert (Hguard : String.eqb sourcePath targetParentPath
                     || (isFolder node
                         && String.prefix (sourcePath +:+ "/") targetParentPath) = true).
    { destruct Hcycle as [->|[Hf Hp]].
      - now rewrite String.eqb_refl.
      - rewrite Hf, Hp. apply orb_true_r. }
    rewrite Hguard. eexists. reflexivity. }
  split; [exact Hrej|]. split.
  - destruct Hrej as (msg & E). unfold after. rewrite E. reflexivity.
  - split; [apply handleDropOnRoot_in_root|].
    intros target. apply handleDrop_on_sibling_file.
Qed.

(** Moving [/src] into [/src/lib] in the sample project. *)
Lemma move_into_itself_rejected_witness :
  core (after (handleMoveNode (fun _ _ _ => None) (fun _ => true)
                 "/src" "/src/lib" (initial sampleTree)) (initial sampleTree))
  = core (initial sampleTree).
Proof.
  apply (proj1 (proj2
    (move_into_itself_rejected (fun _ _ _ => None) (fun _ => true)
       (initial sampleTree) sampleTree "/src" "/src/lib"
       (mkFileNode "src" Folder "/src"
          (Some [ mkFileNode "App.tsx" File "/src/App.tsx" None (Some "Hello") ])
          None)
       eq_refl eq_refl (or_intror (conj eq_refl eq_refl))))).
Defined.

(** C6 as stated fails for a move to the folder the source is already in:
    a drop of [/src/App.tsx] on its folder [/src] gets through the file
    explorer, and [handleMoveNode] shows no warning and hands the request
    over; with the answer above the live tree changes and the log grows. *)
Lemma move_to_current_parent_counterexample :
  let s := initial sampleTree in
  let s' := after (handleMoveNode moveAnswer (fun _ => true) "/src/App.tsx" "/src" s) s in
  parentOrRoot "/src/App.tsx" = "/src"
  /\ (exists n, findFileByPath sampleTree "/src/App.tsx" = Some n)
  /\ (exists folder, findFileByPath sampleTree "/src" = Some folder
                     /\ handleDrop folder "/src/App.tsx" = Some ("/src/App.tsx", "/src"))
  /\ hasWarning s' = false
  /\ projectStructure s' <> projectStructure s
  /\ length (history s') = 2%nat.
Proof.
  intros s s'. split; [reflexivity|].
  split; [eexists; reflexivity|].
  split; [eexists; split; reflexivity|].
  split; [vm_compute; reflexivity|].
  split; [vm_compute; discriminate|].
  vm_compute; reflexivity.
Qed.

(** *** A runtime that rejects a write

    The mirrored write comes before the tree is updated and is not caught:
    when the runtime rejects it the handler stops there, with no entry
    pushed and the request still marked as running. *)
Lemma rejected_write_aborts_batch :
  let s := setWebContainer true (initial oldTree) in
  let m := handleSendPrompt (fun _ _ _ => Some oldBatch)
             (fun c => match c with FsWriteFile _ _ => false | _ => true end)
             s "rewrite old.ts" [] in
  returned m s = false
  /\ history (after m s) = history s
  /\ projectStructure (after m s) = projectStructure s
  /\ isLoadingAI (after m s) = true
  /\ fsCalls (after m s) = [FsRm "/old.ts"; FsWriteFile "/old.ts" "x"].
Proof. vm_compute. repeat split. Qed.

Lemma updateStep_rejected (runtime : FsCall -> bool) (cl : IDEState)
    (acc : option (list FileNode)) (u : AiFile) (s : IDEState) :
  webContainer cl = true -> mirrorRejects runtime u ->
  exists s', updateStep runtime cl acc u s = (None, s') /\ onlyFs s s'.
Proof.
  intros Hwc Hbad. unfold updateStep, when. rewrite Hwc.
  unfold bindA at 1.
  destruct (Str.truthy (Str.beforeLast "/" (filePath u))) eqn:Hdir.
  - unfold bindA at 1. unfold fsCall at 1.
    destruct (runtime (FsMkdir (Str.beforeLast "/" (filePath u)))) eqn:Hmk.
    + destruct Hbad as [[_ H]|Hw]; [congruence|].
      unfold fsCall. rewrite Hw. eexists. split; [reflexivity|].
      eexists. reflexivity.
    + eexists. split; [reflexivity|]. eexists. reflexivity.
  - destruct Hbad as [[H _]|Hw]; [congruence|].
    unfold bindA, ret, fsCall. rewrite Hw. eexists. split; [reflexivity|].
    eexists. reflexivity.
Qed.

Lemma applyAiChanges_rejected (runtime : FsCall -> bool) (cl : IDEState)
    (response : AiResponse) (t : list FileNode) (u : AiFile) (us : list AiFile)
    (s : IDEState) :
  projectStructure cl = Some t -> webContainer cl = true ->
  filesToUpdate response = Some (u :: us) -> mirrorRejects runtime u ->
  exists s', applyAiChanges runtime cl response s = (None, s')
             /\ onlyFs (setAiMessage (summary response) s) s'.
Proof.
  intros Ht Hwc Hus Hbad.
  assert (Hstream : forEach (JS.splitWords (summary response))
            (fun word => upd (fun s => setAiMessage (aiMessage s +:+ word) s))
            (setAiMessage "" s)
          = (Some tt, setAiMessage (summary response) s)).
  { rewrite stream_words. simpl. now rewrite concat_splitWords. }
  unfold applyAiChanges.
  rewrite (bindA_run _ _ s (setAiMessage "" s) tt eq_refl).
  rewrite (bindA_run _ _ _ _ tt Hstream).
  rewrite Hus. cbn [nonEmpty listOf negb]. rewrite andb_false_r.
  assert (Hdel : exists s3,
      (if nonEmpty (filesToDelete response)
       then foldA (listOf (filesToDelete response)) (deleteStep runtime cl)
              (projectStructure cl)
       else ret (projectStructure cl)) (setAiMessage (summary response) s)
      = (Some (Some (applyDeletions (listOf (filesToDelete response)) t)), s3)
      /\ onlyFs (setAiMessage (summary response) s) s3).
  { rewrite Ht. destruct (nonEmpty (filesToDelete response)) eqn:Hd.
    - destruct (deletions_run runtime cl (listOf (filesToDelete response)) t
                  (setAiMessage (summary response) s)) as (s3 & H3 & Hfs & _).
      eauto.
    - rewrite (nonEmpty_false _ Hd). eexists. split; [reflexivity|].
      apply onlyFs_refl. }
  destruct Hdel as (s3 & H3 & Hfs3).
  rewrite (bindA_run _ _ _ _ _ H3).
  destruct (updateStep_rejected runtime cl
              (Some (applyDeletions (listOf (filesToDelete response)) t)) u s3 Hwc Hbad)
    as (s4 & H4 & Hfs4).
  exists s4. split; [|eapply onlyFs_trans; eassumption].
  unfold bindA at 1. cbn [foldA]. unfold bindA at 1. now rewrite H4.
Qed.

(** C3. A batch that is not empty does not always push an entry. With the
    runtime there, when it rejects a call that mirrors the first update
    (the creation of the folder or the write, which [applyAiChanges] awaits
    outside any [try], unlike the removals of the deletion loop), the
    handler throws once the summary is shown and the deletions are
    mirrored: the log, the cursor, the live tree and the toasts are as
    before, so no entry is pushed; and [handleSendPrompt] throws with it,
    leaving the request marked as running. *)
Theorem rejected_mirror_write_pushes_no_entry
    (ai : string -> list FileNode -> list Attachment -> option AiResponse)
    (runtime : FsCall -> bool) (cl : IDEState) (response : AiResponse)
    (t : list FileNode) (u : AiFile) (us : list AiFile) :
  projectStructure cl = Some t -> webContainer cl = true ->
  filesToUpdate response = Some (u :: us) -> mirrorRejects runtime u ->
  (forall s,
     let m := applyAiChanges runtime cl response in
     returned m s = false
     /\ history (after m s) = history s
     /\ historyIndex (after m s) = historyIndex s
     /\ projectStructure (after m s) = projectStructure s
     /\ toasts (after m s) = toasts s
     /\ aiMessage (after m s) = summary response)
  /\ (forall prompt attachments,
        Str.truthy prompt = true -> isLoadingAI cl = false ->
        (forall finalPrompt, ai finalPrompt t attachments = Some response) ->
        let m := handleSendPrompt ai runtime cl prompt attachments in
        returned m cl = false
        /\ history (after m cl) = history cl
        /\ historyIndex (after m cl) = historyIndex cl
        /\ projectStructure (after m cl) = Some t
        /\ isLoadingAI (after m cl) = true).
Proof.
  intros Ht Hwc Hus Hbad. split.
  - intros s m. unfold m, returned, after.
    destruct (applyAiChanges_rejected runtime cl response t u us s Ht Hwc Hus Hbad)
      as (s' & -> & log & ->).
    cbn. repeat split.
  - intros prompt attachments Hp Hbusy Hai m.
    assert (Hrun : exists log,
               m cl = (None,
                       setFsCalls log
                         (setAiMessage (summary response)
                            (setStreamingFileOverrides []
                               (setAiMessage
                                  "Thinking... I'm analyzing the project and your request."
                                  (setIsLoadingAI true cl)))))).
    { unfold m, handleSendPrompt. rewrite Hp, Hbusy. cbn [negb andb orb].
      rewrite Ht. unfold bindA at 1. cbn [upd]. unfold bindA at 1. cbn [upd].
      unfold bindA at 1. cbn [upd]. unfold bindA at 1. cbn [defined ret].
      rewrite Hai. unfold bindA at 1.
      destruct (applyAiChanges_rejected runtime cl response t u us
                  (setStreamingFileOverrides []
                     (setAiMessage
                        "Thinking... I'm analyzing the project and your request."
                        (setIsLoadingAI true cl))) Ht Hwc Hus Hbad)
        as (s' & E & log & ->).
      rewrite E. now exists log. }
    destruct Hrun as (log & Hrun). unfold returned, after. rewrite Hrun.
    cbn [fst snd]. split; [reflexivity|]. split; [reflexivity|].
    split; [reflexivity|]. split; [exact Ht | reflexivity].
Qed.

(** The batch that deletes [/old.ts] and writes it, with a runtime that
    rejects the write. *)
Lemma rejected_mirror_write_pushes_no_entry_witness :
  let s := setWebContainer true (initial oldTree) in
  let runtime := fun c => match c with FsWriteFile _ _ => false | _ => true end in
  let m := applyAiChanges runtime s oldBatch in
  filesToUpdate oldBatch = Some [mkAiFile "/old.ts" "x"]
  /\ returned m s = false
  /\ history (after m s) = [oldTree]
  /\ projectStructure (after m s) = Some oldTree.
Proof.
  intros s runtime m.
  destruct (rejected_mirror_write_pushes_no_entry (fun _ _ _ => Some oldBatch) runtime s
              oldBatch oldTree (mkAiFile "/old.ts" "x") [] eq_refl eq_refl eq_refl
              (or_intror eq_refl)) as [H _].
  destruct (H s) as (Hr & Hh & _ & Hp & _).
  split; [reflexivity|]. split; [exact Hr|]. split; [exact Hh | exact Hp].
Defined.

End DispatcherFacts.

(** ** Search *)

Module SearchFacts.

Import Search.




Section Engine.

Variable RegExp : Type.
Variable compile : string -> string -> option RegExp.
Variable exec : RegExp -> string -> nat -> option (nat * nat).
Variable isGlobal : RegExp -> bool.


End Engine.


End SearchFacts.

(** ** The tree store on the heap: what is written *)

Module HeapFacts.

Import Heap HeapModel.

Lemma pres_ret {A} (I : heap -> Prop) (a : A) (Q : A -> Prop) :
  Q a -> preserves I (hret a) Q.
Proof. intros Ha h Hh. split; [exact Hh|]. intros b [= <-]. exact Ha. Qed.

Lemma pres_throw {A} (I : heap -> Prop) (e : Tree.TreeError) (Q : A -> Prop) :
  preserves I (hthrow e) Q.
Proof. intros h Hh. split; [exact Hh|]. intros b [=]. Qed.

Lemma pres_stuck {A} (I : heap -> Prop) (Q : A -> Prop) : preserves I stuck Q.
Proof. intros h Hh. split; [exact Hh|]. intros b [=]. Qed.

Lemma pres_bind {A B} (I : heap -> Prop) (m : HM A) (k : A -> HM B)
    (Q : A -> Prop) (R : B -> Prop) :
  preserves I m Q -> (forall a, Q a -> preserves I (k a) R) ->
  preserves I (hbind m k) R.
Proof.
  intros Hm Hk h Hh. destruct (Hm h Hh) as [Hh' Hq]. unfold hbind.
  destruct (m h) as [[a|e|] h']; simpl in *.
  - apply Hk; auto.
  - split; [exact Hh'|]. intros b [=].
  - split; [exact Hh'|]. intros b [=].
Qed.

Lemma pres_weaken {A} (I : heap -> Prop) (m : HM A) (Q Q' : A -> Prop) :
  preserves I m Q -> (forall a, Q a -> Q' a) -> preserves I m Q'.
Proof. intros Hm HQ h Hh. destruct (Hm h Hh). split; auto. Qed.

(** *** The heap a call starts from stays as it is

    [h0] is the heap at the call, [n0] its size. A cell is closed when its
    references all point to objects made since. *)

Section Frame.

Variable h0 : heap.
Let n0 := length h0.

Local Abbreviation closedCell := (HeapModel.closedCell n0).
Local Abbreviation extends := (HeapModel.extends h0).
Local Abbreviation inv := (HeapModel.inv h0).

Lemma inv_extends (h : heap) : inv h -> extends h.
Proof. intros (e & -> & _). now exists e. Qed.

Lemma inv_lookup (h : heap) (l : loc) (c : Cell) :
  inv h -> n0 <= l -> h !! l = Some c -> closedCell c.
Proof.
  intros (e & -> & He) Hl Hc. rewrite lookup_app_r in Hc by exact Hl.
  rewrite List.Forall_forall in He. apply He.
  apply list_elem_of_In. eapply list_elem_of_lookup_2. exact Hc.
Qed.

Lemma pres_getArr (a : loc) :
  n0 <= a -> preserves inv (getArr a) (Forall (fun l => n0 <= l)).
Proof using Type.
  intros Ha h Hh. unfold getArr.
  destruct (h !! a) as [[o|items]|] eqn:Hc; simpl; (split; [exact Hh|]);
    intros b [=]. subst b. exact (inv_lookup h a (CArr items) Hh Ha Hc).
Qed.

Lemma pres_getObj (l : loc) :
  n0 <= l ->
  preserves inv (getObj l) (fun o => forall a, ochildren o = Some a -> n0 <= a).
Proof using Type.
  intros Hl h Hh. unfold getObj.
  destruct (h !! l) as [[o|items]|] eqn:Hc; simpl; (split; [exact Hh|]);
    intros b [=]. subst b. exact (inv_lookup h l (CObj o) Hh Hl Hc).
Qed.

Lemma pres_setCell (l : loc) (c : Cell) :
  n0 <= l -> closedCell c -> preserves inv (setCell l c) (fun _ => True).
Proof using Type.
  intros Hl Hc h (e & -> & He). unfold setCell. simpl. split; [|auto].
  exists (<[l - n0 := c]> e). split.
  - now rewrite insert_app_r_alt by exact Hl.
  - apply Forall_insert; assumption.
Qed.

Lemma pres_alloc (c : Cell) :
  closedCell c -> preserves inv (alloc c) (fun l => n0 <= l).
Proof using Type.
  intros Hc h (e & -> & He). unfold alloc. simpl. split.
  - exists (e ++ [c]). split; [now rewrite app_assoc|].
    apply Forall_app. split; [exact He | now constructor].
  - intros a [= <-]. rewrite length_app. unfold n0. lia.
Qed.

Lemma pres_push (arr x : loc) :
  n0 <= arr -> n0 <= x -> preserves inv (push arr x) (fun _ => True).
Proof using Type.
  intros Harr Hx. unfold push.
  eapply pres_bind; [apply pres_getArr; exact Harr|].
  intros items Hitems. apply pres_setCell; [exact Harr|].
  simpl. apply Forall_app. split; [exact Hitems | now constructor].
Qed.

Lemma pres_findFirst (test : Obj -> bool) (items : list loc) :
  Forall (fun l => n0 <= l) items ->
  preserves inv (findFirst test items) (fun r => forall l, r = Some l -> n0 <= l).
Proof using Type.
  induction 1 as [|l rest Hl _ IH]; simpl.
  - apply pres_ret. intros l [=].
  - eapply pres_bind; [apply pres_getObj; exact Hl|].
    intros o _. destruct (test o); [|exact IH].
    apply pres_ret. intros l' [= <-]. exact Hl.
Qed.


(** The walk of [addOrUpdateFileByPath] from an array made since the call
    only writes cells made since the call. *)
Lemma pres_upsertWalk (pathParts : list string) :
  forall (fileName newContent currentPath : string) (currentChildren : loc),
    n0 <= currentChildren ->
    preserves inv
      (upsertWalk pathParts fileName newContent currentPath currentChildren)
      (fun _ => True).
Proof using Type.
  induction pathParts as [|part rest IH];
    intros fileName newContent currentPath cur Hcur; simpl.
  - eapply pres_bind; [apply pres_getArr; exact Hcur|]. intros items Hitems.
    eapply pres_bind; [apply pres_findFirst; exact Hitems|]. intros found Hfound.
    destruct found as [l|].
    + eapply pres_bind; [apply pres_getObj; auto|]. intros o Ho.
      apply pres_setCell; [auto | exact Ho].
    + eapply pres_bind; [apply pres_alloc; intros a [=]|]. intros l Hl.
      apply pres_push; assumption.
  - eapply pres_bind; [apply pres_getArr; exact Hcur|]. intros items Hitems.
    eapply pres_bind; [apply pres_findFirst; exact Hitems|]. intros found Hfound.
    eapply pres_bind with (Q := fun l => n0 <= l).
    { destruct found as [l|]; [apply pres_ret; auto|].
      eapply pres_bind; [apply pres_alloc; constructor|]. intros a Ha.
      eapply pres_bind; [apply pres_alloc; intros a' [= <-]; exact Ha|].
      intros l Hl.
      eapply pres_bind; [apply pres_push; assumption|]. intros _ _.
      apply pres_ret. exact Hl. }
    intros folder Hfolder.
    eapply pres_bind; [apply pres_getObj; exact Hfolder|]. intros o Ho.
    eapply pres_bind with (Q := fun a => n0 <= a).
    { destruct (ochildren o) as [a|] eqn:Hch; [apply pres_ret; auto|].
      eapply pres_bind; [apply pres_alloc; constructor|]. intros a Ha.
      eapply pres_bind; [apply pres_setCell; [exact Hfolder|]|].
      - intros a' [= <-]. exact Ha.
      - intros _ _. apply pres_ret. exact Ha. }
    intros next Hnext. apply IH. exact Hnext.
Qed.

(** [findFileByPath] from an array made since the call finds an object made
    since the call, and writes nothing. *)
Lemma pres_findFileByPath (fuel : nat) :
  forall (nodes : loc) (p : string),
    n0 <= nodes ->
    preserves inv (findFileByPath fuel nodes p)
      (fun r => forall l, r = Some l -> n0 <= l).
Proof using Type.
  induction fuel as [|fuel IH]; intros nodes p Hnodes; simpl;
    [apply pres_stuck|].
  eapply pres_bind; [apply pres_getArr; exact Hnodes|]. intros items Hitems.
  induction Hitems as [|l rest Hl _ IHrest].
  - apply pres_ret. intros l [=].
  - eapply pres_bind; [apply pres_getObj; exact Hl|]. intros o Ho.
    destruct (String.eqb (opath o) p).
    { apply pres_ret. intros l' [= <-]. exact Hl. }
    destruct (otype o); [exact IHrest|].
    destruct (ochildren o) as [ca|] eqn:Hch; [|exact IHrest].
    destruct (String.prefix _ p); [|exact IHrest].
    eapply pres_bind; [apply IH; auto|]. intros found Hfound.
    destruct found as [r|]; [|exact IHrest].
    apply pres_ret. intros l' [= <-]. auto.
Qed.

Lemma pres_allocNewNode (nodeName : string) (ty : NodeType) (newNodePath : string) :
  preserves inv (allocNewNode nodeName ty newNodePath) (fun l => n0 <= l).
Proof using Type.
  destruct ty; simpl.
  - apply pres_alloc. intros a [=].
  - eapply pres_bind; [apply pres_alloc; constructor|]. intros a Ha.
    apply pres_alloc. intros a' [= <-]. exact Ha.
Qed.


(** *** The copy is made of new cells *)

Lemma inv_length (h : heap) : inv h -> n0 <= length h.
Proof using Type. intros (e & -> & _). rewrite length_app. unfold n0. lia. Qed.

Lemma inv_snoc (h : heap) (c : Cell) : inv h -> closedCell c -> inv (h ++ [c]).
Proof using Type.
  intros (e & -> & He) Hc. exists (e ++ [c]). split; [now rewrite app_assoc|].
  apply Forall_app. split; [exact He | now constructor].
Qed.

Lemma allocNode_unfold (n : FileNode) (h : heap) :
  allocNode n h =
  match children n with
  | None =>
      (length h, h ++ [CObj (mkObj (name n) (type n) (path n) None (content n))])
  | Some cs =>
      let '(items, h1) := allocNodes cs h in
      (length (h1 ++ [CArr items]),
       (h1 ++ [CArr items])
         ++ [CObj (mkObj (name n) (type n) (path n) (Some (length h1)) (content n))])
  end.
Proof. destruct n as [nm ty pa [cs|] co]; reflexivity. Qed.

Lemma allocNodes_inv (l : list FileNode) :
  Forall (fun n => forall h, inv h ->
                     inv (snd (allocNode n h)) /\ n0 <= fst (allocNode n h)) l ->
  forall h, inv h ->
    inv (snd (allocNodes l h)) /\ Forall (fun a => n0 <= a) (fst (allocNodes l h)).
Proof using Type.
  induction 1 as [|x l Hx _ IH]; intros h Hh; simpl; [auto|].
  destruct (Hx h Hh) as [H1 Hl]. destruct (allocNode x h) as [lx h1]. simpl in *.
  destruct (IH h1 H1) as [H2 Hls]. destruct (allocNodes l h1) as [ls h2]. simpl in *.
  auto.
Qed.

Lemma allocNode_inv (n : FileNode) :
  forall h, inv h -> inv (snd (allocNode n h)) /\ n0 <= fst (allocNode n h).
Proof using Type.
  induction n as [n IH] using TreeFacts.FileNode_tree_ind. intros h Hh.
  rewrite allocNode_unfold. unfold childrenOrEmpty in IH.
  destruct (children n) as [cs|]; simpl.
  - destruct (allocNodes_inv cs IH h Hh) as [H1 Hitems].
    destruct (allocNodes cs h) as [items h1]. simpl in *.
    pose proof (inv_length h1 H1) as Hlen. split.
    + apply inv_snoc; [apply inv_snoc; assumption|].
      intros a [= <-]. exact Hlen.
    + rewrite length_app. lia.
  - split; [|now apply inv_length].
    apply inv_snoc; [exact Hh|]. intros a [=].
Qed.

Lemma pres_jsonClone (fuel : nat) (nodes : loc) :
  preserves inv (jsonClone fuel nodes) (fun a => n0 <= a).
Proof using Type.
  intros h Hh. unfold jsonClone.
  destruct (reifyArr fuel h nodes) as [t|]; [|split; [exact Hh | intros a [=]]].
  unfold allocArr.
  assert (Hall : Forall (fun n => forall h, inv h ->
              inv (snd (allocNode n h)) /\ n0 <= fst (allocNode n h)) t)
    by (apply List.Forall_forall; intros n _; apply allocNode_inv).
  destruct (allocNodes_inv t Hall h Hh) as [H1 Hitems].
  destruct (allocNodes t h) as [items h1]. simpl in *. split.
  - now apply inv_snoc.
  - intros a [= <-]. now apply inv_length.
Qed.

Lemma pres_addOrUpdateFileByPath (fuel : nat) (nodes : loc) (p newContent : string) :
  preserves inv (addOrUpdateFileByPath fuel nodes p newContent) (fun a => n0 <= a).
Proof using Type.
  unfold addOrUpdateFileByPath.
  eapply pres_bind; [apply pres_jsonClone|]. intros newStructure Hnew.
  destruct (Tree.pop (Tree.pathSegments p)) as [[pathParts fileName]|];
    [|apply pres_ret; exact Hnew].
  eapply pres_bind; [apply pres_upsertWalk; exact Hnew|]. intros _ _.
  apply pres_ret. exact Hnew.
Qed.

Lemma pres_insertNew (fuel : nat) (newStructure : loc)
    (parentPath nodeName : string) (ty : NodeType) :
  n0 <= newStructure ->
  preserves inv (insertNew fuel newStructure parentPath nodeName ty)
    (fun a => n0 <= a).
Proof using Type.
  intros Hnew. unfold insertNew.
  destruct (String.eqb parentPath "/").
  - eapply pres_bind; [apply pres_allocNewNode|]. intros l Hl.
    eapply pres_bind; [apply pres_push; assumption|]. intros _ _.
    apply pres_ret. exact Hnew.
  - eapply pres_bind; [apply pres_findFileByPath; exact Hnew|].
    intros parentNode Hparent.
    destruct parentNode as [pl|]; [|apply pres_throw].
    eapply pres_bind; [apply pres_getObj; eauto|]. intros parent Hch.
    destruct (NodeType_eqb (otype parent) Folder); [|apply pres_throw].
    eapply pres_bind with (Q := fun a => n0 <= a).
    { destruct (ochildren parent) as [a|] eqn:Hc; [apply pres_ret; exact (Hch a Hc)|].
      eapply pres_bind; [apply pres_alloc; apply List.Forall_nil|]. intros a Ha.
      eapply pres_bind; [apply pres_setCell; [eauto|]|].
      - intros a' [= <-]. exact Ha.
      - intros _ _. apply pres_ret. exact Ha. }
    intros arr Harr.
    eapply pres_bind; [apply pres_allocNewNode|]. intros l Hl.
    eapply pres_bind; [apply pres_push; assumption|]. intros _ _.
    apply pres_ret. exact Hnew.
Qed.

Lemma pres_addNodeToTree (fuel : nat) (nodes : loc) (parentPath nodeName : string)
    (ty : NodeType) :
  preserves inv (addNodeToTree fuel nodes parentPath nodeName ty) (fun a => n0 <= a).
Proof using Type.
  unfold addNodeToTree.
  eapply pres_bind; [apply pres_jsonClone|]. intros newStructure Hnew.
  eapply pres_bind; [apply pres_findFileByPath; exact Hnew|]. intros existing _.
  destruct existing as [l|]; [apply pres_throw|].
  now apply pres_insertNew.
Qed.

(** *** [deleteNodeByPath] only makes new cells *)

Lemma ext_read {A} (m : HM A) :
  (forall h, snd (m h) = h) -> preserves extends m (fun _ => True).
Proof using Type. intros Hm h Hh. rewrite Hm. auto. Qed.

Lemma ext_getObj (l : loc) : preserves extends (getObj l) (fun _ => True).
Proof using Type.
  apply ext_read. intros h. unfold getObj. now destruct (h !! l) as [[?|?]|].
Qed.

Lemma ext_getArr (l : loc) : preserves extends (getArr l) (fun _ => True).
Proof using Type.
  apply ext_read. intros h. unfold getArr. now destruct (h !! l) as [[?|?]|].
Qed.

Lemma ext_alloc (c : Cell) : preserves extends (alloc c) (fun l => n0 <= l).
Proof using Type.
  intros h [e ->]. unfold alloc. simpl. split.
  - exists (e ++ [c]). now rewrite app_assoc.
  - intros a [= <-]. rewrite length_app. unfold n0. lia.
Qed.

Lemma ext_filterH (test : Obj -> bool) (items : list loc) :
  preserves extends (filterH test items) (fun _ => True).
Proof using Type.
  induction items as [|l rest IH]; simpl; [now apply pres_ret|].
  eapply pres_bind; [apply ext_getObj|]. intros o _.
  eapply pres_bind; [exact IH|]. intros ls _. now apply pres_ret.
Qed.

Lemma ext_mapH {A B} (f : A -> HM B) (l : list A) :
  (forall x, preserves extends (f x) (fun _ => True)) ->
  preserves extends (mapH f l) (fun _ => True).
Proof using Type.
  intros Hf. induction l as [|x l IH]; simpl; [now apply pres_ret|].
  eapply pres_bind; [apply Hf|]. intros y _.
  eapply pres_bind; [exact IH|]. intros ys _. now apply pres_ret.
Qed.

Lemma ext_deleteNodeByPath (fuel : nat) :
  forall (nodes : loc) (p : string),
    preserves extends (deleteNodeByPath fuel nodes p) (fun a => n0 <= a).
Proof using Type.
  induction fuel as [|fuel IH]; intros nodes p; simpl; [apply pres_stuck|].
  eapply pres_bind; [apply ext_getArr|]. intros items _.
  eapply pres_bind; [apply ext_filterH|]. intros kept _.
  eapply pres_bind; [apply ext_alloc|]. intros newNodes _.
  eapply pres_bind; [|intros mapped _; apply ext_alloc].
  apply ext_mapH. intros l.
  eapply pres_bind; [apply ext_getObj|]. intros o _.
  destruct (otype o); [now apply pres_ret|].
  destruct (ochildren o) as [ca|]; [|now apply pres_ret].
  destruct (String.prefix _ p); [|now apply pres_ret].
  eapply pres_bind; [apply IH|]. intros ca' _.
  eapply pres_weaken; [apply ext_alloc | auto].
Qed.

End Frame.


(** *** Reading after the heap grew *)

Lemma traverse_ext {A B} (f g : A -> option B) (l : list A) (ys : list B) :
  (forall x y, f x = Some y -> g x = Some y) ->
  traverse f l = Some ys -> traverse g l = Some ys.
Proof.
  intros Hfg. revert ys. induction l as [|x l IH]; intros ys; simpl; [auto|].
  destruct (f x) as [y|] eqn:Hx; [|discriminate].
  destruct (traverse f l) as [ys'|]; [|discriminate].
  intros [= <-]. now rewrite (Hfg x y Hx), (IH ys' eq_refl).
Qed.

Lemma reifyArr_app (k : nat) :
  forall (h e : heap) (a : loc) (t : list FileNode),
    reifyArr k h a = Some t -> reifyArr k (h ++ e) a = Some t.
Proof.
  induction k as [|k IH]; intros h e a t; simpl; [discriminate|].
  destruct (h !! a) as [c|] eqn:Ha; [|discriminate].
  rewrite (lookup_app_l_Some _ _ _ _ Ha).
  destruct c as [o|items]; [discriminate|].
  apply traverse_ext. intros l n.
  destruct (h !! l) as [c|] eqn:Hl; [|discriminate].
  rewrite (lookup_app_l_Some _ _ _ _ Hl).
  destruct c as [o|]; [|discriminate].
  destruct (ochildren o) as [ca|]; [|auto].
  destruct (reifyArr k h ca) as [cs|] eqn:Hcs; [|discriminate].
  now rewrite (IH h e ca cs Hcs).
Qed.

Lemma extends_untouched (h h' : heap) (nodes : loc) :
  extends h h' -> HeapModel.untouched h h' nodes.
Proof.
  intros [e ->]. split; [now exists e|]. split.
  - intros l Hl. now apply lookup_app_l.
  - intros k t. apply reifyArr_app.
Qed.

Lemma inv_start (h : heap) : inv h h.
Proof. exists []. split; [now rewrite app_nil_r | constructor]. Qed.



(** *** The copy stands for the same tree *)

Import HeapModel.

Lemma lookup_last {A} (l : list A) (x : A) : (l ++ [x]) !! length l = Some x.
Proof.
  rewrite lookup_app_r by lia. now replace (length l - length l) with 0 by lia.
Qed.

Lemma reifyArr_unfold (k : nat) (h : heap) (a : loc) :
  reifyArr (S k) h a =
  match h !! a with
  | Some (CArr items) => traverse (reifyObj k h) items
  | _ => None
  end.
Proof. reflexivity. Qed.

Lemma reifyArr_intro (k : nat) (h : heap) (a : loc) (items : list loc)
    (t : list FileNode) :
  h !! a = Some (CArr items) -> traverse (reifyObj k h) items = Some t ->
  reifyArr (S k) h a = Some t.
Proof. intros Ha Ht. rewrite reifyArr_unfold, Ha. exact Ht. Qed.

Lemma reifyObj_app (k : nat) (h e : heap) (l : loc) (n : FileNode) :
  reifyObj k h l = Some n -> reifyObj k (h ++ e) l = Some n.
Proof.
  unfold reifyObj. destruct (h !! l) as [c|] eqn:Hl; [|discriminate].
  rewrite (lookup_app_l_Some _ _ _ _ Hl). destruct c as [o|]; [|discriminate].
  destruct (ochildren o) as [ca|]; [|auto].
  destruct (reifyArr k h ca) as [cs|] eqn:Hcs; [|discriminate].
  now rewrite (reifyArr_app k h e ca cs Hcs).
Qed.

Lemma traverse_cons {A B} (f : A -> option B) (x : A) (l : list A) :
  traverse f (x :: l) =
  match f x, traverse f l with
  | Some y, Some ys => Some (y :: ys)
  | _, _ => None
  end.
Proof. reflexivity. Qed.

Lemma reifyArr_mono (k : nat) :
  forall (h : heap) (a : loc) (t : list FileNode),
    reifyArr k h a = Some t -> reifyArr (S k) h a = Some t.
Proof.
  induction k as [|k IH]; intros h a t; [discriminate|].
  rewrite !reifyArr_unfold.
  destruct (h !! a) as [[o|items]|]; try discriminate.
  apply traverse_ext. intros l n. unfold reifyObj.
  destruct (h !! l) as [[o|]|]; try discriminate.
  destruct (ochildren o) as [ca|]; [|auto].
  destruct (reifyArr k h ca) as [cs|] eqn:Hcs; [|discriminate].
  now rewrite (IH h ca cs Hcs).
Qed.

Lemma reifyArr_le (k k' : nat) (h : heap) (a : loc) (t : list FileNode) :
  k <= k' -> reifyArr k h a = Some t -> reifyArr k' h a = Some t.
Proof. induction 1; [auto|]. intros Hr. apply reifyArr_mono. auto. Qed.

(** A tree that was read with [k] steps of depth is less than [k] deep. *)
Lemma reifyArr_height (k : nat) :
  forall (h : heap) (a : loc) (t : list FileNode),
    reifyArr k h a = Some t -> heightOf t < k.
Proof.
  induction k as [|k IH]; intros h a t; [discriminate|].
  rewrite reifyArr_unfold. destruct (h !! a) as [[o|items]|]; try discriminate.
  revert t. induction items as [|l items IHi]; intros t.
  - intros [= <-]. simpl. lia.
  - rewrite traverse_cons. destruct (reifyObj k h l) as [n|] eqn:Hn; [|discriminate].
    destruct (traverse (reifyObj k h) items) as [ns|] eqn:Hns; [|discriminate].
    intros [= <-]. specialize (IHi ns eq_refl).
    change (heightOf (n :: ns)) with (Nat.max (height n) (heightOf ns)).
    assert (height n <= k); [|lia].
    unfold reifyObj in Hn. destruct (h !! l) as [[o|]|]; try discriminate.
    destruct (ochildren o) as [ca|].
    + destruct (reifyArr k h ca) as [cs|] eqn:Hcs; [|discriminate].
      injection Hn as <-. apply IH in Hcs.
      change (height (mkFileNode _ _ _ (Some cs) _)) with (S (heightOf cs)). lia.
    + injection Hn as <-. simpl. lia.
Qed.

Lemma allocNodes_reify (k : nat) (t : list FileNode) :
  Forall (fun n => forall h, height n <= k ->
                     reifyObj k (snd (allocNode n h)) (fst (allocNode n h)) = Some n
                     /\ exists e, snd (allocNode n h) = h ++ e) t ->
  forall h, heightOf t <= k ->
    traverse (reifyObj k (snd (allocNodes t h))) (fst (allocNodes t h)) = Some t
    /\ exists e, snd (allocNodes t h) = h ++ e.
Proof.
  induction 1 as [|x l Hx _ IH]; intros h Hk.
  - simpl. split; [reflexivity|]. exists []. now rewrite app_nil_r.
  - change (heightOf (x :: l)) with (Nat.max (height x) (heightOf l)) in Hk.
    cbn [allocNodes]. destruct (Hx h ltac:(lia)) as [Hrx [e1 He1]].
    destruct (allocNode x h) as [lx h1]. cbn [fst snd] in *.
    destruct (IH h1 ltac:(lia)) as [Hrl [e2 He2]].
    destruct (allocNodes l h1) as [ls h2]. cbn [fst snd] in *. subst h1 h2.
    split; [|exists (e1 ++ e2); now rewrite app_assoc].
    rewrite traverse_cons, (reifyObj_app k _ e2 lx x Hrx), Hrl. reflexivity.
Qed.

Lemma allocNode_reify (n : FileNode) :
  forall k h, height n <= k ->
    reifyObj k (snd (allocNode n h)) (fst (allocNode n h)) = Some n
    /\ exists e, snd (allocNode n h) = h ++ e.
Proof.
  induction n as [n IH] using TreeFacts.FileNode_tree_ind. intros k h Hk.
  rewrite allocNode_unfold. unfold childrenOrEmpty in IH.
  destruct n as [nm ty pa [cs|] co]; simpl in *.
  - destruct k as [|k]; [lia|].
    assert (Hall : Forall (fun n => forall h, height n <= k ->
               reifyObj k (snd (allocNode n h)) (fst (allocNode n h)) = Some n
               /\ exists e, snd (allocNode n h) = h ++ e) cs).
    { eapply Forall_impl; [exact IH|]. intros x Hx h'. apply Hx. }
    destruct (allocNodes_reify k cs Hall h ltac:(unfold heightOf; lia))
      as [Hr [e He]].
    destruct (allocNodes cs h) as [items h1]. simpl in *. subst h1. split.
    + set (h1 := h ++ e) in *.
      assert (Harr : ((h1 ++ [CArr items])
                        ++ [CObj (mkObj nm ty pa (Some (length h1)) co)]) !! length h1
                     = Some (CArr items)).
      { apply lookup_app_l_Some. apply lookup_last. }
      assert (Hcs : reifyArr (S k)
                      ((h1 ++ [CArr items])
                         ++ [CObj (mkObj nm ty pa (Some (length h1)) co)])
                      (length h1) = Some cs).
      { apply (reifyArr_intro k _ _ items cs Harr).
        eapply traverse_ext; [|exact Hr]. intros l x Hl.
        rewrite <- app_assoc. now apply reifyObj_app. }
      unfold reifyObj. rewrite lookup_last. cbn [ochildren].
      rewrite Hcs. reflexivity.
    + exists (e ++ [CArr items]
                ++ [CObj (mkObj nm ty pa (Some (length (h ++ e))) co)]).
      now rewrite <- !app_assoc.
  - split.
    + unfold reifyObj. rewrite lookup_app_r by lia.
      replace (length h - length h) with 0 by lia. reflexivity.
    + eexists. reflexivity.
Qed.

(** [JSON.parse(JSON.stringify(nodes))] on an array that stands for a tree
    returns a new array that stands for the same tree. *)
Lemma jsonClone_reify (k : nat) (h : heap) (nodes : loc) (t : list FileNode) :
  reifyArr k h nodes = Some t ->
  exists new h1,
    jsonClone k nodes h = (Ok new, h1) /\ reifyArr k h1 new = Some t.
Proof.
  intros Hr. unfold jsonClone, allocArr. rewrite Hr.
  pose proof (reifyArr_height k h nodes t Hr) as Hh.
  destruct k as [|k]; [discriminate Hr|].
  assert (Hall : Forall (fun n => forall h, height n <= k ->
             reifyObj k (snd (allocNode n h)) (fst (allocNode n h)) = Some n
             /\ exists e, snd (allocNode n h) = h ++ e) t).
  { apply List.Forall_forall. intros n _ h'. apply allocNode_reify. }
  destruct (allocNodes_reify k t Hall h ltac:(lia)) as [Ht _].
  destruct (allocNodes t h) as [items h1]. cbn [fst snd] in *.
  eexists _, _. split; [reflexivity|].
  apply (reifyArr_intro k _ _ items t (lookup_last h1 (CArr items))).
  eapply traverse_ext; [|exact Ht]. intros l n. apply reifyObj_app.
Qed.


(** *** [findFileByPath] on the heap and on the tree it stands for *)

Lemma scanItems_cons (k : nat) (p : string) (l : loc) (rest : list loc) :
  scanItems k p (l :: rest) =
  hbind (getObj l) (fun node =>
    if String.eqb (opath node) p then hret (Some l)
    else
      match otype node, ochildren node with
      | Folder, Some ca =>
          if String.prefix (opath node +:+ "/") p
          then hbind (findFileByPath k ca p) (fun found =>
                 match found with
                 | Some r => hret (Some r)
                 | None => scanItems k p rest
                 end)
          else scanItems k p rest
      | _, _ => scanItems k p rest
      end).
Proof. reflexivity. Qed.

Lemma findFileByPath_unfold (k : nat) (nodes : loc) (p : string) :
  findFileByPath (S k) nodes p = hbind (getArr nodes) (scanItems k p).
Proof. reflexivity. Qed.

Lemma reifyObj_mono (k : nat) (h : heap) (l : loc) (n : FileNode) :
  reifyObj k h l = Some n -> reifyObj (S k) h l = Some n.
Proof.
  unfold reifyObj. destruct (h !! l) as [[o|]|]; try discriminate.
  destruct (ochildren o) as [ca|]; [|auto].
  destruct (reifyArr k h ca) as [cs|] eqn:Hcs; [|discriminate].
  now rewrite (reifyArr_mono k h ca cs Hcs).
Qed.

Lemma find_refines (k : nat) :
  forall (h : heap) (a : loc) (t : list FileNode) (p : string),
    reifyArr k h a = Some t ->
    exists r, findFileByPath k a p h = (Ok r, h)
              /\ foundAs k h r (Tree.findFileByPath t p).
Proof.
  induction k as [|k IH]; intros h a t p Hr; [discriminate Hr|].
  rewrite reifyArr_unfold in Hr.
  destruct (h !! a) as [[o|items]|] eqn:Ha; try discriminate Hr.
  rewrite findFileByPath_unfold. unfold hbind at 1, getArr. rewrite Ha.
  unfold Tree.findFileByPath. clear Ha.
  revert t Hr. induction items as [|l items IHi]; intros t Hr.
  - injection Hr as <-. exists None. split; reflexivity.
  - rewrite traverse_cons in Hr.
    destruct (reifyObj k h l) as [n|] eqn:Hn; [|discriminate Hr].
    destruct (traverse (reifyObj k h) items) as [ns|] eqn:Hns; [|discriminate Hr].
    injection Hr as <-. specialize (IHi ns eq_refl).
    destruct IHi as (r' & Hscan & Hspec).
    rewrite scanItems_cons. unfold hbind at 1, getObj.
    pose proof Hn as Hn'. unfold reifyObj in Hn'.
    destruct (h !! l) as [[o|]|] eqn:Hl; try discriminate Hn'.
    rewrite TreeFacts.firstSome_cons, TreeFacts.findNode_unfold.
    assert (Hpath : path n = opath o /\ type n = otype o).
    { destruct (ochildren o) as [ca|].
      - destruct (reifyArr k h ca); [|discriminate Hn'].
        injection Hn' as <-. auto.
      - injection Hn' as <-. auto. }
    destruct Hpath as [Hp Hty]. rewrite Hp, Hty.
    destruct (String.eqb (opath o) p).
    { exists (Some l). split; [reflexivity|]. exists n. split; [reflexivity|].
      now apply reifyObj_mono. }
    destruct (otype o).
    { exists r'. split; [exact Hscan | exact Hspec]. }
    destruct (ochildren o) as [ca|] eqn:Hch.
    2:{ injection Hn' as <-. exists r'. split; [exact Hscan | exact Hspec]. }
    destruct (reifyArr k h ca) as [cs|] eqn:Hcs; [|discriminate Hn'].
    injection Hn' as <-. cbn [children].
    destruct (String.prefix (opath o +:+ "/") p).
    2:{ exists r'. split; [exact Hscan | exact Hspec]. }
    destruct (IH h ca cs p Hcs) as (rc & Hfc & Hspecc).
    unfold hbind at 1. rewrite Hfc.
    destruct rc as [lr|].
    + destruct Hspecc as (m & Hm & Hrm). exists (Some lr).
      split; [reflexivity|]. exists m.
      rewrite Hm.
      split; [reflexivity | now apply reifyObj_mono].
    + simpl in Hspecc. rewrite Hspecc.
      exists r'. split; [exact Hscan | exact Hspec].
Qed.


(** *** What [addNodeToTree] throws *)

Lemma throwsOnly_bind {A B} (E : Tree.TreeError -> Prop) (m : HM A) (k : A -> HM B) :
  throwsOnly E m -> (forall a, throwsOnly E (k a)) -> throwsOnly E (hbind m k).
Proof.
  intros Hm Hk h e. unfold hbind. specialize (Hm h).
  destruct (m h) as [[a|e'|] h']; simpl in *.
  - apply Hk.
  - intros [= <-]. now apply Hm.
  - discriminate.
Qed.

Lemma throwsOnly_ret {A} (E : Tree.TreeError -> Prop) (a : A) : throwsOnly E (hret a).
Proof. intros h e H. discriminate H. Qed.

Lemma throwsOnly_throw {A} (E : Tree.TreeError -> Prop) (e : Tree.TreeError) :
  E e -> throwsOnly E (@hthrow A e).
Proof. intros He h e' [= <-]. exact He. Qed.

Lemma throwsOnly_getObj E (l : loc) : throwsOnly E (getObj l).
Proof. intros h e. unfold getObj. now destruct (h !! l) as [[?|?]|]. Qed.

Lemma throwsOnly_getArr E (l : loc) : throwsOnly E (getArr l).
Proof. intros h e. unfold getArr. now destruct (h !! l) as [[?|?]|]. Qed.

Lemma throwsOnly_setCell E (l : loc) (c : Cell) : throwsOnly E (setCell l c).
Proof. intros h e H. discriminate H. Qed.

Lemma throwsOnly_alloc E (c : Cell) : throwsOnly E (alloc c).
Proof. intros h e H. discriminate H. Qed.

Lemma throwsOnly_push E (arr x : loc) : throwsOnly E (push arr x).
Proof.
  apply throwsOnly_bind; [apply throwsOnly_getArr|].
  intros items. apply throwsOnly_setCell.
Qed.

Lemma throwsOnly_allocNewNode E (nodeName : string) (ty : NodeType) (p : string) :
  throwsOnly E (allocNewNode nodeName ty p).
Proof.
  destruct ty; simpl; [apply throwsOnly_alloc|].
  apply throwsOnly_bind; [apply throwsOnly_alloc|]. intros a. apply throwsOnly_alloc.
Qed.

Lemma throwsOnly_find E (k : nat) :
  forall (nodes : loc) (p : string), throwsOnly E (findFileByPath k nodes p).
Proof.
  induction k as [|k IH]; intros nodes p; [intros h e H; discriminate H|].
  rewrite findFileByPath_unfold.
  apply throwsOnly_bind; [apply throwsOnly_getArr|]. intros items.
  induction items as [|l rest IHr]; [apply throwsOnly_ret|].
  rewrite scanItems_cons.
  apply throwsOnly_bind; [apply throwsOnly_getObj|]. intros o.
  destruct (String.eqb (opath o) p); [apply throwsOnly_ret|].
  destruct (otype o); [exact IHr|].
  destruct (ochildren o) as [ca|]; [|exact IHr].
  destruct (String.prefix _ p); [|exact IHr].
  apply throwsOnly_bind; [apply IH|]. intros [r|]; [apply throwsOnly_ret | exact IHr].
Qed.

Lemma throwsOnly_insertNew (k : nat) (new : loc) (parentPath nodeName : string)
    (ty : NodeType) :
  throwsOnly (fun e => e = Tree.ParentNotFound parentPath)
    (insertNew k new parentPath nodeName ty).
Proof.
  unfold insertNew. destruct (String.eqb parentPath "/").
  - apply throwsOnly_bind; [apply throwsOnly_allocNewNode|]. intros l.
    apply throwsOnly_bind; [apply throwsOnly_push|]. intros _.
    apply throwsOnly_ret.
  - apply throwsOnly_bind; [apply throwsOnly_find|]. intros [pl|];
      [|now apply throwsOnly_throw].
    apply throwsOnly_bind; [apply throwsOnly_getObj|]. intros parent.
    destruct (NodeType_eqb (otype parent) Folder);
      [|now apply throwsOnly_throw].
    apply throwsOnly_bind.
    + destruct (ochildren parent); [apply throwsOnly_ret|].
      apply throwsOnly_bind; [apply throwsOnly_alloc|]. intros a.
      apply throwsOnly_bind; [apply throwsOnly_setCell|]. intros _.
      apply throwsOnly_ret.
    + intros arr.
      apply throwsOnly_bind; [apply throwsOnly_allocNewNode|]. intros l.
      apply throwsOnly_bind; [apply throwsOnly_push|]. intros _.
      apply throwsOnly_ret.
Qed.


(** *** Trees in the heap: the cells of a node *)

Lemma rep_mutind (h : heap)
    (P : loc -> FileNode -> gset loc -> Prop)
    (P0 : list loc -> list FileNode -> gset loc -> Prop) :
  (forall l nm ty pa co,
      h !! l = Some (CObj (mkObj nm ty pa None co)) ->
      P l (mkFileNode nm ty pa None co) {[ l ]}) ->
  (forall l a nm ty pa co items cs Fs,
      h !! l = Some (CObj (mkObj nm ty pa (Some a) co)) ->
      h !! a = Some (CArr items) ->
      repList h items cs Fs -> P0 items cs Fs -> l ∉ Fs -> a ∉ Fs ->
      P l (mkFileNode nm ty pa (Some cs) co) ({[ l ]} ∪ ({[ a ]} ∪ Fs))) ->
  P0 [] [] ∅ ->
  (forall l n F1 items ns F2,
      repNode h l n F1 -> P l n F1 -> repList h items ns F2 -> P0 items ns F2 ->
      F1 ## F2 -> P0 (l :: items) (n :: ns) (F1 ∪ F2)) ->
  (forall l n F, repNode h l n F -> P l n F)
  /\ (forall items ns F, repList h items ns F -> P0 items ns F).
Proof.
  intros H1 H2 H3 H4. split.
  - apply (repNode_mut h P P0); assumption.
  - apply (repList_mut h P P0); assumption.
Qed.

(** The cells of a node are cells of the heap. *)
Lemma rep_bound (h : heap) :
  (forall l n F, repNode h l n F -> forall x, x ∈ F -> x < length h)
  /\ (forall items ns F, repList h items ns F -> forall x, x ∈ F -> x < length h).
Proof.
  apply rep_mutind.
  - intros l nm ty pa co Hl x Hx. apply elem_of_singleton in Hx as ->.
    now apply lookup_lt_Some in Hl.
  - intros l a nm ty pa co items cs Fs Hl Ha _ IH _ _ x Hx.
    apply lookup_lt_Some in Hl, Ha.
    apply elem_of_union in Hx as [Hx|Hx]; [apply elem_of_singleton in Hx as ->; lia|].
    apply elem_of_union in Hx as [Hx|Hx]; [apply elem_of_singleton in Hx as ->; lia|].
    auto.
  - intros x Hx. now apply elem_of_empty in Hx.
  - intros l n F1 items ns F2 _ IH1 _ IH2 _ x Hx.
    apply elem_of_union in Hx as [Hx|Hx]; auto.
Qed.

(** A node stands for the same value in any heap that has its cells. *)
Lemma rep_frame (h h' : heap) :
  (forall l n F, repNode h l n F ->
     (forall x, x ∈ F -> h' !! x = h !! x) -> repNode h' l n F)
  /\ (forall items ns F, repList h items ns F ->
        (forall x, x ∈ F -> h' !! x = h !! x) -> repList h' items ns F).
Proof.
  apply rep_mutind.
  - intros l nm ty pa co Hl Hsame. constructor.
    rewrite Hsame; [exact Hl | set_solver].
  - intros l a nm ty pa co items cs Fs Hl Ha _ IH Hlf Haf Hsame.
    econstructor; [| |apply IH| |]; try assumption.
    + rewrite Hsame; [exact Hl | set_solver].
    + rewrite Hsame; [exact Ha | set_solver].
    + intros x Hx. apply Hsame. set_solver.
  - intros _. constructor.
  - intros l n F1 items ns F2 _ IH1 _ IH2 Hd Hsame.
    constructor; [apply IH1 | apply IH2 | exact Hd]; intros x Hx; apply Hsame;
      set_solver.
Qed.

Lemma repNode_frame (h h' : heap) (l : loc) (n : FileNode) (F : gset loc) :
  repNode h l n F -> (forall x, x ∈ F -> h' !! x = h !! x) -> repNode h' l n F.
Proof. apply rep_frame. Qed.

Lemma repList_frame (h h' : heap) items ns (F : gset loc) :
  repList h items ns F -> (forall x, x ∈ F -> h' !! x = h !! x) ->
  repList h' items ns F.
Proof. apply rep_frame. Qed.

Lemma repNode_eq (h : heap) (l : loc) (n : FileNode) (F F' : gset loc) :
  repNode h l n F -> F = F' -> repNode h l n F'.
Proof. now intros H <-. Qed.

Lemma repList_eq (h : heap) items ns (F F' : gset loc) :
  repList h items ns F -> F = F' -> repList h items ns F'.
Proof. now intros H <-. Qed.

(** The value read from the cells is the node they stand for. *)
Lemma rep_reify (h : heap) :
  (forall l n F, repNode h l n F ->
     forall k, height n <= k -> reifyObj k h l = Some n)
  /\ (forall items ns F, repList h items ns F ->
        forall k, heightOf ns <= k -> traverse (reifyObj k h) items = Some ns).
Proof.
  apply rep_mutind.
  - intros l nm ty pa co Hl k _. unfold reifyObj. now rewrite Hl.
  - intros l a nm ty pa co items cs Fs Hl Ha _ IH _ _ k Hk.
    change (height (mkFileNode nm ty pa (Some cs) co)) with (S (heightOf cs)) in Hk.
    destruct k as [|k]; [lia|].
    unfold reifyObj. rewrite Hl. cbn [ochildren oname otype opath ocontent].
    rewrite (reifyArr_intro k h a items cs Ha (IH k ltac:(lia))). reflexivity.
  - intros k _. reflexivity.
  - intros l n F1 items ns F2 _ IH1 _ IH2 _ k Hk.
    change (heightOf (n :: ns)) with (Nat.max (height n) (heightOf ns)) in Hk.
    rewrite traverse_cons, (IH1 k ltac:(lia)), (IH2 k ltac:(lia)). reflexivity.
Qed.

Lemma repArr_reify (h : heap) (a : loc) (t : list FileNode) (F : gset loc) :
  repArr h a t F -> reifyArr (S (heightOf t)) h a = Some t.
Proof.
  intros (items & Fs & Ha & Hl & _ & _).
  apply (reifyArr_intro _ h a items t Ha).
  now apply (proj2 (rep_reify h) items t Fs Hl).
Qed.

Lemma repNode_app (h e : heap) (l : loc) (n : FileNode) (F : gset loc) :
  repNode h l n F -> repNode (h ++ e) l n F.
Proof.
  intros H. apply (repNode_frame h); [exact H|].
  intros x Hx. apply lookup_app_l. now apply (proj1 (rep_bound h) l n F).
Qed.

Lemma repList_app (h e : heap) items ns (F : gset loc) :
  repList h items ns F -> repList (h ++ e) items ns F.
Proof.
  intros H. apply (repList_frame h); [exact H|].
  intros x Hx. apply lookup_app_l. now apply (proj2 (rep_bound h) items ns F).
Qed.

(** *** The copy is a tree of cells of its own *)

Lemma allocNodes_rep (t : list FileNode) :
  Forall (fun n => forall h, exists F e,
            snd (allocNode n h) = h ++ e
            /\ repNode (h ++ e) (fst (allocNode n h)) n F
            /\ forall x, x ∈ F -> length h <= x) t ->
  forall h, exists F e,
    snd (allocNodes t h) = h ++ e
    /\ repList (h ++ e) (fst (allocNodes t h)) t F
    /\ forall x, x ∈ F -> length h <= x.
Proof.
  induction 1 as [|n l Hn _ IH]; intros h.
  - exists ∅, []. rewrite app_nil_r. split; [reflexivity|].
    split; [constructor|]. intros x Hx. now apply elem_of_empty in Hx.
  - cbn [allocNodes]. destruct (Hn h) as (F1 & e1 & He1 & Hr1 & Hb1).
    destruct (allocNode n h) as [lx h1]. cbn [fst snd] in *. subst h1.
    destruct (IH (h ++ e1)) as (F2 & e2 & He2 & Hr2 & Hb2).
    destruct (allocNodes l (h ++ e1)) as [ls h2]. cbn [fst snd] in *. subst h2.
    exists (F1 ∪ F2), (e1 ++ e2). rewrite app_assoc.
    split; [reflexivity|]. split.
    + constructor; [now apply repNode_app | exact Hr2|].
      intros x Hx1 Hx2. apply Hb2 in Hx2.
      apply (proj1 (rep_bound _) _ _ _ Hr1) in Hx1. lia.
    + intros x Hx. apply elem_of_union in Hx as [Hx|Hx]; [auto|].
      apply Hb2 in Hx. rewrite length_app in Hx. lia.
Qed.

Lemma allocNode_rep (n : FileNode) :
  forall h, exists F e,
    snd (allocNode n h) = h ++ e
    /\ repNode (h ++ e) (fst (allocNode n h)) n F
    /\ forall x, x ∈ F -> length h <= x.
Proof.
  induction n as [n IH] using TreeFacts.FileNode_tree_ind. intros h.
  rewrite allocNode_unfold. unfold childrenOrEmpty in IH.
  destruct n as [nm ty pa [cs|] co]; cbn [children name type path content] in *.
  - destruct (allocNodes_rep cs IH h) as (Fs & e & He & Hr & Hb).
    destruct (allocNodes cs h) as [items h1]. cbn [fst snd] in *. subst h1.
    pose proof (proj2 (rep_bound _) _ _ _ Hr) as Hlt.
    set (a := length (h ++ e)).
    set (o := CObj (mkObj nm ty pa (Some a) co)).
    exists ({[ S a ]} ∪ ({[ a ]} ∪ Fs)), (e ++ [CArr items] ++ [o]).
    replace (length ((h ++ e) ++ [CArr items])) with (S a)
      by (rewrite length_app; simpl; lia).
    rewrite <- !app_assoc. split; [reflexivity|]. split.
    + rewrite !app_assoc.
      apply (rep_inner _ (S a) a nm ty pa co items cs Fs).
      * replace (S a) with (length ((h ++ e) ++ [CArr items]))
          by (rewrite length_app; simpl; lia).
        apply lookup_last.
      * apply lookup_app_l_Some. apply lookup_last.
      * rewrite <- app_assoc. now apply repList_app.
      * intros Hx. apply Hlt in Hx. lia.
      * intros Hx. apply Hlt in Hx. lia.
    + intros x Hx. unfold a in Hx. rewrite length_app in Hx.
      apply elem_of_union in Hx as [Hx|Hx];
        [apply elem_of_singleton in Hx as ->; lia|].
      apply elem_of_union in Hx as [Hx|Hx];
        [apply elem_of_singleton in Hx as ->; lia|].
      auto.
  - exists {[ length h ]}, [CObj (mkObj nm ty pa None co)].
    split; [reflexivity|]. split.
    + constructor. apply lookup_last.
    + intros x Hx. apply elem_of_singleton in Hx as ->. lia.
Qed.

(** [JSON.parse(JSON.stringify(nodes))] returns a tree of new cells that
    stands for the tree the array stood for. *)
Lemma jsonClone_rep (k : nat) (h : heap) (nodes : loc) (t : list FileNode) :
  reifyArr k h nodes = Some t ->
  exists new e F,
    jsonClone k nodes h = (Ok new, h ++ e) /\ repArr (h ++ e) new t F.
Proof.
  intros Hr. unfold jsonClone, allocArr. rewrite Hr.
  assert (Hall : Forall (fun n => forall h, exists F e,
            snd (allocNode n h) = h ++ e
            /\ repNode (h ++ e) (fst (allocNode n h)) n F
            /\ forall x, x ∈ F -> length h <= x) t).
  { apply List.Forall_forall. intros n _. apply allocNode_rep. }
  destruct (allocNodes_rep t Hall h) as (Fs & e & He & Hrep & _).
  destruct (allocNodes t h) as [items h1]. cbn [fst snd] in *. subst h1.
  exists (length (h ++ e)), (e ++ [CArr items]), ({[ length (h ++ e) ]} ∪ Fs).
  rewrite app_assoc. split; [reflexivity|].
  exists items, Fs. split; [apply lookup_last|].
  split; [now apply repList_app|]. split; [|reflexivity].
  intros Hx. apply (proj2 (rep_bound _) _ _ _ Hrep) in Hx. lia.
Qed.

(** *** The items of an array *)

Lemma repNode_self (h : heap) (l : loc) (n : FileNode) (F : gset loc) :
  repNode h l n F -> l ∈ F.
Proof. destruct 1; set_solver. Qed.

Lemma repNode_obj (h : heap) (l : loc) (n : FileNode) (F : gset loc) :
  repNode h l n F ->
  exists o, h !! l = Some (CObj o)
            /\ oname o = name n /\ otype o = type n /\ opath o = path n
            /\ ocontent o = content n.
Proof. destruct 1; eexists; (split; [eassumption|]); repeat split. Qed.

Lemma repList_cons_inv (h : heap) (items : list loc) (n : FileNode)
    (ns : list FileNode) (F : gset loc) :
  repList h items (n :: ns) F ->
  exists l items' F1 F2,
    items = l :: items' /\ F = F1 ∪ F2
    /\ repNode h l n F1 /\ repList h items' ns F2 /\ F1 ## F2.
Proof. intros H. inversion H; subst. eauto 10. Qed.

Lemma repList_split (h : heap) (l1 : list FileNode) :
  forall items x l2 Fs,
    repList h items (l1 ++ x :: l2) Fs ->
    exists il1 lx il2 F1 Fx F2,
      items = il1 ++ lx :: il2 /\ length il1 = length l1
      /\ repList h il1 l1 F1 /\ repNode h lx x Fx /\ repList h il2 l2 F2
      /\ Fs = F1 ∪ (Fx ∪ F2) /\ F1 ## Fx /\ F1 ## F2 /\ Fx ## F2.
Proof.
  induction l1 as [|y l1 IH]; intros items x l2 Fs H.
  - apply repList_cons_inv in H as (lx & il2 & Fx & F2 & -> & -> & Hx & Hl & Hd).
    exists [], lx, il2, ∅, Fx, F2.
    split; [reflexivity|]. split; [reflexivity|]. split; [constructor|].
    split; [exact Hx|]. split; [exact Hl|].
    split; [set_solver|]. split; [set_solver|]. split; [set_solver | exact Hd].
  - change ((y :: l1) ++ x :: l2) with (y :: (l1 ++ x :: l2)) in H.
    apply repList_cons_inv in H as (ly & items' & Fy & F' & -> & -> & Hy & Hl & Hd).
    destruct (IH _ _ _ _ Hl)
      as (il1 & lx & il2 & F1 & Fx & F2 & -> & Hlen & H1 & Hx & H2 & -> & D1 & D2 & D3).
    exists (ly :: il1), lx, il2, (Fy ∪ F1), Fx, F2.
    split; [reflexivity|]. split; [simpl; now rewrite Hlen|].
    split; [constructor; [assumption | assumption | set_solver]|].
    split; [exact Hx|]. split; [exact H2|].
    split; [set_solver|]. split; [set_solver|]. split; [set_solver | exact D3].
Qed.

Lemma repList_join (h : heap) (il1 : list loc) (l1 : list FileNode) (F1 : gset loc) :
  repList h il1 l1 F1 ->
  forall lx x Fx il2 l2 F2,
    repNode h lx x Fx -> repList h il2 l2 F2 ->
    F1 ## Fx -> F1 ## F2 -> Fx ## F2 ->
    repList h (il1 ++ lx :: il2) (l1 ++ x :: l2) (F1 ∪ (Fx ∪ F2)).
Proof.
  induction 1 as [|ly y Fy il1 l1 F1 Hy H1 IH Hd];
    intros lx x Fx il2 l2 F2 Hx H2 D1 D2 D3.
  - apply (repList_eq h _ _ (Fx ∪ F2)); [|set_solver].
    now constructor.
  - apply (repList_eq h _ _ (Fy ∪ (F1 ∪ (Fx ∪ F2)))); [|set_solver].
    change (repList h (ly :: (il1 ++ lx :: il2)) (y :: (l1 ++ x :: l2))
              (Fy ∪ (F1 ∪ (Fx ∪ F2)))).
    constructor; [exact Hy | apply IH; try assumption; set_solver | set_solver].
Qed.

Lemma repList_snoc (h : heap) (items : list loc) (t : list FileNode) (Fs : gset loc) :
  repList h items t Fs ->
  forall l n F, repNode h l n F -> Fs ## F ->
    repList h (items ++ [l]) (t ++ [n]) (Fs ∪ F).
Proof.
  intros Ht l n F Hn Hd.
  apply (repList_eq h _ _ (Fs ∪ (F ∪ ∅))); [|set_solver].
  apply repList_join; try assumption; [constructor | set_solver | set_solver].
Qed.

(** [arr.find(test)] over the items of an array gives the item at the
    index [findIndex] gives on the tree. *)
Lemma findFirst_rep (h : heap) (test : Obj -> bool) (testN : FileNode -> bool) :
  (forall o n, oname o = name n -> otype o = type n -> test o = testN n) ->
  forall items t Fs,
    repList h items t Fs ->
    findFirst test items h
    = (Ok (match findIndex testN t with Some i => items !! i | None => None end), h).
Proof.
  intros Hc. induction 1 as [|l n F1 items ns F2 Hn Hl IH Hd]; [reflexivity|].
  cbn [findFirst findIndex]. unfold hbind, getObj.
  destruct (repNode_obj h l n F1 Hn) as (o & -> & Hnm & Hty & _).
  rewrite (Hc o n Hnm Hty). destruct (testN n); [reflexivity|].
  rewrite IH. now destruct (findIndex testN ns).
Qed.

Lemma repNode_setContent (h : heap) (l : loc) (n : FileNode) (F : gset loc)
    (o : Obj) (c : string) :
  repNode h l n F -> h !! l = Some (CObj o) ->
  repNode (<[l := CObj (withContent c o)]> h) l (setContent c n) F.
Proof.
  intros Hn Hl. pose proof (lookup_lt_Some _ _ _ Hl) as Hlt.
  destruct Hn as [l nm ty pa co Ho|l a nm ty pa co items cs Fs Ho Ha Hcs Hlf Haf].
  - rewrite Ho in Hl. injection Hl as <-. constructor.
    rewrite list_lookup_insert_eq by exact Hlt; reflexivity.
  - rewrite Ho in Hl. injection Hl as <-.
    assert (Hne : l <> a) by (intros ->; rewrite Ho in Ha; discriminate Ha).
    apply (rep_inner _ l a nm ty pa (Some c) items cs Fs); try assumption.
    + rewrite list_lookup_insert_eq by exact Hlt; reflexivity.
    + now rewrite list_lookup_insert_ne.
    + apply (repList_frame h); [exact Hcs|].
      intros x Hx. rewrite list_lookup_insert_ne; [reflexivity|].
      intros ->. contradiction.
Qed.

(** *** Rebuilding an array around one changed item *)

Lemma repNode_of_arr (h : heap) (l a : loc) (nm : string) (ty : NodeType)
    (pa : string) (co : option string) (cs : list FileNode) (Fa : gset loc) :
  h !! l = Some (CObj (mkObj nm ty pa (Some a) co)) ->
  repArr h a cs Fa -> l ∉ Fa ->
  repNode h l (mkFileNode nm ty pa (Some cs) co) ({[ l ]} ∪ Fa).
Proof.
  intros Hl (items & Fs & Ha & Hcs & Haf & ->) Hlf.
  apply rep_inner with (items := items); try assumption. set_solver.
Qed.

Lemma repArr_replace (h h' : heap) (a : loc)
    (il1 il2 : list loc) (lx : loc) (l1 l2 : list FileNode) (x x' : FileNode)
    (F1 Fx F2 Fx' : gset loc) :
  h !! a = Some (CArr (il1 ++ lx :: il2)) -> a ∉ F1 ∪ (Fx ∪ F2) ->
  repList h il1 l1 F1 -> repNode h lx x Fx -> repList h il2 l2 F2 ->
  F1 ## Fx -> F1 ## F2 -> Fx ## F2 ->
  repNode h' lx x' Fx' ->
  (forall y, y ∈ Fx' -> y ∈ Fx \/ length h <= y) ->
  (forall y, y < length h -> y ∉ Fx -> h' !! y = h !! y) ->
  repArr h' a (l1 ++ x' :: l2) ({[ a ]} ∪ (F1 ∪ (Fx' ∪ F2))).
Proof.
  intros Ha Haf H1 Hx H2 D1 D2 D3 Hx' Hnew Hframe.
  pose proof (proj2 (rep_bound h) _ _ _ H1) as B1.
  pose proof (proj2 (rep_bound h) _ _ _ H2) as B2.
  pose proof (lookup_lt_Some _ _ _ Ha) as Hlt.
  exists (il1 ++ lx :: il2), (F1 ∪ (Fx' ∪ F2)).
  split; [rewrite Hframe; [exact Ha | exact Hlt | set_solver]|].
  split; [|split; [|reflexivity]].
  - apply repList_join; try assumption.
    + apply (repList_frame h); [exact H1|].
      intros y Hy. apply Hframe; [auto | set_solver].
    + apply (repList_frame h); [exact H2|].
      intros y Hy. apply Hframe; [auto | set_solver].
    + intros y Hy1 Hy2. destruct (Hnew y Hy2) as [Hy|Hy]; [set_solver|].
      apply B1 in Hy1. lia.
    + intros y Hy1 Hy2. destruct (Hnew y Hy1) as [Hy|Hy]; [set_solver|].
      apply B2 in Hy2. lia.
  - intros Hy. apply elem_of_union in Hy as [Hy|Hy]; [set_solver|].
    apply elem_of_union in Hy as [Hy|Hy]; [|set_solver].
    destruct (Hnew a Hy) as [Hy'|Hy']; [set_solver | lia].
Qed.

Lemma repArr_push (h h' : heap) (a : loc) (items : list loc) (t : list FileNode)
    (Fs : gset loc) (l : loc) (n : FileNode) (Fn : gset loc) :
  h !! a = Some (CArr items) -> repList h items t Fs -> a ∉ Fs ->
  h' !! a = Some (CArr (items ++ [l])) ->
  repNode h' l n Fn -> (forall y, y ∈ Fn -> length h <= y) ->
  (forall y, y < length h -> y <> a -> h' !! y = h !! y) ->
  repArr h' a (t ++ [n]) ({[ a ]} ∪ (Fs ∪ Fn)).
Proof.
  intros Ha Ht Haf Ha' Hn Hnew Hframe.
  pose proof (proj2 (rep_bound h) _ _ _ Ht) as B.
  pose proof (lookup_lt_Some _ _ _ Ha) as Hlt.
  exists (items ++ [l]), (Fs ∪ Fn).
  split; [exact Ha'|]. split; [|split; [|reflexivity]].
  - apply repList_snoc; [|exact Hn|].
    + apply (repList_frame h); [exact Ht|].
      intros y Hy. apply Hframe; [auto|]. intros ->. contradiction.
    + intros y Hy1 Hy2. apply B in Hy1. apply Hnew in Hy2. lia.
  - intros Hy. apply elem_of_union in Hy as [Hy|Hy]; [contradiction|].
    apply Hnew in Hy. lia.
Qed.

Lemma repArr_empty (h : heap) (a : loc) :
  h !! a = Some (CArr []) -> repArr h a [] {[ a ]}.
Proof.
  intros Ha. exists [], ∅. split; [exact Ha|]. split; [constructor|].
  split; set_solver.
Qed.

(** *** The walk of [addOrUpdateFileByPath] on a tree of cells *)

Lemma isFolder_obj (o : Obj) (n : FileNode) (part : string) :
  oname o = name n -> otype o = type n ->
  String.eqb (oname o) part && NodeType_eqb (otype o) Folder
  = String.eqb (name n) part && isFolder n.
Proof. intros -> ->. unfold isFolder. now destruct (type n). Qed.

Lemma upsertWalk_rep (parts : list string) :
  forall (f c P : string) (h : heap) (a : loc) (t : list FileNode) (F : gset loc),
    repArr h a t F ->
    exists h' F',
      upsertWalk parts f c P a h = (Ok tt, h')
      /\ repArr h' a (Tree.upsertWalk parts f c P t) F'
      /\ length h <= length h'
      /\ (forall y, y ∈ F' -> y ∈ F \/ length h <= y)
      /\ (forall y, y < length h -> y ∉ F -> h' !! y = h !! y).
Proof.
  induction parts as [|part parts IH];
    intros f c P h a t F (items & Fs & Ha & Ht & Haf & ->).
  - pose proof (lookup_lt_Some _ _ _ Ha) as Halt.
    change (Tree.upsertWalk [] f c P t) with
      (match findIndex (fun node => String.eqb (name node) f) t with
       | Some fileIndex => alter (setContent c) fileIndex t
       | None => t ++ [mkFileNode f File (P +:+ "/" +:+ f) None (Some c)]
       end).
    cbn [upsertWalk]. unfold hbind at 1. unfold getArr at 1. rewrite Ha.
    unfold hbind at 1.
    rewrite (findFirst_rep h (fun node => String.eqb (oname node) f)
               (fun node => String.eqb (name node) f)
               ltac:(intros o n E _; cbv beta; now rewrite E) items t Fs Ht).
    destruct (findIndex _ t) as [i|] eqn:Hi.
    + destruct (TreeFacts.findIndex_Some _ _ _ Hi) as (l1 & x & l2 & -> & <- & _ & _).
      rewrite TreeFacts.alter_middle.
      destruct (repList_split h l1 _ x l2 Fs Ht)
        as (il1 & lx & il2 & F1 & Fx & F2 & -> & Hlen & H1 & Hx & H2 & -> & D1 & D2 & D3).
      rewrite (list_lookup_middle il1 il2 lx (length l1)) by (symmetry; exact Hlen).
      destruct (repNode_obj h lx x Fx Hx) as (o & Ho & _).
      pose proof (repNode_self h lx x Fx Hx) as Hself.
      unfold hbind, getObj, setCell. rewrite Ho.
      eexists _, _. split; [reflexivity|]. split; [|split; [|split]].
      * apply (repArr_replace h _ a il1 il2 lx l1 l2 x (setContent c x) F1 Fx F2 Fx);
          try assumption.
        -- now apply repNode_setContent.
        -- intros y Hy. now left.
        -- intros y _ Hy. apply list_lookup_insert_ne. intros ->. contradiction.
      * now rewrite length_insert.
      * intros y Hy. now left.
      * intros y _ Hy. apply list_lookup_insert_ne. intros ->. apply Hy. set_solver.
    + unfold hbind, alloc, push, hbind, getArr, setCell.
      rewrite (lookup_app_l_Some _ _ _ _ Ha).
      set (c0 := CObj (mkObj f File (P +:+ "/" +:+ f) None (Some c))).
      eexists _, _. split; [reflexivity|]. split; [|split; [|split]].
      * apply (repArr_push h _ a items t Fs (length h) _ {[ length h ]} Ha Ht Haf).
        -- apply list_lookup_insert_eq. rewrite length_app. simpl. lia.
        -- constructor. rewrite list_lookup_insert_ne by lia. apply lookup_last.
        -- intros y Hy. apply elem_of_singleton in Hy as ->. lia.
        -- intros y Hy Hne. rewrite list_lookup_insert_ne by auto.
           now apply lookup_app_l.
      * rewrite length_insert, length_app. lia.
      * intros y Hy.
        assert (y ∈ ({[ a ]} ∪ Fs : gset loc) \/ y = length h) as [Hy' | ->];
          [set_solver | now left | right; lia].
      * intros y Hy Hn. rewrite list_lookup_insert_ne by set_solver.
        now apply lookup_app_l.
  - pose proof (lookup_lt_Some _ _ _ Ha) as Halt.
    change (Tree.upsertWalk (part :: parts) f c P t) with
      (match findIndex (fun node => String.eqb (name node) part && isFolder node) t with
       | Some i =>
           alter (fun folder =>
                    setChildren (Tree.upsertWalk parts f c (P +:+ "/" +:+ part)
                                   (childrenOrEmpty folder)) folder) i t
       | None =>
           t ++ [mkFileNode part Folder (P +:+ "/" +:+ part)
                   (Some (Tree.upsertWalk parts f c (P +:+ "/" +:+ part) [])) None]
       end).
    cbn [upsertWalk]. unfold hbind at 1. unfold getArr at 1. rewrite Ha.
    unfold hbind at 1.
    rewrite (findFirst_rep h
               (fun node => String.eqb (oname node) part
                            && NodeType_eqb (otype node) Folder)
               (fun node => String.eqb (name node) part && isFolder node)
               (fun o n => isFolder_obj o n part) items t Fs Ht).
    destruct (findIndex _ t) as [i|] eqn:Hi.
    + destruct (TreeFacts.findIndex_Some _ _ _ Hi) as (l1 & x & l2 & -> & <- & _ & _).
      rewrite TreeFacts.alter_middle.
      destruct (repList_split h l1 _ x l2 Fs Ht)
        as (il1 & lx & il2 & F1 & Fx & F2 & -> & Hlen & H1 & Hx & H2 & -> & D1 & D2 & D3).
      rewrite (list_lookup_middle il1 il2 lx (length l1)) by (symmetry; exact Hlen).
      pose proof (repNode_self h lx x Fx Hx) as Hself.
      pose proof (proj1 (rep_bound h) _ _ _ Hx) as Bx.
      unfold hbind at 1. unfold hret at 1. unfold hbind at 1. unfold getObj at 1.
      pose proof Hx as Hx0.
      destruct Hx as [lx nm ty pa co Ho|lx ca nm ty pa co citems cs Fcs Ho Hca Hcs Hlf Hcf].
      * rewrite Ho. cbn [ochildren].
        unfold hbind at 1. unfold hbind at 1. unfold alloc at 1.
        unfold hbind at 1. unfold setCell at 1. unfold hret at 1.
        change (withChildren (length h) (mkObj nm ty pa None co))
          with (mkObj nm ty pa (Some (length h)) co).
        change (childrenOrEmpty (mkFileNode nm ty pa None co)) with (@nil FileNode).
        change (setChildren ?x (mkFileNode nm ty pa None co))
          with (mkFileNode nm ty pa (Some x) co).
        set (h1 := <[lx := CObj (mkObj nm ty pa (Some (length h)) co)]> (h ++ [CArr []])).
        assert (Hlx : lx < length h) by (apply Bx; set_solver).
        assert (Hl1 : length h1 = S (length h))
          by (unfold h1; rewrite length_insert, length_app; simpl; lia).
        assert (Ha1 : h1 !! length h = Some (CArr [])).
        { unfold h1. rewrite list_lookup_insert_ne by lia. apply lookup_last. }
        destruct (IH f c (P +:+ "/" +:+ part) h1 (length h) [] _ (repArr_empty h1 _ Ha1))
          as (h' & Fa' & Hrun & Hrep & Hlen' & Hnew & Hframe).
        rewrite Hrun.
        exists h', ({[ a ]} ∪ (F1 ∪ (({[ lx ]} ∪ Fa') ∪ F2))).
        split; [reflexivity|].
        assert (Hfresh : forall y, y ∈ Fa' -> length h <= y).
        { intros y Hy. destruct (Hnew y Hy) as [Hy'|Hy']; [|lia].
          apply elem_of_singleton in Hy' as ->. lia. }
        assert (Hold : forall y, y < length h -> y <> lx -> h' !! y = h !! y).
        { intros y Hy Hne. rewrite Hframe; [|lia|].
          - unfold h1. rewrite list_lookup_insert_ne by auto. now apply lookup_app_l.
          - intros Hy'. apply elem_of_singleton in Hy'. lia. }
        split; [|split; [|split]].
        -- apply (repArr_replace h h' a il1 il2 lx l1 l2
                    (mkFileNode nm ty pa None co) _ F1 {[ lx ]} F2 ({[ lx ]} ∪ Fa'));
             try assumption.
           ++ apply (repNode_of_arr h' lx (length h)); [|exact Hrep|].
              ** rewrite Hframe; [|lia|].
                 --- unfold h1. apply list_lookup_insert_eq. rewrite length_app. lia.
                 --- intros Hy'. apply elem_of_singleton in Hy'. lia.
              ** intros Hy. apply Hfresh in Hy. lia.
           ++ intros y Hy. apply elem_of_union in Hy as [Hy|Hy]; [now left|].
              right. now apply Hfresh.
           ++ intros y Hy Hne. apply Hold; [exact Hy|]. set_solver.
        -- lia.
        -- intros y Hy.
           assert (y ∈ ({[ a ]} ∪ (F1 ∪ ({[ lx ]} ∪ F2)) : gset loc) \/ y ∈ Fa')
             as [Hy'|Hy'] by set_solver; [now left|].
           right. now apply Hfresh.
        -- intros y Hy Hne. apply Hold; [exact Hy|]. set_solver.
      * rewrite Ho. cbn [ochildren]. unfold hbind at 1. unfold hret at 1.
        change (childrenOrEmpty (mkFileNode nm ty pa (Some cs) co)) with cs.
        change (setChildren ?x (mkFileNode nm ty pa (Some cs) co))
          with (mkFileNode nm ty pa (Some x) co).
        assert (Hlx : lx < length h) by (apply Bx; set_solver).
        assert (Hreparr : repArr h ca cs ({[ ca ]} ∪ Fcs))
          by (exists citems, Fcs; auto).
        assert (Hne : lx <> ca) by (intros ->; rewrite Ho in Hca; discriminate Hca).
        destruct (IH f c (P +:+ "/" +:+ part) h ca cs _ Hreparr)
          as (h' & Fa' & Hrun & Hrep & Hlen' & Hnew & Hframe).
        rewrite Hrun.
        exists h', ({[ a ]} ∪ (F1 ∪ (({[ lx ]} ∪ Fa') ∪ F2))).
        split; [reflexivity|].
        split; [|split; [|split]].
        -- apply (repArr_replace h h' a il1 il2 lx l1 l2
                    (mkFileNode nm ty pa (Some cs) co) _ F1
                    ({[ lx ]} ∪ ({[ ca ]} ∪ Fcs)) F2 ({[ lx ]} ∪ Fa'));
             try assumption.
           ++ apply (repNode_of_arr h' lx ca); [|exact Hrep|].
              ** rewrite Hframe; [exact Ho | exact Hlx | set_solver].
              ** intros Hy. destruct (Hnew lx Hy) as [Hy'|Hy']; [set_solver | lia].
           ++ intros y Hy. apply elem_of_union in Hy as [Hy|Hy]; [left; set_solver|].
              destruct (Hnew y Hy) as [Hy'|Hy']; [left; set_solver | now right].
           ++ intros y Hy Hn. apply Hframe; [exact Hy | set_solver].
        -- exact Hlen'.
        -- intros y Hy.
           assert (y ∈ ({[ a ]} ∪ (F1 ∪ ({[ lx ]} ∪ F2)) : gset loc) \/ y ∈ Fa')
             as [Hy'|Hy'] by set_solver; [left; set_solver|].
           destruct (Hnew y Hy') as [Hy2|Hy2]; [left; set_solver | now right].
        -- intros y Hy Hn. apply Hframe; [exact Hy | set_solver].
    + set (o := mkObj part Folder (P +:+ "/" +:+ part) (Some (length h)) None).
      set (l := S (length h)).
      set (h2 := (h ++ [CArr []]) ++ [CObj o]).
      set (h3 := <[a := CArr (items ++ [l])]> h2).
      assert (Hl2 : length h2 = S (S (length h)))
        by (unfold h2; rewrite !length_app; simpl; lia).
      assert (Hl3 : length h3 = S (S (length h)))
        by (unfold h3; now rewrite length_insert).
      assert (Ha2 : h2 !! a = Some (CArr items))
        by (unfold h2; now apply lookup_app_l_Some, lookup_app_l_Some).
      assert (Ho3 : h3 !! l = Some (CObj o)).
      { unfold h3. rewrite list_lookup_insert_ne by (unfold l; lia).
        unfold h2, l. replace (S (length h)) with (length (h ++ [CArr []]))
          by (rewrite length_app; simpl; lia).
        apply lookup_last. }
      assert (Ha3 : h3 !! length h = Some (CArr [])).
      { unfold h3. rewrite list_lookup_insert_ne by lia.
        unfold h2. apply lookup_app_l_Some, lookup_last. }
      assert (E1 : hbind (alloc (CArr [])) (fun a0 =>
                     hbind (alloc (CObj (mkObj part Folder (P +:+ "/" +:+ part)
                                           (Some a0) None))) (fun l =>
                       hbind (push a l) (fun _ => hret l))) h
                   = (Ok l, h3)).
      { unfold hbind at 1. unfold alloc at 1. unfold hbind at 1. unfold alloc at 1.
        replace (length (h ++ [CArr []])) with l
          by (rewrite length_app; simpl; unfold l; lia).
        unfold hbind, push, hbind, getArr, setCell, hret.
        unfold h2, o in Ha2. unfold loc in *. rewrite Ha2. reflexivity. }
      unfold hbind at 1. rewrite E1.
      unfold hbind at 1. unfold getObj at 1. unfold loc in *. rewrite Ho3.
      change (ochildren o) with (Some (length h)).
      unfold hbind at 1. unfold hret at 1.
      destruct (IH f c (P +:+ "/" +:+ part) h3 (length h) [] _ (repArr_empty h3 _ Ha3))
        as (h' & Fa' & Hrun & Hrep & Hlen' & Hnew & Hframe).
      rewrite Hrun.
      exists h', ({[ a ]} ∪ (Fs ∪ ({[ l ]} ∪ Fa'))).
      split; [reflexivity|].
      assert (Hfresh : forall y, y ∈ Fa' -> length h <= y).
      { intros y Hy. destruct (Hnew y Hy) as [Hy'|Hy']; [|lia].
        apply elem_of_singleton in Hy' as ->. lia. }
      assert (Hold : forall y, y < length h -> y <> a -> h' !! y = h !! y).
      { intros y Hy Hne. rewrite Hframe; [|lia|].
        - unfold h3. rewrite list_lookup_insert_ne by auto.
          unfold h2. rewrite <- app_assoc. now apply lookup_app_l.
        - intros Hy'. apply elem_of_singleton in Hy'. lia. }
      split; [|split; [|split]].
      * apply (repArr_push h h' a items t Fs l _ ({[ l ]} ∪ Fa') Ha Ht Haf).
        -- rewrite Hframe; [|lia|].
           ++ unfold h3. apply list_lookup_insert_eq. lia.
           ++ intros Hy'. apply elem_of_singleton in Hy'. lia.
        -- apply (repNode_of_arr h' l (length h)); [|exact Hrep|].
           ++ rewrite Hframe; [exact Ho3 | unfold l; lia|].
              intros Hy'. apply elem_of_singleton in Hy'. unfold l in Hy'. lia.
           ++ intros Hy. destruct (Hnew l Hy) as [Hy'|Hy'].
              ** apply elem_of_singleton in Hy'. unfold l in Hy'. lia.
              ** unfold l in Hy'. lia.
        -- intros y Hy. apply elem_of_union in Hy as [Hy|Hy].
           ++ apply elem_of_singleton in Hy as ->. unfold l. lia.
           ++ now apply Hfresh.
        -- exact Hold.
      * lia.
      * intros y Hy.
        assert (y ∈ ({[ a ]} ∪ Fs : gset loc) \/ y = l \/ y ∈ Fa')
          as [Hy'|[-> |Hy']] by set_solver;
          [now left | right; unfold l; lia | right; now apply Hfresh].
      * intros y Hy Hn. apply Hold; [exact Hy | set_solver].
Qed.

(** [addOrUpdateFileByPath] on an array that stands for a tree returns a
    new array, which stands for the tree [Tree.addOrUpdateFileByPath]
    gives. *)
Theorem upsert_refines (k : nat) (h : heap) (nodes : loc) (t : list FileNode)
    (p c : string) :
  reifyArr k h nodes = Some t ->
  exists new h',
    addOrUpdateFileByPath k nodes p c h = (Ok new, h')
    /\ reifyArr (S (heightOf (Tree.addOrUpdateFileByPath t p c))) h' new
       = Some (Tree.addOrUpdateFileByPath t p c).
Proof.
  intros Hr. destruct (jsonClone_rep k h nodes t Hr) as (new & e & F & Hclone & Hrep).
  unfold addOrUpdateFileByPath, Tree.addOrUpdateFileByPath, hbind. rewrite Hclone.
  destruct (Tree.pop (Tree.pathSegments p)) as [[parts f]|].
  - destruct (upsertWalk_rep parts f c "" (h ++ e) new t F Hrep)
      as (h' & F' & Hrun & Hrep' & _).
    rewrite Hrun. exists new, h'. split; [reflexivity|].
    now apply (repArr_reify h' new _ F').
  - exists new, (h ++ e). split; [reflexivity|].
    now apply (repArr_reify _ new t F).
Qed.

(** *** [deleteNodeByPath] on the heap and on the tree it stands for *)

Lemma deleteNodeByPath_unfold (k : nat) (nodes : loc) (p : string) :
  deleteNodeByPath (S k) nodes p =
  hbind (getArr nodes) (fun items =>
    hbind (filterH (fun node => negb (String.eqb (opath node) p)) items) (fun kept =>
      hbind (alloc (CArr kept)) (fun _ =>
        hbind (mapH (deleteItem k p) kept) (fun mapped =>
          alloc (CArr mapped))))).
Proof. reflexivity. Qed.

Lemma reifyObj_obj (k : nat) (h : heap) (l : loc) (n : FileNode) :
  reifyObj k h l = Some n ->
  exists o, h !! l = Some (CObj o)
            /\ oname o = name n /\ otype o = type n /\ opath o = path n
            /\ ocontent o = content n
            /\ match ochildren o with
               | Some ca => exists cs, children n = Some cs
                                       /\ reifyArr k h ca = Some cs
               | None => children n = None
               end.
Proof.
  unfold reifyObj. destruct (h !! l) as [[o|]|]; try discriminate.
  intros H. exists o. split; [reflexivity|].
  destruct (ochildren o) as [ca|].
  - destruct (reifyArr k h ca) as [cs|]; [|discriminate H].
    injection H as <-. repeat split. now exists cs.
  - injection H as <-. repeat split.
Qed.

Lemma filterH_reify (k : nat) (h : heap) (p : string) (items : list loc) :
  forall t, traverse (reifyObj k h) items = Some t ->
  exists kept,
    filterH (fun node => negb (String.eqb (opath node) p)) items h = (Ok kept, h)
    /\ traverse (reifyObj k h) kept
       = Some (List.filter (fun node => negb (String.eqb (path node) p)) t).
Proof.
  induction items as [|l items IH]; intros t Ht.
  - injection Ht as <-. exists []. split; reflexivity.
  - rewrite traverse_cons in Ht.
    destruct (reifyObj k h l) as [n|] eqn:Hn; [|discriminate Ht].
    destruct (traverse (reifyObj k h) items) as [ns|]; [|discriminate Ht].
    injection Ht as <-. destruct (IH ns eq_refl) as (kept & Hrun & Hkept).
    destruct (reifyObj_obj k h l n Hn) as (o & Ho & _ & _ & Hp & _).
    cbn [filterH List.filter]. unfold hbind at 1. unfold getObj at 1. rewrite Ho.
    unfold hbind at 1. rewrite Hrun. unfold hret. rewrite Hp.
    destruct (negb (String.eqb (path n) p)).
    + exists (l :: kept). split; [reflexivity|].
      now rewrite traverse_cons, Hn, Hkept.
    + exists kept. split; [reflexivity | exact Hkept].
Qed.

Lemma deleteItem_reify (k : nat) (p : string) :
  (forall h a t, reifyArr k h a = Some t ->
     exists a' e, deleteNodeByPath k a p h = (Ok a', h ++ e)
                  /\ reifyArr k (h ++ e) a' = Some (Tree.deleteNodeByPath t p)) ->
  forall h l n, reifyObj k h l = Some n ->
    exists l' e, deleteItem k p l h = (Ok l', h ++ e)
                 /\ reifyObj k (h ++ e) l' = Some (Tree.deleteIn p n).
Proof.
  intros IHk h l n Hn.
  destruct (reifyObj_obj k h l n Hn) as (o & Ho & Hnm & Hty & Hp & Hco & Hch).
  unfold deleteItem. unfold hbind at 1. unfold getObj at 1. rewrite Ho.
  rewrite TreeFacts.deleteIn_unfold, <- Hty, <- Hp.
  assert (Hsame : exists l' e, hret l h = (Ok l', h ++ e)
                               /\ reifyObj k (h ++ e) l' = Some n).
  { exists l, []. rewrite app_nil_r. split; [reflexivity | exact Hn]. }
  destruct (otype o) eqn:Hoty; [destruct (children n); exact Hsame|].
  destruct (ochildren o) as [ca|] eqn:Hca.
  2:{ rewrite Hch. exact Hsame. }
  destruct Hch as (cs & Hcs & Hrcs). rewrite Hcs.
  destruct (String.prefix (opath o +:+ "/") p); [|exact Hsame].
  destruct (IHk h ca cs Hrcs) as (ca' & e & Hrun & Hr').
  unfold hbind. rewrite Hrun. unfold alloc.
  exists (length (h ++ e)), (e ++ [CObj (withChildren ca' o)]).
  rewrite app_assoc. split; [reflexivity|].
  unfold reifyObj. rewrite lookup_last.
  change (ochildren (withChildren ca' o)) with (Some ca'). cbv iota beta.
  rewrite (reifyArr_app k _ _ ca' _ Hr').
  destruct n as [nm ty pa ch co]. destruct o as [onm oty opa och oco].
  simpl in *. now subst.
Qed.

Lemma mapH_delete (k : nat) (p : string) :
  (forall h a t, reifyArr k h a = Some t ->
     exists a' e, deleteNodeByPath k a p h = (Ok a', h ++ e)
                  /\ reifyArr k (h ++ e) a' = Some (Tree.deleteNodeByPath t p)) ->
  forall kept ns h, traverse (reifyObj k h) kept = Some ns ->
    exists mapped e,
      mapH (deleteItem k p) kept h = (Ok mapped, h ++ e)
      /\ traverse (reifyObj k (h ++ e)) mapped = Some (map (Tree.deleteIn p) ns).
Proof.
  intros IHk. induction kept as [|l kept IH]; intros ns h Hns.
  - injection Hns as <-. exists [], []. rewrite app_nil_r. split; reflexivity.
  - rewrite traverse_cons in Hns.
    destruct (reifyObj k h l) as [n|] eqn:Hn; [|discriminate Hns].
    destruct (traverse (reifyObj k h) kept) as [ns'|] eqn:Hns'; [|discriminate Hns].
    injection Hns as <-.
    destruct (deleteItem_reify k p IHk h l n Hn) as (l' & e1 & Hrun1 & Hr1).
    assert (Hns1 : traverse (reifyObj k (h ++ e1)) kept = Some ns').
    { eapply traverse_ext; [|exact Hns']. intros x y. apply reifyObj_app. }
    destruct (IH ns' (h ++ e1) Hns1) as (mapped & e2 & Hrun2 & Hr2).
    cbn [mapH]. unfold hbind at 1. rewrite Hrun1. unfold hbind at 1. rewrite Hrun2.
    exists (l' :: mapped), (e1 ++ e2). rewrite app_assoc.
    split; [reflexivity|].
    change (map (Tree.deleteIn p) (n :: ns'))
      with (Tree.deleteIn p n :: map (Tree.deleteIn p) ns').
    now rewrite traverse_cons, (reifyObj_app k _ e2 l' _ Hr1), Hr2.
Qed.

(** [deleteNodeByPath] on an array that stands for a tree returns a new
    array, which stands for the tree [Tree.deleteNodeByPath] gives, and
    leaves the cells that were there in place. *)
Theorem delete_refines (k : nat) :
  forall (h : heap) (a : loc) (t : list FileNode) (p : string),
    reifyArr k h a = Some t ->
    exists a' e,
      deleteNodeByPath k a p h = (Ok a', h ++ e)
      /\ reifyArr k (h ++ e) a' = Some (Tree.deleteNodeByPath t p).
Proof.
  induction k as [|k IH]; intros h a t p Hr; [discriminate Hr|].
  rewrite reifyArr_unfold in Hr.
  destruct (h !! a) as [[o|items]|] eqn:Ha; try discriminate Hr.
  rewrite deleteNodeByPath_unfold. unfold hbind at 1. unfold getArr at 1. rewrite Ha.
  destruct (filterH_reify k h p items t Hr) as (kept & Hrun1 & Hkept).
  unfold hbind at 1. rewrite Hrun1. unfold hbind at 1. unfold alloc at 1.
  assert (Hkept1 : traverse (reifyObj k (h ++ [CArr kept])) kept
                   = Some (List.filter (fun node => negb (String.eqb (path node) p)) t)).
  { eapply traverse_ext; [|exact Hkept]. intros x y. apply reifyObj_app. }
  destruct (mapH_delete k p (fun h a t => IH h a t p) kept _ _ Hkept1)
    as (mapped & e & Hrun2 & Hmapped).
  unfold hbind at 1. rewrite Hrun2. unfold alloc.
  exists (length ((h ++ [CArr kept]) ++ e)), ([CArr kept] ++ e ++ [CArr mapped]).
  rewrite !app_assoc. split; [reflexivity|].
  apply (reifyArr_intro k _ _ mapped); [apply lookup_last|].
  eapply traverse_ext; [|exact Hmapped]. intros x y. apply reifyObj_app.
Qed.

(** *** [addNodeToTree] on the heap and on the tree it stands for *)

Lemma reifyObj_le (k k' : nat) (h : heap) (l : loc) (n : FileNode) :
  k <= k' -> reifyObj k h l = Some n -> reifyObj k' h l = Some n.
Proof. induction 1; [auto|]. intros Hr. apply reifyObj_mono. auto. Qed.

Lemma updateFound_unfold (p : string) (g : FileNode -> FileNode) (node : FileNode) :
  Tree.updateFound p g node =
  if String.eqb (path node) p then Some (g node)
  else
    match type node, children node with
    | Folder, Some cs =>
        if String.prefix (path node +:+ "/") p
        then option_map (fun cs' => setChildren cs' node)
               (Tree.firstUpdate (Tree.updateFound p g) cs)
        else None
    | _, _ => None
    end.
Proof. destruct node; reflexivity. Qed.

Lemma firstUpdate_cons {A} (f : A -> option A) (x : A) (l : list A) :
  Tree.firstUpdate f (x :: l) =
  match f x with
  | Some x' => Some (x' :: l)
  | None => option_map (cons x) (Tree.firstUpdate f l)
  end.
Proof. reflexivity. Qed.


Lemma scan_locates (k : nat) (p : string) :
  (forall h a t F, repArr h a t F -> heightOf t < k ->
     exists r, findFileByPath k a p h = (Ok r, h)
               /\ locates h p t F (fun h' t' F' => repArr h' a t' F') r) ->
  forall h items t Fs, repList h items t Fs -> heightOf t <= k ->
    exists r, scanItems k p items h = (Ok r, h)
              /\ locates h p t Fs (fun h' t' F' => repList h' items t' F') r.
Proof.
  intros IHk h items t Fs Ht.
  induction Ht as [|l x F1 items ns F2 Hx Hl IH Hd]; intros Hk.
  { exists None. split; [reflexivity|]. intros g. reflexivity. }
  change (heightOf (x :: ns)) with (Nat.max (height x) (heightOf ns)) in Hk.
  specialize (IH ltac:(lia)). destruct IH as (r' & Hscan & Hloc).
  pose proof (proj1 (rep_bound h) _ _ _ Hx) as B1.
  pose proof (proj2 (rep_bound h) _ _ _ Hl) as B2.
  assert (Hskip : (forall g, Tree.updateFound p g x = None) ->
            exists r, scanItems k p items h = (Ok r, h)
                      /\ locates h p (x :: ns) (F1 ∪ F2)
                           (fun h' t' F' => repList h' (l :: items) t' F') r).
  { intros Hnone. exists r'. split; [exact Hscan|].
    destruct r' as [pl|]; cbn [locates] in *.
    - destruct Hloc as (n & Fn & Hn & Hsub & Hcont).
      exists n, Fn. split; [exact Hn|]. split; [set_solver|].
      intros g h' Fn' Hn' Hnew Hframe.
      destruct (Hcont g h' Fn' Hn' Hnew Hframe) as (ns' & F2' & Hup & Hrep & Hb).
      exists (x :: ns'), (F1 ∪ F2').
      split; [rewrite firstUpdate_cons, Hnone, Hup; reflexivity|]. split.
      + constructor; [|exact Hrep|].
        * apply (repNode_frame h); [exact Hx|].
          intros y Hy. apply Hframe; [auto | set_solver].
        * intros y Hy1 Hy2. destruct (Hb y Hy2) as [Hy|Hy]; [set_solver|].
          apply B1 in Hy1. lia.
      + intros y Hy. apply elem_of_union in Hy as [Hy|Hy]; [left; set_solver|].
        destruct (Hb y Hy) as [Hy'|Hy']; [left; set_solver | now right].
    - intros g. now rewrite firstUpdate_cons, Hnone, Hloc. }
  destruct (repNode_obj h l x F1 Hx) as (o & Ho & _ & Hty & Hp & _).
  rewrite scanItems_cons. unfold hbind at 1. unfold getObj at 1. rewrite Ho, Hp.
  destruct (String.eqb (path x) p) eqn:Heq.
  { exists (Some l). split; [reflexivity|]. cbn [locates].
    exists x, F1. split; [exact Hx|]. split; [set_solver|].
    intros g h' Fn' Hn' Hnew Hframe.
    exists (g x :: ns), (Fn' ∪ F2).
    split; [now rewrite firstUpdate_cons, updateFound_unfold, Heq|]. split.
    - constructor; [exact Hn'| |].
      + apply (repList_frame h); [exact Hl|].
        intros y Hy. apply Hframe; [auto | set_solver].
      + intros y Hy1 Hy2. destruct (Hnew y Hy1) as [Hy|Hy]; [set_solver|].
        apply B2 in Hy2. lia.
    - intros y Hy. apply elem_of_union in Hy as [Hy|Hy]; [|left; set_solver].
      destruct (Hnew y Hy) as [Hy'|Hy']; [left; set_solver | now right]. }
  assert (Hupd : forall g, Tree.updateFound p g x =
            match type x, children x with
            | Folder, Some cs =>
                if String.prefix (path x +:+ "/") p
                then option_map (fun cs' => setChildren cs' x)
                       (Tree.firstUpdate (Tree.updateFound p g) cs)
                else None
            | _, _ => None
            end)
    by (intros g; now rewrite updateFound_unfold, Heq).
  rewrite Hty.
  destruct Hx as [l nm ty pa co Hlo|l ca nm ty pa co citems cs Fcs Hlo Hca Hcs Hlf Hcf];
    rewrite Hlo in Ho; injection Ho as <-;
    cbn [ochildren name type path children content] in *.
  { destruct ty; apply Hskip; intros g; now rewrite Hupd. }
  destruct ty; [apply Hskip; intros g; now rewrite Hupd|].
  destruct (String.prefix (pa +:+ "/") p) eqn:Hpre;
    [|apply Hskip; intros g; now rewrite Hupd].
  assert (Hreparr : repArr h ca cs ({[ ca ]} ∪ Fcs)) by (exists citems, Fcs; auto).
  change (height (mkFileNode nm Folder pa (Some cs) co)) with (S (heightOf cs)) in Hk.
  destruct (IHk h ca cs _ Hreparr ltac:(lia)) as (rc & Hfind & Hlocc).
  unfold hbind at 1. rewrite Hfind.
  destruct rc as [pl|]; cbn [locates] in Hlocc.
  2:{ apply Hskip. intros g. now rewrite Hupd, Hlocc. }
  destruct Hlocc as (n & Fn & Hn & Hsub & Hcont).
  exists (Some pl). split; [reflexivity|]. cbn [locates].
  exists n, Fn. split; [exact Hn|]. split; [set_solver|].
  intros g h' Fn' Hn' Hnew Hframe.
  destruct (Hcont g h' Fn' Hn' Hnew Hframe) as (cs' & Fa' & Hup & Hrep & Hb).
  assert (Hll : l < length h) by (apply B1; set_solver).
  assert (Hne : l <> ca) by (intros ->; rewrite Hlo in Hca; discriminate Hca).
  exists (mkFileNode nm Folder pa (Some cs') co :: ns), (({[ l ]} ∪ Fa') ∪ F2).
  split; [now rewrite firstUpdate_cons, Hupd, Hup|]. split.
  - constructor.
    + apply (repNode_of_arr h' l ca); [|exact Hrep|].
      * rewrite Hframe; [exact Hlo | exact Hll | set_solver].
      * intros Hy. destruct (Hb l Hy) as [Hy'|Hy']; [set_solver | lia].
    + apply (repList_frame h); [exact Hl|].
      intros y Hy. apply Hframe; [auto | set_solver].
    + intros y Hy1 Hy2. apply elem_of_union in Hy1 as [Hy1|Hy1]; [set_solver|].
      destruct (Hb y Hy1) as [Hy|Hy]; [set_solver|]. apply B2 in Hy2. lia.
  - intros y Hy.
    assert (y ∈ ({[ l ]} ∪ F2 : gset loc) \/ y ∈ Fa') as [Hy'|Hy'] by set_solver;
      [left; set_solver|].
    destruct (Hb y Hy') as [Hy2|Hy2]; [left; set_solver | now right].
Qed.

Lemma find_locates (k : nat) (p : string) :
  forall h a t F, repArr h a t F -> heightOf t < k ->
    exists r, findFileByPath k a p h = (Ok r, h)
              /\ locates h p t F (fun h' t' F' => repArr h' a t' F') r.
Proof.
  induction k as [|k IH]; intros h a t F (items & Fs & Ha & Ht & Haf & ->) Hk; [lia|].
  destruct (scan_locates k p IH h items t Fs Ht ltac:(lia)) as (r & Hscan & Hloc).
  pose proof (lookup_lt_Some _ _ _ Ha) as Halt.
  rewrite findFileByPath_unfold. unfold hbind, getArr. rewrite Ha, Hscan.
  exists r. split; [reflexivity|].
  destruct r as [pl|]; cbn [locates] in *; [|exact Hloc].
  destruct Hloc as (n & Fn & Hn & Hsub & Hcont).
  exists n, Fn. split; [exact Hn|]. split; [set_solver|].
  intros g h' Fn' Hn' Hnew Hframe.
  destruct (Hcont g h' Fn' Hn' Hnew Hframe) as (t' & Fs' & Hup & Hrep & Hb).
  exists t', ({[ a ]} ∪ Fs'). split; [exact Hup|]. split.
  - exists items, Fs'. split; [rewrite Hframe; [exact Ha | exact Halt | set_solver]|].
    split; [exact Hrep|]. split; [|reflexivity].
    intros Hy. destruct (Hb a Hy) as [Hy'|Hy']; [contradiction | lia].
  - intros y Hy. apply elem_of_union in Hy as [Hy|Hy]; [left; set_solver|].
    destruct (Hb y Hy) as [Hy'|Hy']; [left; set_solver | now right].
Qed.

Lemma allocNewNode_rep (nodeName : string) (ty : NodeType) (newNodePath : string)
    (h : heap) :
  exists l e Fn,
    allocNewNode nodeName ty newNodePath h = (Ok l, h ++ e)
    /\ repNode (h ++ e) l (Tree.newNode nodeName ty newNodePath) Fn
    /\ forall y, y ∈ Fn -> length h <= y.
Proof.
  destruct ty.
  - exists (length h), [CObj (mkObj nodeName File newNodePath None (Some ""))],
      {[ length h ]}.
    split; [reflexivity|]. split.
    + constructor. apply lookup_last.
    + intros y Hy. apply elem_of_singleton in Hy as ->. lia.
  - exists (S (length h)),
      [CArr []; CObj (mkObj nodeName Folder newNodePath (Some (length h)) None)],
      ({[ S (length h) ]} ∪ ({[ length h ]} ∪ ∅)).
    split; [|split].
    + unfold allocNewNode, hbind, alloc. rewrite length_app, <- app_assoc.
      simpl. now rewrite Nat.add_1_r.
    + apply (rep_inner _ (S (length h)) (length h) nodeName Folder newNodePath None
               [] [] ∅); [| |constructor|set_solver|set_solver].
      * change [CArr []; CObj (mkObj nodeName Folder newNodePath (Some (length h)) None)]
          with ([CArr []] ++ [CObj (mkObj nodeName Folder newNodePath
                                      (Some (length h)) None)]).
        rewrite app_assoc.
        replace (S (length h)) with (length (h ++ [CArr []])) at 1
          by (rewrite length_app; simpl; lia).
        apply lookup_last.
      * rewrite lookup_app_r by lia. now replace (length h - length h) with 0 by lia.
    + intros y Hy.
      assert (y = S (length h) \/ y = length h) as [-> | ->] by set_solver; lia.
Qed.

(** The push of the new node on the children of the parent found. *)
Lemma pushChild_rep (h : heap) (pl : loc) (n : FileNode) (Fn : gset loc) (o : Obj)
    (nodeName : string) (ty : NodeType) (newNodePath : string) (new : loc) :
  repNode h pl n Fn -> h !! pl = Some (CObj o) ->
  exists h' Fn',
    hbind (match ochildren o with
           | Some a => hret a
           | None =>
               hbind (alloc (CArr [])) (fun a =>
                 hbind (setCell pl (CObj (withChildren a o))) (fun _ => hret a))
           end)
      (fun arr =>
         hbind (allocNewNode nodeName ty newNodePath) (fun l =>
           hbind (push arr l) (fun _ => hret new))) h
    = (Ok new, h')
    /\ repNode h' pl (Tree.pushChild (Tree.newNode nodeName ty newNodePath) n) Fn'
    /\ (forall y, y ∈ Fn' -> y ∈ Fn \/ length h <= y)
    /\ (forall y, y < length h -> y ∉ Fn -> h' !! y = h !! y).
Proof.
  intros Hn Ho. pose proof (lookup_lt_Some _ _ _ Ho) as Hplt.
  set (child := Tree.newNode nodeName ty newNodePath).
  destruct Hn as [pl nm ty0 pa co Hlo|pl arr nm ty0 pa co items cs Fcs Hlo Harr Hcs Hlf Haf];
    rewrite Hlo in Ho; injection Ho as <-; cbn [ochildren].
  - change (Tree.pushChild child (mkFileNode nm ty0 pa None co))
      with (mkFileNode nm ty0 pa (Some ([] ++ [child])) co).
    change (withChildren ?a (mkObj nm ty0 pa None co))
      with (mkObj nm ty0 pa (Some a) co).
    set (h2 := <[pl := CObj (mkObj nm ty0 pa (Some (length h)) co)]> (h ++ [CArr []])).
    assert (Hl2 : length h2 = S (length h))
      by (unfold h2; rewrite length_insert, length_app; simpl; lia).
    assert (Ha2 : h2 !! length h = Some (CArr [])).
    { unfold h2. rewrite list_lookup_insert_ne by lia. apply lookup_last. }
    destruct (allocNewNode_rep nodeName ty newNodePath h2)
      as (l & e & Fc & Hrun & Hrep & Hfresh).
    unfold hbind at 1. unfold hbind at 1. unfold alloc at 1.
    unfold hbind at 1. unfold setCell at 1. unfold hret at 1.
    unfold loc in *. fold h2. unfold hbind at 1. rewrite Hrun.
    unfold hbind, push, hbind, getArr, setCell, hret.
    unfold loc in *. rewrite (lookup_app_l_Some _ _ _ _ Ha2).
    set (h' := <[length h := CArr ([] ++ [l])]> (h2 ++ e)).
    assert (Hold : forall y, y < length h2 -> y <> length h -> h' !! y = h2 !! y).
    { intros y Hy Hne. unfold h'. rewrite list_lookup_insert_ne by auto.
      now apply lookup_app_l. }
    exists h', ({[ pl ]} ∪ ({[ length h ]} ∪ (∅ ∪ Fc))).
    split; [reflexivity|]. split; [|split].
    + apply (repNode_of_arr h' pl (length h)).
      * rewrite Hold by lia. unfold h2. apply list_lookup_insert_eq.
        rewrite length_app. lia.
      * apply (repArr_push h2 h' (length h) [] [] ∅ l child Fc Ha2);
          [constructor | set_solver | | | exact Hfresh | exact Hold].
        -- unfold h'. apply list_lookup_insert_eq. rewrite length_app. lia.
        -- apply (repNode_frame (h2 ++ e)); [exact Hrep|].
           intros y Hy. unfold h'. apply list_lookup_insert_ne.
           apply Hfresh in Hy. lia.
      * intros Hy.
        assert (pl = length h \/ pl ∈ Fc) as [Hy'|Hy'] by set_solver; [lia|].
        apply Hfresh in Hy'. lia.
    + intros y Hy.
      assert (y = pl \/ y = length h \/ y ∈ Fc) as [-> |[-> |Hy']] by set_solver.
      * left. set_solver.
      * right. lia.
      * right. apply Hfresh in Hy'. lia.
    + intros y Hy Hne. rewrite Hold by lia.
      unfold h2. rewrite list_lookup_insert_ne by set_solver.
      now apply lookup_app_l.
  - change (Tree.pushChild child (mkFileNode nm ty0 pa (Some cs) co))
      with (mkFileNode nm ty0 pa (Some (cs ++ [child])) co).
    assert (Hne : pl <> arr) by (intros ->; rewrite Hlo in Harr; discriminate Harr).
    pose proof (lookup_lt_Some _ _ _ Harr) as Harrlt.
    destruct (allocNewNode_rep nodeName ty newNodePath h)
      as (l & e & Fc & Hrun & Hrep & Hfresh).
    unfold hbind at 1. unfold hret at 1. unfold hbind at 1. rewrite Hrun.
    unfold hbind, push, hbind, getArr, setCell, hret.
    unfold loc in *. rewrite (lookup_app_l_Some _ _ _ _ Harr).
    set (h' := <[arr := CArr (items ++ [l])]> (h ++ e)).
    assert (Hold : forall y, y < length h -> y <> arr -> h' !! y = h !! y).
    { intros y Hy Hne'. unfold h'. rewrite list_lookup_insert_ne by auto.
      now apply lookup_app_l. }
    exists h', ({[ pl ]} ∪ ({[ arr ]} ∪ (Fcs ∪ Fc))).
    split; [reflexivity|]. split; [|split].
    + apply (repNode_of_arr h' pl arr).
      * rewrite Hold by auto. exact Hlo.
      * apply (repArr_push h h' arr items cs Fcs l child Fc Harr Hcs Haf);
          [| |exact Hfresh | exact Hold].
        -- unfold h'. apply list_lookup_insert_eq. rewrite length_app. lia.
        -- apply (repNode_frame (h ++ e)); [exact Hrep|].
           intros y Hy. unfold h'. apply list_lookup_insert_ne.
           apply Hfresh in Hy. lia.
      * intros Hy.
        assert (pl = arr \/ pl ∈ Fcs \/ pl ∈ Fc) as [Hy'|[Hy'|Hy']] by set_solver;
          [contradiction | contradiction |].
        apply Hfresh in Hy'. lia.
    + intros y Hy.
      assert (y ∈ ({[ pl ]} ∪ ({[ arr ]} ∪ Fcs) : gset loc) \/ y ∈ Fc)
        as [Hy'|Hy'] by set_solver; [now left|].
      right. now apply Hfresh.
    + intros y Hy Hn. apply Hold; [exact Hy | set_solver].
Qed.

(** [addNodeToTree] on an array that stands for a tree throws the error
    [Tree.addNodeToTree] gives, or returns a new array that stands for the
    tree it gives. *)
Theorem addNode_refines (k : nat) (h : heap) (nodes : loc) (t : list FileNode)
    (parentPath nodeName : string) (ty : NodeType) :
  reifyArr k h nodes = Some t ->
  match Tree.addNodeToTree t parentPath nodeName ty with
  | inl e =>
      exists h', addNodeToTree k nodes parentPath nodeName ty h = (Throw e, h')
  | inr t' =>
      exists new h',
        addNodeToTree k nodes parentPath nodeName ty h = (Ok new, h')
        /\ reifyArr (S (heightOf t')) h' new = Some t'
  end.
Proof.
  intros Hr. pose proof (reifyArr_height k h nodes t Hr) as Hh.
  destruct (jsonClone_rep k h nodes t Hr) as (new & e & F & Hclone & Hrep).
  set (h1 := h ++ e) in *.
  assert (Hr1 : reifyArr k h1 new = Some t).
  { apply (reifyArr_le (S (heightOf t)) k); [lia|]. now apply (repArr_reify h1 new t F). }
  set (newNodePath := Tree.newNodePathOf parentPath nodeName).
  destruct (find_refines k h1 new t newNodePath Hr1) as (r & Hfind & Hfound).
  assert (E0 : addNodeToTree k nodes parentPath nodeName ty h =
               match r with
               | Some _ => (Throw (Tree.AlreadyExists ty nodeName), h1)
               | None => insertNew k new parentPath nodeName ty h1
               end).
  { unfold addNodeToTree, hbind. rewrite Hclone. fold newNodePath. rewrite Hfind.
    now destruct r. }
  rewrite E0. clear E0. unfold Tree.addNodeToTree. fold newNodePath.
  destruct r as [l|]; cbn [foundAs] in Hfound.
  { destruct Hfound as (n & -> & _). exists h1. reflexivity. }
  rewrite Hfound.
  destruct (String.eqb parentPath "/") eqn:Hroot.
  - destruct (allocNewNode_rep nodeName ty newNodePath h1)
      as (l & e' & Fc & Hrun & Hchild & Hfresh).
    destruct Hrep as (items & Fs & Ha & Ht & Haf & ->).
    pose proof (lookup_lt_Some _ _ _ Ha) as Halt.
    assert (E1 : insertNew k new parentPath nodeName ty h1
                 = (Ok new, <[new := CArr (items ++ [l])]> (h1 ++ e'))).
    { unfold insertNew. rewrite Hroot. cbv zeta. fold newNodePath.
      unfold hbind at 1. rewrite Hrun.
      unfold hbind, push, hbind, getArr, setCell, hret.
      unfold loc in *. now rewrite (lookup_app_l_Some _ _ _ _ Ha). }
    rewrite E1. eexists _, _. split; [reflexivity|].
    apply (repArr_reify _ new _ ({[ new ]} ∪ (Fs ∪ Fc))).
    apply (repArr_push h1 _ new items t Fs l _ Fc Ha Ht Haf); [| |exact Hfresh|].
    + apply list_lookup_insert_eq. rewrite length_app. lia.
    + apply (repNode_frame (h1 ++ e')); [exact Hchild|].
      intros y Hy. apply list_lookup_insert_ne. apply Hfresh in Hy. lia.
    + intros y Hy Hne. rewrite list_lookup_insert_ne by auto.
      now apply lookup_app_l.
  - destruct (find_refines k h1 new t parentPath Hr1) as (r & Hfind2 & Hfound2).
    destruct (find_locates k parentPath h1 new t F Hrep Hh) as (r' & Hfind2' & Hloc).
    rewrite Hfind2 in Hfind2'. injection Hfind2' as <-.
    destruct r as [pl|]; cbn [foundAs locates] in *.
    2:{ rewrite Hfound2. exists h1.
        unfold insertNew, hbind. now rewrite Hroot, Hfind2. }
    destruct Hfound2 as (m & Hm & Hrm). rewrite Hm.
    destruct Hloc as (n & Fn & Hn & Hsub & Hcont).
    assert (Hmn : m = n).
    { pose proof (proj1 (rep_reify h1) pl n Fn Hn (Nat.max k (height n))
                    ltac:(lia)) as E.
      rewrite (reifyObj_le k (Nat.max k (height n)) h1 pl m ltac:(lia) Hrm) in E.
      now injection E. }
    subst m.
    destruct (repNode_obj h1 pl n Fn Hn) as (o & Ho & _ & Hty & _).
    unfold isFolder. rewrite <- Hty.
    destruct (NodeType_eqb (otype o) Folder) eqn:Hfolder.
    2:{ exists h1. unfold insertNew. rewrite Hroot. cbv zeta.
        unfold hbind at 1. rewrite Hfind2. unfold hbind, getObj.
        now rewrite Ho, Hfolder. }
    destruct (pushChild_rep h1 pl n Fn o nodeName ty newNodePath new Hn Ho)
      as (h' & Fn' & Hrun & Hrep' & Hnew & Hframe).
    destruct (Hcont _ h' Fn' Hrep' Hnew Hframe) as (t' & F' & Hup & Hrep'' & _).
    rewrite Hup. exists new, h'. split; [|now apply (repArr_reify h' new t' F')].
    unfold insertNew. rewrite Hroot. cbv zeta. fold newNodePath.
    unfold hbind at 1. rewrite Hfind2. unfold hbind at 1. unfold getObj at 1.
    rewrite Ho, Hfolder. exact Hrun.
Qed.

(** *** What the callers of the tree store rely on *)

(** C9. Whatever the heap, the array and the arguments, and whether the
    call returns, throws or cannot go on: [addOrUpdateFileByPath],
    [deleteNodeByPath] and [addNodeToTree] leave every cell of the heap
    they were called in as it was, so the input array stands for the tree
    it stood for before; and the array they return is a new one. On an
    array that stands for a tree the three calls end: the first two return
    an array that stands for the tree with the file written, and without
    the deleted node; the third throws, or returns an array that stands
    for the tree with the node added. *)
Theorem mutators_leave_input_untouched
    (fuel : nat) (h : heap) (nodes : loc)
    (p newContent parentPath nodeName : string) (ty : NodeType) :
  let upsert := addOrUpdateFileByPath fuel nodes p newContent h in
  let deleted := deleteNodeByPath fuel nodes p h in
  let added := addNodeToTree fuel nodes parentPath nodeName ty h in
  HeapModel.untouched h (snd upsert) nodes
  /\ HeapModel.untouched h (snd deleted) nodes
  /\ HeapModel.untouched h (snd added) nodes
  /\ (forall r, fst upsert = Ok r \/ fst deleted = Ok r \/ fst added = Ok r ->
                length h <= r)
  /\ (forall t,
        reifyArr fuel h nodes = Some t ->
        (exists r, fst upsert = Ok r
                   /\ reifyArr (S (heightOf (Tree.addOrUpdateFileByPath t p newContent)))
                        (snd upsert) r
                      = Some (Tree.addOrUpdateFileByPath t p newContent))
        /\ (exists r, fst deleted = Ok r
                      /\ reifyArr fuel (snd deleted) r
                         = Some (Tree.deleteNodeByPath t p))
        /\ match Tree.addNodeToTree t parentPath nodeName ty with
           | inl e => fst added = Throw e
           | inr t' =>
               exists r, fst added = Ok r
                         /\ reifyArr (S (heightOf t')) (snd added) r = Some t'
           end).
Proof.
  intros upsert deleted added.
  destruct (pres_addOrUpdateFileByPath h fuel nodes p newContent h (inv_start h))
    as [Hu Hur].
  destruct (ext_deleteNodeByPath h fuel nodes p h (inv_extends h h (inv_start h)))
    as [Hd Hdr].
  destruct (pres_addNodeToTree h fuel nodes parentPath nodeName ty h (inv_start h))
    as [Ha Har].
  split; [apply extends_untouched, inv_extends, Hu|].
  split; [apply extends_untouched, Hd|].
  split; [apply extends_untouched, inv_extends, Ha|].
  split; [intros r [Hr|[Hr|Hr]]; auto|].
  intros t Ht. split; [|split].
  - destruct (upsert_refines fuel h nodes t p newContent Ht) as (r & h' & Hrun & Hre).
    exists r. unfold upsert. now rewrite Hrun.
  - destruct (delete_refines fuel h nodes t p Ht) as (r & e & Hrun & Hre).
    exists r. unfold deleted. now rewrite Hrun.
  - pose proof (addNode_refines fuel h nodes t parentPath nodeName ty Ht) as Hadd.
    destruct (Tree.addNodeToTree t parentPath nodeName ty) as [e|t'].
    + destruct Hadd as (h' & Hrun). unfold added. now rewrite Hrun.
    + destruct Hadd as (r & h' & Hrun & Hre). exists r. unfold added.
      now rewrite Hrun.
Qed.

(** C7. On an array that stands for a well-formed tree without duplicate
    names, for a parent path that is [/] or canonical and a name without a
    slash: [addNodeToTree] throws its "already exists" error exactly when the
    parent has a child of that name, and otherwise returns the array of the
    tree with the node added or throws its "parent not found" error; and
    whatever it does, it leaves every cell of the heap it was called in as
    it was, so the input array stands for the same tree as before. *)
Theorem addNode_throws_exactly_on_duplicate
    (k : nat) (h : heap) (nodes : loc) (t : list FileNode)
    (parentPath nodeName : string) (ty : NodeType) :
  reifyArr k h nodes = Some t ->
  Model.wfTree t = true -> uniqueTree t = true ->
  parentPath = "/" \/ Model.canonical parentPath = true ->
  Model.noSlash nodeName ->
  (fst (addNodeToTree k nodes parentPath nodeName ty h)
     = Throw (Tree.AlreadyExists ty nodeName)
   <-> siblingExists t parentPath nodeName = true)
  /\ (siblingExists t parentPath nodeName = false ->
      fst (addNodeToTree k nodes parentPath nodeName ty h)
        = Throw (Tree.ParentNotFound parentPath)
      \/ exists new t',
           fst (addNodeToTree k nodes parentPath nodeName ty h) = Ok new
           /\ Tree.addNodeToTree t parentPath nodeName ty = inr t'
           /\ reifyArr (S (heightOf t'))
                (snd (addNodeToTree k nodes parentPath nodeName ty h)) new
              = Some t')
  /\ untouched h (snd (addNodeToTree k nodes parentPath nodeName ty h)) nodes.
Proof.
  intros Hr Hwf Hu Hparent Hname.
  assert (Hiff0 : fst (addNodeToTree k nodes parentPath nodeName ty h)
                  = Throw (Tree.AlreadyExists ty nodeName)
                  <-> siblingExists t parentPath nodeName = true);
    [|split; [exact Hiff0|split]].
  3:{ apply extends_untouched, inv_extends.
      apply (pres_addNodeToTree h k nodes parentPath nodeName ty h (inv_start h)). }
  2:{ intros Hnone.
      pose proof (addNode_refines k h nodes t parentPath nodeName ty Hr) as Hadd.
      destruct (Tree.addNodeToTree t parentPath nodeName ty) as [e|t'] eqn:Hpure.
      - destruct Hadd as (h' & Hrun). left. rewrite Hrun. cbn [fst].
        destruct e as [ty' nn'|pp'].
        + exfalso. unfold Tree.addNodeToTree in Hpure.
          destruct (Tree.findFileByPath t (Tree.newNodePathOf parentPath nodeName));
            [injection Hpure as <- <-|].
          * rewrite Hrun in Hiff0. cbn [fst] in Hiff0.
            rewrite (proj1 Hiff0 eq_refl) in Hnone. discriminate Hnone.
          * destruct (String.eqb parentPath "/"); [discriminate Hpure|].
            destruct (Tree.findFileByPath t parentPath) as [pn|]; [|discriminate Hpure].
            destruct (isFolder pn); [|discriminate Hpure].
            destruct (Tree.firstUpdate _ t); discriminate Hpure.
        + unfold Tree.addNodeToTree in Hpure.
          destruct (Tree.findFileByPath t (Tree.newNodePathOf parentPath nodeName));
            [discriminate Hpure|].
          destruct (String.eqb parentPath "/"); [discriminate Hpure|].
          destruct (Tree.findFileByPath t parentPath) as [pn|];
            [|now injection Hpure as <-].
          destruct (isFolder pn); [|now injection Hpure as <-].
          destruct (Tree.firstUpdate _ t); [discriminate Hpure|].
          now injection Hpure as <-.
      - destruct Hadd as (new & h' & Hrun & Hre). right. exists new, t'.
        rewrite Hrun. auto. }
  destruct (jsonClone_reify k h nodes t Hr) as (new & h1 & Hclone & Hr1).
  destruct (find_refines k h1 new t (Tree.newNodePathOf parentPath nodeName) Hr1)
    as (r & Hfind & Hspec).
  pose proof (TreeFacts.find_new_path t parentPath nodeName Hwf Hu Hparent Hname)
    as Hiff.
  unfold addNodeToTree. unfold hbind at 1. rewrite Hclone.
  unfold hbind at 1. rewrite Hfind.
  destruct r as [l|].
  - destruct Hspec as (n & Hn & _). split; [intros _|reflexivity].
    apply Hiff. rewrite Hn. discriminate.
  - simpl in Hspec. split.
    + intros Hthrow. exfalso.
      pose proof (throwsOnly_insertNew k new parentPath nodeName ty) as Honly.
      specialize (Honly h1 _ Hthrow). discriminate Honly.
    + intros Hsib. apply Hiff in Hsib. contradiction.
Qed.


(** Adding [App.tsx] under [/src] in the sample project, where it exists. *)
Lemma addNode_throws_exactly_on_duplicate_witness :
  fst (addNodeToTree 3 (rootOf Model.sampleTree) "/src" "App.tsx" File
         (heapOf Model.sampleTree))
  = Throw (Tree.AlreadyExists File "App.tsx").
Proof.
  apply (proj1 (addNode_throws_exactly_on_duplicate 3 (heapOf Model.sampleTree)
                  (rootOf Model.sampleTree) Model.sampleTree "/src" "App.tsx" File
                  eq_refl eq_refl eq_refl (or_intror eq_refl) eq_refl)).
  reflexivity.
Defined.

(** *** Lookup after a write or a delete, on the heap *)

(** On an array that stands for a well-formed tree, and for a canonical
    path: [addOrUpdateFileByPath] returns an array in which
    [findFileByPath], read deep enough, finds at the path an object with
    that path and the written content. *)
Corollary heap_find_after_upsert (k : nat) (h : heap) (nodes : loc)
    (t : list FileNode) (p c : string) :
  reifyArr k h nodes = Some t ->
  Model.wfTree t = true -> Model.canonical p = true ->
  exists new h',
    addOrUpdateFileByPath k nodes p c h = (Ok new, h')
    /\ forall k', heightOf (Tree.addOrUpdateFileByPath t p c) < k' ->
         exists l o,
           findFileByPath k' new p h' = (Ok (Some l), h')
           /\ h' !! l = Some (CObj o) /\ opath o = p /\ ocontent o = Some c.
Proof.
  intros Hr Hwf Hp.
  destruct (upsert_refines k h nodes t p c Hr) as (new & h' & Hrun & Hre).
  exists new, h'. split; [exact Hrun|]. intros k' Hk'.
  apply (reifyArr_le _ k') in Hre; [|lia].
  destruct (find_refines k' h' new _ p Hre) as (r & Hfind & Hfound).
  destruct (TreeFacts.find_after_upsert t p c Hwf Hp) as (n & Hn & Hor).
  rewrite Hn in Hfound.
  destruct r as [l|]; cbn [foundAs] in Hfound; [|discriminate Hfound].
  destruct Hfound as (n' & [= <-] & Hrn).
  destruct (reifyObj_obj k' h' l n Hrn) as (o & Ho & _ & _ & Hpath & Hco & _).
  exists l, o. split; [exact Hfind|]. split; [exact Ho|].
  split; [rewrite Hpath; now apply TreeFacts.findFileByPath_path in Hn|].
  rewrite Hco. destruct Hor as [->|(m & _ & ->)]; [|reflexivity].
  unfold Model.createdFile. now destruct (Tree.pop (Tree.pathSegments p)) as [[? ?]|].
Qed.

(** On an array that stands for a tree, [deleteNodeByPath] returns an array
    in which [findFileByPath] does not find the deleted path. *)
Corollary heap_find_after_delete (k : nat) (h : heap) (nodes : loc)
    (t : list FileNode) (p : string) :
  reifyArr k h nodes = Some t ->
  exists new h',
    deleteNodeByPath k nodes p h = (Ok new, h')
    /\ findFileByPath k new p h' = (Ok None, h').
Proof.
  intros Hr. destruct (delete_refines k h nodes t p Hr) as (new & e & Hrun & Hre).
  exists new, (h ++ e). split; [exact Hrun|].
  destruct (find_refines k (h ++ e) new _ p Hre) as (r & Hfind & Hfound).
  rewrite TreeFacts.find_delete_same in Hfound.
  destruct r as [l|]; cbn [foundAs] in Hfound; [|exact Hfind].
  destruct Hfound as (n & Hn & _). discriminate Hn.
Qed.

(** *** The two embeddings on the sample project

    On the heap that holds the sample project the three functions return,
    and the arrays they return stand for the trees the functions on tree
    values give. *)

Example heap_upsert_sample :
  match addOrUpdateFileByPath 3 (rootOf Model.sampleTree) "/src/lib/util.ts" "x"
          (heapOf Model.sampleTree) with
  | (Ok new, h') =>
      reifyArr 4 h' new
      = Some (Tree.addOrUpdateFileByPath Model.sampleTree "/src/lib/util.ts" "x")
  | _ => False
  end.
Proof. vm_compute. reflexivity. Qed.

Example heap_delete_sample :
  match deleteNodeByPath 3 (rootOf Model.sampleTree) "/src/App.tsx"
          (heapOf Model.sampleTree) with
  | (Ok new, h') =>
      reifyArr 3 h' new = Some (Tree.deleteNodeByPath Model.sampleTree "/src/App.tsx")
  | _ => False
  end.
Proof. vm_compute. reflexivity. Qed.

Example heap_addNode_sample :
  match addNodeToTree 3 (rootOf Model.sampleTree) "/src" "lib" Folder
          (heapOf Model.sampleTree) with
  | (Ok new, h') =>
      inr (A := Tree.TreeError) (reifyArr 4 h' new)
      = sum_map id Some (Tree.addNodeToTree Model.sampleTree "/src" "lib" Folder)
  | _ => False
  end.
Proof. vm_compute. reflexivity. Qed.

End HeapFacts.

(** ** The tree store, for its callers *)

Module StoreFacts.

Import Tree Model Utils StrFacts TreeFacts.

(** *** [getAllPaths] and [findFileByPath] *)

Lemma firstSome_not_None {A B} (f : A -> option B) (l : list A) :
  firstSome f l <> None <-> exists y, In y l /\ f y <> None.
Proof.
  induction l as [|x l IH].
  - split; [contradiction | intros (y & [] & _)].
  - rewrite firstSome_cons. destruct (f x) as [r|] eqn:Hx.
    + split; [|discriminate]. intros _. exists x. split; [now left|].
      rewrite Hx. discriminate.
    + rewrite IH. split.
      * intros (y & Hy & Hf). exists y. split; [now right | exact Hf].
      * intros (y & [->|Hy] & Hf); [contradiction|]. exists y. auto.
Qed.

(** A path found below a node is a path [getAllPaths] lists for it. *)
Lemma findNode_walkNode (p : string) (x : FileNode) :
  findNode p x <> None -> In p (walkNode x).
Proof.
  induction x as [x IH] using FileNode_tree_ind. unfold childrenOrEmpty in IH.
  rewrite findNode_unfold.
  destruct x as [nm ty pa cs co]. cbn [path type children walkNode] in *.
  destruct (String.eqb_spec pa p) as [->|_]; [intros _; now left|].
  destruct ty; [contradiction|]. destruct cs as [cs|]; [|contradiction].
  destruct (String.prefix _ p); [|contradiction].
  intros Hf. right. apply firstSome_not_None in Hf as (y & Hy & Hfy).
  apply in_flat_map. exists y. split; [exact Hy|].
  rewrite List.Forall_forall in IH. now apply IH.
Qed.

(** The paths listed for a well-formed node start with its path. *)
Lemma walkNode_prefix (x : FileNode) :
  forall P q, wfNode P x = true -> In q (walkNode x) ->
    q = path x \/ String.prefix (path x +:+ "/") q = true.
Proof.
  induction x as [x IH] using FileNode_tree_ind. unfold childrenOrEmpty in IH.
  intros P q Hwf Hq. destruct (wfNode_inv _ _ Hwf) as (Hp & Hn & Hcs).
  destruct x as [nm ty pa cs co].
  cbn [path type children walkNode childrenOrEmpty name] in *.
  destruct Hq as [<-|Hq]; [now left|]. right.
  destruct ty; [contradiction|]. destruct cs as [cs|]; [|contradiction].
  apply in_flat_map in Hq as (y & Hy & Hqy).
  rewrite List.Forall_forall in IH. apply wfNodes_Forall in Hcs.
  rewrite List.Forall_forall in Hcs.
  destruct (wfNode_inv _ _ (Hcs y Hy)) as (Hpy & _ & _).
  destruct (IH y Hy pa q (Hcs y Hy) Hqy) as [->|Hpre].
  - rewrite Hpy. rewrite <- sapp_assoc. apply prefix_refl_app.
  - apply prefix_split in Hpre as [r ->]. rewrite Hpy, !sapp_assoc.
    rewrite <- (sapp_assoc pa "/"). apply prefix_refl_app.
Qed.

Lemma walkNode_findNode (x : FileNode) :
  forall P q, wfNode P x = true -> In q (walkNode x) -> findNode q x <> None.
Proof.
  induction x as [x IH] using FileNode_tree_ind. unfold childrenOrEmpty in IH.
  intros P q Hwf Hq. pose proof (walkNode_prefix x P q Hwf Hq) as Hpre.
  destruct (wfNode_inv _ _ Hwf) as (Hp & Hn & Hcs).
  rewrite findNode_unfold.
  destruct x as [nm ty pa cs co].
  cbn [path type children walkNode childrenOrEmpty name] in *.
  destruct (String.eqb_spec pa q) as [_|Hne]; [discriminate|].
  destruct Hq as [E|Hq]; [exfalso; apply Hne; exact E|].
  destruct Hpre as [E|Hpre]; [exfalso; apply Hne; now symmetry|].
  destruct ty; [contradiction|]. destruct cs as [cs|]; [|contradiction].
  rewrite Hpre. apply in_flat_map in Hq as (y & Hy & Hqy).
  apply firstSome_not_None. exists y. split; [exact Hy|].
  rewrite List.Forall_forall in IH. apply wfNodes_Forall in Hcs.
  rewrite List.Forall_forall in Hcs. exact (IH y Hy pa q (Hcs y Hy) Hqy).
Qed.

Lemma found_is_listed (t : list FileNode) (p : string) :
  findFileByPath t p <> None -> In p (getAllPaths t).
Proof.
  intros Hf. apply firstSome_not_None in Hf as (y & Hy & Hfy).
  apply in_flat_map. exists y. split; [exact Hy | now apply findNode_walkNode].
Qed.

Lemma listed_is_found (t : list FileNode) (p : string) :
  wfTree t = true -> In p (getAllPaths t) -> findFileByPath t p <> None.
Proof.
  intros Hwf Hp. apply in_flat_map in Hp as (y & Hy & Hpy).
  apply firstSome_not_None. exists y. split; [exact Hy|].
  apply wfNodes_Forall in Hwf. rewrite List.Forall_forall in Hwf.
  exact (walkNode_findNode y "" p (Hwf y Hy) Hpy).
Qed.

(** X1. [getAllPaths] lists every path at which [findFileByPath] finds a
    node; in a well-formed tree it lists no other path, so a path is listed
    exactly when it is found. *)
Theorem getAllPaths_lists_what_is_found (t : list FileNode) (p : string) :
  (findFileByPath t p <> None -> In p (getAllPaths t))
  /\ (wfTree t = true -> (In p (getAllPaths t) <-> findFileByPath t p <> None)).
Proof.
  split; [apply found_is_listed|]. intros Hwf.
  split; [now apply listed_is_found | apply found_is_listed].
Qed.

Lemma getAllPaths_lists_what_is_found_witness :
  In "/src/App.tsx" (getAllPaths sampleTree)
  <-> findFileByPath sampleTree "/src/App.tsx" <> None.
Proof.
  exact (proj2 (getAllPaths_lists_what_is_found sampleTree "/src/App.tsx") eq_refl).
Defined.

(** *** A file written twice *)

Lemma findIndex_middle {A} (f : A -> bool) (l1 l2 : list A) (x : A) :
  Forall (fun y => f y = false) l1 -> f x = true ->
  findIndex f (l1 ++ x :: l2) = Some (length l1).
Proof.
  induction 1 as [|y l1 Hy _ IH]; intros Hx; simpl; [now rewrite Hx|].
  now rewrite Hy, (IH Hx).
Qed.

Lemma upsertWalk_overwrite (parts : list string) :
  forall (f c1 c2 P : string) (nodes : list FileNode),
    upsertWalk parts f c2 P (upsertWalk parts f c1 P nodes)
    = upsertWalk parts f c2 P nodes.
Proof.
  induction parts as [|part parts IH]; intros f c1 c2 P nodes.
  - cbn [upsertWalk]; cbv zeta.
    destruct (findIndex _ nodes) as [i|] eqn:Hi.
    + destruct (findIndex_Some _ _ _ Hi) as (l1 & x & l2 & -> & <- & Hx & Hl1).
      rewrite alter_middle.
      rewrite (findIndex_middle _ l1 l2 (setContent c1 x) Hl1)
        by (destruct x; exact Hx).
      rewrite !alter_middle. now destruct x.
    + apply findIndex_None in Hi.
      rewrite (findIndex_middle _ nodes [] _ Hi) by apply String.eqb_refl.
      now rewrite alter_middle.
  - cbn [upsertWalk]; cbv zeta.
    destruct (findIndex _ nodes) as [i|] eqn:Hi.
    + destruct (findIndex_Some _ _ _ Hi) as (l1 & x & l2 & -> & <- & Hx & Hl1).
      rewrite alter_middle.
      rewrite (findIndex_middle _ l1 l2 (setChildren _ x) Hl1)
        by (destruct x; exact Hx).
      rewrite !alter_middle.
      change (childrenOrEmpty (setChildren ?cs x)) with cs. rewrite IH.
      now destruct x.
    + apply findIndex_None in Hi.
      rewrite (findIndex_middle _ nodes [] _ Hi)
        by (cbn [name]; now rewrite String.eqb_refl).
      rewrite alter_middle.
      change (childrenOrEmpty (mkFileNode part Folder ?pa (Some ?cs) None)) with cs.
      now rewrite IH.
Qed.

(** X2. The last write to a path wins, in any tree: writing a content and
    then another at the same path gives the tree that the second write
    alone gives. So a second write of the same content changes nothing. *)
Theorem upsert_last_write_wins (t : list FileNode) (p c1 c2 : string) :
  addOrUpdateFileByPath (addOrUpdateFileByPath t p c1) p c2
  = addOrUpdateFileByPath t p c2
  /\ addOrUpdateFileByPath (addOrUpdateFileByPath t p c1) p c1
     = addOrUpdateFileByPath t p c1.
Proof.
  unfold addOrUpdateFileByPath.
  destruct (pop (pathSegments p)) as [[parts f]|]; [|split; reflexivity].
  split; apply upsertWalk_overwrite.
Qed.

(** *** Deletions in any order *)

Lemma deleteIn_type (p : string) (n : FileNode) : type (deleteIn p n) = type n.
Proof.
  rewrite deleteIn_unfold. destruct (type n) eqn:Hty, (children n);
    rewrite ?Hty; try reflexivity.
  destruct (String.prefix _ p); [|exact Hty]. now destruct n.
Qed.

Lemma filter_map_deleteIn (p q : string) (l : list FileNode) :
  List.filter (fun node => negb (String.eqb (path node) p)) (map (deleteIn q) l)
  = map (deleteIn q) (List.filter (fun node => negb (String.eqb (path node) p)) l).
Proof.
  induction l as [|x l IH]; [reflexivity|]. simpl. rewrite deleteIn_path.
  destruct (negb (String.eqb (path x) p)); simpl; now rewrite IH.
Qed.

Lemma filter_filter_comm {A} (f g : A -> bool) (l : list A) :
  List.filter f (List.filter g l) = List.filter g (List.filter f l).
Proof.
  induction l as [|x l IH]; [reflexivity|]. simpl.
  destruct (f x) eqn:Hf, (g x) eqn:Hg; simpl; rewrite ?Hf, ?Hg, IH; reflexivity.
Qed.

Lemma delete_comm_level (p q : string) (l : list FileNode) :
  Forall (fun x => deleteIn p (deleteIn q x) = deleteIn q (deleteIn p x)) l ->
  deleteNodeByPath (deleteNodeByPath l q) p = deleteNodeByPath (deleteNodeByPath l p) q.
Proof.
  intros Hall. unfold deleteNodeByPath.
  rewrite !filter_map_deleteIn, !map_map, (filter_filter_comm _ _ l).
  apply map_ext_in. intros x Hx. apply List.filter_In in Hx as [Hx _].
  apply List.filter_In in Hx as [Hx _].
  rewrite List.Forall_forall in Hall. now apply Hall.
Qed.

Lemma deleteIn_comm (p q : string) (x : FileNode) :
  deleteIn p (deleteIn q x) = deleteIn q (deleteIn p x).
Proof.
  induction x as [x IH] using FileNode_tree_ind. unfold childrenOrEmpty in IH.
  rewrite (deleteIn_unfold q x), (deleteIn_unfold p x).
  destruct x as [nm ty pa cs co]. cbn [type children path] in *.
  destruct ty; [reflexivity|]. destruct cs as [cs|]; [|reflexivity].
  destruct (String.prefix (pa +:+ "/") q) eqn:Hq,
           (String.prefix (pa +:+ "/") p) eqn:Hp;
    rewrite !deleteIn_unfold; cbn [type children path setChildren name content];
    rewrite ?Hq, ?Hp; try reflexivity.
  now rewrite (delete_comm_level p q cs IH).
Qed.

Lemma delete_comm (t : list FileNode) (p q : string) :
  deleteNodeByPath (deleteNodeByPath t q) p = deleteNodeByPath (deleteNodeByPath t p) q.
Proof.
  apply delete_comm_level, List.Forall_forall. intros x _. apply deleteIn_comm.
Qed.

Lemma deleteAll_comm (ps : list string) (t : list FileNode) (p : string) :
  deleteAll ps (deleteNodeByPath t p) = deleteNodeByPath (deleteAll ps t) p.
Proof.
  revert t. induction ps as [|q ps IH]; intros t; [reflexivity|].
  cbn [deleteAll fold_left]. fold (deleteAll ps). now rewrite delete_comm, IH.
Qed.

(** X3. Deletions commute, in any tree: a list of paths deleted in one
    order or another gives the same tree, and a path deleted twice is
    deleted once. *)
Theorem deletions_in_any_order (ps qs : list string) (t : list FileNode) (p : string) :
  (Permutation ps qs -> deleteAll ps t = deleteAll qs t)
  /\ deleteNodeByPath (deleteNodeByPath t p) p = deleteNodeByPath t p.
Proof.
  split.
  - intros Hperm. revert t.
    induction Hperm as [|x l l' _ IH|x y l|l l' l'' _ IH1 _ IH2]; intros t.
    + reflexivity.
    + cbn [deleteAll fold_left]. apply IH.
    + cbn [deleteAll fold_left]. now rewrite delete_comm.
    + now rewrite IH1, IH2.
  - apply delete_absent, find_delete_same.
Qed.

Lemma deletions_in_any_order_witness :
  deleteAll ["/src"; "/package.json"] sampleTree
  = deleteAll ["/package.json"; "/src"] sampleTree.
Proof.
  exact (proj1 (deletions_in_any_order ["/src"; "/package.json"]
                  ["/package.json"; "/src"] sampleTree "")
           (perm_swap "/package.json" "/src" [])).
Defined.

(** *** A node added from the explorer *)

Lemma firstUpdate_None {A} (f : A -> option A) (l : list A) :
  firstUpdate f l = None <-> Forall (fun y => f y = None) l.
Proof.
  induction l as [|x l IH]; [split; [constructor|reflexivity]|].
  rewrite HeapFacts.firstUpdate_cons. destruct (f x) as [x'|] eqn:Hx.
  - split; [discriminate|]. intros H. inversion H; congruence.
  - destruct (firstUpdate f l) as [l'|].
    + split; [discriminate|]. intros H. inversion H as [|? ? _ Hl]; subst.
      apply IH in Hl. discriminate Hl.
    + split; [|reflexivity]. intros _. constructor; [exact Hx|now apply IH].
Qed.

Lemma firstUpdate_Some {A} (f : A -> option A) (l l' : list A) :
  firstUpdate f l = Some l' ->
  exists l1 x x' l2, l = l1 ++ x :: l2 /\ l' = l1 ++ x' :: l2 /\ f x = Some x'
                     /\ Forall (fun y => f y = None) l1.
Proof.
  revert l'. induction l as [|y l IH]; intros l' H; [discriminate H|].
  rewrite HeapFacts.firstUpdate_cons in H. destruct (f y) as [y'|] eqn:Hy.
  - injection H as <-. exists [], y, y', l. auto.
  - destruct (firstUpdate f l) as [l0|]; [|discriminate H]. injection H as <-.
    destruct (IH l0 eq_refl) as (l1 & x & x' & l2 & -> & -> & Hx & Hl1).
    exists (y :: l1), x, x', l2. repeat split; auto.
Qed.

(** The write lands where the search arrives: nowhere when the search
    finds nothing. *)
Lemma updateFound_None (p : string) (g : FileNode -> FileNode) (n : FileNode) :
  updateFound p g n = None <-> findNode p n = None.
Proof.
  induction n as [n IH] using FileNode_tree_ind. unfold childrenOrEmpty in IH.
  rewrite HeapFacts.updateFound_unfold, findNode_unfold.
  destruct (String.eqb (path n) p); [split; discriminate|].
  destruct (type n); [tauto|]. destruct (children n) as [cs|]; [|tauto].
  destruct (String.prefix _ p); [|tauto].
  unfold findFileByPath.
  assert (H : firstUpdate (updateFound p g) cs = None
              <-> firstSome (findNode p) cs = None).
  { rewrite firstUpdate_None. split.
    - intros Hall. apply firstSome_None.
      rewrite List.Forall_forall in *. intros y Hy. now apply IH, Hall.
    - intros Hnone. apply firstSome_None_inv in Hnone.
      rewrite List.Forall_forall in *. intros y Hy. now apply IH, Hnone. }
  destruct (firstUpdate (updateFound p g) cs); simpl; [|tauto].
  split; [discriminate|]. intros Hn. apply H in Hn. discriminate Hn.
Qed.

Lemma update_exists (p : string) (g : FileNode -> FileNode) (t : list FileNode) :
  findFileByPath t p <> None ->
  exists t', firstUpdate (updateFound p g) t = Some t'.
Proof.
  intros Hf. destruct (firstUpdate (updateFound p g) t) as [t'|] eqn:Hu; [eauto|].
  exfalso. apply Hf, firstSome_None. apply firstUpdate_None in Hu.
  rewrite List.Forall_forall in *. intros y Hy. now apply (updateFound_None p g), Hu.
Qed.

Lemma updateFound_path (p : string) (g : FileNode -> FileNode) (n n' : FileNode) :
  (forall m, path (g m) = path m) ->
  updateFound p g n = Some n' -> path n' = path n.
Proof.
  intros Hg. rewrite HeapFacts.updateFound_unfold.
  destruct (String.eqb (path n) p); [intros [= <-]; apply Hg|].
  destruct (type n); [discriminate|]. destruct (children n); [|discriminate].
  destruct (String.prefix _ p); [|discriminate].
  destruct (firstUpdate _ _); [|discriminate]. now intros [= <-].
Qed.

Lemma updateFound_name (p : string) (g : FileNode -> FileNode) (n n' : FileNode) :
  (forall m, name (g m) = name m) ->
  updateFound p g n = Some n' -> name n' = name n.
Proof.
  intros Hg. rewrite HeapFacts.updateFound_unfold.
  destruct (String.eqb (path n) p); [intros [= <-]; apply Hg|].
  destruct (type n); [discriminate|]. destruct (children n); [|discriminate].
  destruct (String.prefix _ p); [|discriminate].
  destruct (firstUpdate _ _); [|discriminate]. now intros [= <-].
Qed.

(** The updated tree is well formed when the update keeps the node so. *)
Lemma updateFound_wf (p : string) (g : FileNode -> FileNode) (n : FileNode) :
  (forall m, path (g m) = path m) -> (forall m, name (g m) = name m) ->
  (forall P m, path m = p -> wfNode P m = true -> wfNode P (g m) = true) ->
  forall P n', wfNode P n = true -> updateFound p g n = Some n' ->
               wfNode P n' = true.
Proof.
  intros Hgp Hgn Hg. induction n as [n IH] using FileNode_tree_ind.
  intros P n' Hwf. rewrite HeapFacts.updateFound_unfold.
  destruct (String.eqb_spec (path n) p) as [E|_]; [intros [= <-]; now apply Hg|].
  destruct (type n); [discriminate|].
  destruct (children n) as [cs|] eqn:Hc; [|discriminate].
  destruct (String.prefix _ p); [|discriminate].
  destruct (firstUpdate _ cs) as [cs'|] eqn:Hu; [|discriminate]. intros [= <-].
  destruct (wfNode_inv P n Hwf) as (Hp & Hn & Hcs).
  unfold childrenOrEmpty in IH, Hcs. rewrite Hc in IH, Hcs.
  apply wfNode_intro; [exact Hp|exact Hn|].
  change (childrenOrEmpty (setChildren cs' n)) with cs'.
  change (path (setChildren cs' n)) with (path n).
  destruct (firstUpdate_Some _ _ _ Hu) as (l1 & x & x' & l2 & -> & -> & Hx & _).
  rewrite wfNodes_app, wfNodes_cons in *.
  apply andb_true_iff in Hcs as [H1 H2]. apply andb_true_iff in H2 as [Hx2 H2].
  rewrite H1, H2, andb_true_r. simpl.
  rewrite List.Forall_forall in IH. apply (IH x); [|exact Hx2|exact Hx].
  apply in_or_app. right. now left.
Qed.

(** The updated tree has no two siblings of a name when the update keeps
    the node the search finds so. *)
Lemma updateFound_unique (p : string) (g : FileNode -> FileNode) (n : FileNode) :
  (forall m, name (g m) = name m) ->
  forall n', updateFound p g n = Some n' -> uniqueNames n = true ->
             (forall m, findNode p n = Some m -> uniqueNames m = true ->
                        uniqueNames (g m) = true) ->
             uniqueNames n' = true.
Proof.
  intros Hgn. induction n as [n IH] using FileNode_tree_ind.
  intros n'. rewrite HeapFacts.updateFound_unfold, findNode_unfold.
  destruct (String.eqb_spec (path n) p) as [E|_].
  { intros [= <-] Hun Hg. now apply Hg. }
  destruct (type n); [discriminate|].
  destruct (children n) as [cs|] eqn:Hc; [|discriminate].
  destruct (String.prefix _ p); [|discriminate].
  destruct (firstUpdate _ cs) as [cs'|] eqn:Hu; [|discriminate]. intros [= <-].
  intros Hun Hg. destruct (uniqueNames_inv n cs Hun Hc) as [Hd Hall].
  unfold childrenOrEmpty in IH. rewrite Hc in IH.
  destruct (firstUpdate_Some _ _ _ Hu) as (l1 & x & x' & l2 & -> & -> & Hx & Hl1).
  change (uniqueNames (setChildren (l1 ++ x' :: l2) n))
    with (distinct (map name (l1 ++ x' :: l2))
          && forallb uniqueNames (l1 ++ x' :: l2)).
  rewrite map_app in *. cbn [map] in *. rewrite (updateFound_name p g x x' Hgn Hx).
  rewrite Hd. simpl. rewrite forallb_app in *. cbn [forallb] in *.
  apply andb_true_iff in Hall as [H1 H2]. apply andb_true_iff in H2 as [Hx2 H2].
  rewrite H1, H2, andb_true_r. simpl.
  rewrite List.Forall_forall in IH. apply (IH x); [|exact Hx|exact Hx2|].
  { apply in_or_app. right. now left. }
  intros m Hm. apply Hg. unfold findFileByPath.
  rewrite firstSome_app, firstSome_cons, Hm; [reflexivity|].
  rewrite List.Forall_forall in *. intros y Hy. now apply (updateFound_None p g), Hl1.
Qed.

(** The search for the updated path arrives at the updated node. *)
Lemma updateFound_find_same (p : string) (g : FileNode -> FileNode) (n : FileNode) :
  (forall m, path (g m) = path m) ->
  forall n', updateFound p g n = Some n' ->
             exists m, findNode p n = Some m /\ findNode p n' = Some (g m).
Proof.
  intros Hgp. induction n as [n IH] using FileNode_tree_ind.
  intros n'. rewrite HeapFacts.updateFound_unfold, (findNode_unfold p n).
  destruct (String.eqb_spec (path n) p) as [E|Hne].
  { intros [= <-]. exists n. split; [reflexivity|].
    rewrite findNode_unfold, Hgp, E. now rewrite String.eqb_refl. }
  destruct (type n) eqn:Hty; [discriminate|].
  destruct (children n) as [cs|] eqn:Hc; [|discriminate].
  destruct (String.prefix _ p) eqn:Hpre; [|discriminate].
  destruct (firstUpdate _ cs) as [cs'|] eqn:Hu; [|discriminate]. intros [= <-].
  unfold childrenOrEmpty in IH. rewrite Hc in IH.
  destruct (firstUpdate_Some _ _ _ Hu) as (l1 & x & x' & l2 & -> & -> & Hx & Hl1).
  assert (Hl1' : Forall (fun y => findNode p y = None) l1).
  { rewrite List.Forall_forall in *. intros y Hy.
    now apply (updateFound_None p g), Hl1. }
  rewrite List.Forall_forall in IH.
  destruct (IH x (in_elt x l1 l2) x' Hx)
    as (m & Hm & Hm').
  exists m. unfold findFileByPath. split.
  - now rewrite firstSome_app, firstSome_cons, Hm.
  - rewrite findNode_unfold.
    change (path (setChildren ?c n)) with (path n).
    change (type (setChildren ?c n)) with (type n).
    change (children (setChildren ?c n)) with (Some c).
    apply String.eqb_neq in Hne. rewrite Hne, Hty, Hpre. unfold findFileByPath.
    now rewrite firstSome_app, firstSome_cons, Hm'.
Qed.

Lemma sameFind_refl (a : option FileNode) : sameFind a a.
Proof. destruct a as [r|]; [|reflexivity]. exists r. split; [reflexivity|apply sameEntry_refl]. Qed.

Lemma updateFound_find_other (p q : string) (g : FileNode -> FileNode) (n : FileNode) :
  (forall m, path (g m) = path m) ->
  (forall m, path m = p -> sameFind (findNode q m) (findNode q (g m))) ->
  forall n', updateFound p g n = Some n' ->
             sameFind (findNode q n) (findNode q n').
Proof.
  intros Hgp Hg. induction n as [n IH] using FileNode_tree_ind.
  intros n'. rewrite HeapFacts.updateFound_unfold.
  destruct (String.eqb_spec (path n) p) as [E|Hne]; [intros [= <-]; now apply Hg|].
  destruct (type n) eqn:Hty; [discriminate|].
  destruct (children n) as [cs|] eqn:Hc; [|discriminate].
  destruct (String.prefix _ p) eqn:Hpre; [|discriminate].
  destruct (firstUpdate _ cs) as [cs'|] eqn:Hu; [|discriminate]. intros [= <-].
  unfold childrenOrEmpty in IH. rewrite Hc in IH.
  rewrite (findNode_unfold q n), (findNode_unfold q (setChildren cs' n)).
  change (path (setChildren cs' n)) with (path n).
  change (type (setChildren cs' n)) with (type n).
  change (children (setChildren cs' n)) with (Some cs').
  rewrite Hty, Hc.
  destruct (String.eqb (path n) q).
  { exists (setChildren cs' n). split; [reflexivity|apply sameEntry_setChildren]. }
  destruct (String.prefix _ q); [|reflexivity].
  destruct (firstUpdate_Some _ _ _ Hu) as (l1 & x & x' & l2 & -> & -> & Hx & _).
  unfold findFileByPath.
  destruct (firstSome (findNode q) l1) as [r|] eqn:Hl1.
  - rewrite !(firstSome_app_Some _ l1 _ r Hl1).
    exists r. split; [reflexivity|apply sameEntry_refl].
  - apply firstSome_None_inv in Hl1. rewrite !firstSome_app, !firstSome_cons by exact Hl1.
    rewrite List.Forall_forall in IH.
    pose proof (IH x (in_elt x l1 l2) x' Hx) as Hs.
    destruct (findNode q x) as [r|].
    + destruct Hs as (r' & -> & Hs). exists r'. auto.
    + simpl in Hs. rewrite Hs. apply sameFind_refl.
Qed.

Lemma pushChild_wf (c : FileNode) (P : string) (m : FileNode) :
  wfNode (path m) c = true -> wfNode P m = true -> wfNode P (pushChild c m) = true.
Proof.
  intros Hc Hm. destruct (wfNode_inv P m Hm) as (Hp & Hn & Hcs).
  apply wfNode_intro; [exact Hp|exact Hn|].
  change (childrenOrEmpty (pushChild c m)) with (childrenOrEmpty m ++ [c]).
  change (path (pushChild c m)) with (path m).
  rewrite wfNodes_app, Hcs. simpl. now rewrite Hc.
Qed.

Lemma not_named_includes (nodeName : string) (cs : list FileNode) :
  existsb (fun n => String.eqb (name n) nodeName) cs = false ->
  Str.includes (map name cs) nodeName = false.
Proof.
  unfold Str.includes. induction cs as [|x cs IH]; [reflexivity|]. simpl.
  rewrite (String.eqb_sym nodeName). destruct (String.eqb (name x) nodeName); [discriminate|].
  exact IH.
Qed.

Lemma pushChild_unique (c m : FileNode) :
  uniqueNames c = true ->
  existsb (fun n => String.eqb (name n) (name c)) (childrenOrEmpty m) = false ->
  uniqueNames m = true -> uniqueNames (pushChild c m) = true.
Proof.
  intros Hc Hnew Hm.
  change (uniqueNames (pushChild c m))
    with (distinct (map name (childrenOrEmpty m ++ [c]))
          && forallb uniqueNames (childrenOrEmpty m ++ [c])).
  assert (H : distinct (map name (childrenOrEmpty m)) = true
              /\ forallb uniqueNames (childrenOrEmpty m) = true).
  { unfold childrenOrEmpty. destruct (children m) as [cs|] eqn:E; [|now split].
    exact (uniqueNames_inv m cs Hm E). }
  destruct H as [Hd Hall]. rewrite map_app, forallb_app, Hall. simpl.
  rewrite Hc, (distinct_snoc _ _ Hd (not_named_includes _ _ Hnew)). reflexivity.
Qed.

Lemma newNode_find_other (nodeName : string) (ty : NodeType) (q p : string) :
  p <> q -> findNode p (newNode nodeName ty q) = None.
Proof.
  intros Hne. rewrite findNode_unfold. cbn [newNode path type children].
  destruct (String.eqb_spec q p) as [E|_]; [exfalso; now apply Hne|].
  destruct ty; [reflexivity|]. simpl. now destruct (String.prefix _ p).
Qed.

Lemma firstSome_snoc_None {A B} (f : A -> option B) (l : list A) (z : A) :
  f z = None -> firstSome f (l ++ [z]) = firstSome f l.
Proof.
  intros Hz. induction l as [|x l IH]; simpl; [now rewrite Hz|].
  destruct (f x); [reflexivity|exact IH].
Qed.

Lemma pushChild_find_other (c m : FileNode) (p : string) :
  findNode p c = None ->
  sameFind (findNode p m) (findNode p (pushChild c m)).
Proof.
  intros Hc. rewrite (findNode_unfold p m), (findNode_unfold p (pushChild c m)).
  change (path (pushChild c m)) with (path m).
  change (type (pushChild c m)) with (type m).
  change (children (pushChild c m)) with (Some (childrenOrEmpty m ++ [c])).
  destruct (String.eqb (path m) p).
  { exists (pushChild c m). split; [reflexivity|]. apply sameEntry_setChildren. }
  destruct (type m); [destruct (children m); reflexivity|].
  unfold findFileByPath. rewrite (firstSome_snoc_None _ _ _ Hc).
  unfold childrenOrEmpty. destruct (children m) as [cs|].
  - destruct (String.prefix _ p); apply sameFind_refl.
  - simpl. now destruct (String.prefix _ p).
Qed.

Lemma find_snoc_new (f : FileNode -> bool) (cs : list FileNode) (c : FileNode) :
  existsb f cs = false -> f c = true -> List.find f (cs ++ [c]) = Some c.
Proof.
  intros Hcs Hc. induction cs as [|x cs IH]; simpl in *; [now rewrite Hc|].
  destruct (f x); [discriminate Hcs|]. now apply IH.
Qed.

Lemma newNode_wf (P nodeName : string) (ty : NodeType) :
  noSlash nodeName -> wfNode P (newNode nodeName ty (P +:+ "/" +:+ nodeName)) = true.
Proof.
  intros Hn. apply wfNode_intro; [reflexivity|exact Hn|]. now destruct ty.
Qed.

Lemma newNode_unique (nodeName : string) (ty : NodeType) (q : string) :
  uniqueNames (newNode nodeName ty q) = true.
Proof. now destruct ty. Qed.

(** X4. In a well-formed tree without duplicate names, for a parent path
    that is [/] or canonical and a name without a slash: the tree
    [addNodeToTree] returns is again well formed and without duplicate
    names, the search finds the new node at its path, empty, and the search
    for any other path gives the entry it gave before. *)
Theorem addNode_adds_the_node
    (t t' : list FileNode) (parentPath nodeName : string) (ty : NodeType) :
  wfTree t = true -> HeapModel.uniqueTree t = true ->
  parentPath = "/" \/ canonical parentPath = true ->
  noSlash nodeName ->
  addNodeToTree t parentPath nodeName ty = inr t' ->
  wfTree t' = true
  /\ HeapModel.uniqueTree t' = true
  /\ findFileByPath t' (newNodePathOf parentPath nodeName)
     = Some (newNode nodeName ty (newNodePathOf parentPath nodeName))
  /\ forall p, p <> newNodePathOf parentPath nodeName ->
               sameFind (findFileByPath t p) (findFileByPath t' p).
Proof.
  intros Hwf Hu Hparent Hname Hadd.
  pose proof (find_new_path t parentPath nodeName Hwf Hu Hparent Hname) as Hiff.
  unfold addNodeToTree in Hadd.
  destruct (findFileByPath t (newNodePathOf parentPath nodeName)) eqn:Hq;
    [discriminate Hadd|].
  assert (Hsib : HeapModel.siblingExists t parentPath nodeName = false).
  { destruct (HeapModel.siblingExists t parentPath nodeName); [|reflexivity].
    exfalso. now apply (proj2 Hiff eq_refl). }
  clear Hiff. set (q := newNodePathOf parentPath nodeName) in *.
  set (new := newNode nodeName ty q) in *.
  unfold HeapModel.uniqueTree in Hu. apply andb_true_iff in Hu as [Hd Hall].
  unfold HeapModel.siblingExists, HeapModel.siblingsAt in Hsib.
  destruct (String.eqb_spec parentPath "/") as [->|Hroot].
  - injection Hadd as <-.
    assert (Hnew : wfNode "" new = true) by exact (newNode_wf "" nodeName ty Hname).
    split; [|split; [|split]].
    + unfold wfTree in *. rewrite wfNodes_app, Hwf. unfold wfNodes.
      cbn [forallb andb]. now rewrite Hnew.
    + unfold HeapModel.uniqueTree. rewrite map_app, forallb_app, Hall.
      cbn [forallb map andb]. fold new.
      change (name new) with nodeName.
      rewrite (distinct_snoc _ _ Hd (not_named_includes _ _ Hsib)).
      unfold new. now rewrite newNode_unique.
    + unfold findFileByPath in *.
      rewrite firstSome_app by now apply firstSome_None_inv.
      rewrite firstSome_cons, findNode_unfold. change (path new) with q.
      now rewrite String.eqb_refl.
    + intros p Hp. unfold findFileByPath.
      rewrite (firstSome_snoc_None _ _ _ (newNode_find_other nodeName ty q p Hp)).
      apply sameFind_refl.
  - destruct Hparent as [->|Hcan]; [now exfalso|].
    destruct (findFileByPath t parentPath) as [pn|] eqn:Hpn; [|discriminate Hadd].
    destruct (isFolder pn) eqn:Hfolder; [|discriminate Hadd].
    destruct (firstUpdate _ t) as [t0|] eqn:Hup; [|discriminate Hadd].
    injection Hadd as ->.
    assert (Hpath : path pn = parentPath) by exact (findFileByPath_path _ _ _ Hpn).
    assert (Hqq : q = parentPath +:+ "/" +:+ nodeName).
    { unfold q, newNodePathOf. apply String.eqb_neq in Hroot. now rewrite Hroot. }
    assert (Hsib' : existsb (fun n => String.eqb (name n) nodeName)
                      (childrenOrEmpty pn) = false).
    { unfold childrenOrEmpty. now destruct (children pn). }
    destruct (firstUpdate_Some _ _ _ Hup) as (l1 & x & x' & l2 & -> & -> & Hx & Hl1).
    assert (Hl1' : Forall (fun y => findNode parentPath y = None) l1).
    { rewrite List.Forall_forall in *. intros y Hy.
      now apply (updateFound_None parentPath (pushChild new)), Hl1. }
    assert (Hxpn : forall m, findNode parentPath x = Some m -> m = pn).
    { intros m Hm. unfold findFileByPath in Hpn.
      rewrite firstSome_app, firstSome_cons, Hm in Hpn by exact Hl1'. congruence. }
    assert (Hwf' : wfTree (l1 ++ x' :: l2) = true).
    { unfold wfTree in *. rewrite wfNodes_app, wfNodes_cons in *.
      apply andb_true_iff in Hwf as [H1 H2]. apply andb_true_iff in H2 as [Hx2 H2].
      rewrite H1, H2, andb_true_r. simpl.
      apply (updateFound_wf parentPath (pushChild new) x); auto.
      intros P m Hm Hwm. apply pushChild_wf; [|exact Hwm].
      rewrite Hm. unfold new. rewrite Hqq. now apply newNode_wf. }
    assert (Hu' : HeapModel.uniqueTree (l1 ++ x' :: l2) = true).
    { unfold HeapModel.uniqueTree. rewrite map_app in *. cbn [map] in *.
      rewrite (updateFound_name parentPath (pushChild new) x x' (fun m => eq_refl) Hx), Hd. simpl.
      rewrite forallb_app in *. cbn [forallb] in *.
      apply andb_true_iff in Hall as [H1 H2]. apply andb_true_iff in H2 as [Hx2 H2].
      rewrite H1, H2, andb_true_r. simpl.
      apply (updateFound_unique parentPath (pushChild new) x (fun m => eq_refl) x' Hx Hx2).
      intros m Hm Hum. rewrite (Hxpn m Hm) in *.
      apply pushChild_unique; auto. apply newNode_unique. }
    destruct (updateFound_find_same parentPath (pushChild new) x (fun m => eq_refl) x' Hx)
      as (m & Hm & Hm').
    rewrite (Hxpn m Hm) in Hm'. clear m Hm.
    assert (Hpn' : findFileByPath (l1 ++ x' :: l2) parentPath = Some (pushChild new pn)).
    { unfold findFileByPath. now rewrite firstSome_app, firstSome_cons, Hm'. }
    split; [exact Hwf'|split; [exact Hu'|split]].
    + destruct (canonical_segments parentPath Hcan) as [E Hne].
      pose proof (find_child (pathSegments parentPath) nodeName "" (l1 ++ x' :: l2)
                    Hne (pathSegments_noSlash parentPath) Hname Hwf') as Hchild.
      change ("" +:+ ?y) with y in Hchild. rewrite <- E, <- Hqq in Hchild.
      unfold HeapModel.uniqueTree in Hu'. apply andb_true_iff in Hu' as [Hd' Hall'].
      rewrite (Hchild Hd' Hall'), Hpn'. unfold childrenAt.
      change (isFolder (pushChild new pn)) with (isFolder pn). rewrite Hfolder.
      change (children (pushChild new pn)) with (Some (childrenOrEmpty pn ++ [new])).
      unfold namedIn. apply find_snoc_new; [exact Hsib'|].
      unfold new. cbn [newNode name]. apply String.eqb_refl.
    + intros p Hp. unfold findFileByPath.
      destruct (firstSome (findNode p) l1) as [r|] eqn:Hr.
      * rewrite !(firstSome_app_Some _ l1 _ r Hr). apply sameFind_refl.
      * apply firstSome_None_inv in Hr.
        rewrite !firstSome_app, !firstSome_cons by exact Hr.
        pose proof (updateFound_find_other parentPath p (pushChild new) x
                      (fun m => eq_refl)
                      (fun m _ => pushChild_find_other new m p
                                    (newNode_find_other nodeName ty q p Hp))
                      x' Hx) as Hs.
        destruct (findNode p x) as [r|].
        -- destruct Hs as (r' & -> & Hs). exists r'. auto.
        -- simpl in Hs. rewrite Hs. apply sameFind_refl.
Qed.

Lemma addNode_adds_the_node_witness :
  findFileByPath
    (sampleTree ++ [newNode "README.md" File "/README.md"]) "/README.md"
  = Some (newNode "README.md" File "/README.md").
Proof.
  refine (proj1 (proj2 (proj2
    (addNode_adds_the_node sampleTree _ "/" "README.md" File _ _ _ _ eq_refl))));
    [reflexivity | reflexivity | now left | reflexivity].
Defined.

(** X5. In any tree [addNodeToTree] fails in two ways only: with its
    "already exists" error exactly when a node is found at the new path,
    and with its "parent not found" error exactly when none is, the parent
    path is not [/] and no folder is found at it. *)
Theorem addNode_fails_exactly
    (t : list FileNode) (parentPath nodeName : string) (ty : NodeType) :
  (addNodeToTree t parentPath nodeName ty = inl (AlreadyExists ty nodeName)
   <-> findFileByPath t (newNodePathOf parentPath nodeName) <> None)
  /\ (addNodeToTree t parentPath nodeName ty = inl (ParentNotFound parentPath)
      <-> findFileByPath t (newNodePathOf parentPath nodeName) = None
          /\ parentPath <> "/"
          /\ ~ exists parentNode, findFileByPath t parentPath = Some parentNode
                                  /\ type parentNode = Folder)
  /\ forall e, addNodeToTree t parentPath nodeName ty = inl e ->
               e = AlreadyExists ty nodeName \/ e = ParentNotFound parentPath.
Proof.
  unfold addNodeToTree.
  destruct (findFileByPath t (newNodePathOf parentPath nodeName)) as [old|].
  { split; [split; [discriminate|reflexivity]|].
    split; [split; [discriminate|intros [H _]; discriminate H]|].
    intros e [= <-]. now left. }
  split; [split; [|intros H; now contradiction H]|].
  { destruct (String.eqb parentPath "/"); [discriminate|].
    destruct (findFileByPath t parentPath) as [pn|]; [|discriminate].
    destruct (isFolder pn); [|discriminate].
    destruct (firstUpdate _ t); discriminate. }
  destruct (String.eqb_spec parentPath "/") as [E|Hne].
  { split; [split; [discriminate|intros (_ & H & _); now contradiction H]|discriminate]. }
  destruct (findFileByPath t parentPath) as [pn|] eqn:Hpn.
  2:{ split; [|intros e [= <-]; now right].
      split; [|reflexivity]. intros _. split; [reflexivity|].
      split; [exact Hne|]. intros (m & Hm & _). discriminate Hm. }
  unfold isFolder. destruct (type pn) eqn:Hty; cbn [NodeType_eqb].
  { split; [|intros e [= <-]; now right].
    split; [|reflexivity]. intros _. split; [reflexivity|].
    split; [exact Hne|]. intros (m & [= <-] & Hm). congruence. }
  destruct (update_exists parentPath
              (pushChild (newNode nodeName ty (newNodePathOf parentPath nodeName))) t)
    as (t' & ->); [now rewrite Hpn|].
  split; [|discriminate]. split; [discriminate|].
  intros (_ & _ & H). exfalso. apply H. now exists pn.
Qed.

Lemma addNode_fails_exactly_witness :
  AlreadyExists File "App.tsx" = AlreadyExists File "App.tsx"
  \/ AlreadyExists File "App.tsx" = ParentNotFound "/src".
Proof.
  exact (proj2 (proj2 (addNode_fails_exactly sampleTree "/src" "App.tsx" File))
           (AlreadyExists File "App.tsx") eq_refl).
Defined.


(** *** The language of a file *)

Lemma split_nonempty (sep : ascii) (s : string) : Str.split sep s <> [].
Proof.
  destruct s as [|c s]; [discriminate|]. simpl.
  destruct (Ascii.eqb c sep); [discriminate|]. now destruct (Str.split sep s).
Qed.

Lemma split_whole (sep : ascii) (w : string) :
  Str.has_char sep w = false -> Str.split sep w = [w].
Proof.
  induction w as [|c w IH]; [reflexivity|]. simpl.
  destruct (Ascii.eqb c sep); [discriminate|]. intros Hw. now rewrite (IH Hw).
Qed.

Lemma split_snoc (sep : ascii) (a w : string) :
  Str.has_char sep w = false ->
  Str.split sep (a +:+ String sep w) = Str.split sep a ++ [w].
Proof.
  intros Hw. induction a as [|c a IH].
  - cbn [String.append Str.split]. rewrite Ascii.eqb_refl.
    now rewrite (split_whole sep w Hw).
  - cbn [String.append Str.split]. rewrite IH.
    destruct (Ascii.eqb c sep); [reflexivity|].
    pose proof (split_nonempty sep a) as Hne.
    now destruct (Str.split sep a) as [|x xs].
Qed.

Lemma pop_snoc {A} (l : list A) (z : A) : pop (l ++ [z]) = Some (l, z).
Proof.
  induction l as [|x l IH]; [reflexivity|]. cbn [app pop].
  rewrite IH. now destruct (l ++ [z]) eqn:E; [destruct l; discriminate E|].
Qed.

(** X6. The language of a file depends on the text after its last dot
    only: whatever comes before the dot, the language is that of the
    extension taken as a name, so a file named [md], without a dot, is a
    markdown file like [notes.md]. *)
Theorem language_depends_on_last_extension
    (toLowerCase : string -> string) (stem extension : string) :
  Str.has_char "." extension = false ->
  getLanguageForFile toLowerCase (stem +:+ "." +:+ extension)
  = getLanguageForFile toLowerCase extension.
Proof.
  intros Hext. unfold getLanguageForFile.
  change (stem +:+ "." +:+ extension) with (stem +:+ String "." extension).
  now rewrite (split_snoc "." stem extension Hext), pop_snoc,
    (split_whole "." extension Hext).
Qed.

Lemma language_depends_on_last_extension_witness :
  getLanguageForFile (fun s => s) "archive.tar.md" = getLanguageForFile (fun s => s) "md".
Proof.
  exact (language_depends_on_last_extension (fun s => s) "archive.tar" "md" eq_refl).
Defined.

End StoreFacts.

(** ** The tabs, the editor and the explorer *)

Module WorkbenchFacts.

Import Tree Model Utils History Dispatcher Workbench.
Import StrFacts TreeFacts HistoryFacts DispatcherFacts StoreFacts.

(** *** Edits and undos *)

Lemma push_fields (t : list FileNode) (s : IDEState) :
  consistent s ->
  history (push t s) = firstn (S (Z.to_nat (historyIndex s))) (history s) ++ [t]
  /\ historyIndex (push t s) = (historyIndex s + 1)%Z.
Proof.
  intros [Hr _]. unfold push, pushHistory, JS.slice0, JS.len in *.
  cbn [history historyIndex setProjectStructure setHistoryIndex setHistory].
  destruct (historyIndex s + 1 <? 0)%Z eqn:E; [lia|].
  rewrite Z.min_l by lia.
  replace (Z.to_nat (historyIndex s + 1)) with (S (Z.to_nat (historyIndex s))) by lia.
  split; [reflexivity|].
  rewrite length_app, length_firstn. cbn [length]. lia.
Qed.

Lemma pushes_fields (ts : list (list FileNode)) :
  forall s, consistent s ->
    consistent (pushes ts s)
    /\ historyIndex (pushes ts s) = (historyIndex s + Z.of_nat (length ts))%Z
    /\ firstn (S (Z.to_nat (historyIndex s))) (history (pushes ts s))
       = firstn (S (Z.to_nat (historyIndex s))) (history s).
Proof.
  induction ts as [|t ts IH]; intros s Hs.
  - cbn. split; [exact Hs|]. split; [lia|reflexivity].
  - change (pushes (t :: ts) s) with (pushes ts (push t s)).
    destruct (push_fields t s Hs) as [Hh Hi].
    destruct (IH (push t s) (push_consistent t s)) as (Hc & Hi' & Hh').
    split; [exact Hc|]. split; [rewrite Hi', Hi; cbn [length]; lia|].
    destruct Hs as [Hr _]. unfold JS.len in Hr.
    rewrite Hi in Hh'.
    replace (S (Z.to_nat (historyIndex s + 1)))
      with (S (Z.to_nat (historyIndex s)) + 1)%nat in Hh' by lia.
    apply (f_equal (firstn (S (Z.to_nat (historyIndex s))))) in Hh'.
    rewrite !firstn_firstn in Hh'.
    rewrite Nat.min_l in Hh' by lia. rewrite Hh', Hh.
    rewrite firstn_app, firstn_firstn, Nat.min_id, length_firstn.
    replace (S (Z.to_nat (historyIndex s))
             - Nat.min (S (Z.to_nat (historyIndex s))) (length (history s)))%nat
      with 0%nat by lia.
    cbn [firstn]. now rewrite app_nil_r.
Qed.

Lemma undo_fields (s : IDEState) :
  (0 < historyIndex s)%Z ->
  historyIndex (handleUndo s) = (historyIndex s - 1)%Z
  /\ history (handleUndo s) = history s.
Proof.
  intros H. unfold handleUndo. destruct (historyIndex s <=? 0)%Z eqn:E; [lia|].
  split; reflexivity.
Qed.

Lemma undos_fields (n : nat) :
  forall s, consistent s -> (Z.of_nat n <= historyIndex s)%Z ->
    consistent (undos n s)
    /\ historyIndex (undos n s) = (historyIndex s - Z.of_nat n)%Z
    /\ history (undos n s) = history s.
Proof.
  induction n as [|n IH]; intros s Hs Hn.
  - cbn. split; [exact Hs|]. split; [lia|reflexivity].
  - change (undos (S n) s) with (handleUndo (undos n s)).
    destruct (IH s Hs ltac:(lia)) as (Hc & Hi & Hh).
    destruct (undo_fields (undos n s) ltac:(lia)) as [Hi' Hh'].
    split; [now apply undo_consistent|]. split; [lia|congruence].
Qed.

Lemma index_firstn {A} (l : list A) (i : Z) :
  (0 <= i)%Z -> JS.index l i = JS.index (firstn (S (Z.to_nat i)) l) i.
Proof.
  intros Hi. unfold JS.index. destruct (i <? 0)%Z eqn:E; [lia|].
  symmetry. apply lookup_take_lt. lia.
Qed.

(** X7. However many edits are pushed on a state whose live tree is the
    entry of the log under the cursor, as many undos bring back the live
    tree and the cursor of that state, and keep the log up to the cursor;
    fewer undos land on the edit that many steps back. *)
Theorem undos_revert_edits (ts : list (list FileNode)) (s : IDEState) :
  consistent s ->
  let s' := undos (length ts) (pushes ts s) in
  projectStructure s' = projectStructure s
  /\ historyIndex s' = historyIndex s
  /\ firstn (S (Z.to_nat (historyIndex s))) (history s')
     = firstn (S (Z.to_nat (historyIndex s))) (history s)
  /\ canUndo s' = canUndo s
  /\ forall k t, ts !! k = Some t ->
       projectStructure (undos (length ts - S k) (pushes ts s)) = Some t.
Proof.
  intros Hs s'.
  destruct (pushes_fields ts s Hs) as (Hc & Hi & Hh).
  pose proof Hs as [Hr Hp].
  destruct (undos_fields (length ts) (pushes ts s) Hc ltac:(lia)) as (Hc' & Hi' & Hh').
  fold s' in Hc', Hi', Hh'.
  assert (Hidx : historyIndex s' = historyIndex s) by lia.
  split; [|split; [exact Hidx|split; [now rewrite Hh'|split]]].
  - destruct Hc' as [_ Hp']. rewrite Hp', Hp, Hidx, Hh'.
    rewrite (index_firstn (history (pushes ts s))), (index_firstn (history s)) by lia.
    now rewrite Hh.
  - unfold canUndo. now rewrite Hidx.
  - intros k t Hk. pose proof (lookup_lt_Some _ _ _ Hk) as Hlt.
    destruct (undos_fields (length ts - S k) (pushes ts s) Hc ltac:(lia))
      as ([_ Hp'] & Hi'' & Hh'').
    rewrite Hp', Hi'', Hh'', Hi. clear Hp' Hi'' Hh'' Hc' Hi' Hh' Hidx s'.
    revert s Hs Hr Hp Hc Hi Hh k Hk Hlt.
    induction ts as [|t0 ts IH]; intros s Hs Hr Hp Hc Hi Hh k Hk Hlt;
      [discriminate Hk|].
    change (pushes (t0 :: ts) s) with (pushes ts (push t0 s)) in Hc, Hi, Hh |- *.
    destruct (push_fields t0 s Hs) as [Hh0 Hi0].
    destruct (pushes_fields ts (push t0 s) (push_consistent t0 s)) as (Hc1 & Hi1 & Hh1).
    destruct k as [|k].
    + injection Hk as <-. cbn [length].
      replace (historyIndex s + Z.of_nat (S (length ts))
               - Z.of_nat (S (length ts) - 1))%Z with (historyIndex (push t0 s))
        by (rewrite Hi0; lia).
      rewrite (index_firstn (history (pushes ts (push t0 s)))) by (rewrite Hi0; lia).
      rewrite Hh1, <- index_firstn by (rewrite Hi0; lia).
      destruct (push_consistent t0 s) as [_ Hp0]. rewrite <- Hp0. reflexivity.
    + cbn [length] in *. 
      replace (historyIndex s + Z.of_nat (S (length ts))
               - Z.of_nat (S (length ts) - S (S k)))%Z
        with (historyIndex (push t0 s) + Z.of_nat (length ts)
              - Z.of_nat (length ts - S k))%Z by (rewrite Hi0; lia).
      destruct (push_consistent t0 s) as [Hr0 Hp0].
      apply (IH (push t0 s)); auto; try lia.
      split; assumption.
Qed.

Lemma undos_revert_edits_witness :
  projectStructure (undos 2 (pushes [[]; Samples.oldTree] (initial sampleTree)))
  = Some sampleTree.
Proof.
  exact (proj1 (undos_revert_edits [[]; Samples.oldTree] (initial sampleTree)
                  (initial_consistent sampleTree))).
Defined.

(** *** The tabs *)

Lemma filter_keeps_left (p : string) (l1 : list FileNode) :
  Forall (fun y => String.eqb (path y) p = false) l1 ->
  List.filter (fun f => negb (String.eqb (path f) p)) l1 = l1.
Proof.
  induction 1 as [|y l1 Hy _ IH]; [reflexivity|]. simpl. now rewrite Hy, IH.
Qed.

Lemma filter_not_in (p : string) (l : list FileNode) :
  ~ In p (map path (List.filter (fun f => negb (String.eqb (path f) p)) l)).
Proof.
  intros Hin. apply in_map_iff in Hin as (f & <- & Hf).
  apply List.filter_In in Hf as [_ Hf]. now rewrite String.eqb_refl in Hf.
Qed.

Lemma filter_other_in (p a : string) (l : list FileNode) :
  a <> p -> In a (map path l) ->
  In a (map path (List.filter (fun f => negb (String.eqb (path f) p)) l)).
Proof.
  intros Hne Hin. apply in_map_iff in Hin as (f & <- & Hf).
  apply in_map, List.filter_In. split; [exact Hf|].
  apply negb_true_iff, String.eqb_neq. exact Hne.
Qed.

Lemma index_lookup {A} (l : list A) (i : nat) :
  JS.index l (Z.of_nat i) = l !! i.
Proof.
  unfold JS.index. destruct (Z.ltb_spec (Z.of_nat i) 0); [lia|].
  now rewrite Nat2Z.id.
Qed.

(** What [handleCloseFile] does when the closed tab is the active one and
    is open: the tab before it, or else the first of the others, becomes
    active. *)
Lemma close_active_run (s : IDEState) (p : string) (l1 l2 : list FileNode) (x : FileNode) :
  activeFilePath s = Some p ->
  openFiles s = l1 ++ x :: l2 -> path x = p ->
  Forall (fun y => String.eqb (path y) p = false) l1 ->
  let rest := List.filter (fun f => negb (String.eqb (path f) p)) l2 in
  handleCloseFile s p s
  = (Some tt,
     setOpenFiles (l1 ++ rest)
       (setActiveFilePath
          (match last l1 with
           | Some y => Some (path y)
           | None => option_map path (head rest)
           end) s)).
Proof.
  intros Ha Ho Hx Hl1 rest. unfold handleCloseFile. rewrite Ha, Ho, String.eqb_refl.
  rewrite (findIndex_middle _ l1 l2 x Hl1) by (rewrite Hx; apply String.eqb_refl).
  rewrite List.filter_app. cbn [List.filter]. rewrite Hx, String.eqb_refl.
  cbn [negb]. rewrite (filter_keeps_left p l1 Hl1). fold rest.
  unfold when, bindA.
  destruct l1 as [|y l1] using rev_ind.
  - cbn [length app Z.of_nat]. change (Z.max 0 (0 - 1)) with 0%Z.
    destruct rest as [|r rest']; reflexivity.
  - clear IHl1. rewrite last_snoc.
    assert (E : (0 <? length ((l1 ++ [y]) ++ rest))%nat = true).
    { apply Nat.ltb_lt. rewrite !length_app. cbn [length]. lia. }
    rewrite E.
    replace (Z.max 0 (Z.of_nat (length (l1 ++ [y])) - 1)) with (Z.of_nat (length l1))
      by (rewrite length_app; cbn [length]; lia).
    rewrite index_lookup, <- app_assoc. cbn [app].
    rewrite (list_lookup_middle l1 rest y (length l1) eq_refl).
    reflexivity.
Qed.

Lemma close_other_run (s : IDEState) (p : string) :
  activeFilePath s <> Some p ->
  handleCloseFile s p s
  = (Some tt,
     setOpenFiles (List.filter (fun f => negb (String.eqb (path f) p)) (openFiles s)) s).
Proof.
  intros Ha. unfold handleCloseFile.
  destruct (activeFilePath s) as [a|]; [|reflexivity].
  destruct (String.eqb_spec a p) as [->|_]; [now contradiction Ha|reflexivity].
Qed.

Lemma close_stray_run (s : IDEState) (p : string) :
  activeFilePath s = Some p ->
  findIndex (fun f => String.eqb (path f) p) (openFiles s) = None ->
  handleCloseFile s p s
  = (Some tt, setOpenFiles (openFiles s)
                (setActiveFilePath (option_map path (head (openFiles s))) s)).
Proof.
  intros Ha Hi. unfold handleCloseFile. rewrite Ha, Hi, String.eqb_refl.
  apply findIndex_None in Hi. rewrite (filter_keeps_left p _ Hi).
  unfold when, bindA. change (Z.max 0 (-1 - 1)) with 0%Z.
  destruct (openFiles s) as [|f l]; reflexivity.
Qed.

(** X8. [handleCloseFile] always returns, and no tab of the closed path is
    left. When the closed tab was not the active one the active file stays;
    when it was, the tab before its first occurrence becomes active, or
    else the first of the tabs left, or none when no tab is left. *)
Theorem close_tab (s : IDEState) (p : string) :
  let s' := after (handleCloseFile s p) s in
  returned (handleCloseFile s p) s = true
  /\ openFiles s'
     = List.filter (fun f => negb (String.eqb (path f) p)) (openFiles s)
  /\ ~ In p (map path (openFiles s'))
  /\ (activeFilePath s <> Some p -> activeFilePath s' = activeFilePath s)
  /\ (activeFilePath s = Some p ->
      forall l1 x l2,
        openFiles s = l1 ++ x :: l2 -> path x = p ->
        Forall (fun y => path y <> p) l1 ->
        activeFilePath s'
        = match last l1 with
          | Some y => Some (path y)
          | None => option_map path (head (openFiles s'))
          end).
Proof.
  intros s'. unfold s', after, returned. clear s'.
  assert (Hfilter : forall l1 x l2,
             path x = p -> Forall (fun y => String.eqb (path y) p = false) l1 ->
             List.filter (fun f => negb (String.eqb (path f) p)) (l1 ++ x :: l2)
             = l1 ++ List.filter (fun f => negb (String.eqb (path f) p)) l2).
  { intros l1 x l2 Hx Hl1. rewrite List.filter_app. cbn [List.filter].
    rewrite Hx, String.eqb_refl. cbn [negb]. now rewrite (filter_keeps_left p l1 Hl1). }
  assert (Hdec : activeFilePath s = Some p \/ activeFilePath s <> Some p).
  { destruct (activeFilePath s) as [a|]; [|right; discriminate].
    destruct (String.eqb_spec a p) as [->|Hne]; [now left|right; congruence]. }
  destruct Hdec as [Ha|Ha].
  - assert (Hlast : forall l1 x l2,
               openFiles s = l1 ++ x :: l2 -> path x = p ->
               Forall (fun y => path y <> p) l1 ->
               handleCloseFile s p s
               = (Some tt,
                  setOpenFiles (List.filter (fun f => negb (String.eqb (path f) p))
                                  (openFiles s))
                    (setActiveFilePath
                       (match last l1 with
                        | Some y => Some (path y)
                        | None =>
                            option_map path
                              (head (List.filter
                                       (fun f => negb (String.eqb (path f) p))
                                       (openFiles s)))
                        end) s))).
    { intros l1 x l2 Ho Hx Hl1.
      assert (Hl1' : Forall (fun y => String.eqb (path y) p = false) l1).
      { eapply Forall_impl; [exact Hl1|]. intros y Hy. now apply String.eqb_neq. }
      rewrite (close_active_run s p l1 l2 x Ha Ho Hx Hl1').
      rewrite Ho, (Hfilter l1 x l2 Hx Hl1'). do 3 f_equal.
      destruct (last l1) eqn:El; [reflexivity|].
      apply last_None in El. now subst l1. }
    destruct (findIndex (fun f => String.eqb (path f) p) (openFiles s)) as [i|] eqn:Hi.
    + destruct (findIndex_Some _ _ _ Hi) as (l1 & x & l2 & Ho & _ & Hx & Hl1).
      apply String.eqb_eq in Hx.
      assert (Hl1' : Forall (fun y => path y <> p) l1).
      { eapply Forall_impl; [exact Hl1|]. intros y Hy. now apply String.eqb_neq. }
      rewrite (Hlast l1 x l2 Ho Hx Hl1'). cbn [fst snd openFiles setOpenFiles].
      split; [reflexivity|]. split; [reflexivity|]. split; [apply filter_not_in|].
      split; [intros H; now contradiction H|]. intros _ l1' x' l2' Ho' Hx' Hl1''.
      pose proof (Hlast l1' x' l2' Ho' Hx' Hl1'') as E.
      rewrite (Hlast l1 x l2 Ho Hx Hl1') in E. injection E as E.
      cbn [snd activeFilePath setOpenFiles setActiveFilePath openFiles]. exact E.
    + rewrite (close_stray_run s p Ha Hi). cbn [fst snd openFiles setOpenFiles].
      pose proof (findIndex_None _ _ Hi) as Hall.
      rewrite (filter_keeps_left p _ Hall).
      split; [reflexivity|]. split; [reflexivity|]. split.
      { intros Hin. apply in_map_iff in Hin as (f & Hf & Hin).
        rewrite List.Forall_forall in Hall. specialize (Hall f Hin).
        rewrite Hf, String.eqb_refl in Hall. discriminate Hall. }
      split; [intros H; now contradiction H|]. intros _ l1 x l2 Ho Hx _. exfalso.
      rewrite List.Forall_forall in Hall.
      specialize (Hall x ltac:(rewrite Ho; apply in_elt)).
      rewrite Hx, String.eqb_refl in Hall. discriminate Hall.
  - rewrite (close_other_run s p Ha). cbn [fst snd openFiles setOpenFiles].
    split; [reflexivity|]. split; [reflexivity|]. split; [apply filter_not_in|].
    split; [reflexivity|]. intros H. now contradiction Ha.
Qed.

Lemma close_tab_witness :
  let s := setActiveFilePath (Some "/b")
             (setOpenFiles [mkFileNode "a" File "/a" None None;
                            mkFileNode "b" File "/b" None None] (initial [])) in
  activeFilePath (after (handleCloseFile s "/b") s) = Some "/a".
Proof.
  intros s.
  refine (proj2 (proj2 (proj2 (proj2 (close_tab s "/b")))) eq_refl
            [mkFileNode "a" File "/a" None None] (mkFileNode "b" File "/b" None None) []
            eq_refl eq_refl _).
  repeat constructor. discriminate.
Defined.

(** *** Deleting from the explorer *)

Section Confirm.

Variable runtime : FsCall -> bool.

Lemma deleteAll_cons (p : string) (ps : list string) (t : list FileNode) :
  deleteAll (p :: ps) t = deleteAll ps (deleteNodeByPath t p).
Proof. reflexivity. Qed.

Lemma deleteAll_none (ps : list string) (t : list FileNode) (p : string) :
  findFileByPath t p = None -> findFileByPath (deleteAll ps t) p = None.
Proof.
  revert t. induction ps as [|q ps IH]; intros t H; [exact H|].
  rewrite deleteAll_cons. now apply IH, find_delete_none.
Qed.

Lemma deleteAll_deleted (ps : list string) (t : list FileNode) (p : string) :
  In p ps -> findFileByPath (deleteAll ps t) p = None.
Proof.
  revert t. induction ps as [|q ps IH]; intros t []; rewrite deleteAll_cons.
  - subst q. apply deleteAll_none, find_delete_same.
  - now apply IH.
Qed.

Lemma deleteAll_wf (ps : list string) (t : list FileNode) :
  wfTree t = true -> wfTree (deleteAll ps t) = true.
Proof.
  revert t. induction ps as [|q ps IH]; intros t H; [exact H|].
  rewrite deleteAll_cons. now apply IH, delete_wf.
Qed.

Lemma deleteAll_other (ps : list string) (p : string) :
  Forall (fun q => p <> q /\ String.prefix (q +:+ "/") p = false) ps ->
  forall (t : list FileNode) (n : FileNode),
    findFileByPath t p = Some n ->
    exists n', findFileByPath (deleteAll ps t) p = Some n' /\ sameEntry n' n.
Proof.
  induction 1 as [|q ps [Hq1 Hq2] _ IH]; intros t n Hn.
  - exists n. split; [exact Hn|apply sameEntry_refl].
  - rewrite deleteAll_cons.
    destruct (find_delete_other t p q n Hq1 Hq2 Hn) as (n1 & Hn1 & Hs1).
    destruct (IH _ _ Hn1) as (n2 & Hn2 & Hs2).
    exists n2. split; [exact Hn2|]. now apply (sameEntry_trans _ n1).
Qed.

Lemma openAfter_cons (n : FileNode) (nodes o : list FileNode) :
  openAfter (n :: nodes) o
  = openAfter nodes (List.filter (fun f => negb (String.prefix (path n) (path f))) o).
Proof. reflexivity. Qed.

Lemma activeAfter_cons (n : FileNode) (nodes : list FileNode) (a : option string) :
  activeAfter (n :: nodes) a
  = activeAfter nodes
      match a with
      | Some x => if Str.truthy x && String.prefix (path n) x then None else Some x
      | None => None
      end.
Proof. reflexivity. Qed.

Lemma openAfter_In (nodes o : list FileNode) (f : FileNode) :
  In f (openAfter nodes o)
  <-> In f o /\ Forall (fun n => String.prefix (path n) (path f) = false) nodes.
Proof.
  revert o. induction nodes as [|n nodes IH]; intros o.
  - split; [intros H; split; [exact H|constructor]|now intros [H _]].
  - rewrite openAfter_cons, IH, List.filter_In, negb_true_iff. split.
    + intros [[H1 H2] H3]. split; [exact H1|now constructor].
    + intros [H1 H2]. inversion H2; subst. auto.
Qed.

Lemma activeAfter_None (nodes : list FileNode) : activeAfter nodes None = None.
Proof. induction nodes as [|n nodes IH]; [reflexivity|]. now rewrite activeAfter_cons. Qed.

Lemma activeAfter_Some (nodes : list FileNode) (a : string) :
  Str.truthy a = true ->
  activeAfter nodes (Some a)
  = if existsb (fun n => String.prefix (path n) a) nodes then None else Some a.
Proof.
  intros Ha. induction nodes as [|n nodes IH]; [reflexivity|].
  rewrite activeAfter_cons, Ha. cbn [andb existsb].
  destruct (String.prefix (path n) a); [apply activeAfter_None|exact IH].
Qed.

Lemma foldA_cons {A B} (x : A) (xs : list A) (body : B -> A -> Act B) (b : B)
    (s : IDEState) :
  foldA (x :: xs) body b s
  = match body b x s with
    | (Some b', s') => foldA xs body b' s'
    | (None, s') => (None, s')
    end.
Proof. reflexivity. Qed.

Lemma confirmStep_run (cl : IDEState) (ots : option (list FileNode))
    (o : list FileNode) (a : option string) (n : FileNode) (s : IDEState) :
  confirmStep runtime cl (ots, o, a) n s
  = match when (webContainer cl) (fsCall runtime (FsRm (path n))) s, ots with
    | (Some _, s1), Some t =>
        (Some (Some (deleteNodeByPath t (path n)),
               List.filter (fun f => negb (String.prefix (path n) (path f))) o,
               match a with
               | Some x =>
                   if Str.truthy x && String.prefix (path n) x then None else Some x
               | None => None
               end), s1)
    | (_, s1), _ => (None, s1)
    end.
Proof.
  unfold confirmStep, bindA.
  destruct (when (webContainer cl) (fsCall runtime (FsRm (path n))) s) as [[[]|] s1];
    [|reflexivity].
  now destruct ots.
Qed.

Lemma when_fs_onlyFs (c : bool) (call : FsCall) (s : IDEState) :
  onlyFs s (snd (when c (fsCall runtime call) s)).
Proof. destruct c; [apply fsCall_onlyFs|apply onlyFs_refl]. Qed.

(** The loop of [handleConfirmDelete]: it touches nothing but the log of
    runtime calls, and when it ends it has deleted every node, one after
    the other. *)
Lemma confirm_loop (cl : IDEState) (nodes : list FileNode) :
  forall ots o a s,
    onlyFs s (snd (foldA nodes (confirmStep runtime cl) (ots, o, a) s))
    /\ (fst (foldA nodes (confirmStep runtime cl) (ots, o, a) s) = None
        \/ fst (foldA nodes (confirmStep runtime cl) (ots, o, a) s)
           = Some (option_map (deleteAll (map path nodes)) ots,
                   openAfter nodes o, activeAfter nodes a)).
Proof.
  induction nodes as [|n nodes IH]; intros ots o a s.
  - split; [apply onlyFs_refl|right]. now destruct ots.
  - rewrite foldA_cons, confirmStep_run.
    pose proof (when_fs_onlyFs (webContainer cl) (FsRm (path n)) s) as Hfs.
    destruct (when (webContainer cl) (fsCall runtime (FsRm (path n))) s)
      as [[[]|] s1]; cbn [snd] in Hfs.
    + destruct ots as [t|].
      * destruct (IH (Some (deleteNodeByPath t (path n)))
                    (List.filter (fun f => negb (String.prefix (path n) (path f))) o)
                    (match a with
                     | Some x =>
                         if Str.truthy x && String.prefix (path n) x
                         then None else Some x
                     | None => None
                     end) s1) as [H1 H2].
        split; [exact (onlyFs_trans _ _ _ Hfs H1)|exact H2].
      * split; [exact Hfs|now left].
    + destruct ots; (split; [exact Hfs|now left]).
Qed.

Lemma confirm_loop_ok (cl : IDEState) (nodes : list FileNode) :
  mirrorResolves runtime cl ->
  forall t o a s,
    exists s',
      foldA nodes (confirmStep runtime cl) (Some t, o, a) s
      = (Some (Some (deleteAll (map path nodes) t),
               openAfter nodes o, activeAfter nodes a), s')
      /\ onlyFs s s'
      /\ fsCalls s' = fsCalls s ++ (if webContainer cl
                                    then map (fun n => FsRm (path n)) nodes else []).
Proof.
  intros Hm. induction nodes as [|n nodes IH]; intros t o a s.
  - exists s. split; [reflexivity|]. split; [apply onlyFs_refl|].
    destruct (webContainer cl); now rewrite app_nil_r.
  - rewrite foldA_cons, confirmStep_run.
    destruct (webContainer cl) eqn:Hwc.
    + destruct Hm as [Hm|Hm]; [congruence|].
      unfold when, fsCall. rewrite Hm.
      destruct (IH (deleteNodeByPath t (path n))
                  (List.filter (fun f => negb (String.prefix (path n) (path f))) o)
                  (match a with
                   | Some x =>
                       if Str.truthy x && String.prefix (path n) x
                       then None else Some x
                   | None => None
                   end)
                  (setFsCalls (fsCalls s ++ [FsRm (path n)]) s))
        as (s' & Hrun & Hfs & Hcalls).
      exists s'. split; [exact Hrun|]. split.
      * apply (onlyFs_trans _ (setFsCalls (fsCalls s ++ [FsRm (path n)]) s)); [|exact Hfs].
        now eexists.
      * rewrite Hcalls. cbn [fsCalls setFsCalls map]. now rewrite <- app_assoc.
    + unfold when, ret. apply IH.
Qed.

End Confirm.

Lemma deleteAll_app (ps1 ps2 : list string) (t : list FileNode) :
  deleteAll (ps1 ++ ps2) t = deleteAll ps2 (deleteAll ps1 t).
Proof. apply fold_left_app. Qed.

Lemma deleteAll_below (ps : list string) (t : list FileNode) (p q : string) :
  wfTree t = true -> canonical p = true -> In p ps ->
  String.prefix (p +:+ "/") q = true ->
  findFileByPath (deleteAll ps t) q = None.
Proof.
  intros Hwf Hcan Hin Hpre. apply in_split in Hin as (ps1 & ps2 & ->).
  rewrite deleteAll_app, deleteAll_cons. apply deleteAll_none.
  apply find_after_delete; auto. now apply deleteAll_wf.
Qed.

(** X9. [handleConfirmDelete], for nodes awaiting confirmation and a runtime
    that is absent or accepts the removals: it returns; the live tree is
    the tree with the path of every node deleted, pushed as one entry of
    the log; none of these paths is found in it, nor, when the tree is well
    formed and the path canonical, any path below one; the tabs left are
    those whose path starts with the path of no deleted node; the selection
    and the nodes awaiting confirmation are cleared. *)
Theorem confirm_delete_removes
    (runtime : FsCall -> bool) (s : IDEState) (nodes t : list FileNode) :
  nodesToDelete s = Some nodes -> nodes <> [] ->
  projectStructure s = Some t ->
  mirrorResolves runtime s ->
  let s' := after (handleConfirmDelete runtime s) s in
  let t' := deleteAll (map path nodes) t in
  returned (handleConfirmDelete runtime s) s = true
  /\ projectStructure s' = Some t'
  /\ history s' = JS.slice0 (history s) (historyIndex s + 1) ++ [t']
  /\ historyIndex s' = (JS.len (history s') - 1)%Z
  /\ (forall n, In n nodes -> findFileByPath t' (path n) = None)
  /\ (forall n q, In n nodes -> wfTree t = true -> canonical (path n) = true ->
                  String.prefix (path n +:+ "/") q = true ->
                  findFileByPath t' q = None)
  /\ (forall f, In f (openFiles s')
                <-> In f (openFiles s)
                    /\ Forall (fun n => String.prefix (path n) (path f) = false) nodes)
  /\ selectedNodePaths s' = []
  /\ nodesToDelete s' = None
  /\ hasUnsavedChanges s' = true
  /\ toasts s' = toasts s ++ [mkToast (showNat (length nodes) +:+ " item(s) deleted.")
                                success]
  /\ fsCalls s' = fsCalls s ++ (if webContainer s
                                then map (fun n => FsRm (path n)) nodes else []).
Proof.
  intros Hnodes Hne Ht Hm s' t'. unfold s', after, returned. clear s'.
  destruct (confirm_loop_ok runtime s nodes Hm t (openFiles s) (activeFilePath s) s)
    as (s1 & Hrun & [log ->] & Hcalls).
  assert (E : handleConfirmDelete runtime s s
              = (Some tt,
                 setNodesToDelete None
                   (setSelectedNodePaths []
                      (setHasUnsavedChanges true
                         (addToast (showNat (length nodes) +:+ " item(s) deleted.")
                            success
                            (pushHistory s t'
                               (setActiveFilePath
                                  (if negb (truthyPath
                                              (activeAfter nodes (activeFilePath s)))
                                      && (0 <? length (openAfter nodes (openFiles s)))%nat
                                   then option_map path
                                          (last (openAfter nodes (openFiles s)))
                                   else activeAfter nodes (activeFilePath s))
                                  (setOpenFiles (openAfter nodes (openFiles s))
                                     (setFsCalls log s))))))))).
  { unfold handleConfirmDelete. rewrite Hnodes.
    destruct nodes as [|n0 ns]; [now contradiction Hne|].
    rewrite Ht. unfold bindA at 1. rewrite Hrun. reflexivity. }
  rewrite E. clear E Hrun.
  cbn [fst snd projectStructure history historyIndex openFiles selectedNodePaths
       nodesToDelete hasUnsavedChanges toasts fsCalls
       setProjectStructure setHistory setHistoryIndex setOpenFiles
       setActiveFilePath setSelectedNodePaths setHasUnsavedChanges
       setNodesToDelete setToasts setFsCalls addToast pushHistory] in *.
  split; [reflexivity|]. split; [reflexivity|]. split; [reflexivity|].
  split; [reflexivity|]. split.
  { intros n Hn. apply deleteAll_deleted. now apply in_map. }
  split.
  { intros n q Hn Hwf Hcan Hpre. apply (deleteAll_below _ t (path n) q); auto.
    now apply in_map. }
  split; [intros f; apply openAfter_In|].
  split; [reflexivity|]. split; [reflexivity|]. split; [reflexivity|].
  split; [reflexivity|exact Hcalls].
Qed.

Lemma confirm_delete_removes_witness :
  let s := setNodesToDelete
             (Some [mkFileNode "App.tsx" File "/src/App.tsx" None (Some "Hello")])
             (initial sampleTree) in
  projectStructure (after (handleConfirmDelete (fun _ => true) s) s)
  = Some [ mkFileNode "package.json" File "/package.json" None (Some "{}");
           mkFileNode "src" Folder "/src" (Some []) None ].
Proof.
  intros s.
  refine (proj1 (proj2 (confirm_delete_removes (fun _ => true) s
                          [mkFileNode "App.tsx" File "/src/App.tsx" None (Some "Hello")]
                          sampleTree eq_refl _ eq_refl _)));
    [discriminate | now left].
Defined.

(** X10. When the runtime rejects the removal of one of the nodes, having
    accepted those before it, [handleConfirmDelete] throws: the tree, the
    log, the tabs and the nodes awaiting confirmation are as they were,
    while the removals up to the rejected one have been issued. *)
Theorem rejected_removal_aborts_delete
    (runtime : FsCall -> bool) (s : IDEState) (ns1 ns2 : list FileNode)
    (n : FileNode) (t : list FileNode) :
  nodesToDelete s = Some (ns1 ++ n :: ns2) ->
  projectStructure s = Some t ->
  webContainer s = true ->
  Forall (fun m => runtime (FsRm (path m)) = true) ns1 ->
  runtime (FsRm (path n)) = false ->
  handleConfirmDelete runtime s s
  = (None, setFsCalls (fsCalls s ++ map (fun m => FsRm (path m)) (ns1 ++ [n])) s).
Proof.
  intros Hnodes Ht Hwc Hok Hbad.
  assert (Hloop : forall t o a s0,
             webContainer s = true ->
             foldA (ns1 ++ n :: ns2) (confirmStep runtime s) (Some t, o, a) s0
             = (None, setFsCalls (fsCalls s0 ++ map (fun m => FsRm (path m)) (ns1 ++ [n])) s0)).
  { clear Hnodes Ht t. induction Hok as [|m ns1 Hm _ IH]; intros t o a s0 Hw.
    - cbn [app]. rewrite foldA_cons, confirmStep_run, Hw.
      unfold when, fsCall. now rewrite Hbad.
    - cbn [app]. rewrite foldA_cons, confirmStep_run, Hw.
      unfold when, fsCall. rewrite Hm. rewrite IH by exact Hw.
      cbn [fsCalls setFsCalls map]. rewrite <- app_assoc. now destruct s0. }
  unfold handleConfirmDelete. rewrite Hnodes, Ht.
  specialize (Hloop t (openFiles s) (activeFilePath s) s Hwc).
  destruct (ns1 ++ n :: ns2) as [|m0 ms] eqn:E; [destruct ns1; discriminate E|].
  unfold bindA at 1. now rewrite Hloop.
Qed.

Lemma rejected_removal_aborts_delete_witness :
  let s := setWebContainer true
             (setNodesToDelete
                (Some [mkFileNode "App.tsx" File "/src/App.tsx" None (Some "Hello")])
                (initial sampleTree)) in
  handleConfirmDelete (fun _ => false) s s
  = (None, setFsCalls [FsRm "/src/App.tsx"] s).
Proof.
  intros s.
  exact (rejected_removal_aborts_delete (fun _ => false) s [] []
           (mkFileNode "App.tsx" File "/src/App.tsx" None (Some "Hello"))
           sampleTree eq_refl eq_refl eq_refl (List.Forall_nil _) eq_refl).
Defined.

(** *** The core items *)

Lemma request_run (paths : list string) (cl : IDEState) (t : list FileNode)
    (s : IDEState) :
  projectStructure cl = Some t ->
  handleRequestDelete paths cl s
  = if (length (omap (findFileByPath t) paths) =? 0)%nat then (Some tt, s)
    else
      match List.find (fun n => Str.includes protectedPaths (path n))
              (omap (findFileByPath t) paths) with
      | Some protectedItem =>
          (Some tt, addToast ("Core item " +:+ JS.dq +:+ name protectedItem +:+ JS.dq
                              +:+ " cannot be deleted.") warning s)
      | None => (Some tt, setNodesToDelete (Some (omap (findFileByPath t) paths)) s)
      end.
Proof.
  intros Ht. unfold handleRequestDelete. destruct paths as [|p paths]; [reflexivity|].
  rewrite Ht. unfold bindA, defined, ret.
  destruct (omap (findFileByPath t) (p :: paths)) as [|n ns]; [reflexivity|].
  cbn [length Nat.eqb]. now destruct (List.find _ (n :: ns)).
Qed.

Lemma find_empty_path (t : list FileNode) :
  wfTree t = true -> findFileByPath t "" = None.
Proof.
  intros Hwf. apply firstSome_None. apply wfNodes_Forall in Hwf.
  eapply Forall_impl; [exact Hwf|]. intros x Hx. cbv beta in *.
  destruct (wfNode_inv _ _ Hx) as (Hp & _ & _).
  rewrite findNode_unfold, Hp. cbn [String.append String.eqb].
  destruct (type x); [reflexivity|]. destruct (children x); [|reflexivity].
  reflexivity.
Qed.

Lemma no_prefix_of_top (pn w : string) :
  noSlash w -> pn <> "" -> String.prefix (pn +:+ "/") ("/" +:+ w) = false.
Proof.
  intros Hw Hpn. destruct pn as [|c pn]; [now contradiction Hpn|].
  destruct (String.prefix (String c pn +:+ "/") ("/" +:+ w)) eqn:E; [|reflexivity].
  exfalso. cbn [String.append] in E. rewrite prefix_cons in E.
  apply andb_true_iff in E as [_ E]. apply prefix_split in E as [x ->].
  unfold noSlash in Hw. rewrite !has_char_app in Hw. cbn in Hw.
  rewrite orb_true_r in Hw. discriminate Hw.
Qed.

Lemma protected_top (q : string) :
  In q protectedPaths -> exists w, q = "/" +:+ w /\ noSlash w.
Proof.
  intros Hq. repeat (destruct Hq as [<-|Hq]; [eexists; split; reflexivity|]).
  destruct Hq.
Qed.

Lemma omap_In {A B} (f : A -> option B) (l : list A) (y : B) :
  In y (omap f l) <-> exists x, In x l /\ f x = Some y.
Proof.
  rewrite <- list_elem_of_In, list_elem_of_omap. split.
  - intros (x & Hx & Hf). exists x. now rewrite <- list_elem_of_In.
  - intros (x & Hx & Hf). exists x. now rewrite list_elem_of_In.
Qed.

(** X11. In a well-formed tree, a deletion asked for in the explorer and
    then confirmed removes no core item: the request either stages
    nothing, or stages the nodes found at the asked paths, none of them a
    core item, and after the confirmation every core item of the tree is
    found where it was, whatever the runtime does. *)
Theorem confirmed_delete_spares_core
    (runtime : FsCall -> bool) (s : IDEState) (paths : list string)
    (t nodes : list FileNode) :
  projectStructure s = Some t -> wfTree t = true ->
  nodesToDelete s = None ->
  let s1 := after (handleRequestDelete paths s) s in
  nodesToDelete s1 = Some nodes ->
  nodes = omap (findFileByPath t) paths
  /\ Forall (fun n => ~ In (path n) protectedPaths) nodes
  /\ exists t', projectStructure (after (handleConfirmDelete runtime s1) s1) = Some t'
       /\ forall q n, In q protectedPaths -> findFileByPath t q = Some n ->
            exists n', findFileByPath t' q = Some n' /\ sameEntry n' n.
Proof.
  intros Ht Hwf Hnone s1 Hstaged. unfold s1, after in *.
  rewrite (request_run paths s t s Ht) in *.
  destruct (omap (findFileByPath t) paths) as [|n0 ns] eqn:Hnodes;
    [cbn [snd length Nat.eqb] in Hstaged; congruence|].
  cbn [length Nat.eqb] in *.
  destruct (List.find _ (n0 :: ns)) as [item|] eqn:Hfind;
    [cbn [snd nodesToDelete addToast setToasts] in Hstaged; congruence|].
  cbn [snd nodesToDelete setNodesToDelete] in Hstaged. injection Hstaged as <-.
  cbn [snd]. set (nodes := n0 :: ns) in *.
  assert (Hnp : Forall (fun n => ~ In (path n) protectedPaths) nodes).
  { apply List.Forall_forall. intros n Hn Hin.
    pose proof (find_none _ _ Hfind n Hn) as Hf. cbv beta in Hf.
    apply includes_In in Hin. congruence. }
  split; [reflexivity|]. split; [exact Hnp|].
  set (s2 := setNodesToDelete (Some nodes) s).
  assert (Hspare : forall q n, In q protectedPaths -> findFileByPath t q = Some n ->
             exists n', findFileByPath (deleteAll (map path nodes) t) q = Some n'
                        /\ sameEntry n' n).
  { intros q n Hq Hn. apply deleteAll_other; [|exact Hn].
    apply List.Forall_forall. intros pn Hpn.
    apply in_map_iff in Hpn as (m & <- & Hm).
    rewrite List.Forall_forall in Hnp. split.
    - intros ->. now apply (Hnp m Hm).
    - destruct (protected_top q Hq) as (w & -> & Hw).
      apply no_prefix_of_top; [exact Hw|]. intros E.
      assert (Hm' : In m (omap (findFileByPath t) paths)) by (rewrite Hnodes; exact Hm).
      apply omap_In in Hm' as (p & _ & Hp).
      rewrite (findFileByPath_path _ _ _ Hp) in E. subst p.
      rewrite (find_empty_path t Hwf) in Hp. discriminate Hp. }
  unfold handleConfirmDelete.
  change (nodesToDelete s2) with (Some nodes).
  change (projectStructure s2) with (projectStructure s). rewrite Ht.
  unfold nodes at 1. fold nodes. unfold bindA at 1.
  destruct (confirm_loop runtime s2 nodes (Some t) (openFiles s2) (activeFilePath s2) s2)
    as [[log Hlog] Hres].
  destruct (foldA nodes (confirmStep runtime s2)
              (Some t, openFiles s2, activeFilePath s2) s2) as [r s3].
  cbn [fst snd] in Hlog, Hres. subst s3.
  destruct Hres as [->| ->].
  - exists t. split; [exact Ht|]. intros q n _ Hn. exists n.
    split; [exact Hn|apply sameEntry_refl].
  - cbn [option_map]. exists (deleteAll (map path nodes) t).
    split; [reflexivity|exact Hspare].
Qed.

Lemma confirmed_delete_spares_core_witness :
  let s1 := after (handleRequestDelete ["/src/App.tsx"] (initial sampleTree))
              (initial sampleTree) in
  exists t', projectStructure (after (handleConfirmDelete (fun _ => true) s1) s1)
             = Some t'
    /\ forall q n, In q protectedPaths -> findFileByPath sampleTree q = Some n ->
         exists n', findFileByPath t' q = Some n' /\ sameEntry n' n.
Proof.
  intros s1.
  exact (proj2 (proj2
    (confirmed_delete_spares_core (fun _ => true) (initial sampleTree)
       ["/src/App.tsx"] sampleTree
       [mkFileNode "App.tsx" File "/src/App.tsx" None (Some "Hello")]
       eq_refl eq_refl eq_refl eq_refl))).
Defined.

(** X12. Select-all followed by the Delete key stages nothing in a project
    that has a core item: every path of the tree is selected, and the
    request is refused with the warning that names a core item. *)
Theorem select_all_then_delete_is_refused
    (s : IDEState) (t : list FileNode) (q : string) (n : FileNode) :
  projectStructure s = Some t ->
  In q protectedPaths -> findFileByPath t q = Some n ->
  let s1 := after (handleSelectAllNodes s) s in
  selectedNodePaths s1 = getAllPaths t
  /\ exists protectedItem,
       In (path protectedItem) protectedPaths
       /\ findFileByPath t (path protectedItem) = Some protectedItem
       /\ onDeleteKey s1 s1
          = (Some tt, addToast ("Core item " +:+ JS.dq +:+ name protectedItem +:+ JS.dq
                                +:+ " cannot be deleted.") warning s1).
Proof.
  intros Ht Hq Hn s1. unfold s1, after, handleSelectAllNodes. rewrite Ht.
  cbn [bindA defined ret upd snd selectedNodePaths setSelectedNodePaths].
  split; [reflexivity|].
  set (s2 := setSelectedNodePaths (getAllPaths t) s).
  assert (Hin : In q (getAllPaths t)) by (apply found_is_listed; now rewrite Hn).
  unfold onDeleteKey. change (selectedNodePaths s2) with (getAllPaths t).
  assert (Hlen : (0 <? length (getAllPaths t))%nat = true).
  { destruct (getAllPaths t); [destruct Hin|reflexivity]. }
  rewrite Hlen, (request_run (getAllPaths t) s2 t s2 Ht).
  assert (Hnodes : In n (omap (findFileByPath t) (getAllPaths t))).
  { apply omap_In. now exists q. }
  pose proof (findFileByPath_path _ _ _ Hn) as Hpath.
  destruct (List.find (fun m => Str.includes protectedPaths (path m))
              (omap (findFileByPath t) (getAllPaths t))) as [item|] eqn:Hfind.
  - apply find_some in Hfind as [Hitem Hprot]. apply includes_In in Hprot.
    apply omap_In in Hitem as (p & _ & Hp).
    exists item. rewrite (findFileByPath_path _ _ _ Hp) at 2.
    split; [exact Hprot|]. split; [exact Hp|].
    destruct (omap (findFileByPath t) (getAllPaths t)); [destruct Hnodes|reflexivity].
  - exfalso. pose proof (find_none _ _ Hfind n Hnodes) as Hf. cbv beta in Hf.
    rewrite Hpath in Hf. apply includes_In in Hq. congruence.
Qed.

Lemma select_all_then_delete_is_refused_witness :
  selectedNodePaths (after (handleSelectAllNodes (initial sampleTree)) (initial sampleTree))
  = ["/package.json"; "/src"; "/src/App.tsx"].
Proof.
  refine (proj1 (select_all_then_delete_is_refused (initial sampleTree) sampleTree "/src"
                   (mkFileNode "src" Folder "/src"
                      (Some [ mkFileNode "App.tsx" File "/src/App.tsx" None (Some "Hello") ])
                      None)
                   eq_refl _ eq_refl)).
  right. now left.
Defined.

(** *** The active tab is an open tab *)

Lemma open_run (cl : IDEState) (p : string) (s : IDEState) :
  handleOpenFile cl p s
  = match projectStructure cl with
    | None => (None, s)
    | Some t =>
        match findFileByPath t p with
        | Some f =>
            if isFile f
            then (Some tt,
                  setActiveMatch None
                    (setSelectedNodePaths [p]
                       (setActiveFilePath (Some p)
                          (setOpenFiles
                             (if existsb (fun g => String.eqb (path g) p) (openFiles s)
                              then openFiles s else openFiles s ++ [f]) s))))
            else (Some tt, s)
        | None => (Some tt, s)
        end
    end.
Proof.
  unfold handleOpenFile, findIn, bindA, defined, ret.
  destruct (projectStructure cl) as [t|]; [|reflexivity].
  destruct (findFileByPath t p) as [f|]; [|reflexivity].
  now destruct (isFile f).
Qed.

Lemma open_tabsOk (cl : IDEState) (p : string) (s : IDEState) :
  tabsOk s -> tabsOk (after (handleOpenFile cl p) s).
Proof.
  intros Hs. unfold after. rewrite open_run.
  destruct (projectStructure cl) as [t|]; [|exact Hs].
  destruct (findFileByPath t p) as [f|] eqn:Hf; [|exact Hs].
  destruct (isFile f); [|exact Hs].
  unfold tabsOk. cbn [snd activeFilePath openFiles setActiveMatch setSelectedNodePaths
                       setActiveFilePath setOpenFiles].
  destruct (existsb _ (openFiles s)) eqn:Hex.
  - apply existsb_exists in Hex as (g & Hg & Hgp). apply String.eqb_eq in Hgp.
    apply in_map_iff. now exists g.
  - rewrite map_app. apply in_or_app. right. left.
    exact (findFileByPath_path _ _ _ Hf).
Qed.

Lemma last_In {A} (l : list A) (x : A) : last l = Some x -> In x l.
Proof.
  intros H. apply last_Some in H as [l' ->]. apply in_or_app. right. now left.
Qed.

(** X13. The active tab stays one of the open tabs: [handleOpenFile],
    [handleCloseFile], the effect that opens the default file and, when the
    active path is not the empty string, [handleConfirmDelete] keep it so,
    whether they return or throw. *)
Theorem active_tab_stays_open
    (runtime : FsCall -> bool) (cl s : IDEState) (p : string) :
  tabsOk s ->
  tabsOk (after (handleOpenFile cl p) s)
  /\ tabsOk (after (openDefaultFile cl) s)
  /\ tabsOk (after (handleCloseFile s p) s)
  /\ (activeFilePath s <> Some "" -> tabsOk (after (handleConfirmDelete runtime s) s)).
Proof.
  intros Hs. split; [now apply open_tabsOk|]. split; [|split].
  - unfold after, openDefaultFile, findIn, bindA, defined, ret.
    destruct (projectStructure cl) as [t|] eqn:Ht; [|exact Hs].
    destruct ((0 <? length t)%nat && (length (openFiles cl) =? 0)%nat); [|exact Hs].
    destruct (findFileByPath t "/src/App.tsx") as [f|]; [|exact Hs].
    now apply open_tabsOk.
  - unfold after.
    assert (Hdec : activeFilePath s = Some p \/ activeFilePath s <> Some p).
    { destruct (activeFilePath s) as [a|]; [|right; discriminate].
      destruct (String.eqb_spec a p) as [->|Hne]; [now left|right; congruence]. }
    destruct Hdec as [Ha|Ha].
    + destruct (findIndex (fun f => String.eqb (path f) p) (openFiles s)) as [i|] eqn:Hi.
      * destruct (findIndex_Some _ _ _ Hi) as (l1 & x & l2 & Ho & _ & Hx & Hl1).
        apply String.eqb_eq in Hx.
        rewrite (close_active_run s p l1 l2 x Ha Ho Hx Hl1).
        unfold tabsOk. cbn [snd activeFilePath openFiles setActiveFilePath setOpenFiles].
        destruct (last l1) as [y|] eqn:Hl.
        -- apply in_map, in_or_app. left. now apply last_In.
        -- apply last_None in Hl. subst l1. cbn [app].
           now destruct (List.filter _ l2) as [|r rest]; [|left].
      * unfold tabsOk in Hs. rewrite Ha in Hs. exfalso.
        apply in_map_iff in Hs as (f & Hf & Hin).
        pose proof (findIndex_None _ _ Hi) as Hall.
        rewrite List.Forall_forall in Hall. specialize (Hall f Hin).
        rewrite Hf, String.eqb_refl in Hall. discriminate Hall.
    + rewrite (close_other_run s p Ha).
      unfold tabsOk in *. cbn [snd activeFilePath openFiles setOpenFiles].
      destruct (activeFilePath s) as [a|]; [|exact I].
      apply filter_other_in; [congruence|exact Hs].
  - intros Hne. unfold after, handleConfirmDelete.
    destruct (nodesToDelete s) as [[|n0 ns]|]; try exact Hs.
    set (nodes := n0 :: ns). unfold bindA at 1.
    destruct (confirm_loop runtime s nodes (projectStructure s) (openFiles s)
                (activeFilePath s) s) as [[log Hlog] Hres].
    destruct (foldA nodes (confirmStep runtime s)
                (projectStructure s, openFiles s, activeFilePath s) s) as [r s3].
    cbn [fst snd] in Hlog, Hres. subst s3.
    destruct Hres as [->| ->]; [exact Hs|].
    assert (Hinv : match activeAfter nodes (activeFilePath s) with
                   | Some a => In a (map path (openAfter nodes (openFiles s)))
                               /\ Str.truthy a = true
                   | None => True
                   end).
    { unfold tabsOk in Hs. destruct (activeFilePath s) as [a|];
        [|now rewrite activeAfter_None].
      assert (Ha : Str.truthy a = true).
      { unfold Str.truthy. apply negb_true_iff, String.eqb_neq. congruence. }
      rewrite (activeAfter_Some nodes a Ha).
      destruct (existsb _ nodes) eqn:Hex; [exact I|]. split; [|exact Ha].
      apply in_map_iff in Hs as (f & Hf & Hin). apply in_map_iff. exists f.
      split; [exact Hf|]. apply openAfter_In. split; [exact Hin|].
      apply List.Forall_forall. intros n Hn. rewrite Hf.
      destruct (String.prefix (path n) a) eqn:E; [|reflexivity].
      assert (existsb (fun n => String.prefix (path n) a) nodes = true)
        by (apply existsb_exists; now exists n).
      congruence. }
    set (ta := activeAfter nodes (activeFilePath s)) in *.
    set (to := openAfter nodes (openFiles s)) in *.
    cbv beta iota.
    assert (Hfinal : match (if negb (truthyPath ta) && (0 <? length to)%nat
                            then option_map path (last to) else ta) with
                     | Some a => In a (map path to)
                     | None => True
                     end).
    { destruct ta as [a|].
      - destruct Hinv as [Hin Ha]. cbn [truthyPath]. rewrite Ha. exact Hin.
      - cbn [truthyPath negb andb]. destruct (0 <? length to)%nat; [|exact I].
        destruct (last to) as [f|] eqn:Hl; [|exact I].
        cbn [option_map]. apply in_map. now apply last_In. }
    unfold tabsOk. destruct (option_map _ (projectStructure s)) as [t'|].
    + cbn [bindA upd defined ret snd activeFilePath openFiles
           setProjectStructure setHistory setHistoryIndex setOpenFiles
           setActiveFilePath setSelectedNodePaths setHasUnsavedChanges
           setNodesToDelete setToasts setFsCalls addToast pushHistory].
      exact Hfinal.
    + cbn [bindA upd defined throw ret snd activeFilePath openFiles
           setOpenFiles setActiveFilePath setFsCalls].
      exact Hfinal.
Qed.

Lemma active_tab_stays_open_witness :
  tabsOk (after (handleOpenFile (initial sampleTree) "/src/App.tsx") (initial sampleTree)).
Proof.
  exact (proj1 (active_tab_stays_open (fun _ => true) (initial sampleTree)
                  (initial sampleTree) "/src/App.tsx" I)).
Defined.

(** *** The effects on the tabs *)

Lemma close_state (s : IDEState) (p : string) :
  exists a',
    after (handleCloseFile s p) s
    = setOpenFiles (List.filter (fun f => negb (String.eqb (path f) p)) (openFiles s))
        (setActiveFilePath a' s).
Proof.
  unfold after.
  assert (Hdec : activeFilePath s = Some p \/ activeFilePath s <> Some p).
  { destruct (activeFilePath s) as [a|]; [|right; discriminate].
    destruct (String.eqb_spec a p) as [->|Hne]; [now left|right; congruence]. }
  destruct Hdec as [Ha|Ha].
  - destruct (findIndex (fun f => String.eqb (path f) p) (openFiles s)) as [i|] eqn:Hi.
    + destruct (findIndex_Some _ _ _ Hi) as (l1 & x & l2 & Ho & _ & Hx & Hl1).
      apply String.eqb_eq in Hx.
      rewrite (close_active_run s p l1 l2 x Ha Ho Hx Hl1). eexists. cbn [snd].
      rewrite Ho, List.filter_app. cbn [List.filter].
      rewrite Hx, String.eqb_refl. cbn [negb].
      now rewrite (filter_keeps_left p l1 Hl1).
    + rewrite (close_stray_run s p Ha Hi). eexists. cbn [snd].
      now rewrite (filter_keeps_left p _ (findIndex_None _ _ Hi)).
  - rewrite (close_other_run s p Ha). exists (activeFilePath s). cbn [snd].
    now destruct s.
Qed.

(** X14. The last tab cannot be closed for good in a project that has the
    file [/src/App.tsx]: when every open tab has the closed path,
    [handleCloseFile] leaves no tab, and the effect that follows opens
    [/src/App.tsx] and makes it the active and the selected file. *)
Theorem closing_last_tab_reopens_default
    (s : IDEState) (t : list FileNode) (f : FileNode) (p : string) :
  projectStructure s = Some t ->
  findFileByPath t "/src/App.tsx" = Some f -> isFile f = true ->
  Forall (fun g => path g = p) (openFiles s) ->
  let s1 := after (handleCloseFile s p) s in
  let s2 := after (openDefaultFile s1) s1 in
  openFiles s1 = []
  /\ openFiles s2 = [f]
  /\ activeFilePath s2 = Some "/src/App.tsx"
  /\ selectedNodePaths s2 = ["/src/App.tsx"].
Proof.
  intros Ht Hf Hfile Hall s1 s2.
  destruct (close_state s p) as (a' & Hs1). fold s1 in Hs1.
  assert (Hnil : List.filter (fun g => negb (String.eqb (path g) p)) (openFiles s) = []).
  { clear - Hall. induction Hall as [|g l Hg _ IH]; [reflexivity|]. cbn [List.filter].
    rewrite Hg, String.eqb_refl. cbn [negb]. exact IH. }
  rewrite Hnil in Hs1.
  assert (Ho1 : openFiles s1 = []) by now rewrite Hs1.
  assert (Ht1 : projectStructure s1 = Some t) by now rewrite Hs1.
  split; [exact Ho1|].
  assert (Hlen : (0 <? length t)%nat = true).
  { destruct t; [discriminate Hf|reflexivity]. }
  pose proof (findFileByPath_path _ _ _ Hf) as Hpath.
  unfold s2, after, openDefaultFile, findIn, bindA, defined, ret.
  rewrite Ht1, Hlen, Ho1, Hf. cbn [length Nat.eqb andb].
  rewrite open_run, Ht1, Hpath, Hf, Hfile, Ho1. now cbn.
Qed.

Lemma closing_last_tab_reopens_default_witness :
  let app := mkFileNode "App.tsx" File "/src/App.tsx" None (Some "Hello") in
  let s := setActiveFilePath (Some "/src/App.tsx")
             (setOpenFiles [app] (initial sampleTree)) in
  let s1 := after (handleCloseFile s "/src/App.tsx") s in
  openFiles (after (openDefaultFile s1) s1) = [app].
Proof.
  intros app s s1.
  refine (proj1 (proj2 (closing_last_tab_reopens_default s sampleTree app "/src/App.tsx"
                          eq_refl eq_refl eq_refl _))).
  repeat constructor.
Defined.

Lemma omap_fixed {A} (F : A -> option A) (l : list A) :
  Forall (fun x => F x = Some x) l -> omap F l = l.
Proof.
  induction 1 as [|x l Hx _ IH]; [reflexivity|]. cbn. now rewrite Hx, IH.
Qed.

Lemma refresh_run (cl : IDEState) (t : list FileNode) (s : IDEState) :
  projectStructure cl = Some t ->
  refreshOpenFiles cl s
  = (Some tt,
     setOpenFiles (omap (fun openedFile => findFileByPath t (path openedFile))
                     (openFiles s)) s).
Proof.
  intros Ht. unfold refreshOpenFiles. rewrite Ht.
  now destruct (openFiles s).
Qed.

(** X15. The effect that refreshes the tabs when the tree changes leaves,
    in their order, the tabs at whose path the tree has a node, each now
    that node of the tree; a tab at whose path the tree has none is
    dropped; and run again on the same tree it changes nothing. *)
Theorem refresh_keeps_the_nodes_of_the_tree
    (cl s : IDEState) (t : list FileNode) :
  projectStructure cl = Some t ->
  let s' := after (refreshOpenFiles cl) s in
  returned (refreshOpenFiles cl) s = true
  /\ (forall f, In f (openFiles s') -> findFileByPath t (path f) = Some f)
  /\ map path (openFiles s')
     = List.filter (fun p => bool_decide (findFileByPath t p <> None))
         (map path (openFiles s))
  /\ after (refreshOpenFiles cl) s' = s'.
Proof.
  intros Ht s'. unfold s', after, returned. clear s'.
  rewrite !(refresh_run cl t _ Ht). cbn [fst snd openFiles setOpenFiles].
  set (F := fun openedFile => findFileByPath t (path openedFile)).
  assert (Hfix : forall f, In f (omap F (openFiles s)) -> F f = Some f).
  { intros f Hin. apply omap_In in Hin as (g & _ & Hg). unfold F in *.
    now rewrite (findFileByPath_path _ _ _ Hg). }
  split; [reflexivity|]. split; [exact Hfix|]. split.
  - induction (openFiles s) as [|g l IH]; [reflexivity|]. cbn [omap list_omap map List.filter].
    fold (omap F l). unfold F at 1.
    destruct (findFileByPath t (path g)) as [f|] eqn:Hg.
    + rewrite bool_decide_true by discriminate. cbn [map].
      rewrite (findFileByPath_path _ _ _ Hg). f_equal. apply IH.
      intros f' Hf'. apply Hfix. rewrite <- list_elem_of_In in *.
      apply list_elem_of_omap. apply list_elem_of_omap in Hf' as (x & Hx & Hfx).
      exists x. split; [now right|exact Hfx].
    + rewrite bool_decide_false by (intros H; now apply H). apply IH.
      intros f' Hf'. apply Hfix. rewrite <- list_elem_of_In in *.
      apply list_elem_of_omap. apply list_elem_of_omap in Hf' as (x & Hx & Hfx).
      exists x. split; [now right|exact Hfx].
  - rewrite (omap_fixed F) by (apply List.Forall_forall; exact Hfix).
    now destruct s.
Qed.

Lemma refresh_keeps_the_nodes_of_the_tree_witness :
  let s := setOpenFiles [mkFileNode "App.tsx" File "/src/App.tsx" None (Some "old");
                         mkFileNode "gone.ts" File "/gone.ts" None (Some "")]
             (initial sampleTree) in
  map path (openFiles (after (refreshOpenFiles (initial sampleTree)) s))
  = ["/src/App.tsx"].
Proof.
  intros s.
  exact (proj1 (proj2 (proj2
    (refresh_keeps_the_nodes_of_the_tree (initial sampleTree) s sampleTree eq_refl)))).
Defined.

(** *** New nodes and edits *)

Section AddNode.

Variable runtime : FsCall -> bool.
Variable rejection : FsCall -> string.
Variable notJson notIterable : string.

Lemma mirror_run (cl : IDEState) (c : FsCall) (s : IDEState) :
  mirrorResolves runtime cl ->
  when (webContainer cl) (fsCall runtime c) s
  = (Some tt, if webContainer cl then setFsCalls (fsCalls s ++ [c]) s else s).
Proof.
  intros Hm. unfold when, fsCall. destruct (webContainer cl) eqn:Hwc; [|reflexivity].
  destruct Hm as [Hm|Hm]; [congruence|]. now rewrite Hm.
Qed.

(** X16. [handleAddNode], when [addNodeToTree] returns a tree and the
    runtime is absent or accepts the call: the tree is pushed as one entry
    of the log after the runtime call has been issued, and the success
    toast is shown; the tabs, the active file and the selection stay as
    they were, also for a new file, which the handler asks to open but
    looks for in the tree it was created with. *)
Theorem add_node_pushes_and_opens_nothing
    (s : IDEState) (parentPath nodeName : string) (ty : NodeType)
    (t t' : list FileNode) :
  projectStructure s = Some t ->
  mirrorResolves runtime s ->
  addNodeToTree t parentPath nodeName ty = inr t' ->
  let m := handleAddNode runtime rejection notJson notIterable s parentPath nodeName ty in
  let s' := after m s in
  returned m s = true
  /\ projectStructure s' = Some t'
  /\ history s' = JS.slice0 (history s) (historyIndex s + 1) ++ [t']
  /\ historyIndex s' = (JS.len (history s') - 1)%Z
  /\ openFiles s' = openFiles s
  /\ activeFilePath s' = activeFilePath s
  /\ selectedNodePaths s' = selectedNodePaths s
  /\ hasUnsavedChanges s' = true
  /\ toasts s' = toasts s
                 ++ [mkToast ((match ty with File => "File" | Folder => "Folder" end)
                              +:+ " '" +:+ nodeName +:+ "' created successfully.")
                       success]
  /\ fsCalls s' = fsCalls s ++ (if webContainer s
                                then [creationCall parentPath nodeName ty] else []).
Proof.
  intros Ht Hm Hadd m s'. unfold s', m, after, returned. clear s' m.
  assert (Hq : findFileByPath t (newNodePathOf parentPath nodeName) = None).
  { unfold addNodeToTree in Hadd.
    now destruct (findFileByPath t (newNodePathOf parentPath nodeName)). }
  assert (Hopen : forall s0,
             when (NodeType_eqb ty File)
               (handleOpenFile s (newNodePathOf parentPath nodeName)) s0
             = (Some tt, s0)).
  { intros s0. unfold when. destruct (NodeType_eqb ty File); [|reflexivity].
    now rewrite open_run, Ht, Hq. }
  assert (E : handleAddNode runtime rejection notJson notIterable s parentPath
                nodeName ty s
              = (Some tt,
                 setHasUnsavedChanges true
                   (addToast ((match ty with File => "File" | Folder => "Folder" end)
                              +:+ " '" +:+ nodeName +:+ "' created successfully.")
                      success
                      (pushHistory s t'
                         (if webContainer s
                          then setFsCalls
                                 (fsCalls s ++ [creationCall parentPath nodeName ty]) s
                          else s))))).
  { unfold handleAddNode, orToast.
    cbv zeta.
    rewrite (mirror_run s _ s Hm), Ht. cbn [defined ret]. rewrite Hadd.
    unfold bindA at 1. cbn [upd]. now rewrite Hopen. }
  rewrite E. clear E.
  destruct (webContainer s);
    cbn [fst snd projectStructure history historyIndex openFiles activeFilePath
         selectedNodePaths hasUnsavedChanges toasts fsCalls
         setProjectStructure setHistory setHistoryIndex setHasUnsavedChanges
         setToasts setFsCalls addToast pushHistory];
    rewrite ?app_nil_r; repeat split; reflexivity.
Qed.



(** X17. [handleAddNode] catches what goes wrong and shows its message as
    an error toast, leaving the tree, the log and the tabs as they were:
    when the runtime rejects the call nothing else happens; when
    [addNodeToTree] throws, for a name already taken or a parent that is no
    folder, the runtime call has already been issued and accepted. In a
    well-formed tree without duplicate names it throws for a name already
    taken whenever the parent has a child of that name. *)
Theorem add_node_reports_failure
    (s : IDEState) (parentPath nodeName : string) (ty : NodeType)
    (t : list FileNode) :
  projectStructure s = Some t ->
  let m := handleAddNode runtime rejection notJson notIterable s parentPath nodeName ty in
  let call := creationCall parentPath nodeName ty in
  (webContainer s = true -> runtime call = false ->
   m s = (Some tt, addToast (rejection call) error (setFsCalls (fsCalls s ++ [call]) s)))
  /\ (forall e, addNodeToTree t parentPath nodeName ty = inl e ->
        (webContainer s = true -> runtime call = true ->
         m s = (Some tt, addToast (messageOf e) error
                           (setFsCalls (fsCalls s ++ [call]) s)))
        /\ (webContainer s = false ->
            m s = (Some tt, addToast (messageOf e) error s)))
  /\ (wfTree t = true -> HeapModel.uniqueTree t = true ->
      parentPath = "/" \/ canonical parentPath = true -> noSlash nodeName ->
      HeapModel.siblingExists t parentPath nodeName = true ->
      addNodeToTree t parentPath nodeName ty = inl (AlreadyExists ty nodeName)).
Proof.
  intros Ht m call. unfold m, call. clear m call.
  unfold handleAddNode, orToast.
  cbv zeta.
  split; [|split].
  - intros Hwc Hbad. unfold when, fsCall. now rewrite Hwc, Hbad.
  - intros e He. rewrite Ht. cbn [defined ret]. rewrite He. split.
    + intros Hwc Hok. unfold when, fsCall. now rewrite Hwc, Hok.
    + intros Hwc. unfold when. now rewrite Hwc.
  - intros Hwf Hu Hpp Hnm Hsib.
    apply (find_new_path t parentPath nodeName Hwf Hu Hpp Hnm) in Hsib.
    unfold addNodeToTree.
    destruct (findFileByPath t (newNodePathOf parentPath nodeName));
      [reflexivity|now contradiction Hsib].
Qed.



End AddNode.

Lemma add_node_pushes_and_opens_nothing_witness :
  let m := handleAddNode (fun _ => true) (fun _ => "") "" "" (initial sampleTree)
             "/src" "main.tsx" File in
  openFiles (after m (initial sampleTree)) = [].
Proof.
  intros m.
  refine (proj1 (proj2 (proj2 (proj2 (proj2
    (add_node_pushes_and_opens_nothing (fun _ => true) (fun _ => "") "" "" (initial sampleTree)
       "/src" "main.tsx" File sampleTree _ eq_refl _ eq_refl))))));
    now left.
Defined.

Lemma add_node_reports_failure_witness :
  let s := setWebContainer true (initial sampleTree) in
  handleAddNode (fun _ => true) (fun _ => "") "" "" s "/src" "App.tsx" File s
  = (Some tt,
     addToast ("File with name " +:+ JS.dq +:+ "App.tsx" +:+ JS.dq +:+ " already exists.")
       error (setFsCalls [FsWriteFile "/src/App.tsx" ""] s)).
Proof.
  intros s.
  exact (proj1 (proj1 (proj2 (add_node_reports_failure (fun _ => true) (fun _ => "")
                                "" "" s "/src" "App.tsx" File sampleTree eq_refl))
                 (AlreadyExists File "App.tsx") eq_refl) eq_refl eq_refl).
Defined.

Lemma undo_reads (a : IDEState) :
  (0 < historyIndex a)%Z ->
  projectStructure (handleUndo a) = JS.index (history a) (historyIndex a - 1)
  /\ historyIndex (handleUndo a) = (historyIndex a - 1)%Z.
Proof.
  intros H. unfold handleUndo. destruct (Z.leb_spec (historyIndex a) 0); [lia|].
  split; reflexivity.
Qed.

Lemma content_after_upsert (t : list FileNode) (p c : string) :
  wfTree t = true -> canonical p = true ->
  exists n, findFileByPath (addOrUpdateFileByPath t p c) p = Some n
            /\ content n = Some c.
Proof.
  intros Hwf Hcan. destruct (find_after_upsert t p c Hwf Hcan) as (n & Hn & Hc).
  exists n. split; [exact Hn|]. destruct Hc as [->|(m & _ & ->)]; [|reflexivity].
  unfold createdFile. now destruct (pop (pathSegments p)) as [[? ?]|].
Qed.

(** X18. [handleFileContentChange] drops the edit while the assistant is
    working: nothing changes and no tree is returned. Otherwise, when the
    runtime is not ready or accepts the write, it returns and pushes the
    tree with the file written, in which a canonical path of a well-formed
    tree holds the new content, and one undo brings back the tree edited;
    when the runtime rejects the write it throws before the tree or the log
    is touched. *)
Theorem edit_is_pushed_unless_assistant_works
    (runtime : FsCall -> bool) (s : IDEState) (wcReady : bool) (p c : string)
    (t : list FileNode) :
  projectStructure s = Some t ->
  let m := handleFileContentChange runtime s wcReady p c in
  let t' := addOrUpdateFileByPath t p c in
  (isLoadingAI s = true -> m s = (Some None, s))
  /\ (isLoadingAI s = false ->
      webContainer s && wcReady = false \/ runtime (FsWriteFile p c) = true ->
      fst (m s) = Some (Some t')
      /\ projectStructure (after m s) = Some t'
      /\ history (after m s) = JS.slice0 (history s) (historyIndex s + 1) ++ [t']
      /\ hasUnsavedChanges (after m s) = true
      /\ fsCalls (after m s)
         = fsCalls s ++ (if webContainer s && wcReady then [FsWriteFile p c] else [])
      /\ (wfTree t = true -> canonical p = true ->
          exists n, findFileByPath t' p = Some n /\ content n = Some c)
      /\ (consistent s ->
          projectStructure (handleUndo (after m s)) = Some t
          /\ historyIndex (handleUndo (after m s)) = historyIndex s))
  /\ (isLoadingAI s = false ->
      webContainer s && wcReady = true -> runtime (FsWriteFile p c) = false ->
      m s = (None, setFsCalls (fsCalls s ++ [FsWriteFile p c]) s)).
Proof.
  intros Ht m t'. unfold m. clear m. unfold handleFileContentChange.
  split; [intros ->; reflexivity|]. split.
  - intros -> Hrt.
    assert (E : (let* _ := when (webContainer s && wcReady)
                             (fsCall runtime (FsWriteFile p c)) in
                 let* t0 := defined (projectStructure s) in
                 upd (pushHistory s (addOrUpdateFileByPath t0 p c)) ;;
                 upd (setHasUnsavedChanges true) ;;
                 ret (Some (addOrUpdateFileByPath t0 p c)))%act s
                = (Some (Some t'),
                   setHasUnsavedChanges true
                     (pushHistory s t'
                        (if webContainer s && wcReady
                         then setFsCalls (fsCalls s ++ [FsWriteFile p c]) s else s)))).
    { unfold bindA at 1. unfold when, fsCall.
      destruct (webContainer s && wcReady).
      - destruct Hrt as [Hrt|Hrt]; [discriminate Hrt|]. rewrite Hrt.
        now rewrite Ht.
      - now rewrite Ht. }
    unfold after. cbv iota. rewrite E. clear E. cbn [fst snd].
    set (s1 := if webContainer s && wcReady
               then setFsCalls (fsCalls s ++ [FsWriteFile p c]) s else s).
    assert (Hcalls : fsCalls s1 = fsCalls s ++ (if webContainer s && wcReady
                                                then [FsWriteFile p c] else [])).
    { unfold s1. destruct (webContainer s && wcReady); [reflexivity|].
      now rewrite app_nil_r. }
    cbn [projectStructure history historyIndex hasUnsavedChanges fsCalls
         setProjectStructure setHistory setHistoryIndex setHasUnsavedChanges
         pushHistory].
    split; [reflexivity|]. split; [reflexivity|]. split; [reflexivity|].
    split; [reflexivity|]. split; [exact Hcalls|].
    split; [apply content_after_upsert|].
    intros Hs. destruct (push_fields t' s Hs) as [Hh Hi]. pose proof Hs as [Hr Hp].
    set (s2 := setHasUnsavedChanges true (pushHistory s t' s1)).
    assert (Hh2 : history s2 = history (push t' s)) by reflexivity.
    assert (Hi2 : historyIndex s2 = historyIndex (push t' s)) by reflexivity.
    destruct (undo_reads s2 ltac:(rewrite Hi2, Hi; lia)) as [Hp2 Hidx2].
    rewrite Hp2, Hidx2, Hh2, Hi2, Hi, Hh.
    replace (historyIndex s + 1 - 1)%Z with (historyIndex s) by lia.
    split; [|reflexivity].
    rewrite (index_firstn _ (historyIndex s)) by lia.
    rewrite firstn_app, firstn_firstn, Nat.min_id, length_firstn.
    unfold JS.len in Hr.
    replace (S (Z.to_nat (historyIndex s))
             - Nat.min (S (Z.to_nat (historyIndex s))) (length (history s)))%nat
      with 0%nat by lia.
    cbn [firstn]. rewrite app_nil_r, <- index_firstn by lia. now rewrite <- Hp.
  - intros -> Hwc Hbad. cbv iota. unfold bindA at 1. unfold when, fsCall.
    now rewrite Hwc, Hbad.
Qed.

Lemma edit_is_pushed_unless_assistant_works_witness :
  let s := setIsLoadingAI true (initial sampleTree) in
  handleFileContentChange (fun _ => true) s true "/src/App.tsx" "typed" s
  = (Some None, s).
Proof.
  intros s.
  exact (proj1 (edit_is_pushed_unless_assistant_works (fun _ => true) s true
                  "/src/App.tsx" "typed" sampleTree eq_refl) eq_refl).
Defined.

(** *** A node created from the explorer *)

Lemma split_last (w : string) : noSlash w -> Str.split "/" w = [w].
Proof.
  unfold noSlash. induction w as [|c w IH]; [reflexivity|]. simpl.
  destruct (Ascii.eqb c "/"); [discriminate|]. intros Hw. now rewrite (IH Hw).
Qed.

Lemma split_seg (w r : string) :
  noSlash w -> Str.split "/" (w +:+ String "/" r) = w :: Str.split "/" r.
Proof.
  unfold noSlash. induction w as [|c w IH]; [reflexivity|]. simpl.
  destruct (Ascii.eqb c "/"); [discriminate|]. intros Hw. now rewrite (IH Hw).
Qed.

Lemma split_segs (rest : list string) :
  forall w, Forall noSlash (w :: rest) ->
            Str.split "/" (w +:+ joinPath rest) = w :: rest.
Proof.
  induction rest as [|w2 rest IH]; intros w Hall.
  - cbn [joinPath]. rewrite sapp_nil_r. apply split_last. now inversion Hall.
  - inversion Hall as [|? ? Hw Hrest]; subst. cbn [joinPath].
    change ("/" +:+ w2 +:+ joinPath rest) with (String "/" (w2 +:+ joinPath rest)).
    rewrite (split_seg _ _ Hw). now rewrite (IH w2 Hrest).
Qed.

Lemma pathSegments_joinPath (parts : list string) :
  Forall noSlash parts -> Forall (fun w => w <> "") parts ->
  pathSegments (joinPath parts) = parts.
Proof.
  intros Hn He. destruct parts as [|w rest]; [reflexivity|].
  unfold pathSegments. cbn [joinPath].
  change ("/" +:+ w +:+ joinPath rest) with (String "/" (w +:+ joinPath rest)).
  cbn [Str.split]. change (Ascii.eqb "/" "/") with true. cbv iota.
  rewrite (split_segs rest w Hn).
  change (List.filter Str.truthy ("" :: w :: rest))
    with (List.filter Str.truthy (w :: rest)).
  clear Hn. induction He as [|x l Hx _ IH]; [reflexivity|]. cbn [List.filter].
  apply String.eqb_neq in Hx. unfold Str.truthy at 1. rewrite Hx. cbn [negb].
  now rewrite IH.
Qed.

Lemma segments_nonempty (p : string) : Forall (fun w => w <> "") (pathSegments p).
Proof.
  apply List.Forall_forall. intros w Hw. unfold pathSegments in Hw.
  apply List.filter_In in Hw as [_ Hw]. unfold Str.truthy in Hw.
  now apply negb_true_iff, String.eqb_neq in Hw.
Qed.

Lemma canonical_joinPath (parts : list string) :
  parts <> [] -> Forall noSlash parts -> Forall (fun w => w <> "") parts ->
  canonical (joinPath parts) = true.
Proof.
  intros Hne Hn He. unfold canonical. rewrite (pathSegments_joinPath parts Hn He).
  rewrite String.eqb_refl. now destruct parts.
Qed.

Lemma lastIndexOf_None (f : string) : noSlash f -> Str.lastIndexOf "/" f = None.
Proof.
  unfold noSlash. induction f as [|c f IH]; [reflexivity|]. simpl.
  destruct (Ascii.eqb c "/"); [discriminate|]. intros Hf. now rewrite (IH Hf).
Qed.

Lemma lastIndexOf_join (a f : string) :
  noSlash f -> Str.lastIndexOf "/" (a +:+ String "/" f) = Some (String.length a).
Proof.
  intros Hf. induction a as [|c a IH].
  - cbn [String.append Str.lastIndexOf]. rewrite (lastIndexOf_None f Hf).
    reflexivity.
  - cbn [String.append Str.lastIndexOf String.length]. now rewrite IH.
Qed.

Lemma substring_left (a b : string) : String.substring 0 (String.length a) (a +:+ b) = a.
Proof.
  induction a as [|c a IH]; [now destruct b|]. cbn. now rewrite IH.
Qed.

Lemma beforeLast_join (a f : string) :
  noSlash f -> Str.beforeLast "/" (a +:+ "/" +:+ f) = a.
Proof.
  intros Hf. unfold Str.beforeLast.
  change (a +:+ "/" +:+ f) with (a +:+ String "/" f).
  rewrite (lastIndexOf_join a f Hf). apply substring_left.
Qed.

Lemma has_char_trimStart (c : ascii) (s : string) :
  Str.has_char c s = false -> Str.has_char c (trimStart s) = false.
Proof.
  induction s as [|d s IH]; [reflexivity|]. cbn [trimStart].
  destruct (JS.isSpace d); [|auto]. rewrite has_char_cons.
  intros H. apply orb_false_iff in H as [_ H]. auto.
Qed.

Lemma has_char_trimEnd (c : ascii) (s : string) :
  Str.has_char c s = false -> Str.has_char c (trimEnd s) = false.
Proof.
  induction s as [|d s IH]; [reflexivity|]. rewrite has_char_cons.
  intros H. apply orb_false_iff in H as [Hd H]. specialize (IH H).
  cbn [trimEnd]. destruct (trimEnd s) as [|e r].
  - destruct (JS.isSpace d); [reflexivity|]. rewrite has_char_cons, Hd. reflexivity.
  - rewrite has_char_cons, Hd. exact IH.
Qed.

Lemma submit_accepts (typed nm : string) :
  handleSubmit typed = Some nm -> noSlash nm /\ nm <> "" /\ nm = trim typed.
Proof.
  unfold handleSubmit. destruct (Str.truthy (trim typed)) eqn:Ht; [|discriminate].
  destruct (Str.has_char "/" typed) eqn:Hs; [discriminate|]. intros [= <-].
  split; [|split; [|reflexivity]].
  - unfold noSlash, trim. now apply has_char_trimEnd, has_char_trimStart.
  - unfold Str.truthy in Ht. now apply negb_true_iff, String.eqb_neq in Ht.
Qed.

(** The folder above a node found at a canonical path, in a well-formed
    tree without duplicate names. *)
Lemma parent_of_found (t : list FileNode) (p : string) (n : FileNode) :
  wfTree t = true -> HeapModel.uniqueTree t = true -> canonical p = true ->
  findFileByPath t p = Some n ->
  Explorer.parentOrRoot p = "/"
  \/ (canonical (Explorer.parentOrRoot p) = true
      /\ exists folder, findFileByPath t (Explorer.parentOrRoot p) = Some folder
                        /\ isFolder folder = true).
Proof.
  intros Hwf Hu Hcan Hn.
  destruct (canonical_inv p Hcan) as (parts & f & Hpop & E & Hparts & Hf).
  pose proof (pop_Some _ _ _ Hpop) as Hseg.
  pose proof (segments_nonempty p) as Hne. rewrite Hseg in Hne.
  apply Forall_app in Hne as [Hne _].
  assert (Ep : p = joinPath parts +:+ "/" +:+ f).
  { rewrite E, joinPath_app. cbn [joinPath]. now rewrite sapp_nil_r. }
  assert (Hb : Str.beforeLast "/" p = joinPath parts).
  { rewrite Ep at 1. apply beforeLast_join, Hf. }
  unfold Explorer.parentOrRoot. rewrite !Hb.
  destruct parts as [|w parts]; [now left|]. right.
  change (Str.truthy (joinPath (w :: parts))) with true. cbv iota.
  split; [now apply canonical_joinPath|].
  unfold HeapModel.uniqueTree in Hu. apply andb_true_iff in Hu as [Hd Hall].
  pose proof (find_child (w :: parts) f "" t ltac:(discriminate) Hparts Hf Hwf Hd Hall)
    as Hchild.
  change ("" +:+ ?y) with y in Hchild. rewrite <- Ep, Hn in Hchild.
  unfold namedIn, childrenAt in Hchild.
  destruct (findFileByPath t (joinPath (w :: parts))) as [folder|]; [|discriminate Hchild].
  exists folder. split; [reflexivity|].
  now destruct (isFolder folder).
Qed.

(** The path of a node shown below a well-formed node goes through the
    name of that node. *)
Lemma rendered_path (x : FileNode) :
  forall P node, wfNode P x = true -> In node (FileNodeComponent x) ->
    exists r, rest r /\ path node = P +:+ "/" +:+ name x +:+ r.
Proof.
  induction x as [x IH] using FileNode_tree_ind. unfold childrenOrEmpty in IH.
  intros P node Hwf Hin. destruct (wfNode_inv _ _ Hwf) as (Hp & Hn & Hcs).
  destruct x as [nm ty pa cs co].
  cbn [path type children FileNodeComponent childrenOrEmpty name] in *.
  destruct Hin as [<-|Hin].
  - exists "". split; [now left|]. cbn [path]. now rewrite sapp_nil_r.
  - destruct ty; [contradiction|]. destruct cs as [cs|]; [|contradiction].
    apply in_flat_map in Hin as (c & Hc & Hnode).
    rewrite List.Forall_forall in IH. apply wfNodes_Forall in Hcs.
    rewrite List.Forall_forall in Hcs.
    destruct (IH c Hc pa node (Hcs c Hc) Hnode) as (r & Hr & E).
    exists (String "/" (name c +:+ r)). split; [right; eauto|].
    rewrite E, Hp, !sapp_assoc. reflexivity.
Qed.

Lemma named_once (seg : string) (l1 l2 : list FileNode) (x c : FileNode) :
  Forall (fun y => name y <> seg) l1 -> Forall (fun y => name y <> seg) l2 ->
  In c (l1 ++ x :: l2) -> name c = seg -> c = x.
Proof.
  intros H1 H2 Hin Hc. rewrite List.Forall_forall in H1, H2.
  apply in_app_or in Hin as [Hin|[->|Hin]]; [|reflexivity|].
  - now destruct (H1 c Hin).
  - now destruct (H2 c Hin).
Qed.

Lemma find_rendered_level (P : string) (nodes : list FileNode) (node : FileNode) :
  wfNodes P nodes = true -> distinct (map name nodes) = true ->
  Forall (fun x => In node (FileNodeComponent x) -> findNode (path node) x = Some node)
    nodes ->
  In node (flat_map FileNodeComponent nodes) ->
  findFileByPath nodes (path node) = Some node.
Proof.
  intros Hwf Hd Hall Hin. apply in_flat_map in Hin as (c & Hc & Hnode).
  pose proof Hwf as Hwf'. apply wfNodes_Forall in Hwf'.
  rewrite List.Forall_forall in Hwf', Hall.
  destruct (rendered_path c P node (Hwf' c Hc) Hnode) as (r & Hr & E).
  destruct (wfNode_inv _ _ (Hwf' c Hc)) as (_ & Hn & _).
  destruct (level_split (name c) nodes Hd) as [Hno|(l1 & x & l2 & -> & Hx & H1 & H2)].
  - rewrite List.Forall_forall in Hno. now destruct (Hno c Hc).
  - assert (c = x) by exact (named_once (name c) l1 l2 x c H1 H2 Hc eq_refl). subst x.
    rewrite E at 1. rewrite (find_through P (name c) r l1 l2 c Hwf Hn Hr H1 H2).
    rewrite <- E. now apply Hall.
Qed.

Lemma findNode_rendered (x : FileNode) :
  forall P node, wfNode P x = true -> uniqueNames x = true ->
    In node (FileNodeComponent x) -> findNode (path node) x = Some node.
Proof.
  induction x as [x IH] using FileNode_tree_ind.
  intros P node Hwf Hu Hin. destruct (wfNode_inv _ _ Hwf) as (Hp & Hn & Hcs).
  assert (Hcases : node = x
                   \/ exists cs, type x = Folder /\ children x = Some cs
                                 /\ In node (flat_map FileNodeComponent cs)).
  { destruct x as [nm ty pa cs co]. cbn [FileNodeComponent type children] in *.
    destruct Hin as [<-|Hin]; [now left|]. right.
    destruct ty; [contradiction|]. destruct cs as [cs|]; [|contradiction]. eauto. }
  destruct Hcases as [->|(cs & Hty & Hch & Hbelow)].
  - rewrite findNode_unfold. now rewrite String.eqb_refl.
  - destruct (uniqueNames_inv x cs Hu Hch) as [Hd Hall].
    unfold childrenOrEmpty in IH, Hcs. rewrite Hch in IH, Hcs.
    assert (Hfound : findFileByPath cs (path node) = Some node).
    { apply (find_rendered_level (path x)); [exact Hcs|exact Hd| |exact Hbelow].
      apply List.Forall_forall. intros c Hc Hnode.
      rewrite List.Forall_forall in IH. apply wfNodes_Forall in Hcs.
      rewrite List.Forall_forall in Hcs. rewrite forallb_forall in Hall.
      exact (IH c Hc (path x) node (Hcs c Hc) (Hall c Hc) Hnode). }
    apply in_flat_map in Hbelow as (c & Hc & Hnode).
    apply wfNodes_Forall in Hcs. rewrite List.Forall_forall in Hcs.
    destruct (rendered_path c (path x) node (Hcs c Hc) Hnode) as (r & Hr & E).
    assert (E' : path node = P +:+ "/" +:+ name x +:+ String "/" (name c +:+ r)).
    { rewrite E, Hp, !sapp_assoc. reflexivity. }
    rewrite E' at 1.
    rewrite (findNode_inner P (name x) x Hp Hn (name c +:+ r) eq_refl).
    rewrite Hty, Hch, <- E'. exact Hfound.
Qed.

(** A node the explorer shows is the node found at its path, in a
    well-formed tree without duplicate names. *)
Lemma rendered_is_found (t : list FileNode) (node : FileNode) :
  wfTree t = true -> HeapModel.uniqueTree t = true -> In node (FileTree t) ->
  findFileByPath t (path node) = Some node.
Proof.
  intros Hwf Hu Hin. unfold HeapModel.uniqueTree in Hu.
  apply andb_true_iff in Hu as [Hd Hall].
  apply (find_rendered_level ""); [exact Hwf|exact Hd| |exact Hin].
  apply List.Forall_forall. intros c Hc Hnode.
  apply wfNodes_Forall in Hwf. rewrite List.Forall_forall in Hwf.
  rewrite forallb_forall in Hall.
  exact (findNode_rendered c "" node (Hwf c Hc) (Hall c Hc) Hnode).
Qed.

(** X19. Creating a node from the context menu of the explorer never
    fails for want of a parent, in a well-formed tree without duplicate
    names, for a node the explorer shows whose path is canonical: the
    [New File] and [New Folder] actions of the menu opened on the node keep
    for parent the path of the node when it is a folder, where the tree has
    that very node, and else what comes before the last slash of its path,
    or [/]; that parent is [/] or the canonical path of a folder of the
    tree; the name the input accepts is not empty and has no slash;
    [handleCommitCreation] passes them to [onAddNode]; and [addNodeToTree]
    called with them on that tree can only throw because the parent has a
    child of that name. *)
Theorem explorer_creation_finds_its_parent
    (onAddNode : string -> string -> NodeType -> Act unit)
    (t : list FileNode) (node : FileNode) (typed nm : string) (ty : NodeType) :
  wfTree t = true -> HeapModel.uniqueTree t = true ->
  In node (FileTree t) -> canonical (path node) = true ->
  handleSubmit typed = Some nm ->
  let creatingNodeInfo := newNodeAction node ty in
  let parentPath := fst creatingNodeInfo in
  handleCommitCreation onAddNode (Some creatingNodeInfo) nm = onAddNode parentPath nm ty
  /\ (isFolder node = true ->
      parentPath = path node /\ findFileByPath t parentPath = Some node)
  /\ (parentPath = "/"
      \/ (canonical parentPath = true
          /\ exists folder, findFileByPath t parentPath = Some folder
                            /\ isFolder folder = true))
  /\ noSlash nm /\ nm <> ""
  /\ forall e, addNodeToTree t parentPath nm ty = inl e ->
               e = AlreadyExists ty nm
               /\ HeapModel.siblingExists t parentPath nm = true.
Proof.
  intros Hwf Hu Hin Hcan Hsub creatingNodeInfo parentPath.
  destruct (submit_accepts typed nm Hsub) as (Hnm & Hne & _).
  pose proof (rendered_is_found t node Hwf Hu Hin) as Hfound.
  assert (Hpp : parentPath = "/"
                \/ (canonical parentPath = true
                    /\ exists folder, findFileByPath t parentPath = Some folder
                                      /\ isFolder folder = true)).
  { unfold parentPath, creatingNodeInfo, newNodeAction. cbn [fst].
    destruct (isFolder node) eqn:Hfolder.
    - right. split; [exact Hcan|]. now exists node.
    - destruct (parent_of_found t (path node) node Hwf Hu Hcan Hfound) as [->|H]; auto. }
  split; [reflexivity|].
  split.
  { intros Hfolder. unfold parentPath, creatingNodeInfo, newNodeAction.
    rewrite Hfolder. cbn [fst]. split; [reflexivity|exact Hfound]. }
  split; [exact Hpp|]. split; [exact Hnm|]. split; [exact Hne|].
  intros e He.
  assert (Hpc : parentPath = "/" \/ canonical parentPath = true)
    by (destruct Hpp as [->|[Hc _]]; auto).
  pose proof (find_new_path t parentPath nm Hwf Hu Hpc Hnm) as Hiff.
  unfold addNodeToTree in He.
  destruct (findFileByPath t (newNodePathOf parentPath nm)) as [old|] eqn:Hq.
  - injection He as <-. split; [reflexivity|]. apply Hiff. discriminate.
  - exfalso. destruct Hpp as [->|(Hc & folder & Hfolder & Hisf)]; [discriminate He|].
    destruct (String.eqb parentPath "/"); [discriminate He|].
    rewrite Hfolder, Hisf in He.
    destruct (update_exists parentPath
                (pushChild (newNode nm ty (newNodePathOf parentPath nm))) t)
      as (t' & Hup); [now rewrite Hfolder|].
    rewrite Hup in He. discriminate He.
Qed.

Lemma explorer_creation_finds_its_parent_witness :
  let node := mkFileNode "App.tsx" File "/src/App.tsx" None (Some "Hello") in
  let parentPath := fst (newNodeAction node Folder) in
  parentPath = "/"
  \/ (canonical parentPath = true
      /\ exists folder, findFileByPath sampleTree parentPath = Some folder
                        /\ isFolder folder = true).
Proof.
  intros node parentPath.
  exact (proj1 (proj2 (proj2
           (explorer_creation_finds_its_parent (fun _ _ _ => ret tt) sampleTree node
              " components " "components" Folder eq_refl eq_refl
              (or_intror (or_intror (or_introl eq_refl))) eq_refl eq_refl)))).
Defined.

(** *** The selection *)

Lemma NoDup_filter_ne (p : string) (l : list string) :
  List.NoDup l -> List.NoDup (List.filter (fun q => negb (String.eqb q p)) l).
Proof.
  induction 1 as [|x l Hx _ IH]; [constructor|]. cbn [List.filter].
  destruct (negb (String.eqb x p)); [|exact IH].
  constructor; [|exact IH]. intros Hin. apply List.filter_In in Hin as [Hin _].
  now apply Hx.
Qed.

(** X20. A click with the toggle key adds the path to a selection that has
    it not, at the end, and removes it from one that has it; the other
    paths stay selected, in their order, and a selection without
    duplicates stays so. A plain click selects the path alone. *)
Theorem toggle_flips_one_path (s : IDEState) (p : string) :
  let s1 := after (handleSelectNodes p true) s in
  let prev := selectedNodePaths s in
  selectedNodePaths (after (handleSelectNodes p false) s) = [p]
  /\ (In p prev -> selectedNodePaths s1
                   = List.filter (fun q => negb (String.eqb q p)) prev)
  /\ (~ In p prev -> selectedNodePaths s1 = prev ++ [p])
  /\ (In p (selectedNodePaths s1) <-> ~ In p prev)
  /\ (forall q, q <> p -> (In q (selectedNodePaths s1) <-> In q prev))
  /\ (List.NoDup prev -> List.NoDup (selectedNodePaths s1)).
Proof.
  intros s1 prev. unfold s1, after, handleSelectNodes, upd.
  cbn [snd selectedNodePaths setSelectedNodePaths negb]. fold prev. clear s1.
  split; [reflexivity|].
  destruct (Str.includes prev p) eqn:Hin.
  - apply includes_In in Hin.
    split; [reflexivity|]. split; [intros H; now contradiction H|]. split.
    + split; [|intros H; now contradiction H]. intros H.
      apply List.filter_In in H as [_ H]. now rewrite String.eqb_refl in H.
    + split.
      * intros q Hq. rewrite List.filter_In, negb_true_iff, String.eqb_neq. tauto.
      * apply NoDup_filter_ne.
  - assert (Hnot : ~ In p prev).
    { intros H. apply includes_In in H. congruence. }
    split; [intros H; now contradiction Hnot|]. split; [reflexivity|]. split.
    + split; [intros _; exact Hnot|]. intros _. apply in_or_app. right. now left.
    + split.
      * intros q Hq. rewrite in_app_iff. cbn [In]. split; [|tauto].
        intros [H|[H|[]]]; [exact H|]. now contradiction Hq.
      * intros Hnd. apply NoDup_ListNoDup. apply NoDup_ListNoDup in Hnd.
        apply (proj2 (NoDup_app prev [p])). split; [exact Hnd|]. split.
        -- intros x Hx Hx'. apply list_elem_of_In in Hx.
           apply list_elem_of_In in Hx' as [->|[]]. now apply Hnot.
        -- apply NoDup_singleton.
Qed.

Lemma toggle_flips_one_path_witness :
  let s := setSelectedNodePaths ["/a"; "/b"] (initial []) in
  selectedNodePaths (after (handleSelectNodes "/a" true) s) = ["/b"].
Proof.
  intros s. refine (proj1 (proj2 (toggle_flips_one_path s "/a")) _). now left.
Defined.

End WorkbenchFacts.

(** ** The assistant at work *)

Module PromptFacts.

Import Tree Model Utils History Dispatcher Workbench.
Import StrFacts TreeFacts HistoryFacts DispatcherFacts StoreFacts WorkbenchFacts.

(** *** The busy flag *)

Lemma keepsBusy_ret {A} (a : A) : keepsBusy (ret a).
Proof. intros s. reflexivity. Qed.

Lemma keepsBusy_throw {A} : keepsBusy (@throw A).
Proof. intros s. reflexivity. Qed.

Lemma keepsBusy_defined {A} (o : option A) : keepsBusy (defined o).
Proof. destruct o; [apply keepsBusy_ret|apply keepsBusy_throw]. Qed.

Lemma keepsBusy_bind {A B} (m : Act A) (k : A -> Act B) :
  keepsBusy m -> (forall a, keepsBusy (k a)) -> keepsBusy (bindA m k).
Proof.
  intros Hm Hk s. unfold bindA. specialize (Hm s).
  destruct (m s) as [[a|] s1]; cbn [snd] in *; [|exact Hm].
  now rewrite (Hk a s1).
Qed.

Lemma keepsBusy_upd (f : IDEState -> IDEState) :
  (forall s, isLoadingAI (f s) = isLoadingAI s) -> keepsBusy (upd f).
Proof. intros Hf s. apply Hf. Qed.

Lemma keepsBusy_when (c : bool) (m : Act unit) : keepsBusy m -> keepsBusy (when c m).
Proof. intros Hm. destruct c; [exact Hm|apply keepsBusy_ret]. Qed.

Lemma keepsBusy_tryCatch (m : Act unit) : keepsBusy m -> keepsBusy (tryCatch m).
Proof. intros Hm s. apply Hm. Qed.

Lemma keepsBusy_forEach {A} (xs : list A) (body : A -> Act unit) :
  (forall x, keepsBusy (body x)) -> keepsBusy (forEach xs body).
Proof.
  intros Hb. induction xs as [|x xs IH]; [apply keepsBusy_ret|].
  apply keepsBusy_bind; [apply Hb|intros _; exact IH].
Qed.

Lemma keepsBusy_foldA {A B} (xs : list A) (body : B -> A -> Act B) :
  (forall b x, keepsBusy (body b x)) -> forall b, keepsBusy (foldA xs body b).
Proof.
  intros Hb. induction xs as [|x xs IH]; intros b; [apply keepsBusy_ret|].
  apply keepsBusy_bind; [apply Hb|exact IH].
Qed.

Lemma keepsBusy_fsCall (runtime : FsCall -> bool) (c : FsCall) :
  keepsBusy (fsCall runtime c).
Proof. intros s. unfold fsCall. now destruct (runtime c). Qed.

Lemma keepsBusy_open (cl : IDEState) (p : string) : keepsBusy (handleOpenFile cl p).
Proof.
  intros s. rewrite open_run. destruct (projectStructure cl) as [t|]; [|reflexivity].
  destruct (findFileByPath t p) as [f|]; [|reflexivity].
  now destruct (isFile f).
Qed.

Lemma keepsBusy_apply (runtime : FsCall -> bool) (cl : IDEState)
    (response : AiResponse) :
  keepsBusy (applyAiChanges runtime cl response).
Proof.
  unfold applyAiChanges.
  apply keepsBusy_bind; [now apply keepsBusy_upd|]. intros _.
  apply keepsBusy_bind.
  { apply keepsBusy_forEach. intros w. now apply keepsBusy_upd. }
  intros _.
  destruct (negb (nonEmpty (filesToDelete response))
            && negb (nonEmpty (filesToUpdate response))); [apply keepsBusy_ret|].
  apply keepsBusy_bind.
  { destruct (nonEmpty (filesToDelete response)); [|apply keepsBusy_ret].
    apply keepsBusy_foldA. intros b d. unfold deleteStep.
    apply keepsBusy_bind; [apply keepsBusy_defined|]. intros t.
    apply keepsBusy_bind; [|intros _; apply keepsBusy_ret].
    apply keepsBusy_when, keepsBusy_tryCatch, keepsBusy_fsCall. }
  intros afterDeletions. apply keepsBusy_bind.
  { destruct (nonEmpty (filesToUpdate response)); [|apply keepsBusy_ret].
    apply keepsBusy_foldA. intros b u. unfold updateStep.
    apply keepsBusy_bind.
    - apply keepsBusy_when, keepsBusy_bind; [|intros _; apply keepsBusy_fsCall].
      apply keepsBusy_when, keepsBusy_fsCall.
    - intros _. apply keepsBusy_bind; [apply keepsBusy_defined|].
      intros t. apply keepsBusy_ret. }
  intros afterUpdates. apply keepsBusy_bind; [apply keepsBusy_defined|].
  intros finalStructure. apply keepsBusy_bind; [now apply keepsBusy_upd|]. intros _.
  apply keepsBusy_bind.
  { apply keepsBusy_when, keepsBusy_forEach. intros f. apply keepsBusy_open. }
  intros _. apply keepsBusy_bind; [now apply keepsBusy_upd|]. intros _.
  now apply keepsBusy_upd.
Qed.

(** X21. [handleSendPrompt] ignores a prompt sent while the assistant is
    busy, or empty and without attachment. Otherwise it sets the busy flag
    and clears it exactly when it returns: when it throws, for a tree that
    is not defined or a write the runtime rejects, the flag stays set, and
    from then on prompts are ignored, edits are dropped and renames and
    moves are refused with a warning. *)
Theorem busy_flag_cleared_only_on_return
    (ai : string -> list FileNode -> list Attachment -> option AiResponse)
    (runtime : FsCall -> bool) (cl s : IDEState) (prompt : string)
    (attachments : list Attachment) :
  let m := handleSendPrompt ai runtime cl prompt attachments in
  ((Str.truthy prompt = false /\ attachments = []) \/ isLoadingAI cl = true ->
   m s = (Some tt, s))
  /\ ((Str.truthy prompt = true \/ attachments <> []) -> isLoadingAI cl = false ->
      isLoadingAI (after m s) = negb (returned m s)
      /\ (returned m s = false ->
          forall s',
            (forall prompt' attachments',
               handleSendPrompt ai runtime (after m s) prompt' attachments' s'
               = (Some tt, s'))
            /\ (forall wcReady p c,
                  handleFileContentChange runtime (after m s) wcReady p c s'
                  = (Some None, s'))
            /\ (forall p newName,
                  handleRenameNode ai runtime p newName (after m s) s'
                  = (Some tt,
                     addToast "Please wait for the current AI task to complete."
                       warning s'))
            /\ (forall sourcePath targetParentPath,
                  handleMoveNode ai runtime sourcePath targetParentPath (after m s) s'
                  = (Some tt,
                     addToast "Please wait for the current AI task to complete."
                       warning s')))).
Proof.
  intros m. unfold m. clear m. unfold handleSendPrompt. split.
  - intros [[Hp ->]| ->]; [now rewrite Hp|]. now rewrite orb_true_r.
  - intros Hsome Hfree. rewrite Hfree, orb_false_r.
    assert (Hguard : negb (Str.truthy prompt) && (length attachments =? 0)%nat = false).
    { destruct Hsome as [->|Hne]; [reflexivity|].
      destruct attachments; [now contradiction Hne|]. apply andb_false_r. }
    rewrite Hguard.
    set (body := fun t : list FileNode =>
           match ai (if (0 <? length (findMentionedFiles prompt t))%nat
                        && negb (JS.includesStr "The user wants to refactor" prompt)
                     then "The user is specifically referencing these files: "
                          +:+ JS.join ", " (map path (findMentionedFiles prompt t))
                          +:+ ". Please pay special attention to them when making changes. The original prompt is below."
                          +:+ String "010"%char (String "010"%char "") +:+ prompt
                     else prompt) t attachments with
           | Some aiResponse => applyAiChanges runtime cl aiResponse
           | None =>
               (upd (setAiMessage "Sorry, I encountered an error and couldn't process your request. Please check the console for details and try again.") ;;
                upd (addToast "AI request failed." error))%act
           end).
    assert (Hbody : forall t, keepsBusy (body t)).
    { intros t. unfold body. destruct (ai _ t attachments); [apply keepsBusy_apply|].
      apply keepsBusy_bind; [now apply keepsBusy_upd|]. intros _.
      now apply keepsBusy_upd. }
    set (s0 := setStreamingFileOverrides []
                 (setAiMessage "Thinking... I'm analyzing the project and your request."
                    (setIsLoadingAI true s))).
    assert (Erun : handleSendPrompt ai runtime cl prompt attachments s
                   = match projectStructure cl with
                     | None => (None, s0)
                     | Some t => bindA (body t) (fun _ => upd (setIsLoadingAI false)) s0
                     end).
    { unfold handleSendPrompt. rewrite Hfree, orb_false_r, Hguard. unfold body.
      destruct (projectStructure cl); reflexivity. }
    assert (Hflag : isLoadingAI
                      (after (handleSendPrompt ai runtime cl prompt attachments) s)
                    = negb (returned (handleSendPrompt ai runtime cl prompt attachments) s)).
    { unfold after, returned. rewrite Erun.
      destruct (projectStructure cl) as [t|]; [|reflexivity].
      unfold bindA. pose proof (Hbody t s0) as Hb.
      destruct (body t s0) as [[[]|] s1]; cbn [fst snd] in *; [reflexivity|exact Hb]. }
    unfold after, returned, handleSendPrompt in Hflag.
    rewrite Hfree, orb_false_r, Hguard in Hflag.
    split; [exact Hflag|]. intros Hthrown s'.
    unfold after, returned in *. rewrite Hthrown in Hflag. cbn [negb] in Hflag.
    split; [intros prompt' attachments'; rewrite Hflag; now rewrite orb_true_r|].
    split; [intros wcReady p c; unfold handleFileContentChange; now rewrite Hflag|].
    split.
    + intros p newName. unfold handleRenameNode. now rewrite Hflag.
    + intros sourcePath targetParentPath. unfold handleMoveNode. now rewrite Hflag.
Qed.

Lemma busy_flag_cleared_only_on_return_witness :
  let s := setWebContainer true (initial Samples.oldTree) in
  let m := handleSendPrompt (fun _ _ _ => Some Samples.oldBatch)
             (fun c => match c with FsWriteFile _ _ => false | _ => true end)
             s "rewrite old.ts" [] in
  isLoadingAI (after m s) = negb (returned m s).
Proof.
  intros s m.
  refine (proj1 (proj2 (busy_flag_cleared_only_on_return
                          (fun _ _ _ => Some Samples.oldBatch)
                          (fun c => match c with FsWriteFile _ _ => false | _ => true end)
                          s s "rewrite old.ts" []) _ eq_refl)).
  now left.
Defined.


(** *** The tabs after a batch of the assistant *)

Section Tabs.

Variable P : FileNode -> Prop.

Lemma keepsTabs_ret {A} (a : A) : keepsTabs P (ret a).
Proof. intros s H. exact H. Qed.

Lemma keepsTabs_throw {A} : keepsTabs P (@throw A).
Proof. intros s H. exact H. Qed.

Lemma keepsTabs_defined {A} (o : option A) : keepsTabs P (defined o).
Proof. destruct o; [apply keepsTabs_ret|apply keepsTabs_throw]. Qed.

Lemma keepsTabs_bind {A B} (m : Act A) (k : A -> Act B) :
  keepsTabs P m -> (forall a, keepsTabs P (k a)) -> keepsTabs P (bindA m k).
Proof.
  intros Hm Hk s Hs. unfold bindA. specialize (Hm s Hs).
  destruct (m s) as [[a|] s1]; cbn [snd] in *; [|exact Hm].
  exact (Hk a s1 Hm).
Qed.

Lemma keepsTabs_upd (f : IDEState -> IDEState) :
  (forall s, openFiles (f s) = openFiles s) -> keepsTabs P (upd f).
Proof. intros Hf s Hs. cbn [upd snd]. now rewrite Hf. Qed.

Lemma keepsTabs_when (c : bool) (m : Act unit) :
  keepsTabs P m -> keepsTabs P (when c m).
Proof. intros Hm. destruct c; [exact Hm|apply keepsTabs_ret]. Qed.

Lemma keepsTabs_tryCatch (m : Act unit) : keepsTabs P m -> keepsTabs P (tryCatch m).
Proof. intros Hm s Hs. exact (Hm s Hs). Qed.

Lemma keepsTabs_forEach {A} (xs : list A) (body : A -> Act unit) :
  (forall x, In x xs -> keepsTabs P (body x)) -> keepsTabs P (forEach xs body).
Proof.
  induction xs as [|x xs IH]; intros Hb; [apply keepsTabs_ret|].
  apply keepsTabs_bind; [apply Hb; now left|]. intros _. apply IH.
  intros y Hy. apply Hb. now right.
Qed.

Lemma keepsTabs_foldA {A B} (xs : list A) (body : B -> A -> Act B) :
  (forall b x, keepsTabs P (body b x)) -> forall b, keepsTabs P (foldA xs body b).
Proof.
  intros Hb. induction xs as [|x xs IH]; intros b; [apply keepsTabs_ret|].
  apply keepsTabs_bind; [apply Hb|exact IH].
Qed.

Lemma keepsTabs_fsCall (runtime : FsCall -> bool) (c : FsCall) :
  keepsTabs P (fsCall runtime c).
Proof. intros s Hs. unfold fsCall. now destruct (runtime c). Qed.

Lemma keepsTabs_open (cl : IDEState) (t : list FileNode) (p : string) :
  projectStructure cl = Some t ->
  (forall f, findFileByPath t p = Some f -> isFile f = true -> P f) ->
  keepsTabs P (handleOpenFile cl p).
Proof.
  intros Ht HP s Hs. rewrite open_run, Ht.
  destruct (findFileByPath t p) as [f|]; [|exact Hs].
  destruct (isFile f) eqn:Hf; [|exact Hs].
  cbn [snd openFiles setActiveMatch setSelectedNodePaths setActiveFilePath setOpenFiles].
  destruct (existsb _ (openFiles s)); [exact Hs|].
  apply Forall_app. split; [exact Hs|]. constructor; [now apply HP|constructor].
Qed.

Lemma keepsTabs_apply (runtime : FsCall -> bool) (cl : IDEState)
    (response : AiResponse) (t : list FileNode) :
  projectStructure cl = Some t ->
  (forall u f, In u (listOf (filesToUpdate response)) ->
               findFileByPath t (filePath u) = Some f -> isFile f = true -> P f) ->
  keepsTabs P (applyAiChanges runtime cl response).
Proof.
  intros Ht HP. unfold applyAiChanges.
  apply keepsTabs_bind; [now apply keepsTabs_upd|]. intros _.
  apply keepsTabs_bind.
  { apply keepsTabs_forEach. intros w _. now apply keepsTabs_upd. }
  intros _.
  destruct (negb (nonEmpty (filesToDelete response))
            && negb (nonEmpty (filesToUpdate response))); [apply keepsTabs_ret|].
  apply keepsTabs_bind.
  { destruct (nonEmpty (filesToDelete response)); [|apply keepsTabs_ret].
    apply keepsTabs_foldA. intros b d. unfold deleteStep.
    apply keepsTabs_bind; [apply keepsTabs_defined|]. intros t0.
    apply keepsTabs_bind; [|intros _; apply keepsTabs_ret].
    apply keepsTabs_when, keepsTabs_tryCatch, keepsTabs_fsCall. }
  intros afterDeletions. apply keepsTabs_bind.
  { destruct (nonEmpty (filesToUpdate response)); [|apply keepsTabs_ret].
    apply keepsTabs_foldA. intros b u. unfold updateStep.
    apply keepsTabs_bind.
    - apply keepsTabs_when, keepsTabs_bind; [|intros _; apply keepsTabs_fsCall].
      apply keepsTabs_when, keepsTabs_fsCall.
    - intros _. apply keepsTabs_bind; [apply keepsTabs_defined|].
      intros t0. apply keepsTabs_ret. }
  intros afterUpdates. apply keepsTabs_bind; [apply keepsTabs_defined|].
  intros finalStructure. apply keepsTabs_bind; [now apply keepsTabs_upd|]. intros _.
  apply keepsTabs_bind.
  { apply keepsTabs_when, keepsTabs_forEach. intros u Hu.
    apply (keepsTabs_open cl t (filePath u) Ht). intros f Hf. now apply (HP u f). }
  intros _. apply keepsTabs_bind; [now apply keepsTabs_upd|]. intros _.
  now apply keepsTabs_upd.
Qed.

End Tabs.

(** X22. A batch of the assistant opens no file it creates: every tab open
    after [applyAiChanges], whether it returns or throws, was open before
    or is the file node that the tree of before the batch has at an updated
    path; so a path that tree has no node at, and that was not open, is
    not open afterwards. *)
Theorem ai_batch_opens_only_files_of_the_old_tree
    (runtime : FsCall -> bool) (cl s : IDEState) (response : AiResponse)
    (t : list FileNode) :
  projectStructure cl = Some t ->
  let s' := after (applyAiChanges runtime cl response) s in
  (forall f, In f (openFiles s') ->
             In f (openFiles s)
             \/ (findFileByPath t (path f) = Some f /\ isFile f = true
                 /\ In (path f) (map filePath (listOf (filesToUpdate response)))))
  /\ (forall p, findFileByPath t p = None ->
                ~ In p (map path (openFiles s)) ->
                ~ In p (map path (openFiles s'))).
Proof.
  intros Ht s'.
  set (P := fun f => In f (openFiles s)
                     \/ (findFileByPath t (path f) = Some f /\ isFile f = true
                         /\ In (path f) (map filePath (listOf (filesToUpdate response))))).
  assert (HP : Forall P (openFiles s')).
  { apply (keepsTabs_apply P runtime cl response t Ht).
    - intros u f Hu Hf Hfile. right.
      rewrite (findFileByPath_path _ _ _ Hf). repeat split; auto.
      now apply in_map.
    - apply List.Forall_forall. intros f Hf. now left. }
  rewrite List.Forall_forall in HP. split; [exact HP|].
  intros p Hnone Hclosed Hin. apply in_map_iff in Hin as (f & <- & Hf).
  destruct (HP f Hf) as [Hold|(Hfound & _)].
  - apply Hclosed. now apply in_map.
  - rewrite Hfound in Hnone. discriminate Hnone.
Qed.

Lemma ai_batch_opens_only_files_of_the_old_tree_witness :
  let cl := initial sampleTree in
  let response := mkAiResponse "Added a file." (Some [mkAiFile "/src/New.tsx" "x"]) None in
  ~ In "/src/New.tsx"
      (map path (openFiles (after (applyAiChanges (fun _ => true) cl response) cl))).
Proof.
  intros cl response.
  refine (proj2 (ai_batch_opens_only_files_of_the_old_tree (fun _ => true) cl cl response
                   sampleTree eq_refl) "/src/New.tsx" eq_refl _).
  intros [].
Defined.

End PromptFacts.

(** ** The search at work *)

Module SearchRunFacts.

Import Tree Model Utils Search SearchModel.
Import StrFacts TreeFacts StoreFacts.

Section Engine.

Variable RegExp : Type.
Variable compile : string -> string -> option RegExp.
Variable exec : RegExp -> string -> nat -> option (nat * nat).
Variable isGlobal : RegExp -> bool.

Local Abbreviation lineMatchesOf := (lineMatchesOf RegExp exec isGlobal).
Local Abbreviation searchLines := (searchLines RegExp exec isGlobal).
Local Abbreviation searchInNode := (searchInNode RegExp exec isGlobal).
Local Abbreviation searchNodes := (searchNodes RegExp exec isGlobal).
Local Abbreviation searchInProject := (searchInProject RegExp compile exec isGlobal).

Lemma searchInNode_unfold (fuel : nat) (re : RegExp) (node : FileNode) :
  searchInNode fuel re node
  = match type node, content node, children node with
    | File, Some c, _ =>
        match searchLines fuel re 0 (Str.split "010"%char c) with
        | None => None
        | Some ms =>
            Some (if (0 <? length ms)%nat then [mkResult (path node) ms] else [])
        end
    | Folder, _, Some cs => searchNodes fuel re cs
    | _, _, _ => Some []
    end.
Proof.
  destruct node as [nm ty pa cs co]. cbn [Search.searchInNode type content children].
  destruct ty; [reflexivity|]. destruct cs as [cs|]; [|reflexivity].
  induction cs as [|x cs IH]; [reflexivity|]. cbn [Search.searchNodes].
  destruct (searchInNode fuel re x); [|reflexivity]. now rewrite IH.
Qed.

(** *** A search that does not return *)

Lemma line_hangs (re : RegExp) (line : string) (k : nat) :
  isGlobal re = true -> exec re line k = Some (k, 0) ->
  forall fuel, lineMatchesOf fuel re line k = None.
Proof.
  intros Hg He fuel. induction fuel as [|fuel IH]; [reflexivity|].
  cbn [Search.lineMatchesOf]. rewrite He, Hg, Nat.add_0_r, IH. reflexivity.
Qed.

Lemma lines_hang (fuel : nat) (re : RegExp) (line : string) (lines : list string) :
  In line lines -> lineMatchesOf fuel re line 0 = None ->
  forall index, searchLines fuel re index lines = None.
Proof.
  intros Hin Hline. induction lines as [|l lines IH]; [destruct Hin|].
  intros index. cbn [Search.searchLines].
  destruct Hin as [->|Hin]; [now rewrite Hline|].
  destruct (lineMatchesOf fuel re l 0); [|reflexivity].
  now rewrite (IH Hin).
Qed.

Lemma nodes_hang (fuel : nat) (re : RegExp) (x : FileNode) (l : list FileNode) :
  In x l -> searchInNode fuel re x = None -> searchNodes fuel re l = None.
Proof.
  intros Hin Hx. induction l as [|y l IH]; [destruct Hin|].
  cbn [Search.searchNodes]. destruct Hin as [->|Hin]; [now rewrite Hx|].
  destruct (searchInNode fuel re y); [|reflexivity]. now rewrite (IH Hin).
Qed.

Lemma found_hangs (fuel : nat) (re : RegExp) (p : string) (node : FileNode)
    (x : FileNode) :
  findNode p x = Some node -> searchInNode fuel re node = None ->
  searchInNode fuel re x = None.
Proof.
  intros Hf Hnode. revert Hf.
  induction x as [x IH] using FileNode_tree_ind. unfold childrenOrEmpty in IH.
  rewrite findNode_unfold. destruct (String.eqb (path x) p); [now intros [= ->]|].
  rewrite (searchInNode_unfold fuel re x).
  destruct (type x); [discriminate|]. destruct (children x) as [cs|]; [|discriminate].
  destruct (String.prefix _ p); [|discriminate]. intros Hf.
  apply firstSome_In in Hf as (y & Hy & Hfy).
  rewrite List.Forall_forall in IH.
  exact (nodes_hang fuel re y cs Hy (IH y Hy Hfy)).
Qed.

(** X23. The search does not return when a line of a file of the tree
    gives the expression, which is global, an empty match where it starts:
    the loop over the matches of the line asks for the same match again,
    whatever the fuel. *)
Theorem search_hangs_on_empty_match
    (nodes : list FileNode) (query : string) (options : SearchOptions)
    (re : RegExp) (p : string) (node : FileNode) (c line : string) :
  Str.truthy query = true ->
  compile (patternOf query options) (flagsOf options) = Some re ->
  isGlobal re = true ->
  findFileByPath nodes p = Some node ->
  type node = File -> content node = Some c ->
  In line (Str.split "010"%char c) ->
  exec re line 0 = Some (0, 0) ->
  forall fuel, searchInProject fuel nodes query options = None.
Proof.
  intros Hq Hc Hg Hf Hty Hco Hline He fuel.
  unfold Search.searchInProject. rewrite Hq, Hc. cbn [negb].
  apply firstSome_In in Hf as (x & Hx & Hfx).
  apply (nodes_hang fuel re x nodes Hx), (found_hangs fuel re p node x Hfx).
  rewrite searchInNode_unfold, Hty, Hco.
  now rewrite (lines_hang fuel re line _ Hline (line_hangs re line 0 Hg He fuel)).
Qed.

(** *** A search that returns *)

Hypothesis exec_advances :
  forall re line k i n,
    exec re line k = Some (i, n) -> k <= i /\ 0 < n /\ i + n <= String.length line.

Lemma line_returns (re : RegExp) (line : string) (d : nat) :
  forall k fuel, String.length line - k <= d -> d < fuel ->
    exists ms, lineMatchesOf fuel re line k = Some ms /\ Forall (rangeOk line) ms.
Proof.
  induction d as [|d IH]; intros k fuel Hd Hfuel;
    (destruct fuel as [|fuel]; [lia|]); cbn [Search.lineMatchesOf];
    destruct (exec re line k) as [[i n]|] eqn:He;
    try (exists []; split; [reflexivity|constructor]);
    destruct (exec_advances re line k i n He) as (H1 & H2 & H3); [lia|].
  assert (Hr : rangeOk line (mkRange i n)) by (split; assumption).
  destruct (isGlobal re); [|exists [mkRange i n]; split; [reflexivity|now constructor]].
  destruct (IH (i + n) fuel ltac:(lia) ltac:(lia)) as (ms & -> & Hms).
  exists (mkRange i n :: ms). split; [reflexivity|now constructor].
Qed.

Lemma line_mono (re : RegExp) (line : string) (fuel : nat) :
  forall k ms, lineMatchesOf fuel re line k = Some ms ->
               lineMatchesOf (S fuel) re line k = Some ms.
Proof.
  induction fuel as [|fuel IH]; intros k ms H; [discriminate H|].
  cbn [Search.lineMatchesOf] in H. change (lineMatchesOf (S (S fuel)) re line k)
    with (match exec re line k with
          | None => Some []
          | Some (i, n) =>
              if isGlobal re
              then option_map (cons (mkRange i n)) (lineMatchesOf (S fuel) re line (i + n))
              else Some [mkRange i n]
          end).
  destruct (exec re line k) as [[i n]|]; [|exact H].
  destruct (isGlobal re); [|exact H].
  destruct (lineMatchesOf fuel re line (i + n)) as [ms'|] eqn:E; [|discriminate H].
  now rewrite (IH _ _ E).
Qed.

Lemma line_mono_le (re : RegExp) (line : string) (k : nat) (ms : list MatchRange)
    (fuel fuel' : nat) :
  fuel <= fuel' -> lineMatchesOf fuel re line k = Some ms ->
  lineMatchesOf fuel' re line k = Some ms.
Proof. induction 1 as [|f' _ IH]; [auto|]. intros H. now apply line_mono, IH. Qed.

Lemma line_at (re : RegExp) (line : string) :
  exists ms, Forall (rangeOk line) ms
             /\ forall fuel, String.length line < fuel ->
                             lineMatchesOf fuel re line 0 = Some ms.
Proof.
  destruct (line_returns re line (String.length line) 0 (S (String.length line))
              ltac:(lia) ltac:(lia)) as (ms & Hms & Hok).
  exists ms. split; [exact Hok|]. intros fuel Hfuel.
  apply (line_mono_le re line 0 ms (S (String.length line))); [lia|exact Hms].
Qed.

Lemma lines_at (re : RegExp) (lines : list string) :
  forall index,
    exists F ms, Forall matchOk ms
                 /\ forall fuel, F <= fuel -> searchLines fuel re index lines = Some ms.
Proof.
  induction lines as [|line lines IH]; intros index.
  - exists 0, []. split; [constructor|reflexivity].
  - destruct (line_at re line) as (lm & Hlm & Hline).
    destruct (IH (S index)) as (F & ms & Hms & Hrest).
    exists (Nat.max (S (String.length line)) F).
    exists (if (0 <? length lm)%nat then mkMatch (index + 1) line lm :: ms else ms).
    split.
    + destruct lm as [|r lm]; [exact Hms|]. constructor; [|exact Hms].
      split; [discriminate|exact Hlm].
    + intros fuel Hfuel. cbn [Search.searchLines].
      now rewrite (Hline fuel ltac:(lia)), (Hrest fuel ltac:(lia)).
Qed.

Lemma nodes_at (re : RegExp) (l : list FileNode) :
  Forall (fun x => exists F rs,
            Forall (resultOk [x]) rs
            /\ forall fuel, F <= fuel -> searchInNode fuel re x = Some rs) l ->
  exists F rs, Forall (resultOk l) rs
               /\ forall fuel, F <= fuel -> searchNodes fuel re l = Some rs.
Proof.
  induction 1 as [|x l (F1 & r1 & Hr1 & Hx) _ (F2 & r2 & Hr2 & Hl)].
  - exists 0, []. split; [constructor|reflexivity].
  - exists (Nat.max F1 F2), (r1 ++ r2). split.
    + apply Forall_app. split.
      * eapply Forall_impl; [exact Hr1|]. intros r (Hp & Hm). split; [|exact Hm].
        unfold getAllPaths in *. cbn [flat_map] in *. rewrite app_nil_r in Hp.
        apply in_or_app. now left.
      * eapply Forall_impl; [exact Hr2|]. intros r (Hp & Hm). split; [|exact Hm].
        unfold getAllPaths in *. cbn [flat_map]. apply in_or_app. now right.
    + intros fuel Hfuel. cbn [Search.searchNodes].
      now rewrite (Hx fuel ltac:(lia)), (Hl fuel ltac:(lia)).
Qed.

Lemma node_at (re : RegExp) (x : FileNode) :
  exists F rs, Forall (resultOk [x]) rs
               /\ forall fuel, F <= fuel -> searchInNode fuel re x = Some rs.
Proof.
  induction x as [x IH] using FileNode_tree_ind. unfold childrenOrEmpty in IH.
  assert (Hnone : exists F rs, Forall (resultOk [x]) rs
                               /\ forall fuel, F <= fuel -> Some [] = Some rs).
  { exists 0, []. split; [constructor|reflexivity]. }
  destruct (type x) eqn:Hty.
  - destruct (content x) as [c|] eqn:Hco.
    + destruct (lines_at re (Str.split "010"%char c) 0) as (F & ms & Hms & Hrun).
      exists F, (if (0 <? length ms)%nat then [mkResult (path x) ms] else []).
      split.
      * destruct ms as [|m ms]; [constructor|]. constructor; [|constructor].
        split; [|split; [discriminate|exact Hms]].
        unfold getAllPaths. cbn [flat_map resultPath]. rewrite app_nil_r.
        destruct x; now left.
      * intros fuel Hfuel. rewrite searchInNode_unfold, Hty, Hco.
        now rewrite (Hrun fuel Hfuel).
    + destruct Hnone as (F & rs & Hrs & Hrun). exists F, rs. split; [exact Hrs|].
      intros fuel Hfuel. rewrite searchInNode_unfold, Hty, Hco. exact (Hrun fuel Hfuel).
  - destruct (children x) as [cs|] eqn:Hc.
    + destruct (nodes_at re cs IH) as (F & rs & Hrs & Hrun).
      exists F, rs. split.
      * eapply Forall_impl; [exact Hrs|]. intros r (Hp & Hm). split; [|exact Hm].
        unfold getAllPaths in *. cbn [flat_map]. rewrite app_nil_r.
        destruct x as [nm ty pa cs0 co]. cbn [type children] in *. subst ty cs0.
        cbn [walkNode type children]. now right.
      * intros fuel Hfuel. rewrite searchInNode_unfold, Hty, Hc.
        destruct (content x); exact (Hrun fuel Hfuel).
    + destruct Hnone as (F & rs & Hrs & Hrun). exists F, rs. split; [exact Hrs|].
      intros fuel Hfuel. rewrite searchInNode_unfold, Hty, Hc.
      destruct (content x); exact (Hrun fuel Hfuel).
Qed.

(** X24. With an engine whose matches are never empty and lie in the line
    at or after the place it starts from, the search returns: given enough
    fuel it gives its results, the same for any more fuel. Every result is
    for a path of the tree and has a match; every match has a range, and
    every range is not empty and lies within its line. *)
Theorem search_returns_when_matches_are_not_empty
    (nodes : list FileNode) (query : string) (options : SearchOptions) :
  exists fuel results,
    (forall fuel', fuel <= fuel' ->
                   searchInProject fuel' nodes query options = Some results)
    /\ Forall (resultOk nodes) results.
Proof.
  unfold Search.searchInProject.
  destruct (negb (Str.truthy query)); [exists 0, []; split; [reflexivity|constructor]|].
  destruct (compile (patternOf query options) (flagsOf options)) as [re|];
    [|exists 0, []; split; [reflexivity|constructor]].
  destruct (nodes_at re nodes) as (F & rs & Hrs & Hrun).
  - apply List.Forall_forall. intros x _. apply node_at.
  - exists F, rs. split; [exact Hrun|exact Hrs].
Qed.

End Engine.

Lemma search_hangs_on_empty_match_witness :
  searchInProject unit (fun _ _ => Some tt) emptyExec (fun _ => true) 1000
    sampleTree "x*" (mkOptions false true false) = None.
Proof.
  exact (search_hangs_on_empty_match unit (fun _ _ => Some tt) emptyExec (fun _ => true)
           sampleTree "x*" (mkOptions false true false) tt "/package.json"
           (mkFileNode "package.json" File "/package.json" None (Some "{}")) "{}" "{}"
           eq_refl eq_refl eq_refl eq_refl eq_refl eq_refl (or_introl eq_refl) eq_refl
           1000).
Defined.

Lemma indexOfFrom_bounds (c : ascii) (line : string) :
  forall k i, indexOfFrom c line k = Some i -> k <= i /\ i + 1 <= String.length line.
Proof.
  induction line as [|d line IH]; intros k i H; [discriminate H|].
  cbn [indexOfFrom] in H. cbn [String.length]. destruct k as [|k].
  - destruct (Ascii.eqb d c); [injection H as <-; lia|].
    destruct (indexOfFrom c line 0) as [j|] eqn:E; [|discriminate H].
    injection H as <-. destruct (IH 0 j E). lia.
  - destruct (indexOfFrom c line k) as [j|] eqn:E; [|discriminate H].
    injection H as <-. destruct (IH k j E). lia.
Qed.

Lemma charExec_advances (re : ascii) (line : string) (k i n : nat) :
  charExec re line k = Some (i, n) -> k <= i /\ 0 < n /\ i + n <= String.length line.
Proof.
  unfold charExec. destruct (indexOfFrom re line k) as [j|] eqn:E; [|discriminate].
  intros [= <- <-]. destruct (indexOfFrom_bounds re line k j E). lia.
Qed.

Lemma search_returns_when_matches_are_not_empty_witness :
  exists fuel results,
    (forall fuel', fuel <= fuel' ->
       searchInProject ascii charCompile charExec (fun _ => true) fuel'
         sampleTree "l" (mkOptions true false false) = Some results)
    /\ Forall (resultOk sampleTree) results.
Proof.
  exact (search_returns_when_matches_are_not_empty ascii charCompile charExec
           (fun _ => true) charExec_advances sampleTree "l" (mkOptions true false false)).
Defined.

End SearchRunFacts.

(** ** Well-formed trees, handler after handler *)

Module InvariantFacts.

Import Tree Model Utils History Dispatcher Workbench.
Import StrFacts TreeFacts HistoryFacts DispatcherFacts StoreFacts WorkbenchFacts PromptFacts.

Lemma wfState_same (s s' : IDEState) :
  projectStructure s' = projectStructure s -> history s' = history s ->
  wfState s -> wfState s'.
Proof. intros Hp Hh [H1 H2]. split; [now rewrite Hp|now rewrite Hh]. Qed.

Lemma keepsWf_weaken {A} (Q Q' : A -> Prop) (m : Act A) :
  (forall a, Q a -> Q' a) -> keepsWf Q m -> keepsWf Q' m.
Proof. intros HQ Hm s Hs. destruct (Hm s Hs) as [H1 H2]. split; auto. Qed.

Lemma keepsWf_ret {A} (Q : A -> Prop) (a : A) : Q a -> keepsWf Q (ret a).
Proof. intros Ha s Hs. split; [exact Hs|]. now intros a' [= <-]. Qed.

Lemma keepsWf_throw {A} (Q : A -> Prop) : keepsWf Q (@throw A).
Proof. intros s Hs. split; [exact Hs|discriminate]. Qed.

Lemma keepsWf_defined {A} (Q : A -> Prop) (o : option A) :
  (forall a, o = Some a -> Q a) -> keepsWf Q (defined o).
Proof. intros Ho. destruct o; [apply keepsWf_ret; auto|apply keepsWf_throw]. Qed.

Lemma keepsWf_bind {A B} (Q : A -> Prop) (R : B -> Prop) (m : Act A) (k : A -> Act B) :
  keepsWf Q m -> (forall a, Q a -> keepsWf R (k a)) -> keepsWf R (bindA m k).
Proof.
  intros Hm Hk s Hs. unfold bindA. destruct (Hm s Hs) as [H1 H2].
  destruct (m s) as [[a|] s1]; cbn [fst snd] in *; [|split; [exact H1|discriminate]].
  exact (Hk a (H2 a eq_refl) s1 H1).
Qed.

Lemma keepsWf_upd (f : IDEState -> IDEState) :
  (forall s, projectStructure (f s) = projectStructure s) ->
  (forall s, history (f s) = history s) ->
  keepsWf anything (upd f).
Proof.
  intros Hp Hh s Hs. split; [|intros; exact I].
  exact (wfState_same s (f s) (Hp s) (Hh s) Hs).
Qed.

Lemma keepsWf_push (cl : IDEState) (t : list FileNode) :
  wfState cl -> wfTree t = true -> keepsWf anything (upd (pushHistory cl t)).
Proof.
  intros [_ Hcl] Ht s _. split; [|intros; exact I]. split.
  - now intros t' [= <-].
  - cbn [upd snd pushHistory history setProjectStructure setHistoryIndex setHistory].
    apply Forall_app. split; [|now constructor].
    unfold JS.slice0. now apply Forall_take.
Qed.

Lemma keepsWf_when (c : bool) (m : Act unit) :
  keepsWf anything m -> keepsWf anything (when c m).
Proof. intros Hm. destruct c; [exact Hm|now apply keepsWf_ret]. Qed.

Lemma keepsWf_tryCatch (m : Act unit) :
  keepsWf anything m -> keepsWf anything (tryCatch m).
Proof. intros Hm s Hs. split; [exact (proj1 (Hm s Hs))|intros; exact I]. Qed.

Lemma keepsWf_forEach {A} (xs : list A) (body : A -> Act unit) :
  (forall x, keepsWf anything (body x)) -> keepsWf anything (forEach xs body).
Proof.
  intros Hb. induction xs as [|x xs IH]; [now apply keepsWf_ret|].
  apply (keepsWf_bind anything); [apply Hb|intros _ _; exact IH].
Qed.

Lemma keepsWf_foldA {A B} (Q : B -> Prop) (xs : list A) (body : B -> A -> Act B) :
  (forall b x, Q b -> keepsWf Q (body b x)) ->
  forall b, Q b -> keepsWf Q (foldA xs body b).
Proof.
  intros Hb. induction xs as [|x xs IH]; intros b Qb; [now apply keepsWf_ret|].
  apply (keepsWf_bind Q); [now apply Hb|exact IH].
Qed.

Lemma keepsWf_fsCall (runtime : FsCall -> bool) (c : FsCall) :
  keepsWf anything (fsCall runtime c).
Proof.
  intros s Hs. split; [|intros; exact I]. unfold fsCall.
  destruct (runtime c); exact (wfState_same s _ eq_refl eq_refl Hs).
Qed.

Lemma keepsWf_open (cl : IDEState) (p : string) :
  keepsWf anything (handleOpenFile cl p).
Proof.
  intros s Hs. split; [|intros; exact I]. rewrite open_run.
  destruct (projectStructure cl) as [t|]; [|exact Hs].
  destruct (findFileByPath t p) as [f|]; [|exact Hs].
  destruct (isFile f); [|exact Hs].
  exact (wfState_same s _ eq_refl eq_refl Hs).
Qed.

Lemma keepsWf_orToast {A} (Q : A -> Prop) (msg : string) (m : Act A)
    (k : A -> Act unit) :
  keepsWf Q m -> (forall a, Q a -> keepsWf anything (k a)) ->
  keepsWf anything (orToast msg m k).
Proof.
  intros Hm Hk s Hs. unfold orToast. destruct (Hm s Hs) as [H1 H2].
  destruct (m s) as [[a|] s1]; cbn [fst snd] in *.
  - exact (Hk a (H2 a eq_refl) s1 H1).
  - split; [|intros; exact I]. exact (wfState_same s1 _ eq_refl eq_refl H1).
Qed.

Lemma keepsWf_apply (runtime : FsCall -> bool) (cl : IDEState)
    (response : AiResponse) :
  wfState cl -> keepsWf anything (applyAiChanges runtime cl response).
Proof.
  intros Hcl. unfold applyAiChanges.
  apply (keepsWf_bind anything); [now apply keepsWf_upd|]. intros _ _.
  apply (keepsWf_bind anything).
  { apply keepsWf_forEach. intros w. now apply keepsWf_upd. }
  intros _ _.
  destruct (negb (nonEmpty (filesToDelete response))
            && negb (nonEmpty (filesToUpdate response))); [now apply keepsWf_ret|].
  apply (keepsWf_bind wfOpt).
  { destruct (nonEmpty (filesToDelete response));
      [|apply keepsWf_ret; exact (proj1 Hcl)].
    apply keepsWf_foldA; [|exact (proj1 Hcl)]. intros b d Hb. unfold deleteStep.
    apply (keepsWf_bind (fun t => wfTree t = true)); [now apply keepsWf_defined|].
    intros t Ht. apply (keepsWf_bind anything).
    - apply keepsWf_when, keepsWf_tryCatch, keepsWf_fsCall.
    - intros _ _. apply keepsWf_ret. intros t' [= <-]. now apply delete_wf. }
  intros afterDeletions Hdel. apply (keepsWf_bind wfOpt).
  { destruct (nonEmpty (filesToUpdate response)); [|now apply keepsWf_ret].
    apply keepsWf_foldA; [|exact Hdel]. intros b u Hb. unfold updateStep.
    apply (keepsWf_bind anything).
    - apply keepsWf_when, (keepsWf_bind anything); [|intros _ _; apply keepsWf_fsCall].
      apply keepsWf_when, keepsWf_fsCall.
    - intros _ _. apply (keepsWf_bind (fun t => wfTree t = true));
        [now apply keepsWf_defined|].
      intros t Ht. apply keepsWf_ret. intros t' [= <-]. now apply upsert_wf. }
  intros afterUpdates Hupd.
  apply (keepsWf_bind (fun t => wfTree t = true)); [now apply keepsWf_defined|].
  intros finalStructure Hfinal.
  apply (keepsWf_bind anything); [now apply keepsWf_push|]. intros _ _.
  apply (keepsWf_bind anything).
  { apply keepsWf_when, keepsWf_forEach. intros f. apply keepsWf_open. }
  intros _ _. apply (keepsWf_bind anything); [now apply keepsWf_upd|]. intros _ _.
  now apply keepsWf_upd.
Qed.

Lemma keepsWf_prompt
    (ai : string -> list FileNode -> list Attachment -> option AiResponse)
    (runtime : FsCall -> bool) (cl : IDEState) (prompt : string)
    (attachments : list Attachment) :
  wfState cl -> keepsWf anything (handleSendPrompt ai runtime cl prompt attachments).
Proof.
  intros Hcl. unfold handleSendPrompt.
  destruct ((negb (Str.truthy prompt) && (length attachments =? 0)%nat) || isLoadingAI cl);
    [now apply keepsWf_ret|].
  apply (keepsWf_bind anything); [now apply keepsWf_upd|]. intros _ _.
  apply (keepsWf_bind anything); [now apply keepsWf_upd|]. intros _ _.
  apply (keepsWf_bind anything); [now apply keepsWf_upd|]. intros _ _.
  apply (keepsWf_bind anything); [now apply keepsWf_defined|]. intros t _.
  apply (keepsWf_bind anything); [|intros _ _; now apply keepsWf_upd].
  destruct (ai _ t attachments); [now apply keepsWf_apply|].
  apply (keepsWf_bind anything); [now apply keepsWf_upd|]. intros _ _.
  now apply keepsWf_upd.
Qed.

Lemma keepsWf_after {A} (Q : A -> Prop) (m : Act A) (s : IDEState) :
  keepsWf Q m -> wfState s -> wfState (after m s).
Proof. intros Hm Hs. exact (proj1 (Hm s Hs)). Qed.

Lemma addNode_wf (t t' : list FileNode) (parentPath nodeName : string) (ty : NodeType) :
  wfTree t = true -> noSlash nodeName ->
  addNodeToTree t parentPath nodeName ty = inr t' -> wfTree t' = true.
Proof.
  intros Hwf Hname Hadd. unfold addNodeToTree in Hadd.
  destruct (findFileByPath t (newNodePathOf parentPath nodeName)); [discriminate Hadd|].
  unfold newNodePathOf in Hadd.
  destruct (String.eqb_spec parentPath "/") as [->|Hroot].
  - injection Hadd as <-. unfold wfTree in *. rewrite wfNodes_app, Hwf.
    unfold wfNodes. cbn [forallb andb].
    pose proof (newNode_wf "" nodeName ty Hname) as Hnew.
    change ("" +:+ "/" +:+ nodeName) with (String "/" nodeName) in Hnew.
    now rewrite Hnew.
  - destruct (findFileByPath t parentPath) as [pn|]; [|discriminate Hadd].
    destruct (isFolder pn); [|discriminate Hadd].
    destruct (firstUpdate _ t) as [t0|] eqn:Hup; [|discriminate Hadd].
    injection Hadd as ->.
    destruct (firstUpdate_Some _ _ _ Hup) as (l1 & x & x' & l2 & -> & -> & Hx & _).
    unfold wfTree in *. rewrite wfNodes_app, wfNodes_cons in *.
    apply andb_true_iff in Hwf as [H1 H2]. apply andb_true_iff in H2 as [Hx2 H2].
    rewrite H1, H2, andb_true_r. cbn [andb].
    apply (updateFound_wf parentPath
             (pushChild (newNode nodeName ty (parentPath +:+ "/" +:+ nodeName))) x
             (fun m => eq_refl) (fun m => eq_refl));
      [|exact Hx2|exact Hx].
    intros P m Hm Hwm. apply pushChild_wf; [|exact Hwm].
    rewrite Hm. now apply newNode_wf.
Qed.

(** X25. The handlers keep the trees well formed: when the live tree and
    every entry of the log are well formed, they still are after an undo or
    a redo, an edit, a confirmed deletion, the creation of a node whose
    name has no slash, a prompt, a rename or a move, whatever the
    assistant answers and the runtime does, and whether the handler returns
    or throws. *)
Theorem handlers_keep_trees_well_formed
    (ai : string -> list FileNode -> list Attachment -> option AiResponse)
    (runtime : FsCall -> bool) (rejection : FsCall -> string)
    (notJson notIterable : string) (s : IDEState) :
  wfState s ->
  wfState (handleUndo s)
  /\ wfState (handleRedo s)
  /\ (forall wcReady p c,
        wfState (after (handleFileContentChange runtime s wcReady p c) s))
  /\ wfState (after (handleConfirmDelete runtime s) s)
  /\ (forall parentPath nodeName ty,
        noSlash nodeName ->
        wfState (after (handleAddNode runtime rejection notJson notIterable s
                          parentPath nodeName ty) s))
  /\ (forall prompt attachments,
        wfState (after (handleSendPrompt ai runtime s prompt attachments) s))
  /\ (forall p newName, wfState (after (handleRenameNode ai runtime p newName s) s))
  /\ (forall sourcePath targetParentPath,
        wfState (after (handleMoveNode ai runtime sourcePath targetParentPath s) s)).
Proof.
  intros Hs.
  assert (Hindex : forall i, wfState (setProjectStructure (JS.index (history s) i)
                                        (setHistoryIndex i s))).
  { intros i. split; [|exact (proj2 Hs)].
    cbn [projectStructure setProjectStructure]. intros t Ht.
    unfold JS.index in Ht. destruct (i <? 0)%Z; [discriminate Ht|].
    destruct Hs as [_ Hh]. rewrite List.Forall_forall in Hh. apply Hh.
    apply list_elem_of_In. eapply list_elem_of_lookup_2. exact Ht. }
  split; [|split; [|split; [|split; [|split; [|split; [|split]]]]]].
  - unfold handleUndo. destruct (historyIndex s <=? 0)%Z; [exact Hs|apply Hindex].
  - unfold handleRedo. destruct (historyIndex s >=? JS.len (history s) - 1)%Z;
      [exact Hs|apply Hindex].
  - intros wcReady p c. apply (keepsWf_after anything); [|exact Hs].
    unfold handleFileContentChange.
    destruct (isLoadingAI s); [now apply (keepsWf_ret anything)|].
    apply (keepsWf_bind anything anything).
    + apply keepsWf_when, keepsWf_fsCall.
    + intros _ _. apply (keepsWf_bind (fun t => wfTree t = true));
        [apply keepsWf_defined; exact (proj1 Hs)|].
      intros t Ht. apply (keepsWf_bind anything).
      * apply keepsWf_push; [exact Hs|now apply upsert_wf].
      * intros _ _. apply (keepsWf_bind anything); [now apply keepsWf_upd|].
        intros _ _. now apply keepsWf_ret.
  - apply (keepsWf_after anything); [|exact Hs].
    unfold handleConfirmDelete.
    destruct (nodesToDelete s) as [[|n0 ns]|]; try now apply (keepsWf_ret anything).
    apply (keepsWf_bind (fun temp => wfOpt (fst (fst temp)))).
    + apply keepsWf_foldA; [|exact (proj1 Hs)].
      intros [[ts o] a] node Hb. unfold confirmStep.
      apply (keepsWf_bind anything); [apply keepsWf_when, keepsWf_fsCall|].
      intros _ _. apply (keepsWf_bind (fun t => wfTree t = true));
        [now apply keepsWf_defined|].
      intros t Ht. apply keepsWf_ret. cbn [fst]. intros t' [= <-].
      now apply delete_wf.
    + intros [[ts o] a] Htemp. cbn [fst] in Htemp.
      apply (keepsWf_bind anything); [now apply keepsWf_upd|]. intros _ _.
      apply (keepsWf_bind anything); [now apply keepsWf_upd|]. intros _ _.
      apply (keepsWf_bind (fun t => wfTree t = true)); [now apply keepsWf_defined|].
      intros t Ht. apply (keepsWf_bind anything); [now apply keepsWf_push|].
      intros _ _. apply (keepsWf_bind anything); [now apply keepsWf_upd|].
      intros _ _. apply (keepsWf_bind anything); [now apply keepsWf_upd|].
      intros _ _. apply (keepsWf_bind anything); [now apply keepsWf_upd|].
      intros _ _. now apply keepsWf_upd.
  - intros parentPath nodeName ty Hname. apply (keepsWf_after anything); [|exact Hs]. unfold handleAddNode. cbv zeta.
    apply (keepsWf_orToast anything); [apply keepsWf_when, keepsWf_fsCall|].
    intros _ _. apply (keepsWf_orToast (fun t => wfTree t = true));
      [apply keepsWf_defined; exact (proj1 Hs)|].
    intros t Ht.
    destruct (addNodeToTree t parentPath nodeName ty) as [e|t'] eqn:Hadd;
      [now apply keepsWf_upd|].
    apply (keepsWf_bind anything).
    + apply keepsWf_push; [exact Hs|]. exact (addNode_wf t t' _ _ _ Ht Hname Hadd).
    + intros _ _. apply (keepsWf_orToast anything);
        [apply keepsWf_when, keepsWf_open|].
      intros _ _. apply (keepsWf_bind anything); [now apply keepsWf_upd|].
      intros _ _. now apply keepsWf_upd.
  - intros prompt attachments. unfold after.
    exact (proj1 (keepsWf_prompt ai runtime s prompt attachments Hs s Hs)).
  - intros p newName. apply (keepsWf_after anything); [|exact Hs].
    unfold handleRenameNode.
    destruct (isLoadingAI s); [now apply keepsWf_upd|].
    apply (keepsWf_bind anything).
    + unfold findIn. apply (keepsWf_bind anything); [now apply keepsWf_defined|].
      intros t _. now apply keepsWf_ret.
    + intros [node|] _; [|now apply keepsWf_upd].
      apply (keepsWf_bind anything); [now apply keepsWf_upd|].
      intros _ _. now apply keepsWf_prompt.
  - intros sourcePath targetParentPath. apply (keepsWf_after anything); [|exact Hs].
    unfold handleMoveNode.
    destruct (isLoadingAI s); [now apply keepsWf_upd|].
    apply (keepsWf_bind anything).
    + unfold findIn. apply (keepsWf_bind anything); [now apply keepsWf_defined|].
      intros t _. now apply keepsWf_ret.
    + intros [node|] _; [|now apply keepsWf_upd].
      destruct (String.eqb sourcePath targetParentPath
                || (isFolder node && String.prefix (sourcePath +:+ "/") targetParentPath));
        [now apply keepsWf_upd|].
      apply (keepsWf_bind anything); [now apply keepsWf_upd|].
      intros _ _. now apply keepsWf_prompt.
Qed.

Lemma handlers_keep_trees_well_formed_witness :
  wfState (after (handleSendPrompt Samples.renameAnswer (fun _ => true)
                    (initial sampleTree) "rename src" [])
             (initial sampleTree)).
Proof.
  refine (proj1 (proj2 (proj2 (proj2 (proj2 (proj2
    (handlers_keep_trees_well_formed Samples.renameAnswer (fun _ => true) (fun _ => "")
       "" "" (initial sampleTree) _)))))) "rename src" []).
  split; [intros t [= <-]; reflexivity|repeat constructor].
Defined.

End InvariantFacts.
